(* ===== verification/_CoqProject ===== *)
-Q . S2P
Prelude.v
Memory.v
State.v
Spinlock.v
CString.v
Mp.v
Kalloc.v
Consout.v
Vm.v
Pagetable.v
Sched.v
Bio.v
Buffers.v
Log.v
Blocks.v
Recovery.v
Transaction.v
Atomic.v
Inode.v
Bitmap.v
Console.v
Line.v
Dir.v
Files.v
Inodes.v
Directory.v
Mkfs.v
Paths.v
File.v
Proc.v
Exec.v
Boot.v
Idereg.v
Syscall.v
Trap.v
Irq.v
Swtch.v
Segments.v
Startup.v
Sh.v
Shparse.v
Shrun.v
Shlive.v
Grep.v
Uprogs.v
Tools.v
Umalloc.v
Queue.v
Threads.v
Frisbee.v
Args.v
Pipes.v
