(* ===== verification/Prelude.v ===== *)
(** * xv6 with threads: a verification development

    The program is xv6, a small Unix for the x86, with a thread library added to it
    (clone, queues and semaphores). This development translates its C functions into
    Rocq functions and proves what they promise.

    ** The model

    Integers of the C code are integers of [Z] kept at their width by [u8], [u16],
    [u32], [s8], [s16] and [s32]. Kernel functions are functions of the monad [M] of
    State.v: they take the environment (what devices and other processors answer) and
    the state of the kernel (a record with the memory, the locks, the process table,
    the caches, the console and the disk) and return one of several outcomes: a
    result with the new state, a panic, a fault, an endless loop, or a switch to the
    scheduler. Code that several processors or threads run at once is, beside this,
    a step relation over all of them. Code that drives a device is a sequence of reads
    and writes of its registers; what a read answers is a parameter, and what the writes
    mean to the device is defined from its manual.

    User programs are functions on the data they work on. The shell and the small
    programs are trees of the system calls they make; the shell's is run by a relation
    on a pool of processes.

    ** Files, and what they model and show

    Machine and locks
    - Prelude.v, Memory.v, State.v: integers, tactics, memory as bytes, the state
      record and the monad.
    - Spinlock.v (spinlock.c): interrupt nesting and locks; mutual exclusion for every
      interleaving of processors, without either panic.
    - CString.v (string.c, parts of ulib.c): copying, filling and comparing.
    - Kalloc.v (kalloc.c): pages; kalloc and kfree implement a stack of free pages.

    Memory
    - Vm.v, Pagetable.v (vm.c): page tables in memory; what mappages, setupkvm and
      copyout do to the translations and to the bytes.
    - Segments.v (mmu.h, vm.c): the descriptors of seginit and the task state of
      switchuvm, as the processor reads them.

    Start
    - Boot.v (bootmain.c): the kernel is loaded where its headers say.
    - Startup.v (main.c, entryother.S): every processor gets a stack of its own,
      however slow it is; the first page table.

    Devices and traps
    - Consout.v, Console.v, Line.v (console.c, kbd.c, kbd.h, uart.c): output stays on
      the screen; input implements line editing.
    - Mp.v (mp.c): the tables of the firmware are read as they are meant.
    - Irq.v (picirq.c, ioapic.c, lapic.c, timer.c): exactly the lines that were enabled
      raise their vectors, and a processor is started once and at the right address.
    - Trap.v (trap.c, trapasm.S, vectors.S): the gates, and that the way into the
      kernel and back restores every register.

    Processes
    - Sched.v (proc.c): sleep, wakeup, kill and the scheduler; no wakeup is lost.
    - Swtch.v (swtch.S, proc.c): a thread that is switched to goes on as if its own call
      of swtch had returned; a new one starts at forkret.
    - Proc.v (proc.c), Exec.v (exec.c): process creation and end, threads, loading.
    - Syscall.v, Args.v (syscall.c, sysproc.c, sysfile.c): the system calls; pointers
      that are accepted lie inside the process.

    Storage
    - Bio.v, Buffers.v (bio.c, ide.c, memide.c): the buffer cache. Idereg.v (ide.c):
      the ports of the controller, which have the effects Bio.v gives the driver.
    - Log.v, Blocks.v, Recovery.v, Transaction.v, Atomic.v (log.c): a transaction is
      all or nothing, whichever disk write a crash follows.
    - Inode.v, Bitmap.v, Files.v, Inodes.v (fs.c): allocation, contents, inodes on
      disk. Dir.v, Directory.v, Paths.v (fs.c): directories and paths; dirlink and
      dirlookup implement a table of names, and no inode is cached twice.
    - Mkfs.v (mkfs.c): the image it builds holds the files, as the kernel reads them.
    - File.v, Pipes.v (file.c, pipe.c): open files; a pipe implements a queue of bytes.

    Programs
    - Sh.v, Shparse.v (sh.c): the parser terminates on every line, and gives back
      every command that was printed.
    - Shrun.v, Shlive.v (sh.c): every program runs on the descriptors its command
      gives it, whatever fails, and the shell comes to an end on every input.
    - Grep.v (grep.c): the matcher against regular expressions.
    - Uprogs.v (printf.c, wc.c, ls.c): numbers, words and names. Tools.v (cat.c, ls.c,
      wc.c, rm.c, echo.c and the like): what the programs print and remove.
    - Umalloc.v (umalloc.c): the blocks of malloc never overlap.
    - Queue.v (queue.c): a first in first out queue over any allocator.
    - Threads.v (thread.c, semaphore.c): the lock, the semaphore, threads.
    - Frisbee.v (frisbee.c): the threads pass the frisbee in turn, and never before all
      of them are past the barrier.

    Some theorems show where the code does not do what it means to: balloc gives out
    blocks of the log, argptr accepts a negative size, allocuvm hides a failure, grep
    prints a line twice, malloc overflows, mpinit does not get past an entry it does
    not know, a semaphore admits two threads after one signal, and frisbee releases a
    lock that it does not hold.

    ** Interfaces

    Umalloc.v is written over the class [Sbrk] of kernels that grant memory, and
    Queue.v over the class [Allocator], of which umalloc.c is shown to be an instance.

    ** Fuel

    A loop that is not structural takes fuel. It is computed from the data where the
    code bounds the loop: the pages of a range, the bytes that are left, the headers
    that memory holds, four times the length of a line for the parser. The theorems
    show that the loop ends with its result, not only that a result is right.
    Waiting loops of the kernel end in a switch to the scheduler. A wait for a device
    takes the number of times its status is read, and the theorems hold for every
    number within which the device gets ready.

    ** Not modelled

    The switch of the processor to protected mode (bootasm.S, entry.S) and the order of
    the initialisers in main, each of which is modelled by itself. The registers of a
    process across a switch are in Swtch.v and not in the state of the kernel. The
    queue of a semaphore, which no decision reads, and the opening of files by grep.
    The other test programs, which have no contract of their own, and vm2.c and
    exec2.c, which are not built. *)
From stdpp Require Export base tactics list gmap numbers strings.
From Stdlib Require Export ZArith Lia.

#[global] Open Scope Z_scope.

(** ** Machine integers

    [int], [uint], [short], [char] values of the C code are integers kept at
    their width: [uN] reduces to the unsigned range of [N] bits and [sN] to
    the signed one. *)
Definition W8 : Z := 256.
Definition W16 : Z := 65536.
Definition W32 : Z := 4294967296.
Definition H32 : Z := 2147483648.

Definition u8 (z : Z) : Z := z mod W8.
Definition u16 (z : Z) : Z := z mod W16.
Definition u32 (z : Z) : Z := z mod W32.
Definition s8 (z : Z) : Z := (z + 128) mod W8 - 128.
Definition s16 (z : Z) : Z := (z + 32768) mod W16 - 32768.
Definition s32 (z : Z) : Z := (z + H32) mod W32 - H32.

(** C's truth value of an integer. *)
Definition truth (z : Z) : bool := negb (z =? 0).
Definition b2z (b : bool) : Z := if b then 1 else 0.

(** [mlia]: linear arithmetic with division, remainder and the wrap-arounds. *)
Ltac mlia :=
  unfold u8, u16, u32, s8, s16, s32, W8, W16, W32, H32 in *;
  Z.to_euclidean_division_equations; lia.

Lemma u8_range z : 0 <= u8 z < 256.
Proof. mlia. Qed.
Lemma u16_range z : 0 <= u16 z < 65536.
Proof. mlia. Qed.
Lemma u32_range z : 0 <= u32 z < 4294967296.
Proof. mlia. Qed.
Lemma s32_range z : - 2147483648 <= s32 z < 2147483648.
Proof. mlia. Qed.
Lemma u32_small z : 0 <= z < 4294967296 -> u32 z = z.
Proof. mlia. Qed.
Lemma u8_small z : 0 <= z < 256 -> u8 z = z.
Proof. mlia. Qed.
Lemma s32_small z : - 2147483648 <= z < 2147483648 -> s32 z = z.
Proof. mlia. Qed.
(** Numbers that share no bit. *)
Lemma lor_low k p f : 0 <= k -> p mod 2 ^ k = 0 -> 0 <= f < 2 ^ k -> Z.lor p f = p + f.
Proof.
  intros Hk Hp Hf. symmetry. apply Z.add_nocarry_lor. rewrite <- (Z.mod_small f (2 ^ k)) by done. apply Z.bits_inj'. intros n Hn.
  rewrite Z.land_spec, Z.bits_0. destruct (Z.lt_ge_cases n k).
  - rewrite (Z.div_mod p (2 ^ k)), Hp, Z.add_0_r, Z.mul_comm by lia. by rewrite Z.mul_pow2_bits_low.
  - by rewrite Z.mod_pow2_bits_high, andb_false_r by lia.
Qed.
Lemma u32_s32 z : u32 (s32 z) = u32 z.
Proof. mlia. Qed.
Lemma s32_u32 z : s32 (u32 z) = s32 z.
Proof. mlia. Qed.

Create Rewrite HintDb ints.
#[export] Hint Rewrite u32_s32 s32_u32 : ints.

(** ** Record field update

    [r <| f := v |>] is [r] with field [f] set to [v], [r <| f ::= g |>] with
    [g] applied to it. A record declares its eta expansion ([Eta]) once; the
    update of each field ([Upd]) is computed from it by [field_update]. *)
Class Eta (R : Type) := Mk_eta { eta : R -> R }.
Class Upd {R T : Type} (f : R -> T) := Mk_upd { upd : (T -> T) -> R -> R }.
Arguments upd {R T} f {_} g r : simpl never.

Ltac field_update f :=
  lazymatch type of f with
  | ?R -> ?T =>
    let i := constr:(_ : Eta R) in
    let h := eval red in i in
    lazymatch h with
    | Mk_eta _ ?h =>
      lazymatch eval pattern f in h with
      | ?k _ =>
        let u := eval cbv beta in (fun (g : T -> T) => k (fun r => g (f r))) in
        exact (Mk_upd R T f u)
      end
    end
  end.

Notation "r <| f := v |>" := (upd f (fun _ => v) r)
  (at level 1, f at next level, left associativity, format "r  <| f  :=  v |>").
Notation "r <| f ::= g |>" := (upd f g r)
  (at level 1, f at next level, left associativity, format "r  <| f  ::=  g |>").

(** [rsimpl]: a projection of an updated record is the new value, or the
    projection of the record below. The equation is checked for a variable
    record ([proj_eq]), so its cost does not depend on how the record was built. *)
Lemma proj_eq {R T U : Type} (p : R -> U) (h : (T -> T) -> R -> R) (q : (T -> T) -> R -> U) :
  (forall g r, p (h g r) = q g r) -> forall g r, p (h g r) = q g r.
Proof. done. Qed.
Ltac proj_upd p R T f u g r :=
  lazymatch type of p with
  | _ -> ?U =>
      match constr:((p, f)) with
      | (?x, ?x) => constr:(proj_eq p (@upd R T f u) (fun g0 r0 => g0 (p r0)) (fun g0 r0 => eq_refl) g r)
      | _ => constr:(proj_eq p (@upd R T f u) (fun g0 r0 => p r0) (fun g0 r0 => eq_refl) g r)
      end
  end.
Ltac rsimpl_goal :=
  repeat match goal with
  | |- ?p (@upd ?R ?T ?f ?u ?g ?r) = _ =>
      is_const p; let E := proj_upd p R T f u g r in rewrite E; cbv beta
  | |- _ = ?p (@upd ?R ?T ?f ?u ?g ?r) =>
      is_const p; let E := proj_upd p R T f u g r in rewrite E; cbv beta
  | |- context [?p (@upd ?R ?T ?f ?u ?g ?r)] =>
      is_const p; let E := proj_upd p R T f u g r in rewrite E; cbv beta
  end.
Ltac rsimpl_in H :=
  repeat match type of H with
  | context [?p (@upd ?R ?T ?f ?u ?g ?r)] =>
      is_const p; let E := proj_upd p R T f u g r in rewrite E in H; cbv beta in H
  end.
(** [state_eq]: two states built by updates are equal when their fields are. *)
Ltac state_eq :=
  cbv [upd]; cbn -[Z.of_nat Z.add Z.sub Z.mul Z.eqb Z.ltb Z.leb]; f_equal.
Tactic Notation "rsimpl" := rsimpl_goal.
Tactic Notation "rsimpl" "in" hyp(H) := rsimpl_in H.

Create HintDb mem.
Create Rewrite HintDb mem.

(** Equality of two boolean comparisons. *)
Ltac blia :=
  apply Bool.eq_iff_eq_true; rewrite ?Z.eqb_eq, ?Z.ltb_lt, ?Z.leb_le; lia.

(** A decidable proposition about closed terms, by evaluation. *)
Ltac vm_decide :=
  match goal with |- ?P => apply (bool_decide_eq_true_1 P); vm_compute; reflexivity end.

(** The bytes of a string literal, without the NUL. *)
Fixpoint bytes_of_string (s : string) : list Z :=
  match s with
  | EmptyString => []
  | String a s' => Z.of_N (Ascii.N_of_ascii a) :: bytes_of_string s'
  end.
