(* ===== verification/Memory.v ===== *)
(** * Memory: byte-addressed memory

    Loads and stores of bytes, little-endian words and byte ranges on the
    physical memory [gmap Z Z] (addresses to bytes; an absent address holds
    0), with the lemmas the components share. *)
From S2P Require Import Prelude.

Definition ldb (m : gmap Z Z) (a : Z) : Z := u8 (default 0 (m !! a)).
Definition stb (m : gmap Z Z) (a v : Z) : gmap Z Z := <[a := u8 v]> m.

Definition ld32 (m : gmap Z Z) (a : Z) : Z :=
  ldb m a + 256 * ldb m (a + 1) + 65536 * ldb m (a + 2) + 16777216 * ldb m (a + 3).
Definition st32 (m : gmap Z Z) (a v : Z) : gmap Z Z :=
  stb (stb (stb (stb m a v) (a + 1) (v / 256)) (a + 2) (v / 65536)) (a + 3) (v / 16777216).

Fixpoint ldbytes (m : gmap Z Z) (a : Z) (n : nat) : list Z :=
  match n with
  | O => []
  | S n' => ldb m a :: ldbytes m (a + 1) n'
  end.
Fixpoint stbytes (m : gmap Z Z) (a : Z) (l : list Z) : gmap Z Z :=
  match l with
  | [] => m
  | v :: l' => stbytes (stb m a v) (a + 1) l'
  end.

(** Little-endian words in a byte array, as the C code reads them through a
    cast pointer. *)
Definition le16 (l : list Z) (i : nat) : Z := l !!! i + 256 * (l !!! S i).
Definition le32 (l : list Z) (i : nat) : Z :=
  l !!! i + 256 * (l !!! (i + 1)%nat) + 65536 * (l !!! (i + 2)%nat)
  + 16777216 * (l !!! (i + 3)%nat).
Definition bytes16 (v : Z) : list Z := [u8 v; u8 (v / 256)].
Definition bytes32 (v : Z) : list Z :=
  [u8 v; u8 (v / 256); u8 (v / 65536); u8 (v / 16777216)].

(** The first [length v] bytes of [l] from index [i] replaced by [v]. *)
Definition splice (l : list Z) (i : nat) (v : list Z) : list Z :=
  take i l ++ v ++ drop (i + length v) l.

Lemma ldb_range m a : 0 <= ldb m a < 256.
Proof. apply u8_range. Qed.

Lemma ldb_stb m a v b : ldb (stb m a v) b = if decide (a = b) then u8 v else ldb m b.
Proof.
  unfold ldb, stb. rewrite lookup_insert. case_decide; [|done].
  cbn. rewrite u8_small; [done | apply u8_range].
Qed.
Lemma ldb_stb_eq m a v : ldb (stb m a v) a = u8 v.
Proof. rewrite ldb_stb. by rewrite decide_True. Qed.
Lemma ldb_stb_ne m a v b : a <> b -> ldb (stb m a v) b = ldb m b.
Proof. intros. rewrite ldb_stb. by rewrite decide_False. Qed.

Lemma ld32_range m a : 0 <= ld32 m a < 4294967296.
Proof.
  unfold ld32.
  pose proof (ldb_range m a). pose proof (ldb_range m (a + 1)).
  pose proof (ldb_range m (a + 2)). pose proof (ldb_range m (a + 3)). lia.
Qed.

(** A store outside [a, a+4) leaves the word at [a]. *)
Lemma ld32_ext m m' a :
  (forall b, a <= b < a + 4 -> ldb m b = ldb m' b) -> ld32 m a = ld32 m' a.
Proof. intros H. unfold ld32. rewrite !H by lia. done. Qed.

Lemma ldb_st32 m a v b :
  ldb (st32 m a v) b =
    if decide (a <= b < a + 4) then u8 (v / 2 ^ (8 * (b - a))) else ldb m b.
Proof.
  unfold st32. rewrite !ldb_stb.
  repeat case_decide; try lia; subst; try done; f_equal.
  - replace (a + 3 - a) with 3 by lia. done.
  - replace (a + 2 - a) with 2 by lia. done.
  - replace (a + 1 - a) with 1 by lia. done.
  - replace (b - b) with 0 by lia. cbn. by rewrite Z.div_1_r.
Qed.
Lemma ldb_st32_ne m a v b : b < a \/ a + 4 <= b -> ldb (st32 m a v) b = ldb m b.
Proof. intros. rewrite ldb_st32. rewrite decide_False; [done | lia]. Qed.

Lemma ld32_st32_eq m a v : ld32 (st32 m a v) a = u32 v.
Proof.
  unfold ld32. rewrite !ldb_st32. rewrite !decide_True by lia.
  replace (a - a) with 0 by lia. replace (a + 1 - a) with 1 by lia.
  replace (a + 2 - a) with 2 by lia. replace (a + 3 - a) with 3 by lia.
  change (2 ^ (8 * 0)) with 1. change (2 ^ (8 * 1)) with 256.
  change (2 ^ (8 * 2)) with 65536. change (2 ^ (8 * 3)) with 16777216. mlia.
Qed.
Lemma ld32_st32_ne m a v b : b + 4 <= a \/ a + 4 <= b -> ld32 (st32 m a v) b = ld32 m b.
Proof. intros. apply ld32_ext. intros. apply ldb_st32_ne. lia. Qed.

Lemma length_ldbytes m a n : length (ldbytes m a n) = n.
Proof. revert a. induction n; intros; cbn; [done | by rewrite IHn]. Qed.

Lemma ldb_stbytes m a l b :
  ldb (stbytes m a l) b =
    if decide (a <= b < a + Z.of_nat (length l)) then u8 (l !!! Z.to_nat (b - a)) else ldb m b.
Proof.
  revert m a. induction l as [|v l IH]; intros m a; cbn [stbytes length].
  { rewrite decide_False; [done | lia]. }
  rewrite IH. repeat case_decide; try lia.
  - replace (Z.to_nat (b - a)) with (S (Z.to_nat (b - (a + 1)))) by lia. done.
  - assert (a = b) as -> by lia. rewrite ldb_stb_eq.
    by replace (Z.to_nat (b - b)) with 0%nat by lia.
  - apply ldb_stb_ne. lia.
Qed.

Lemma lookup_ldbytes m a n i :
  (i < n)%nat -> ldbytes m a n !! i = Some (ldb m (a + Z.of_nat i)).
Proof.
  revert a i. induction n as [|n IH]; intros a i H; [lia|].
  destruct i as [|i]; cbn; [f_equal; f_equal; lia|].
  rewrite IH by lia. f_equal. f_equal. lia.
Qed.
Lemma ldbytes_ext m m' a n :
  (forall b, a <= b < a + Z.of_nat n -> ldb m b = ldb m' b) -> ldbytes m a n = ldbytes m' a n.
Proof.
  intros H. apply list_eq_same_length with n; rewrite ?length_ldbytes; [done..|].
  intros i x y Hi. rewrite !lookup_ldbytes by done. rewrite H by lia. congruence.
Qed.
Lemma ldbytes_stbytes m a l :
  Forall (fun v => 0 <= v < 256) l -> ldbytes (stbytes m a l) a (length l) = l.
Proof.
  intros Hl. apply list_eq_same_length with (length l); rewrite ?length_ldbytes; [done..|].
  intros i x y Hi. rewrite lookup_ldbytes by done. rewrite ldb_stbytes.
  rewrite decide_True by lia. replace (Z.to_nat _) with i by lia.
  intros ? Hy. simplify_eq. rewrite (list_lookup_total_correct _ _ _ Hy).
  apply u8_small. by eapply (Forall_lookup_1 _ _ _ _ Hl).
Qed.

Lemma length_splice l i v :
  (i + length v <= length l)%nat -> length (splice l i v) = length l.
Proof.
  intros. unfold splice. rewrite !length_app, length_take, length_drop. lia.
Qed.
Lemma lookup_splice_in l i v k :
  (i <= length l)%nat -> (i <= k < i + length v)%nat -> splice l i v !! k = v !! (k - i)%nat.
Proof.
  intros Hi Hk. unfold splice.
  rewrite lookup_app_r by (rewrite length_take; lia). rewrite length_take.
  rewrite lookup_app_l by lia. f_equal. lia.
Qed.
Lemma lookup_splice_out l i v k :
  (i <= length l)%nat -> (k < i \/ i + length v <= k)%nat -> splice l i v !! k = l !! k.
Proof.
  intros Hi Hk. unfold splice. destruct (decide (k < i)%nat).
  - rewrite lookup_app_l by (rewrite length_take; lia). by apply lookup_take_lt.
  - rewrite !lookup_app_r by (rewrite ?length_take; lia).
    rewrite length_take, lookup_drop. f_equal. lia.
Qed.
Lemma take_drop_splice l i v :
  (i + length v <= length l)%nat -> take (length v) (drop i (splice l i v)) = v.
Proof.
  intros. unfold splice. rewrite drop_app_ge by (rewrite length_take; lia).
  rewrite length_take. replace (i - i `min` length l)%nat with 0%nat by lia.
  rewrite drop_0, take_app_length. done.
Qed.

Lemma le32_bytes32 v : le32 (bytes32 v) 0 = u32 v.
Proof. unfold le32, bytes32. cbn. mlia. Qed.
Lemma le16_bytes16 v : le16 (bytes16 v) 0 = u16 v.
Proof. unfold le16, bytes16. cbn. mlia. Qed.
Lemma le32_splice l i v :
  (i + 4 <= length l)%nat -> le32 (splice l i (bytes32 v)) i = u32 v.
Proof.
  intros H. rewrite <- le32_bytes32. unfold le32. rewrite !list_lookup_total_alt.
  rewrite !lookup_splice_in by (cbn; lia).
  replace (i - i)%nat with 0%nat by lia. replace (i + 1 - i)%nat with 1%nat by lia.
  replace (i + 2 - i)%nat with 2%nat by lia. by replace (i + 3 - i)%nat with 3%nat by lia.
Qed.
Lemma le32_splice_ne l i v k :
  (i + length v <= length l)%nat -> (k + 4 <= i \/ i + length v <= k)%nat ->
  le32 (splice l i v) k = le32 l k.
Proof.
  intros H Hk. unfold le32. rewrite !list_lookup_total_alt.
  rewrite !lookup_splice_out by lia. done.
Qed.

#[export] Hint Resolve ldb_range ld32_range : mem.
#[export] Hint Rewrite ldb_stb_eq ld32_st32_eq length_ldbytes : mem.
