(* ===== verification/State.v ===== *)
(** * State: the kernel's data and the monad its code runs in

    The structs of proc.h, file.h, buf.h, fs.h, spinlock.h, x86.h, pipe.c,
    log.c, kalloc.c and console.c as records, the constants of param.h, fs.h,
    mmu.h and memlayout.h, the kernel's memory [kstate], and the monad [M] of
    kernel code. *)
From S2P Require Import Prelude Memory.

(** ** Constants *)
Definition NPROC : nat := 64.
Definition KSTACKSIZE : Z := 4096.
Definition NCPU : nat := 8.
Definition NOFILE : nat := 16.
Definition NFILE : nat := 100.
Definition NBUF : nat := 10.
Definition NINODE : nat := 50.
Definition NDEV : Z := 10.
Definition ROOTDEV : Z := 1.
Definition MAXARG : nat := 32.
Definition LOGSIZE : Z := 10.

Definition EXTMEM : Z := 0x100000.
Definition PHYSTOP : Z := 0xE000000.
Definition DEVSPACE : Z := 0xFE000000.
Definition KERNBASE : Z := 0x80000000.
Definition KERNLINK : Z := KERNBASE + EXTMEM.
Definition v2p (a : Z) : Z := u32 (a - KERNBASE).
Definition p2v (a : Z) : Z := u32 (a + KERNBASE).

Definition PGSIZE : Z := 4096.
Definition NPDENTRIES : Z := 1024.
Definition NPTENTRIES : Z := 1024.
Definition PGROUNDUP (sz : Z) : Z := Z.land (u32 (sz + PGSIZE - 1)) (u32 (Z.lnot (PGSIZE - 1))).
Definition PGROUNDDOWN (a : Z) : Z := Z.land a (u32 (Z.lnot (PGSIZE - 1))).
Definition PDX (va : Z) : Z := Z.land (Z.shiftr va 22) 0x3FF.
Definition PTX (va : Z) : Z := Z.land (Z.shiftr va 12) 0x3FF.
Definition PTE_P : Z := 0x001.
Definition PTE_W : Z := 0x002.
Definition PTE_U : Z := 0x004.
Definition PTE_ADDR (pte : Z) : Z := Z.land pte (u32 (Z.lnot 0xFFF)).
Definition PTE_FLAGS (pte : Z) : Z := Z.land pte 0xFFF.

Definition FL_IF : Z := 0x200.
Definition SEG_KCODE : Z := 1.
Definition SEG_KDATA : Z := 2.
Definition SEG_UCODE : Z := 4.
Definition SEG_UDATA : Z := 5.
Definition SEG_TSS : Z := 6.
Definition DPL_USER : Z := 3.

(** Rounding and indexing as arithmetic. *)
Lemma land_page x :
  0 <= x < 4294967296 -> Z.land x (u32 (Z.lnot (PGSIZE - 1))) = 4096 * (x / 4096).
Proof.
  intros Hx. change (u32 (Z.lnot (PGSIZE - 1))) with (Z.shiftl (Z.ones 20) 12).
  change 4096 with (2 ^ 12). rewrite <- Z.shiftr_div_pow2, Z.mul_comm by lia.
  rewrite <- Z.shiftl_mul_pow2 by lia.
  replace (Z.shiftr x 12) with (Z.land (Z.shiftr x 12) (Z.ones 20)).
  - rewrite Z.shiftl_land. apply Z.bits_inj'. intros k Hk. rewrite !Z.land_spec.
    destruct (Z.lt_ge_cases k 12).
    + rewrite (Z.shiftl_spec_low (Z.ones 20)) by lia. by rewrite !andb_false_r.
    + f_equal. rewrite Z.shiftl_spec, Z.shiftr_spec by lia. f_equal. lia.
  - rewrite Z.land_ones, Z.shiftr_div_pow2 by lia.
    apply Z.mod_small. split; [apply Z.div_pos; lia|]. apply Z.div_lt_upper_bound; lia.
Qed.
Lemma PGROUNDDOWN_eq a : 0 <= a < 4294967296 -> PGROUNDDOWN a = 4096 * (a / 4096).
Proof. apply land_page. Qed.
Lemma PTE_ADDR_eq a : 0 <= a < 4294967296 -> PTE_ADDR a = 4096 * (a / 4096).
Proof. apply land_page. Qed.
Lemma PTE_FLAGS_eq a : PTE_FLAGS a = a mod 4096.
Proof. unfold PTE_FLAGS. change 0xFFF with (Z.ones 12). by rewrite Z.land_ones. Qed.
Lemma PGROUNDUP_eq a :
  0 <= a <= 4294963200 -> PGROUNDUP a = 4096 * ((a + 4095) / 4096).
Proof.
  intros. unfold PGROUNDUP, PGSIZE. rewrite u32_small by lia.
  rewrite land_page by lia. do 2 f_equal. lia.
Qed.
Lemma PDX_eq va : 0 <= va < 4294967296 -> PDX va = va / 4194304.
Proof.
  intros. unfold PDX. change 0x3FF with (Z.ones 10).
  rewrite Z.land_ones, Z.shiftr_div_pow2 by lia. change (2 ^ 22) with 4194304.
  change (2 ^ 10) with 1024. mlia.
Qed.
Lemma PTX_eq va : 0 <= va < 4294967296 -> PTX va = (va / 4096) mod 1024.
Proof.
  intros. unfold PTX. change 0x3FF with (Z.ones 10).
  rewrite Z.land_ones, Z.shiftr_div_pow2 by lia. done.
Qed.

(** ** Enumerations *)

(** enum procstate of proc.h. *)
Inductive procstate := UNUSED | EMBRYO | SLEEPING | RUNNABLE | RUNNING | ZOMBIE.
#[export] Instance procstate_eq_dec : EqDecision procstate.
Proof. solve_decision. Defined.

(** The enum of struct file. *)
Inductive fdtype := FD_NONE | FD_PIPE | FD_INODE.
#[export] Instance fdtype_eq_dec : EqDecision fdtype.
Proof. solve_decision. Defined.

(** The addresses processes sleep on: [p], [b], [ip], [&log], [&ticks],
    [&input.r], [&pipe->nread] and [&pipe->nwrite]. *)
Inductive chan :=
| Ch_proc (i : nat) | Ch_buf (i : nat) | Ch_inode (i : nat) | Ch_log | Ch_ticks
| Ch_input | Ch_nread (a : Z) | Ch_nwrite (a : Z).
#[export] Instance chan_eq_dec : EqDecision chan.
Proof. solve_decision. Defined.

(** The spin locks of the kernel; a pipe's lock is named by the pipe. *)
Inductive lockid :=
| L_ptable | L_kmem | L_bcache | L_icache | L_ftable | L_log | L_ide | L_cons
| L_input | L_ticks | L_pipe (a : Z).
#[export] Instance lockid_eq_dec : EqDecision lockid.
Proof. solve_decision. Defined.
#[export] Instance lockid_countable : Countable lockid.
Proof.
  refine (inj_countable'
    (fun l => match l with
       | L_pipe a => inl a
       | L_ptable => inr 0%nat | L_kmem => inr 1%nat | L_bcache => inr 2%nat
       | L_icache => inr 3%nat | L_ftable => inr 4%nat | L_log => inr 5%nat
       | L_ide => inr 6%nat | L_cons => inr 7%nat | L_input => inr 8%nat
       | L_ticks => inr 9%nat end)
    (fun x => match x with
       | inl a => L_pipe a
       | inr 0%nat => L_ptable | inr 1%nat => L_kmem | inr 2%nat => L_bcache
       | inr 3%nat => L_icache | inr 4%nat => L_ftable | inr 5%nat => L_log
       | inr 6%nat => L_ide | inr 7%nat => L_cons | inr 8%nat => L_input
       | inr _ => L_ticks end) _).
  by intros [].
Defined.

(** ** Structs *)

(** struct cpu of proc.h: the fields the modelled code reads or writes, with the
    interrupt flag of the processor's %eflags and its %cr3. *)
Record cpu := Cpu {
  c_id : Z;
  c_ncli : Z;
  c_intena : Z;
  c_if : bool;
  c_proc : option nat;
  c_cr3 : Z;
  c_ss0 : Z;
  c_esp0 : Z
}.
#[export] Instance eta_cpu : Eta cpu :=
  {| eta := fun r => Cpu (c_id r) (c_ncli r) (c_intena r) (c_if r) (c_proc r) (c_cr3
    r) (c_ss0 r) (c_esp0 r) |}.
#[export] Instance upd_c_id : Upd c_id := ltac:(field_update c_id).
#[export] Instance upd_c_ncli : Upd c_ncli := ltac:(field_update c_ncli).
#[export] Instance upd_c_intena : Upd c_intena := ltac:(field_update c_intena).
#[export] Instance upd_c_if : Upd c_if := ltac:(field_update c_if).
#[export] Instance upd_c_proc : Upd c_proc := ltac:(field_update c_proc).
#[export] Instance upd_c_cr3 : Upd c_cr3 := ltac:(field_update c_cr3).
#[export] Instance upd_c_ss0 : Upd c_ss0 := ltac:(field_update c_ss0).
#[export] Instance upd_c_esp0 : Upd c_esp0 := ltac:(field_update c_esp0).

(** struct spinlock of spinlock.h. *)
Record spinlock := Spinlock {
  lk_locked : Z;
  lk_name : string;
  lk_cpu : option Z
}.
#[export] Instance eta_spinlock : Eta spinlock :=
  {| eta := fun r => Spinlock (lk_locked r) (lk_name r) (lk_cpu r) |}.
#[export] Instance upd_lk_locked : Upd lk_locked := ltac:(field_update lk_locked).
#[export] Instance upd_lk_name : Upd lk_name := ltac:(field_update lk_name).
#[export] Instance upd_lk_cpu : Upd lk_cpu := ltac:(field_update lk_cpu).

(** struct context of proc.h. *)
Record context := Context {
  cx_edi : Z;
  cx_esi : Z;
  cx_ebx : Z;
  cx_ebp : Z;
  cx_eip : Z
}.
#[export] Instance eta_context : Eta context :=
  {| eta := fun r => Context (cx_edi r) (cx_esi r) (cx_ebx r) (cx_ebp r) (cx_eip r) |}.
#[export] Instance upd_cx_edi : Upd cx_edi := ltac:(field_update cx_edi).
#[export] Instance upd_cx_esi : Upd cx_esi := ltac:(field_update cx_esi).
#[export] Instance upd_cx_ebx : Upd cx_ebx := ltac:(field_update cx_ebx).
#[export] Instance upd_cx_ebp : Upd cx_ebp := ltac:(field_update cx_ebp).
#[export] Instance upd_cx_eip : Upd cx_eip := ltac:(field_update cx_eip).

(** struct trapframe of x86.h (padding left out). *)
Record trapframe := Trapframe {
  tf_edi : Z;
  tf_esi : Z;
  tf_ebp : Z;
  tf_oesp : Z;
  tf_ebx : Z;
  tf_edx : Z;
  tf_ecx : Z;
  tf_eax : Z;
  tf_gs : Z;
  tf_fs : Z;
  tf_es : Z;
  tf_ds : Z;
  tf_trapno : Z;
  tf_err : Z;
  tf_eip : Z;
  tf_cs : Z;
  tf_eflags : Z;
  tf_esp : Z;
  tf_ss : Z
}.
#[export] Instance eta_trapframe : Eta trapframe :=
  {| eta := fun r => Trapframe (tf_edi r) (tf_esi r) (tf_ebp r) (tf_oesp r) (tf_ebx r)
    (tf_edx r) (tf_ecx r) (tf_eax r) (tf_gs r) (tf_fs r) (tf_es r) (tf_ds r)
    (tf_trapno r) (tf_err r) (tf_eip r) (tf_cs r) (tf_eflags r) (tf_esp r)
    (tf_ss r) |}.
#[export] Instance upd_tf_edi : Upd tf_edi := ltac:(field_update tf_edi).
#[export] Instance upd_tf_esi : Upd tf_esi := ltac:(field_update tf_esi).
#[export] Instance upd_tf_ebp : Upd tf_ebp := ltac:(field_update tf_ebp).
#[export] Instance upd_tf_oesp : Upd tf_oesp := ltac:(field_update tf_oesp).
#[export] Instance upd_tf_ebx : Upd tf_ebx := ltac:(field_update tf_ebx).
#[export] Instance upd_tf_edx : Upd tf_edx := ltac:(field_update tf_edx).
#[export] Instance upd_tf_ecx : Upd tf_ecx := ltac:(field_update tf_ecx).
#[export] Instance upd_tf_eax : Upd tf_eax := ltac:(field_update tf_eax).
#[export] Instance upd_tf_gs : Upd tf_gs := ltac:(field_update tf_gs).
#[export] Instance upd_tf_fs : Upd tf_fs := ltac:(field_update tf_fs).
#[export] Instance upd_tf_es : Upd tf_es := ltac:(field_update tf_es).
#[export] Instance upd_tf_ds : Upd tf_ds := ltac:(field_update tf_ds).
#[export] Instance upd_tf_trapno : Upd tf_trapno := ltac:(field_update tf_trapno).
#[export] Instance upd_tf_err : Upd tf_err := ltac:(field_update tf_err).
#[export] Instance upd_tf_eip : Upd tf_eip := ltac:(field_update tf_eip).
#[export] Instance upd_tf_cs : Upd tf_cs := ltac:(field_update tf_cs).
#[export] Instance upd_tf_eflags : Upd tf_eflags := ltac:(field_update tf_eflags).
#[export] Instance upd_tf_esp : Upd tf_esp := ltac:(field_update tf_esp).
#[export] Instance upd_tf_ss : Upd tf_ss := ltac:(field_update tf_ss).

(** struct proc of proc.h. Pointers into ptable, ftable and icache are
    indices, with [None] for 0. *)
Record proc := Proc {
  p_sz : Z;
  p_pgdir : Z;
  p_kstack : Z;
  p_state : procstate;
  p_pid : Z;
  p_parent : option nat;
  p_tf : trapframe;
  p_context : context;
  p_chan : option chan;
  p_killed : Z;
  p_ofile : list (option nat);
  p_cwd : option nat;
  p_name : list Z;
  p_pstack : Z;
  p_isthread : Z
}.
#[export] Instance eta_proc : Eta proc :=
  {| eta := fun r => Proc (p_sz r) (p_pgdir r) (p_kstack r) (p_state r) (p_pid r)
    (p_parent r) (p_tf r) (p_context r) (p_chan r) (p_killed r) (p_ofile r)
    (p_cwd r) (p_name r) (p_pstack r) (p_isthread r) |}.
#[export] Instance upd_p_sz : Upd p_sz := ltac:(field_update p_sz).
#[export] Instance upd_p_pgdir : Upd p_pgdir := ltac:(field_update p_pgdir).
#[export] Instance upd_p_kstack : Upd p_kstack := ltac:(field_update p_kstack).
#[export] Instance upd_p_state : Upd p_state := ltac:(field_update p_state).
#[export] Instance upd_p_pid : Upd p_pid := ltac:(field_update p_pid).
#[export] Instance upd_p_parent : Upd p_parent := ltac:(field_update p_parent).
#[export] Instance upd_p_tf : Upd p_tf := ltac:(field_update p_tf).
#[export] Instance upd_p_context : Upd p_context := ltac:(field_update p_context).
#[export] Instance upd_p_chan : Upd p_chan := ltac:(field_update p_chan).
#[export] Instance upd_p_killed : Upd p_killed := ltac:(field_update p_killed).
#[export] Instance upd_p_ofile : Upd p_ofile := ltac:(field_update p_ofile).
#[export] Instance upd_p_cwd : Upd p_cwd := ltac:(field_update p_cwd).
#[export] Instance upd_p_name : Upd p_name := ltac:(field_update p_name).
#[export] Instance upd_p_pstack : Upd p_pstack := ltac:(field_update p_pstack).
#[export] Instance upd_p_isthread : Upd p_isthread := ltac:(field_update p_isthread).

(** struct buf of buf.h. [b_prev] and [b_next] are indices into bcache, whose
    last element is the list head. *)
Record buf := Buf {
  b_flags : Z;
  b_dev : Z;
  b_sector : Z;
  b_prev : nat;
  b_next : nat;
  b_qnext : option nat;
  b_data : list Z
}.
#[export] Instance eta_buf : Eta buf :=
  {| eta := fun r => Buf (b_flags r) (b_dev r) (b_sector r) (b_prev r) (b_next r)
    (b_qnext r) (b_data r) |}.
#[export] Instance upd_b_flags : Upd b_flags := ltac:(field_update b_flags).
#[export] Instance upd_b_dev : Upd b_dev := ltac:(field_update b_dev).
#[export] Instance upd_b_sector : Upd b_sector := ltac:(field_update b_sector).
#[export] Instance upd_b_prev : Upd b_prev := ltac:(field_update b_prev).
#[export] Instance upd_b_next : Upd b_next := ltac:(field_update b_next).
#[export] Instance upd_b_qnext : Upd b_qnext := ltac:(field_update b_qnext).
#[export] Instance upd_b_data : Upd b_data := ltac:(field_update b_data).

(** struct inode of file.h. *)
Record inode := Inode {
  ip_dev : Z;
  ip_inum : Z;
  ip_ref : Z;
  ip_flags : Z;
  ip_type : Z;
  ip_major : Z;
  ip_minor : Z;
  ip_nlink : Z;
  ip_size : Z;
  ip_addrs : list Z
}.
#[export] Instance eta_inode : Eta inode :=
  {| eta := fun r => Inode (ip_dev r) (ip_inum r) (ip_ref r) (ip_flags r) (ip_type r)
    (ip_major r) (ip_minor r) (ip_nlink r) (ip_size r) (ip_addrs r) |}.
#[export] Instance upd_ip_dev : Upd ip_dev := ltac:(field_update ip_dev).
#[export] Instance upd_ip_inum : Upd ip_inum := ltac:(field_update ip_inum).
#[export] Instance upd_ip_ref : Upd ip_ref := ltac:(field_update ip_ref).
#[export] Instance upd_ip_flags : Upd ip_flags := ltac:(field_update ip_flags).
#[export] Instance upd_ip_type : Upd ip_type := ltac:(field_update ip_type).
#[export] Instance upd_ip_major : Upd ip_major := ltac:(field_update ip_major).
#[export] Instance upd_ip_minor : Upd ip_minor := ltac:(field_update ip_minor).
#[export] Instance upd_ip_nlink : Upd ip_nlink := ltac:(field_update ip_nlink).
#[export] Instance upd_ip_size : Upd ip_size := ltac:(field_update ip_size).
#[export] Instance upd_ip_addrs : Upd ip_addrs := ltac:(field_update ip_addrs).

(** struct file of file.h; [f_pipe] is the address of the pipe's page. *)
Record file := File {
  f_type : fdtype;
  f_ref : Z;
  f_readable : Z;
  f_writable : Z;
  f_pipe : Z;
  f_ip : option nat;
  f_off : Z
}.
#[export] Instance eta_file : Eta file :=
  {| eta := fun r => File (f_type r) (f_ref r) (f_readable r) (f_writable r) (f_pipe
    r) (f_ip r) (f_off r) |}.
#[export] Instance upd_f_type : Upd f_type := ltac:(field_update f_type).
#[export] Instance upd_f_ref : Upd f_ref := ltac:(field_update f_ref).
#[export] Instance upd_f_readable : Upd f_readable := ltac:(field_update f_readable).
#[export] Instance upd_f_writable : Upd f_writable := ltac:(field_update f_writable).
#[export] Instance upd_f_pipe : Upd f_pipe := ltac:(field_update f_pipe).
#[export] Instance upd_f_ip : Upd f_ip := ltac:(field_update f_ip).
#[export] Instance upd_f_off : Upd f_off := ltac:(field_update f_off).

(** struct pipe of pipe.c. *)
Record pipe := Pipe {
  pi_data : list Z;
  pi_nread : Z;
  pi_nwrite : Z;
  pi_readopen : Z;
  pi_writeopen : Z
}.
#[export] Instance eta_pipe : Eta pipe :=
  {| eta := fun r => Pipe (pi_data r) (pi_nread r) (pi_nwrite r) (pi_readopen r)
    (pi_writeopen r) |}.
#[export] Instance upd_pi_data : Upd pi_data := ltac:(field_update pi_data).
#[export] Instance upd_pi_nread : Upd pi_nread := ltac:(field_update pi_nread).
#[export] Instance upd_pi_nwrite : Upd pi_nwrite := ltac:(field_update pi_nwrite).
#[export] Instance upd_pi_readopen : Upd pi_readopen := ltac:(field_update pi_readopen).
#[export] Instance upd_pi_writeopen : Upd pi_writeopen := ltac:(field_update pi_writeopen).

(** struct log and struct logheader of log.c. *)
Record logst := Log {
  lg_start : Z;
  lg_size : Z;
  lg_busy : Z;
  lg_dev : Z;
  lg_n : Z;
  lg_sector : list Z
}.
#[export] Instance eta_logst : Eta logst :=
  {| eta := fun r => Log (lg_start r) (lg_size r) (lg_busy r) (lg_dev r) (lg_n r)
    (lg_sector r) |}.
#[export] Instance upd_lg_start : Upd lg_start := ltac:(field_update lg_start).
#[export] Instance upd_lg_size : Upd lg_size := ltac:(field_update lg_size).
#[export] Instance upd_lg_busy : Upd lg_busy := ltac:(field_update lg_busy).
#[export] Instance upd_lg_dev : Upd lg_dev := ltac:(field_update lg_dev).
#[export] Instance upd_lg_n : Upd lg_n := ltac:(field_update lg_n).
#[export] Instance upd_lg_sector : Upd lg_sector := ltac:(field_update lg_sector).

(** struct kmem of kalloc.c; [freelist] is an address, 0 when empty. *)
Record kmem_t := Kmem {
  km_use_lock : Z;
  km_freelist : Z
}.
#[export] Instance eta_kmem_t : Eta kmem_t :=
  {| eta := fun r => Kmem (km_use_lock r) (km_freelist r) |}.
#[export] Instance upd_km_use_lock : Upd km_use_lock := ltac:(field_update km_use_lock).
#[export] Instance upd_km_freelist : Upd km_freelist := ltac:(field_update km_freelist).

(** The input buffer of console.c, [cons.locking] and [panicked], the CGA
    controller's cursor register and cells, the static [uart] of uart.c with the
    characters sent to the port, and the static [shift] of kbd.c. *)
Record console := Console {
  cn_buf : list Z;
  cn_r : Z;
  cn_w : Z;
  cn_e : Z;
  cn_locking : Z;
  cn_panicked : Z;
  cn_pos : Z;
  cn_crt : gmap Z Z;
  cn_hasuart : Z;
  cn_uart : list Z;
  cn_shift : Z
}.
#[export] Instance eta_console : Eta console :=
  {| eta := fun r => Console (cn_buf r) (cn_r r) (cn_w r) (cn_e r) (cn_locking r)
    (cn_panicked r) (cn_pos r) (cn_crt r) (cn_hasuart r) (cn_uart r) (cn_shift r) |}.
#[export] Instance upd_cn_buf : Upd cn_buf := ltac:(field_update cn_buf).
#[export] Instance upd_cn_r : Upd cn_r := ltac:(field_update cn_r).
#[export] Instance upd_cn_w : Upd cn_w := ltac:(field_update cn_w).
#[export] Instance upd_cn_e : Upd cn_e := ltac:(field_update cn_e).
#[export] Instance upd_cn_locking : Upd cn_locking := ltac:(field_update cn_locking).
#[export] Instance upd_cn_panicked : Upd cn_panicked := ltac:(field_update cn_panicked).
#[export] Instance upd_cn_pos : Upd cn_pos := ltac:(field_update cn_pos).
#[export] Instance upd_cn_crt : Upd cn_crt := ltac:(field_update cn_crt).
#[export] Instance upd_cn_hasuart : Upd cn_hasuart := ltac:(field_update cn_hasuart).
#[export] Instance upd_cn_uart : Upd cn_uart := ltac:(field_update cn_uart).
#[export] Instance upd_cn_shift : Upd cn_shift := ltac:(field_update cn_shift).

(** The kernel's memory: the globals of each file, the physical memory [mem]
    (bytes, by kernel virtual address), the disks (drive and sector to 512 bytes)
    and the writes made to them, in order.
    [kdevsw] tells which entries of devsw hold the console's functions, the only
    ones the kernel installs. *)
Record kstate := KState {
  kcpu : cpu;
  locks : gmap lockid spinlock;
  mem : gmap Z Z;
  kmem : kmem_t;
  kpgdir : Z;
  ptable : list proc;
  nextpid : Z;
  initproc : option nat;
  first : Z;
  bcache : list buf;
  idequeue : option nat;
  havedisk1 : Z;
  disk : gmap (Z * Z) (list Z);
  dwrites : list ((Z * Z) * list Z);
  klog : logst;
  icache : list inode;
  ftable : list file;
  pipes : gmap Z pipe;
  ticks : Z;
  kcons : console;
  kdevsw : list bool;
  thQ : Z;
  initedQ : Z
}.
#[export] Instance eta_kstate : Eta kstate :=
  {| eta := fun r => KState (kcpu r) (locks r) (mem r) (kmem r) (kpgdir r) (ptable r)
    (nextpid r) (initproc r) (first r) (bcache r) (idequeue r) (havedisk1 r)
    (disk r) (dwrites r) (klog r) (icache r) (ftable r) (pipes r) (ticks r)
    (kcons r) (kdevsw r) (thQ r) (initedQ r) |}.
#[export] Instance upd_kcpu : Upd kcpu := ltac:(field_update kcpu).
#[export] Instance upd_locks : Upd locks := ltac:(field_update locks).
#[export] Instance upd_mem : Upd mem := ltac:(field_update mem).
#[export] Instance upd_kmem : Upd kmem := ltac:(field_update kmem).
#[export] Instance upd_kpgdir : Upd kpgdir := ltac:(field_update kpgdir).
#[export] Instance upd_ptable : Upd ptable := ltac:(field_update ptable).
#[export] Instance upd_nextpid : Upd nextpid := ltac:(field_update nextpid).
#[export] Instance upd_initproc : Upd initproc := ltac:(field_update initproc).
#[export] Instance upd_first : Upd first := ltac:(field_update first).
#[export] Instance upd_bcache : Upd bcache := ltac:(field_update bcache).
#[export] Instance upd_idequeue : Upd idequeue := ltac:(field_update idequeue).
#[export] Instance upd_havedisk1 : Upd havedisk1 := ltac:(field_update havedisk1).
#[export] Instance upd_disk : Upd disk := ltac:(field_update disk).
#[export] Instance upd_dwrites : Upd dwrites := ltac:(field_update dwrites).
#[export] Instance upd_klog : Upd klog := ltac:(field_update klog).
#[export] Instance upd_icache : Upd icache := ltac:(field_update icache).
#[export] Instance upd_ftable : Upd ftable := ltac:(field_update ftable).
#[export] Instance upd_pipes : Upd pipes := ltac:(field_update pipes).
#[export] Instance upd_ticks : Upd ticks := ltac:(field_update ticks).
#[export] Instance upd_kcons : Upd kcons := ltac:(field_update kcons).
#[export] Instance upd_kdevsw : Upd kdevsw := ltac:(field_update kdevsw).
#[export] Instance upd_thQ : Upd thQ := ltac:(field_update thQ).
#[export] Instance upd_initedQ : Upd initedQ := ltac:(field_update initedQ).

(** Two states with equal fields are equal; [kext] proves the equality of
    states built by updates field by field. *)
Lemma kstate_ext (s t : kstate) :
  kcpu s = kcpu t -> locks s = locks t -> mem s = mem t -> kmem s = kmem t ->
  kpgdir s = kpgdir t -> ptable s = ptable t -> nextpid s = nextpid t ->
  initproc s = initproc t -> first s = first t -> bcache s = bcache t ->
  idequeue s = idequeue t -> havedisk1 s = havedisk1 t -> disk s = disk t ->
  dwrites s = dwrites t -> klog s = klog t -> icache s = icache t -> ftable s = ftable t ->
  pipes s = pipes t -> ticks s = ticks t -> kcons s = kcons t -> kdevsw s = kdevsw t ->
  thQ s = thQ t -> initedQ s = initedQ t -> s = t.
Proof. destruct s, t; cbn; intros; by subst. Qed.
Ltac kext := apply kstate_ext; try reflexivity; rsimpl; try reflexivity.

(** ** Symbols of the link

    Addresses the linker chooses ([end], [data], [ptable], [forkret], [trapret]; kernel.ld
    puts the kernel at KERNLINK and defines [data] page aligned) and the bytes of
    the initcode binary it includes. *)
Class Linker := {
  kend : Z;
  kdata : Z;
  kptable : Z;
  forkret_pc : Z;
  trapret_pc : Z;
  initcode : list Z;
}.
Class LinkerOk `{Linker} : Prop := {
  kend_range : KERNLINK < kend < KERNBASE + 0x400000;
  kdata_range : KERNLINK < kdata < kend;
  kdata_aligned : kdata mod 4096 = 0;
}.

(** The link recorded in kernel.sym, with the initcode binary. *)
Definition xv6_linker : Linker := {|
  kend := 0x8011393c;
  kdata := 0x8010a000;
  kptable := 0x80110f60;
  forkret_pc := 0x80104d71;
  trapret_pc := 0x80106c84;
  initcode :=
    [104; 36; 0; 0; 0; 104; 28; 0; 0; 0; 106; 0; 184; 7; 0; 0; 0; 205;
     64; 184; 2; 0; 0; 0; 205; 64; 235; 247; 47; 105; 110; 105; 116;
     0; 0; 144; 28; 0; 0; 0; 0; 0; 0; 0];
|}.
Lemma xv6_linker_ok : @LinkerOk xv6_linker.
Proof. split; unfold KERNLINK, KERNBASE, EXTMEM; cbn; [lia | lia | reflexivity]. Qed.

(** ** The globals at boot

    C's static storage starts zeroed. [kzero] is that state; [kzero_locks] has
    every lock of the kernel initialised, as after main's calls of the init
    functions, and processor 0 with interrupts off. *)
Definition tf0 : trapframe := Trapframe 0 0 0 0 0 0 0 0 0 0 0 0 0 0 0 0 0 0 0.
Definition context0 : context := Context 0 0 0 0 0.
Definition proc0 : proc :=
  Proc 0 0 0 UNUSED 0 None tf0 context0 None 0 (replicate NOFILE None) None
    (replicate 16 0) 0 0.
Definition buf0 : buf := Buf 0 0 0 0 0 None (replicate 512 0).
Definition inode0 : inode := Inode 0 0 0 0 0 0 0 0 0 (replicate 13 0).
Definition file0 : file := File FD_NONE 0 0 0 0 None 0.
Definition cpu0 : cpu := Cpu 0 0 0 false None 0 0 0.
Definition kzero : kstate := {|
  kcpu := cpu0; locks := ∅; mem := ∅; kmem := Kmem 0 0; kpgdir := 0;
  ptable := replicate NPROC proc0; nextpid := 1; initproc := None; first := 1;
  bcache := replicate (S NBUF) buf0; idequeue := None; havedisk1 := 0; disk := ∅;
  dwrites := []; klog := Log 0 0 0 0 0 (replicate (Z.to_nat LOGSIZE) 0);
  icache := replicate NINODE inode0; ftable := replicate NFILE file0; pipes := ∅;
  ticks := 0;
  kcons := Console (replicate 128 0) 0 0 0 0 0 0 ∅ 0 [] 0;
  kdevsw := replicate (Z.to_nat NDEV) false; thQ := 0; initedQ := 0;
|}.
Definition all_locks : gmap lockid spinlock :=
  list_to_map (map (fun p => (fst p, Spinlock 0 (snd p) None))
    [(L_ptable, "ptable"%string); (L_kmem, "kmem"%string); (L_bcache, "bcache"%string);
     (L_icache, "icache"%string); (L_ftable, "ftable"%string); (L_log, "log"%string);
     (L_ide, "ide"%string); (L_cons, "console"%string); (L_input, "input"%string);
     (L_ticks, "time"%string)]).
Definition kzero_locks : kstate := kzero <| locks := all_locks |>.

(** ** The monad of kernel code

    A kernel function runs on one processor, from a state [s]. It gives the
    processor up only where the code does: in [swtch] (called by sched) and
    while it spins on a lock another processor holds. What the rest of the
    system does to the state in the meantime is the argument [e]: the first
    element of [e] is applied at the first such point, and so on. A run ends
    with a result ([Ok]), in [panic], at an access C leaves undefined
    ([Fault]: a null pointer, an index out of an array), at a [swtch] ([Switched])
    or a spinning [xchg] ([Spinning]) which [e] says nothing more about, or in
    an endless loop ([Diverge], also when a loop bound of the model is used up). *)
Definition env := list (kstate -> kstate).

Inductive outcome (A : Type) :=
| Ok (a : A) (s : kstate) (e : env)
| Panic (msg : string) (s : kstate)
| Fault (s : kstate)
| Switched (s : kstate)
| Spinning (s : kstate)
| Diverge.
Arguments Ok {A} a s e.
Arguments Panic {A} msg s.
Arguments Fault {A} s.
Arguments Switched {A} s.
Arguments Spinning {A} s.
Arguments Diverge {A}.

Lemma ok_eq {A} (a : A) s t e : s = t -> Ok a s e = Ok a t e.
Proof. by intros ->. Qed.

Definition M (A : Type) : Type := env -> kstate -> outcome A.

#[export] Instance M_ret : MRet M := fun A a e s => Ok a s e.
#[export] Instance M_bind : MBind M := fun A B k m e s =>
  match m e s with
  | Ok a s' e' => k a e' s'
  | Panic msg s' => Panic msg s'
  | Fault s' => Fault s'
  | Switched s' => Switched s'
  | Spinning s' => Spinning s'
  | Diverge => Diverge
  end.

Definition gets {A} (f : kstate -> A) : M A := fun e s => Ok (f s) s e.
Definition modify (f : kstate -> kstate) : M unit := fun e s => Ok tt (f s) e.
Definition panic {A} (msg : string) : M A := fun _ s => Panic msg s.
Definition fault {A} : M A := fun _ s => Fault s.
Definition diverge {A} : M A := fun _ _ => Diverge.
Definition when (b : bool) (m : M unit) : M unit := if b then m else mret tt.

(** The value of an expression C defines only when it is [Some]. *)
Definition must {A} (o : option A) : M A :=
  match o with Some a => mret a | None => fault end.

(** [for] over the elements of a list, without and with an early exit: the
    body returns [Some] to leave the loop. *)
Fixpoint mforeach {A} (l : list A) (f : A -> M unit) : M unit :=
  match l with
  | [] => mret tt
  | x :: l' => f x ;; mforeach l' f
  end.
Fixpoint mfind {A B} (l : list A) (f : A -> M (option B)) : M (option B) :=
  match l with
  | [] => mret None
  | x :: l' => r ← f x; match r with Some b => mret (Some b) | None => mfind l' f end
  end.

(** [while] with a bound on the number of iterations. *)
Fixpoint mwhile (fuel : nat) (c : M bool) (body : M unit) : M unit :=
  match fuel with
  | O => diverge
  | S n => b ← c; if b : bool then body ;; mwhile n c body else mret tt
  end.

(** A loop whose body sleeps or spins: each iteration uses up an element of
    the environment, so its length bounds the iterations. *)
Definition mwhile_sleep (c : M bool) (body : M unit) : M unit :=
  fun e s => mwhile (S (length e)) c body e s.

(** [loop:] with [goto loop]: the body returns [None] to start again, and has
    slept when it does. *)
Fixpoint mloop {A} (fuel : nat) (body : M (option A)) : M A :=
  match fuel with
  | O => diverge
  | S n => r ← body; match r with Some a => mret a | None => mloop n body end
  end.
Definition mloop_sleep {A} (body : M (option A)) : M A :=
  fun e s => mloop (S (length e)) body e s.

(** ** Reasoning about runs

    [wp m Q e s]: the run of [m] from [s] in environment [e] returns, and its
    result, final state and remaining environment satisfy [Q]. *)
Definition wp {A} (m : M A) (Q : A -> kstate -> env -> Prop) (e : env) (s : kstate) : Prop :=
  match m e s with Ok a s' e' => Q a s' e' | _ => False end.

Lemma wp_ret {A} (a : A) Q e s : Q a s e -> wp (mret a) Q e s.
Proof. done. Qed.
Lemma wp_bind {A B} (m : M A) (k : A -> M B) Q e s :
  wp m (fun a s' e' => wp (k a) Q e' s') e s -> wp (m ≫= k) Q e s.
Proof. unfold wp, mbind, M_bind. by destruct (m e s). Qed.
Lemma wp_mono {A} (m : M A) (Q R : A -> kstate -> env -> Prop) e s :
  wp m Q e s -> (forall a s' e', Q a s' e' -> R a s' e') -> wp m R e s.
Proof. unfold wp. destruct (m e s); naive_solver. Qed.
Lemma wp_gets {A} (f : kstate -> A) Q e s : Q (f s) s e -> wp (gets f) Q e s.
Proof. done. Qed.
Lemma wp_modify f Q e s : Q tt (f s) e -> wp (modify f) Q e s.
Proof. done. Qed.
Lemma wp_must {A} (o : option A) a Q e s : o = Some a -> Q a s e -> wp (must o) Q e s.
Proof. by intros ->. Qed.
Lemma wp_ok {A} (m : M A) (Q : A -> kstate -> env -> Prop) e s a s' e' :
  m e s = Ok a s' e' -> Q a s' e' -> wp m Q e s.
Proof. unfold wp. by intros ->. Qed.
Lemma wp_ok_inv {A} (m : M A) Q e s :
  wp m Q e s -> exists a s' e', m e s = Ok a s' e' /\ Q a s' e'.
Proof. unfold wp. destruct (m e s); naive_solver. Qed.

(** A run of a sequence, one component at a time. *)
Lemma bind_ok {A B} (m : M A) (k : A -> M B) e s a s' e' :
  m e s = Ok a s' e' -> (m ≫= k) e s = k a e' s'.
Proof. unfold mbind, M_bind. by intros ->. Qed.
Lemma bind_ok_inv {A B} (m : M A) (k : A -> M B) e s b s' e' :
  (m ≫= k) e s = Ok b s' e' -> exists a s1 e1, m e s = Ok a s1 e1 /\ k a e1 s1 = Ok b s' e'.
Proof. unfold mbind, M_bind. destruct (m e s); naive_solver. Qed.
Lemma bind_assoc_M {A B C} (m : M A) (k : A -> M B) (h : B -> M C) e s :
  ((m ≫= k) ≫= h) e s = (m ≫= (fun a => k a ≫= h)) e s.
Proof. unfold mbind, M_bind. by destruct (m e s). Qed.

Lemma ret_bind {A B} (a : A) (k : A -> M B) e s : (mret a ≫= k) e s = k a e s.
Proof. done. Qed.
Lemma gets_bind {A B} (f : kstate -> A) (k : A -> M B) e s : (gets f ≫= k) e s = k (f s) e s.
Proof. done. Qed.
Lemma modify_bind {B} f (k : unit -> M B) e s : (modify f ≫= k) e s = k tt e (f s).
Proof. done. Qed.
Lemma must_bind {A B} (o : option A) a (k : A -> M B) e s :
  o = Some a -> (must o ≫= k) e s = k a e s.
Proof. by intros ->. Qed.
Lemma when_true b m e s : b = true -> when b m e s = m e s.
Proof. by intros ->. Qed.
Lemma when_false b m e s : b = false -> when b m e s = Ok tt s e.
Proof. by intros ->. Qed.

Lemma when_true_bind {B} (b : bool) m (k : unit -> M B) e s :
  b = true -> (when b m ≫= k) e s = (m ≫= k) e s.
Proof. by intros ->. Qed.
Lemma when_false_bind {B} (b : bool) m (k : unit -> M B) e s :
  b = false -> (when b m ≫= k) e s = k tt e s.
Proof. by intros ->. Qed.

(** [mrun]: run the reads and writes at the head of the goal's sequence;
    [mstep H]: run its next component by the equation [H]. *)
Ltac mrun1 :=
  match goal with
  | |- context [@mbind M ?i ?A ?B ?k ?m ?e ?s] =>
      let t := constr:(@mbind M i A B k m e s) in
      lazymatch m with
      | @mbind M _ ?A' _ ?k' ?m' =>
          rewrite (@bind_assoc_M A' A B m' k' k e s)
      | @mret M _ _ ?a => change t with (k a e s)
      | gets ?f => change t with (k (f s) e s)
      | modify ?f => change t with (k tt e (f s))
      | must (Some ?a) => change t with (k a e s)
      | when true ?x => change t with (@mbind M i A B k x e s)
      | when false ?x => change t with (k tt e s)
      | when ?b ?x =>
          first [ rewrite (when_true_bind b x k e s) by assumption
                | rewrite (when_false_bind b x k e s) by assumption ]
      end
  end.
Ltac mrun := repeat (mrun1; cbv beta); rsimpl.
Ltac mstep H :=
  first [ rewrite (bind_ok _ _ _ _ _ _ _ H) | apply wp_bind, (wp_ok _ _ _ _ _ _ _ H) ];
  cbv beta.
