(* ===== verification/Spinlock.v ===== *)
(** * Spinlock: spinlock.c

    [initlock], [holding], [pushcli], [popcli], [acquire] and [release] on the
    executing processor, with the effect of a critical section, and a
    multiprocessor model of the [xchg] protocol. The call stack recorded in
    [lk->pcs] for debugging is not modelled. *)
From S2P Require Import Prelude Memory State.

Definition initlock (lk : lockid) (name : string) : M unit :=
  modify (fun s => s <| locks ::= <[lk := Spinlock 0 name None]> |>).

(** [lock->locked && lock->cpu == cpu]. *)
Definition holding (lk : lockid) : M bool :=
  l ← gets (fun s => locks s !! lk);
  l ← must l;
  c ← gets kcpu;
  mret (truth (lk_locked l) && bool_decide (lk_cpu l = Some (c_id c))).

Definition readeflags (c : cpu) : Z := if c_if c then FL_IF else 0.

Definition pushcli : M unit :=
  c ← gets kcpu;
  let eflags := readeflags c in
  modify (fun s => s <| kcpu ::= fun c => c <| c_if := false |> |>) ;;
  modify (fun s => s <| kcpu ::= fun c => c <| c_ncli := c_ncli c + 1 |> |>) ;;
  when (c_ncli c =? 0)
    (modify (fun s => s <| kcpu ::= fun c => c <| c_intena := Z.land eflags FL_IF |> |>)).

Definition popcli : M unit :=
  c ← gets kcpu;
  if truth (Z.land (readeflags c) FL_IF) then panic "popcli - interruptible"
  else
    modify (fun s => s <| kcpu ::= fun c => c <| c_ncli := c_ncli c - 1 |> |>) ;;
    c ← gets kcpu;
    if c_ncli c <? 0 then panic "popcli"
    else when ((c_ncli c =? 0) && truth (c_intena c))
           (modify (fun s => s <| kcpu ::= fun c => c <| c_if := true |> |>)).

(** [while(xchg(&lk->locked, 1) != 0) ;] *)
Fixpoint spin_xchg (lk : lockid) (e : env) (s : kstate) : outcome unit :=
  match locks s !! lk with
  | None => Fault s
  | Some l =>
      let s1 := s <| locks ::= <[lk := l <| lk_locked := 1 |>]> |> in
      if lk_locked l =? 0 then Ok tt s1 e
      else match e with
           | [] => Spinning s1
           | f :: e' => spin_xchg lk e' (f s1)
           end
  end.

Definition acquire (lk : lockid) : M unit :=
  pushcli ;;
  h ← holding lk;
  if h : bool then panic "acquire in spinlock.c"
  else
    spin_xchg lk ;;
    c ← gets kcpu;
    modify (fun s => s <| locks ::= alter (fun l => l <| lk_cpu := Some (c_id c) |>) lk |>).

Definition release (lk : lockid) : M unit :=
  h ← holding lk;
  if negb h then panic "release in spinlock.c"
  else
    modify (fun s => s <| locks ::= alter (fun l => l <| lk_cpu := None |>) lk |>) ;;
    modify (fun s => s <| locks ::= alter (fun l => l <| lk_locked := 0 |>) lk |>) ;;
    popcli.

(** ** The effect of a critical section *)

(** The state of a processor outside interrupt handlers: inside [pushcli]
    interrupts are off. *)
Definition cpu_ok (c : cpu) : Prop := 0 <= c_ncli c /\ (0 < c_ncli c -> c_if c = false).

(** The lock [lk] is free. *)
Definition lock_free (s : kstate) (lk : lockid) : Prop :=
  exists name, locks s !! lk = Some (Spinlock 0 name None).
Definition lock_held (s : kstate) (lk : lockid) : Prop :=
  exists name, locks s !! lk = Some (Spinlock 1 name (Some (c_id (kcpu s)))).

(** The processor after [pushcli]. *)
Definition pushed (c : cpu) : cpu :=
  Cpu (c_id c) (c_ncli c + 1) (if c_ncli c =? 0 then readeflags c else c_intena c)
    false (c_proc c) (c_cr3 c) (c_ss0 c) (c_esp0 c).
(** The processor after [pushcli] and [popcli]: [intena] may have been refreshed. *)
Definition refreshed (c : cpu) : cpu :=
  c <| c_intena ::= fun i => if c_ncli c =? 0 then readeflags c else i |>.

(** The state in which the body of a critical section runs, and the state
    after the section when the body changes nothing. *)
Definition locked_state (lk : lockid) (name : string) (s : kstate) : kstate :=
  s <| kcpu := pushed (kcpu s) |>
    <| locks := <[lk := Spinlock 1 name (Some (c_id (kcpu s)))]> (locks s) |>.
Definition refresh (s : kstate) : kstate := s <| kcpu := refreshed (kcpu s) |>.

Lemma readeflags_land c : Z.land (readeflags c) FL_IF = readeflags c.
Proof. unfold readeflags. by destruct (c_if c). Qed.

Lemma pushcli_run e s : pushcli e s = Ok tt (s <| kcpu := pushed (kcpu s) |>) e.
Proof.
  unfold pushcli, pushed, mbind, M_bind, gets, modify, when.
  rewrite readeflags_land. destruct (c_ncli (kcpu s) =? 0); reflexivity.
Qed.

Lemma spin_xchg_free e s lk name :
  locks s !! lk = Some (Spinlock 0 name None) ->
  spin_xchg lk e s = Ok tt (s <| locks := <[lk := Spinlock 1 name None]> (locks s) |>) e.
Proof. intros H. destruct e; cbn; rewrite H; reflexivity. Qed.


(** Closing the innermost [pushcli]. *)
Definition popped (c : cpu) : cpu :=
  c <| c_ncli := c_ncli c - 1 |> <| c_if := (c_ncli c =? 1) && truth (c_intena c) |>.

Lemma popcli_run e s :
  c_if (kcpu s) = false -> 0 < c_ncli (kcpu s) ->
  popcli e s = Ok tt (s <| kcpu := popped (kcpu s) |>) e.
Proof.
  intros Hif Hn. unfold popcli. mrun. unfold readeflags. rewrite Hif.
  change (truth (Z.land 0 FL_IF)) with false. cbv iota. mrun.
  replace (_ <? 0) with false by lia.
  replace (c_ncli (kcpu s) - 1 =? 0) with (c_ncli (kcpu s) =? 1) by lia.
  unfold popped. destruct ((c_ncli (kcpu s) =? 1) && truth (c_intena (kcpu s))) eqn:E.
  - rewrite when_true by done. reflexivity.
  - rewrite when_false by done. f_equal. state_eq. by rewrite Hif.
Qed.

Lemma holding_run lk l e s :
  locks s !! lk = Some l ->
  holding lk e s =
    Ok (truth (lk_locked l) && bool_decide (lk_cpu l = Some (c_id (kcpu s)))) s e.
Proof. intros H. unfold holding. mrun. rewrite H. by mrun. Qed.

Lemma acquire_run lk name e s :
  locks s !! lk = Some (Spinlock 0 name None) ->
  acquire lk e s = Ok tt (locked_state lk name s) e.
Proof.
  intros H. unfold acquire. mstep (pushcli_run e s).
  mstep (holding_run lk (Spinlock 0 name None) e (s <| kcpu := pushed (kcpu s) |>) H).
  cbn [lk_locked truth Z.eqb negb andb].
  mstep (spin_xchg_free e (s <| kcpu := pushed (kcpu s) |>) lk name H). mrun.
  unfold modify, locked_state. f_equal. state_eq. by rewrite alter_insert_eq.
Qed.

Lemma release_run lk name e s :
  locks s !! lk = Some (Spinlock 1 name (Some (c_id (kcpu s)))) ->
  c_if (kcpu s) = false -> 0 < c_ncli (kcpu s) ->
  release lk e s =
    Ok tt (s <| locks := <[lk := Spinlock 0 name None]> (locks s) |>
             <| kcpu := popped (kcpu s) |>) e.
Proof.
  intros H Hif Hn. unfold release. mstep (holding_run _ _ e _ H). cbn.
  rewrite bool_decide_eq_true_2 by done. cbn. mrun.
  rewrite popcli_run by done. f_equal. state_eq. apply map_eq. intros k.
  rewrite !lookup_alter, lookup_insert. repeat case_decide; simplify_eq; [|done].
  by rewrite H.
Qed.

(** ** The critical section rule

    [acquire lk; body; release lk] from a state where [lk] is free: the body
    runs with [lk] held and interrupts off; if it leaves the processor and the
    lock as it found them, the section leaves the processor as [refreshed] says
    and the lock free. *)
Lemma cpu_ok_refreshed c : cpu_ok c -> cpu_ok (refreshed c).
Proof. by destruct c. Qed.
Lemma refreshed_pushed c : cpu_ok c -> refreshed (pushed c) = pushed c.
Proof.
  intros [H0 _]. unfold refreshed. replace (c_ncli (pushed c) =? 0) with false.
  - by destruct c.
  - cbn. lia.
Qed.
Lemma popped_pushed c : cpu_ok c -> popped (pushed c) = refreshed c.
Proof.
  intros [H0 H1]. unfold popped, pushed, refreshed. cbv [upd]. cbn.
  destruct c as [id n i f p cr ss es]; cbn in *.
  destruct (Z.eqb_spec n 0) as [->|Hn]; cbn.
  - unfold readeflags. cbn. by destruct f.
  - replace (n + 1 =? 1) with false by lia. rewrite H1 by lia. f_equal. lia.
Qed.

(** Releasing the lock taken in [s], from a state that still has the processor
    and the locks of [locked_state]. *)
Lemma release_locked lk name e s s' :
  cpu_ok (kcpu s) -> locks s !! lk = Some (Spinlock 0 name None) ->
  kcpu s' = pushed (kcpu s) ->
  locks s' = <[lk := Spinlock 1 name (Some (c_id (kcpu s)))]> (locks s) ->
  release lk e s' = Ok tt (s' <| locks := locks s |> <| kcpu := refreshed (kcpu s) |>) e.
Proof.
  intros Hok Hlk Hc Hl. erewrite release_run.
  - f_equal. rewrite Hc, popped_pushed by done. state_eq.
    rewrite Hl, insert_insert_eq. by rewrite insert_id.
  - rewrite Hl, Hc. apply lookup_insert_eq.
  - by rewrite Hc.
  - rewrite Hc. cbn. destruct Hok. lia.
Qed.

Lemma acquire_bind {B} lk name (k : unit -> M B) e s :
  locks s !! lk = Some (Spinlock 0 name None) ->
  (acquire lk ≫= k) e s = k tt e (locked_state lk name s).
Proof. intros H. by rewrite (bind_ok _ _ _ _ _ _ _ (acquire_run lk name e s H)). Qed.
Lemma release_bind {B} lk name (k : unit -> M B) e s s' :
  cpu_ok (kcpu s) -> locks s !! lk = Some (Spinlock 0 name None) ->
  kcpu s' = pushed (kcpu s) ->
  locks s' = <[lk := Spinlock 1 name (Some (c_id (kcpu s)))]> (locks s) ->
  (release lk ≫= k) e s' = k tt e (s' <| locks := locks s |> <| kcpu := refreshed (kcpu s) |>).
Proof.
  intros H1 H2 H3 H4.
  by rewrite (bind_ok _ _ _ _ _ _ _ (release_locked lk name e s s' H1 H2 H3 H4)).
Qed.

Lemma wp_critical {A} lk name (body : M A) (Q : A -> kstate -> env -> Prop) e s :
  cpu_ok (kcpu s) -> locks s !! lk = Some (Spinlock 0 name None) ->
  wp body (fun a s' e' =>
      kcpu s' = pushed (kcpu s) /\
      locks s' !! lk = Some (Spinlock 1 name (Some (c_id (kcpu s)))) /\
      Q a (s' <| locks := <[lk := Spinlock 0 name None]> (locks s') |>
              <| kcpu := refreshed (kcpu s) |>) e') e (locked_state lk name s) ->
  wp (acquire lk ;; a ← body; release lk ;; mret a) Q e s.
Proof.
  intros Hok Hlk Hb. apply wp_bind, (wp_ok _ _ _ _ _ _ _ (acquire_run _ _ _ _ Hlk)).
  apply wp_bind. eapply wp_mono; [exact Hb|].
  intros a s' e' (Hc & Hl & HQ). apply wp_bind.
  eapply wp_ok; [apply release_run|]; rewrite ?Hc; try done.
  - cbn. destruct Hok. lia.
  - apply wp_ret. by rewrite popped_pushed.
Qed.

(** ** Nesting and misuse *)

Fixpoint repeat_m (n : nat) (m : M unit) : M unit :=
  match n with
  | O => mret tt
  | S n' => m ;; repeat_m n' m
  end.

(** The processor after [n] nested [pushcli]s, and after undoing [n] of them. *)
Definition pushed_n (n : nat) (c : cpu) : cpu :=
  (pushed c) <| c_ncli := c_ncli c + Z.of_nat n |>.
Definition popped_n (n : nat) (c : cpu) : cpu :=
  c <| c_ncli := c_ncli c - Z.of_nat n |>
    <| c_if := (c_ncli c =? Z.of_nat n) && truth (c_intena c) |>.

Lemma pushcli_nest n e s :
  0 <= c_ncli (kcpu s) ->
  repeat_m (S n) pushcli e s = Ok tt (s <| kcpu := pushed_n (S n) (kcpu s) |>) e.
Proof.
  revert s. induction n as [|n IH]; intros s Hn; cbn [repeat_m] in *;
    mstep (pushcli_run e s); [reflexivity|].
  rewrite IH by (rsimpl; cbn; lia). f_equal. unfold pushed_n, pushed. state_eq.
  f_equal; [lia|]. by replace (c_ncli (kcpu s) + 1 =? 0) with false by lia.
Qed.

Lemma popcli_nest n e s :
  c_if (kcpu s) = false -> Z.of_nat (S n) <= c_ncli (kcpu s) ->
  repeat_m (S n) popcli e s = Ok tt (s <| kcpu := popped_n (S n) (kcpu s) |>) e.
Proof.
  revert s. induction n as [|n IH]; intros s Hif Hn; cbn [repeat_m] in *;
    mstep (popcli_run e s Hif ltac:(lia)); [reflexivity|].
  rewrite IH; [|rsimpl; unfold popped; rsimpl; lia..].
  f_equal. unfold popped_n, popped. state_eq. f_equal; [lia|].
  f_equal. blia.
Qed.

(** ** Mutual exclusion on a multiprocessor

    Any number of processors run [acquire]; critical section; [release] on one
    lock, interleaved at the accesses to the lock: the test in [holding], the
    [xchg] of [acquire], the stores to [lk->cpu] and the [xchg] of [release]. *)
Module Smp.

Inductive pc := Outside | Spins | Acquired | Inside | Releasing | Panicked.

Record lstate := LState { s_locked : Z; s_cpu : option nat; s_pc : nat -> pc }.

Definition goto (i : nat) (p : pc) (f : nat -> pc) : nat -> pc :=
  fun j => if decide (j = i) then p else f j.
Definition holds (i : nat) (s : lstate) : bool :=
  truth (s_locked s) && bool_decide (s_cpu s = Some i).

Inductive step : lstate -> lstate -> Prop :=
| step_acquire_panic i l c f :
    f i = Outside -> holds i (LState l c f) = true ->
    step (LState l c f) (LState l c (goto i Panicked f))
| step_acquire i l c f :
    f i = Outside -> holds i (LState l c f) = false ->
    step (LState l c f) (LState l c (goto i Spins f))
| step_xchg_fails i l c f :
    f i = Spins -> l <> 0 ->
    step (LState l c f) (LState 1 c f)
| step_xchg_succeeds i l c f :
    f i = Spins -> l = 0 ->
    step (LState l c f) (LState 1 c (goto i Acquired f))
| step_set_cpu i l c f :
    f i = Acquired ->
    step (LState l c f) (LState l (Some i) (goto i Inside f))
| step_release_panic i l c f :
    f i = Inside -> holds i (LState l c f) = false ->
    step (LState l c f) (LState l c (goto i Panicked f))
| step_release i l c f :
    f i = Inside -> holds i (LState l c f) = true ->
    step (LState l c f) (LState l None (goto i Releasing f))
| step_release_xchg i l c f :
    f i = Releasing ->
    step (LState l c f) (LState 0 c (goto i Outside f)).

Definition init : lstate := LState 0 None (fun _ => Outside).

Definition owns (p : pc) : bool :=
  match p with Acquired | Inside | Releasing => true | _ => false end.

(** The lock is free and no processor is between the two [xchg]s, or it is
    taken and exactly one is; [lk->cpu] names it exactly while it is inside. *)
Definition inv (s : lstate) : Prop :=
  (forall i, s_pc s i <> Panicked) /\
  ((s_locked s = 0 /\ s_cpu s = None /\ forall i, owns (s_pc s i) = false) \/
   (s_locked s = 1 /\ exists o, owns (s_pc s o) = true /\
      (forall i, owns (s_pc s i) = true -> i = o) /\
      s_cpu s = match s_pc s o with Inside => Some o | _ => None end)).

Lemma goto_eq i p f : goto i p f i = p.
Proof. unfold goto. by rewrite decide_True. Qed.
Lemma goto_ne i j p f : j <> i -> goto i p f j = f j.
Proof. intros. unfold goto. by rewrite decide_False. Qed.

Ltac goto_cases i j :=
  destruct (decide (j = i)) as [->|]; [rewrite ?goto_eq | rewrite ?goto_ne by done].

(** A processor that neither owned the lock nor now does. *)
Lemma inv_idle i p l c f :
  inv (LState l c f) -> owns (f i) = false -> owns p = false -> p <> Panicked ->
  inv (LState l c (goto i p f)).
Proof.
  intros [Hp Hi] Hf Ho Hpp. split; cbn in *; [intros j; goto_cases i j; auto|].
  destruct Hi as [(-> & -> & Hn)|(-> & o & Ho' & Hu & Hc)]; [left|right].
  - split_and!; try done. intros j. goto_cases i j; auto.
  - split; [done|]. exists o. assert (o <> i) by congruence.
    rewrite goto_ne by done. split_and!; try done.
    intros j. goto_cases i j; [congruence | auto].
Qed.

(** The owner moves on, with the new value of [lk->cpu]. *)
Lemma inv_owner i p l c f :
  inv (LState l c f) -> owns (f i) = true -> owns p = true ->
  inv (LState 1 (match p with Inside => Some i | _ => None end) (goto i p f)).
Proof.
  intros [Hp Hi] Hf Ho. split; cbn in *.
  { intros j. goto_cases i j; [by destruct p | auto]. }
  destruct Hi as [(_ & _ & Hn)|(_ & o & _ & Hu & _)]; [by rewrite Hn in Hf|].
  right. split; [done|]. exists i. rewrite goto_eq. split_and!; try done.
  intros j. goto_cases i j; [done|]. intros Hj. by rewrite (Hu i), (Hu j).
Qed.

Lemma inv_holds i l c f :
  inv (LState l c f) -> holds i (LState l c f) = true <-> f i = Inside.
Proof.
  intros [Hp Hi]; unfold holds; cbn in *.
  destruct Hi as [(-> & -> & Hn)|(-> & o & Ho & Hu & ->)]; cbn.
  - split; [done|]. intros E. specialize (Hn i). by rewrite E in Hn.
  - rewrite bool_decide_eq_true. split.
    + destruct (f o) eqn:E; intros; by simplify_eq.
    + intros E. assert (i = o) as -> by (apply Hu; by rewrite E). by rewrite E.
Qed.

Lemma inv_locked l c f i : inv (LState l c f) -> owns (f i) = true -> l = 1.
Proof. intros [_ [(_ & _ & Hn)|(Hl & _)]] H; cbn in *; [by rewrite Hn in H | done]. Qed.

Lemma inv_step s s' : inv s -> step s s' -> inv s'.
Proof.
  intros Hinv Hs.
  destruct Hs as [i l c f Hf Hh|i l c f Hf Hh|i l c f Hf Hl|i l c f Hf Hl|i l c f Hf
                 |i l c f Hf Hh|i l c f Hf Hh|i l c f Hf].
  - apply (inv_holds i l c f Hinv) in Hh. congruence.
  - apply inv_idle; by rewrite ?Hf.
  - destruct Hinv as [Hp [(? & _)|(Hl1 & H)]]; cbn in *; [done|]. by split; [|right].
  - subst l. destruct Hinv as [Hp [(_ & Hc & Hn)|(? & _)]]; cbn in *; [subst c|done].
    split; cbn; [intros j; goto_cases i j; auto|]. right. split; [done|].
    exists i. rewrite goto_eq. split_and!; try done.
    intros j. goto_cases i j; [done|]. by rewrite Hn.
  - assert (l = 1) as -> by (eapply (inv_locked _ _ _ i); [done | by rewrite Hf]).
    apply (inv_owner i Inside 1 c); by rewrite ?Hf.
  - apply (inv_holds i l c f Hinv) in Hf. congruence.
  - assert (l = 1) as -> by (eapply (inv_locked _ _ _ i); [done | by rewrite Hf]).
    apply (inv_owner i Releasing 1 c); by rewrite ?Hf.
  - destruct Hinv as [Hp [(_ & _ & Hn)|(Hl & o & Ho & Hu & Hc)]]; cbn in *; subst.
    { specialize (Hn i). by rewrite Hf in Hn. }
    assert (i = o) as <- by (apply Hu; by rewrite Hf). rewrite Hf.
    split; cbn; [intros j; goto_cases i j; auto|]. left. split_and!; try done.
    intros j. goto_cases i j; [done|]. destruct (owns (f j)) eqn:E; [|done].
    by apply Hu in E.
Qed.

Lemma inv_init : inv init.
Proof. split; [done|]. by left. Qed.

Lemma reachable_inv s : rtc step init s -> inv s.
Proof.
  intros H. generalize inv_init. induction H as [|s1 s2 s3 Hs _ IH]; [done|].
  intros Hi. apply IH. by eapply inv_step.
Qed.

(** C2. Whatever the interleaving of the processors' accesses to a lock, at
    most one of them is between [acquire] and [release], and neither of the
    panics of spinlock.c (acquiring a lock the processor already holds,
    releasing one it does not hold) is reached. *)
Theorem spinlock_mutual_exclusion s i j :
  rtc step init s ->
  s_pc s i <> Panicked /\ (s_pc s i = Inside -> s_pc s j = Inside -> i = j).
Proof.
  intros H. apply reachable_inv in H as [Hp Hi]. split; [done|]. intros Hx Hy.
  destruct Hi as [(_ & _ & Hn)|(_ & o & _ & Hu & _)].
  - specialize (Hn i). by rewrite Hx in Hn.
  - rewrite (Hu i), (Hu j); rewrite ?Hx, ?Hy; done.
Qed.

(** A run in which processor 1 spins while processor 0 is inside. *)
Definition contended : lstate :=
  LState 1 (Some 0%nat) (goto 1 Spins (goto 0 Inside (goto 0 Acquired (goto 0 Spins (fun _ => Outside))))).
Lemma contended_reachable : rtc step init contended.
Proof.
  eapply rtc_l; [by apply (step_acquire 0)|].
  eapply rtc_l; [by apply (step_xchg_succeeds 0)|].
  eapply rtc_l; [by apply (step_set_cpu 0)|].
  eapply rtc_l; [by apply (step_acquire 1)|].
  eapply rtc_l; [by eapply (step_xchg_fails 1)|]. apply rtc_refl.
Qed.
Lemma spinlock_mutual_exclusion_witness :
  s_pc contended 0 = Inside /\ s_pc contended 0 <> Panicked.
Proof.
  split; [reflexivity|].
  exact (proj1 (spinlock_mutual_exclusion contended 0 0 contended_reachable)).
Defined.

End Smp.

(** [n] nested [pushcli]s followed by [n] [popcli]s leave the processor's
    nesting depth and interrupt flag as they were: interrupts that were on come
    back on only at the outermost [popcli], interrupts that were off stay off. *)
Theorem pushcli_popcli_nest n e s :
  cpu_ok (kcpu s) ->
  (repeat_m (S n) pushcli ;; repeat_m (S n) popcli) e s = Ok tt (refresh s) e.
Proof.
  intros Hok. rewrite (bind_ok _ _ _ _ _ _ _ (pushcli_nest n e s (proj1 Hok))).
  rewrite popcli_nest; [|done|rsimpl; unfold pushed_n; rsimpl; destruct Hok; lia].
  f_equal. unfold refresh. rewrite <- popped_pushed by done.
  unfold popped_n, pushed_n, popped, pushed. state_eq. f_equal; [lia|].
  f_equal. blia.
Qed.
Lemma pushcli_popcli_nest_witness :
  (repeat_m 3 pushcli ;; repeat_m 3 popcli) [] kzero = Ok tt (refresh kzero) [].
Proof. apply (pushcli_popcli_nest 2 [] kzero). by split. Defined.
