(* ===== verification/CString.v ===== *)
(** * CString: string.c, and the string functions of ulib.c

    [memset] and [memmove] act on memory. A [char *] that is only read is the
    list of the bytes it points to: [*p] is [ch p], [p++] is [tail p], and the
    list ends where the terminating NUL is. [strncpy] and [safestrcpy] return
    the bytes they store at [s]. *)
From S2P Require Import Prelude Memory.

(** ** x86.h: the string instructions *)

Fixpoint stosb (m : gmap Z Z) (addr data : Z) (cnt : nat) : gmap Z Z :=
  match cnt with
  | O => m
  | S n => stosb (stb m addr data) (addr + 1) data n
  end.
Fixpoint stosl (m : gmap Z Z) (addr data : Z) (cnt : nat) : gmap Z Z :=
  match cnt with
  | O => m
  | S n => stosl (st32 m addr data) (addr + 4) data n
  end.

(** ** string.c *)

Definition memset (m : gmap Z Z) (dst c n : Z) : gmap Z Z :=
  if (Z.rem (s32 dst) 4 =? 0) && (n mod 4 =? 0) then
    let c := Z.land c 0xFF in
    stosl m dst
      (Z.lor (Z.lor (Z.lor (Z.shiftl c 24) (Z.shiftl c 16)) (Z.shiftl c 8)) c)
      (Z.to_nat (n / 4))
  else stosb m dst c (Z.to_nat n).

(** [while(n-- > 0) *--d = *--s;] and [while(n-- > 0) *d++ = *s++;] *)
Fixpoint copy_down (m : gmap Z Z) (d s : Z) (n : nat) : gmap Z Z :=
  match n with
  | O => m
  | S n' => copy_down (stb m (d - 1) (ldb m (s - 1))) (d - 1) (s - 1) n'
  end.
Fixpoint copy_up (m : gmap Z Z) (d s : Z) (n : nat) : gmap Z Z :=
  match n with
  | O => m
  | S n' => copy_up (stb m d (ldb m s)) (d + 1) (s + 1) n'
  end.

Definition memmove (m : gmap Z Z) (dst src n : Z) : gmap Z Z :=
  if (src <? dst) && (dst <? u32 (src + n))
  then copy_down m (dst + n) (src + n) (Z.to_nat n)
  else copy_up m dst src (Z.to_nat n).

Definition ch (p : list Z) : Z := hd 0 p.

Fixpoint memcmp (v1 v2 : list Z) (n : nat) : Z :=
  match n with
  | O => 0
  | S n' => if negb (ch v1 =? ch v2) then ch v1 - ch v2 else memcmp (tail v1) (tail v2) n'
  end.

Fixpoint strncmp (p q : list Z) (n : nat) : Z :=
  match n with
  | O => 0
  | S n' =>
      if truth (ch p) && (ch p =? ch q) then strncmp (tail p) (tail q) n'
      else u8 (ch p) - u8 (ch q)
  end.

Fixpoint strncpy (t : list Z) (n : nat) : list Z :=
  match n with
  | O => []
  | S n' => if ch t =? 0 then 0 :: replicate n' 0 else ch t :: strncpy (tail t) n'
  end.

(** The loop of [safestrcpy], after its test [--n > 0] has left [n]. *)
Fixpoint safestrcpy_loop (t : list Z) (n : nat) : list Z :=
  match n with
  | O => [0]
  | S n' => if ch t =? 0 then [0; 0] else ch t :: safestrcpy_loop (tail t) n'
  end.
Definition safestrcpy (t : list Z) (n : Z) : list Z :=
  if n <=? 0 then [] else safestrcpy_loop t (Z.to_nat (n - 1)).

Fixpoint strlen (s : list Z) : Z :=
  match s with
  | [] => 0
  | c :: s' => if c =? 0 then 0 else 1 + strlen s'
  end.

(** ** ulib.c *)

Fixpoint strcmp (p q : list Z) : Z :=
  match p with
  | [] => - u8 (ch q)
  | c :: p' => if truth c && (c =? ch q) then strcmp p' (tail q) else u8 c - u8 (ch q)
  end.

(** The offset of the first [c] in [s]. *)
Fixpoint strchr (s : list Z) (c : Z) : option nat :=
  match s with
  | [] => None
  | d :: s' => if d =? 0 then None else if d =? c then Some 0%nat else S <$> strchr s' c
  end.

Fixpoint atoi_loop (s : list Z) (n : Z) : Z :=
  match s with
  | [] => n
  | c :: s' => if (48 <=? c) && (c <=? 57) then atoi_loop s' (s32 (n * 10 + c - 48)) else n
  end.
Definition atoi (s : list Z) : Z := atoi_loop s 0.

(** The user library's [memmove] copies upwards only. *)
Definition ulib_memmove (m : gmap Z Z) (vdst vsrc n : Z) : gmap Z Z :=
  copy_up m vdst vsrc (Z.to_nat n).
Definition ulib_memset (m : gmap Z Z) (dst c n : Z) : gmap Z Z := stosb m dst c (Z.to_nat n).

(** ** Lemmas *)

Lemma ldb_stosb m a c n b :
  ldb (stosb m a c n) b = if decide (a <= b < a + Z.of_nat n) then u8 c else ldb m b.
Proof.
  revert m a. induction n as [|n IH]; intros m a; cbn [stosb].
  { rewrite decide_False; [done | lia]. }
  rewrite IH, ldb_stb. repeat case_decide; done || lia.
Qed.

Lemma ldb_stosl m a w n b :
  ldb (stosl m a w n) b =
    if decide (a <= b < a + 4 * Z.of_nat n) then u8 (w / 2 ^ (8 * ((b - a) mod 4)))
    else ldb m b.
Proof.
  revert m a. induction n as [|n IH]; intros m a; cbn [stosl].
  { rewrite decide_False; [done | lia]. }
  rewrite IH, ldb_st32. repeat case_decide; try done; try lia.
  - do 3 f_equal. replace (b - (a + 4)) with (b - a + (-1) * 4) by lia. f_equal.
    by rewrite Z.mod_add by lia.
  - do 4 f_equal. rewrite Z.mod_small; lia.
Qed.

(** The four bytes of the word [memset] builds are all [c]. *)
Definition memset_word (b : Z) : Z :=
  Z.lor (Z.lor (Z.lor (Z.shiftl b 24) (Z.shiftl b 16)) (Z.shiftl b 8)) b.
Lemma memset_word_all :
  forallb (fun b => forallb (fun k => u8 (memset_word b / 2 ^ (8 * k)) =? b) (seqZ 0 4))
    (seqZ 0 256) = true.
Proof. vm_compute. reflexivity. Qed.

Lemma memset_word_byte c k :
  0 <= k < 4 -> u8 (memset_word (Z.land c 0xFF) / 2 ^ (8 * k)) = u8 c.
Proof.
  intros Hk. assert (Z.land c 0xFF = u8 c) as ->.
  { change 255 with (Z.ones 8). by rewrite Z.land_ones by lia. }
  pose proof memset_word_all as H. rewrite forallb_forall in H.
  specialize (H (u8 c)). rewrite forallb_forall in H.
  apply Z.eqb_eq, H; apply list_elem_of_In, elem_of_seqZ; [|lia].
  pose proof (u8_range c). lia.
Qed.

Lemma ldb_memset m dst c n b :
  0 <= n ->
  ldb (memset m dst c n) b = if decide (dst <= b < dst + n) then u8 c else ldb m b.
Proof.
  intros Hn. unfold memset. destruct (_ && _) eqn:E.
  - apply andb_true_iff in E as [_ E]. apply Z.eqb_eq in E.
    rewrite ldb_stosl. rewrite Z2Nat.id by (apply Z.div_pos; lia).
    replace (4 * (n / 4)) with n by mlia. case_decide; [|done].
    exact (memset_word_byte c ((b - dst) mod 4) (Z.mod_pos_bound _ 4 ltac:(lia))).
  - rewrite ldb_stosb, Z2Nat.id by lia. done.
Qed.

(** Copying up reads each source byte before the copy overwrites it when the
    destination does not start inside the source; copying down when it does. *)
Lemma ldb_copy_up m d s n b :
  d <= s \/ s + Z.of_nat n <= d ->
  ldb (copy_up m d s n) b =
    if decide (d <= b < d + Z.of_nat n) then ldb m (s + (b - d)) else ldb m b.
Proof.
  revert m d s. induction n as [|n IH]; intros m d s H; cbn [copy_up].
  { rewrite decide_False; [done | lia]. }
  rewrite IH by lia. rewrite !ldb_stb.
  repeat case_decide; subst; try lia; try done.
  - f_equal. lia.
  - replace (s + (b - b)) with s by lia. rewrite u8_small; [done | apply ldb_range].
Qed.
Lemma ldb_copy_down m d s n b :
  s <= d ->
  ldb (copy_down m d s n) b =
    if decide (d - Z.of_nat n <= b < d) then ldb m (s + (b - d)) else ldb m b.
Proof.
  revert m d s. induction n as [|n IH]; intros m d s H; cbn [copy_down].
  { rewrite decide_False; [done | lia]. }
  rewrite IH by lia. rewrite !ldb_stb.
  repeat case_decide; subst; try lia; try done.
  - f_equal. lia.
  - replace (s + (d - 1 - d)) with (s - 1) by lia. rewrite u8_small; [done | apply ldb_range].
Qed.

Lemma ldb_memmove m dst src n b :
  0 <= n -> 0 <= src -> src + n < 4294967296 ->
  ldb (memmove m dst src n) b =
    if decide (dst <= b < dst + n) then ldb m (src + (b - dst)) else ldb m b.
Proof.
  intros Hn Hs Hw. unfold memmove. rewrite u32_small by lia.
  destruct (Z.ltb_spec src dst), (Z.ltb_spec dst (src + n)); cbn [andb].
  1: rewrite ldb_copy_down by lia; rewrite Z2Nat.id by lia;
     repeat case_decide; try lia; f_equal; lia.
  all: rewrite ldb_copy_up by lia; by rewrite Z2Nat.id by lia.
Qed.

(** The characters of [p] before its NUL, at most [n] of them. *)
Fixpoint cprefix (p : list Z) (n : nat) : list Z :=
  match n with
  | O => []
  | S n' => if ch p =? 0 then [] else ch p :: cprefix (tail p) n'
  end.

Definition is_bytes (p : list Z) : Prop := Forall (fun c => 0 <= c < 256) p.

Lemma ch_byte p : is_bytes p -> 0 <= ch p < 256.
Proof. destruct 1; cbn; lia. Qed.
Lemma tail_bytes p : is_bytes p -> is_bytes (tail p).
Proof. destruct 1; cbn; [constructor | done]. Qed.
#[export] Hint Resolve ch_byte tail_bytes : mem.

Lemma strncmp_zero p q n :
  is_bytes p -> is_bytes q -> strncmp p q n = 0 <-> cprefix p n = cprefix q n.
Proof.
  revert p q. induction n as [|n IH]; intros p q Hp Hq; cbn [strncmp cprefix]; [done|].
  pose proof (ch_byte p Hp). pose proof (ch_byte q Hq).
  rewrite !u8_small by done. unfold truth.
  destruct (Z.eqb_spec (ch p) 0) as [E|E]; cbn [negb andb].
  - destruct (Z.eqb_spec (ch q) 0); split; intros; done || lia.
  - destruct (Z.eqb_spec (ch p) (ch q)) as [E'|E'].
    + rewrite <- E'. replace (ch p =? 0) with false by lia.
      rewrite IH by eauto with mem. split; [by intros -> | by intros [=]].
    + destruct (Z.eqb_spec (ch q) 0); split; try lia; intros [=]; lia.
Qed.

Lemma length_strncpy t n : length (strncpy t n) = n.
Proof.
  revert t. induction n as [|n IH]; intros; cbn; [done|].
  case_match; cbn; [by rewrite length_replicate | by rewrite IH].
Qed.
Lemma cprefix_strncpy t n : cprefix (strncpy t n) n = cprefix t n.
Proof.
  revert t. induction n as [|n IH]; intros t; cbn [strncpy cprefix]; [done|].
  destruct (ch t =? 0) eqn:E; cbn; [done|]. by rewrite E, IH.
Qed.
Lemma strncpy_bytes t n : is_bytes t -> is_bytes (strncpy t n).
Proof.
  revert t. induction n as [|n IH]; intros t Ht; cbn; [constructor|].
  case_match; constructor; [lia | apply Forall_replicate; lia | by apply ch_byte|].
  apply IH. by apply tail_bytes.
Qed.

(** ** Properties *)

(** [memmove] copies the [n] bytes at [src] as they were before the call to
    [dst] and changes nothing else, also when the two ranges overlap. *)
Theorem memmove_correct m dst src n :
  0 <= n -> 0 <= src -> src + n < 4294967296 ->
  ldbytes (memmove m dst src n) dst (Z.to_nat n) = ldbytes m src (Z.to_nat n) /\
  forall b, ~ (dst <= b < dst + n) -> ldb (memmove m dst src n) b = ldb m b.
Proof.
  intros Hn Hs Hw. split.
  - apply list_eq_same_length with (Z.to_nat n); rewrite ?length_ldbytes; [done..|].
    intros i x y Hi. rewrite !lookup_ldbytes by done. rewrite ldb_memmove by done.
    rewrite decide_True by lia. intros. simplify_eq. f_equal. lia.
  - intros b Hb. rewrite ldb_memmove by done. by rewrite decide_False.
Qed.
Lemma memmove_correct_witness :
  let m := stbytes ∅ 100 [1; 2; 3; 4; 5] in
  ldbytes (memmove m 102 100 3) 102 3 = [1; 2; 3].
Proof.
  intros m. change 3%nat with (Z.to_nat 3).
  rewrite (proj1 (memmove_correct m 102 100 3 ltac:(lia) ltac:(lia) ltac:(lia))).
  vm_compute. reflexivity.
Defined.

(** Both branches of [memset] (by words when [dst] and [n] are multiples of
    four, by bytes otherwise) set exactly the bytes of [dst, dst+n) to [c]. *)
Theorem memset_correct m dst c n b :
  0 <= n ->
  ldb (memset m dst c n) b = if decide (dst <= b < dst + n) then u8 c else ldb m b.
Proof. apply ldb_memset. Qed.
Lemma memset_correct_witness : ldb (memset ∅ 4096 0x101 8) 4103 = 1.
Proof. exact (memset_correct ∅ 4096 0x101 8 4103 ltac:(lia)). Defined.

(** A name stored by [strncpy] in an [n]-byte field fills the field exactly
    and compares equal ([strncmp], [n]) to precisely the names that agree with
    it up to [n] characters, the name itself included. *)
Theorem strncpy_strncmp t q n :
  is_bytes t -> is_bytes q ->
  length (strncpy t n) = n /\
  (strncmp (strncpy t n) q n = 0 <-> cprefix t n = cprefix q n).
Proof.
  intros Ht Hq. split; [apply length_strncpy|].
  rewrite strncmp_zero by eauto using strncpy_bytes. by rewrite cprefix_strncpy.
Qed.
Lemma strncpy_strncmp_witness :
  strncmp (strncpy [97; 98] 14) [97; 98] 14 = 0.
Proof.
  apply (strncpy_strncmp [97; 98] [97; 98] 14); try reflexivity;
    repeat constructor; lia.
Defined.

(** [safestrcpy] stores at most [n] bytes, the first of which are the
    characters of [t] that fit in [n-1], and the string it leaves is always
    terminated. *)
Theorem safestrcpy_terminated t n :
  0 < n ->
  Z.of_nat (length (safestrcpy t n)) <= n /\
  exists rest, safestrcpy t n = cprefix t (Z.to_nat (n - 1)) ++ 0 :: rest.
Proof.
  intros Hn. unfold safestrcpy. replace (n <=? 0) with false by lia.
  assert (n = Z.of_nat (S (Z.to_nat (n - 1)))) as E by lia.
  generalize (Z.to_nat (n - 1)), E. clear Hn E. intros k ->. revert t.
  induction k as [|k IH]; intros t; cbn [safestrcpy_loop cprefix].
  - split; [cbn; lia|]. by exists [].
  - destruct (ch t =? 0).
    + split; [cbn; lia|]. by exists [0].
    + destruct (IH (tail t)) as [H1 [rest H2]]. split; [cbn [length]; lia|].
      exists rest. by rewrite H2.
Qed.
Lemma safestrcpy_terminated_witness :
  exists rest, safestrcpy [105; 110; 105; 116] 16 = [105; 110; 105; 116] ++ 0 :: rest.
Proof. exact (proj2 (safestrcpy_terminated [105; 110; 105; 116] 16 ltac:(lia))). Defined.

(** The user library's [memmove] is not [memmove]: it agrees with the
    kernel's one when the destination does not start inside the source, and
    otherwise it can overwrite source bytes before it copies them. *)
Theorem ulib_memmove_overlap :
  (forall m dst src n b, 0 <= n -> 0 <= src -> src + n < 4294967296 ->
     dst <= src \/ src + n <= dst ->
     ldb (ulib_memmove m dst src n) b = ldb (memmove m dst src n) b) /\
  (let m := stbytes ∅ 100 [1; 2; 3] in
   ldbytes (ulib_memmove m 101 100 3) 101 3 = [1; 1; 1] /\
   ldbytes (memmove m 101 100 3) 101 3 = [1; 2; 3]).
Proof.
  split; [|by vm_compute].
  intros m dst src n b Hn Hs Hw H. rewrite ldb_memmove by done.
  unfold ulib_memmove. rewrite ldb_copy_up by lia. by rewrite Z2Nat.id.
Qed.
