(* ===== verification/Mp.v ===== *)
(** * Mp: the tables of the firmware (mp.c, mp.h)

    The search for the MP floating pointer structure, the checks of the
    configuration table, and the reading of its entries into the processors of the
    kernel. The messages that mpinit prints are left out. *)
From S2P Require Import Prelude Memory State CString.

(** ** The code *)

Definition NCPU : nat := 8.
Definition MPBOOT : Z := 0x02.
Definition MPPROC : Z := 0x00.
Definition MPBUS : Z := 0x01.
Definition MPIOAPIC : Z := 0x02.
Definition MPIOINTR : Z := 0x03.
Definition MPLINTR : Z := 0x04.
(** Sizes of struct mp, struct mpconf, struct mpproc and struct mpioapic *)
Definition MPSZ : Z := 16.
Definition CONFSZ : Z := 44.
Definition PROCSZ : Z := 20.
Definition IOAPICSZ : Z := 8.

(** The globals. [bcpu] is an index into [cpus], of which [ids] has the ids; [outs]
    are the bytes sent to ports. *)
Record mpst := Mpst {
  mp_ismp : Z; mp_ncpu : Z; mp_ioapicid : Z; mp_bcpu : Z; mp_lapic : Z; mp_ids : list Z; mp_outs : list (Z * Z)
}.
Definition mp_boot : mpst := Mpst 0 0 0 0 0 (replicate NCPU 0) [].
Definition mpbcpu (s : mpst) : Z := mp_bcpu s.

Definition ld16 (m : gmap Z Z) (a : Z) : Z := ldb m a + 256 * ldb m (a + 1).
Definition sum (m : gmap Z Z) (addr len : Z) : Z := u8 (foldr Z.add 0 (ldbytes m addr (Z.to_nat len))).

(** [for(p = addr; p < e; p += sizeof(struct mp))], at most [n] times *)
Definition is_mp (m : gmap Z Z) (p : Z) : bool :=
  (memcmp (ldbytes m p 4) (bytes_of_string "_MP_") 4 =? 0) && (sum m p MPSZ =? 0).
Fixpoint mpsearch1_loop (n : nat) (m : gmap Z Z) (p e : Z) : Z :=
  match n with
  | O => 0
  | S n => if p <? e then if is_mp m p then p else mpsearch1_loop n m (p + MPSZ) e else 0
  end.
Definition mpsearch1 (m : gmap Z Z) (a len : Z) : Z :=
  let addr := p2v a in mpsearch1_loop (Z.to_nat ((len + 15) / MPSZ)) m addr (addr + len).
Definition mpsearch (m : gmap Z Z) : Z :=
  let bda := p2v 0x400 in
  let p := Z.shiftl (Z.lor (Z.shiftl (ldb m (bda + 0x0F)) 8) (ldb m (bda + 0x0E))) 4 in
  let mp :=
    if truth p then mpsearch1 m p 1024
    else
      let p := Z.lor (Z.shiftl (ldb m (bda + 0x14)) 8) (ldb m (bda + 0x13)) * 1024 in
      mpsearch1 m (u32 (p - 1024)) 1024 in
  if truth mp then mp else mpsearch1 m 0xF0000 0x10000.

(** [mpconfig]: the table and the structure that points to it. *)
Definition mpconfig (m : gmap Z Z) : option (Z * Z) :=
  let mp := mpsearch m in
  if (mp =? 0) || (ld32 m (mp + 4) =? 0) then None
  else
    let conf := p2v (ld32 m (mp + 4)) in
    if negb (memcmp (ldbytes m conf 4) (bytes_of_string "PCMP") 4 =? 0) then None
    else if negb (ldb m (conf + 6) =? 1) && negb (ldb m (conf + 6) =? 4) then None
    else if negb (sum m conf (ld16 m (conf + 4)) =? 0) then None
    else Some (conf, mp).

(** A loop may run for ever, and [cpus[ncpu]] may be outside of the array. *)
Inductive mpres := MpDone (s : mpst) | MpFault | MpFuel.
Definition mpinit_proc (m : gmap Z Z) (p : Z) (s : mpst) : option mpst :=
  let n := mp_ncpu s in
  if (n <? Z.of_nat NCPU) then
    Some (Mpst (if negb (n =? ldb m (p + 1)) then 0 else mp_ismp s) (n + 1) (mp_ioapicid s)
      (if truth (Z.land (ldb m (p + 3)) MPBOOT) then n else mp_bcpu s) (mp_lapic s)
      (<[Z.to_nat n := u8 n]> (mp_ids s)) (mp_outs s))
  else None.
Fixpoint mpinit_loop (fuel : nat) (m : gmap Z Z) (p e : Z) (s : mpst) : mpres :=
  if p <? e then
    match fuel with
    | O => MpFuel
    | S k =>
        let t := ldb m p in
        if t =? MPPROC then
          match mpinit_proc m p s with Some s => mpinit_loop k m (p + PROCSZ) e s | None => MpFault end
        else if t =? MPIOAPIC then
          mpinit_loop k m (p + IOAPICSZ) e
            (Mpst (mp_ismp s) (mp_ncpu s) (ldb m (p + 1)) (mp_bcpu s) (mp_lapic s) (mp_ids s) (mp_outs s))
        else if (t =? MPBUS) || (t =? MPIOINTR) || (t =? MPLINTR) then mpinit_loop k m (p + 8) e s
        else mpinit_loop k m p e
          (Mpst 0 (mp_ncpu s) (mp_ioapicid s) (mp_bcpu s) (mp_lapic s) (mp_ids s) (mp_outs s))
    end
  else MpDone s.
(** [inb] is what the port 0x23 reads. *)
Definition mpinit (fuel : nat) (inb : Z) (m : gmap Z Z) (s : mpst) : mpres :=
  let s := Mpst (mp_ismp s) (mp_ncpu s) (mp_ioapicid s) 0 (mp_lapic s) (mp_ids s) (mp_outs s) in
  match mpconfig m with
  | None => MpDone s
  | Some (conf, mp) =>
      let s := Mpst 1 (mp_ncpu s) (mp_ioapicid s) (mp_bcpu s) (ld32 m (conf + 36)) (mp_ids s) (mp_outs s) in
      match mpinit_loop fuel m (conf + CONFSZ) (conf + ld16 m (conf + 4)) s with
      | MpDone s =>
          if mp_ismp s =? 0 then MpDone (Mpst (mp_ismp s) 1 0 (mp_bcpu s) 0 (mp_ids s) (mp_outs s))
          else if truth (ldb m (mp + 12)) then
            MpDone (Mpst (mp_ismp s) (mp_ncpu s) (mp_ioapicid s) (mp_bcpu s) (mp_lapic s) (mp_ids s)
              (mp_outs s ++ [(0x22, 0x70); (0x23, Z.lor inb 1)]))
          else MpDone s
      | r => r
      end
  end.

(** ** What a table says *)

Inductive mpentry :=
  | EProc (apicid version flags : Z) (rest : list Z)
  | EIoapic (apicno : Z) (rest : list Z)
  | EOther (type : Z) (rest : list Z).
Definition bytes_of (x : mpentry) : list Z :=
  match x with
  | EProc a v f rest => MPPROC :: a :: v :: f :: rest
  | EIoapic a rest => MPIOAPIC :: a :: rest
  | EOther t rest => t :: rest
  end.
Definition entry_ok (x : mpentry) : Prop :=
  Forall (fun b => 0 <= b < 256) (bytes_of x) /\
  match x with
  | EProc _ _ _ rest => length rest = 16%nat
  | EIoapic _ rest => length rest = 6%nat
  | EOther t rest => (t = MPBUS \/ t = MPIOINTR \/ t = MPLINTR) /\ length rest = 7%nat
  end.
Definition table (es : list mpentry) : list Z := concat (map bytes_of es).

(** The ids of the processors, in the order of the table. *)
Definition apicids (es : list mpentry) : list Z := omap (fun x => match x with EProc a _ _ _ => Some a | _ => None end) es.
(** The processor that boots: the last one with the flag, counting from [n]. *)
Fixpoint booter (n d : Z) (es : list mpentry) : Z :=
  match es with
  | [] => d
  | EProc _ _ f _ :: es => booter (n + 1) (if truth (Z.land f MPBOOT) then n else d) es
  | _ :: es => booter n d es
  end.
Fixpoint ioapic_of (d : Z) (es : list mpentry) : Z :=
  match es with
  | [] => d
  | EIoapic a _ :: es => ioapic_of a es
  | _ :: es => ioapic_of d es
  end.
Definition in_order (n : Z) (es : list mpentry) : bool := bool_decide (apicids es = seqZ n (Z.of_nat (length (apicids es)))).

Lemma in_order_proc n a v f rest es : in_order n (EProc a v f rest :: es) = (n =? a) && in_order (n + 1) es.
Proof.
  unfold in_order. cbn [apicids omap list_omap]. fold (apicids es). set (l := apicids es).
  change (omap _ es) with l. rewrite (seqZ_cons n) by (cbn [length]; lia). replace (Z.pred (Z.of_nat (length (a :: l)))) with (Z.of_nat (length l)) by (cbn [length]; lia).
  rewrite <- Z.add_1_r. destruct (Z.eqb_spec n a) as [->|Hne]; cbn [andb].
  - apply bool_decide_ext. split; [by intros [=]|intros E; by f_equal].
  - apply bool_decide_eq_false_2. by intros [= ->].
Qed.

(** ** Reading it *)

Lemma ldbytes_app m a l1 l2 : ldbytes m a (length (l1 ++ l2)) = l1 ++ l2 -> ldbytes m a (length l1) = l1 /\ ldbytes m (a + Z.of_nat (length l1)) (length l2) = l2.
Proof.
  revert a. induction l1 as [|x l1 IH]; intros a E.
  - cbn in *. by rewrite Z.add_0_r.
  - cbn [app length ldbytes] in *. injection E as E0 E. destruct (IH _ E) as [E1 E2]. split; [by rewrite E0, E1|].
    by replace (a + Z.of_nat (S (length l1))) with (a + 1 + Z.of_nat (length l1)) by lia.
Qed.
Lemma ldbytes_ldb m a l k x : ldbytes m a (length l) = l -> l !! k = Some x -> ldb m (a + Z.of_nat k) = x.
Proof.
  revert a k. induction l as [|y l IH]; intros a k E Hk; [done|]. cbn [length ldbytes] in E. injection E as E0 E. destruct k as [|k].
  - injection Hk as <-. by rewrite Z.add_0_r.
  - replace (a + Z.of_nat (S k)) with (a + 1 + Z.of_nat k) by lia. by apply (IH _ k E).
Qed.

Lemma mpinit_loop_reads fuel m es p s :
  Forall entry_ok es -> ldbytes m p (length (table es)) = table es -> (length es <= fuel)%nat ->
  0 <= mp_ncpu s -> mp_ncpu s + Z.of_nat (length (apicids es)) <= 8 -> length (mp_ids s) = NCPU ->
  exists ids, mpinit_loop fuel m p (p + Z.of_nat (length (table es))) s =
    MpDone (Mpst (if in_order (mp_ncpu s) es then mp_ismp s else 0) (mp_ncpu s + Z.of_nat (length (apicids es)))
      (ioapic_of (mp_ioapicid s) es) (booter (mp_ncpu s) (mp_bcpu s) es) (mp_lapic s) ids (mp_outs s)) /\
    length ids = NCPU /\ (forall k, (k < Z.to_nat (mp_ncpu s))%nat -> ids !! k = mp_ids s !! k) /\
    (forall k, (Z.to_nat (mp_ncpu s) <= k < Z.to_nat (mp_ncpu s) + length (apicids es))%nat -> ids !! k = Some (Z.of_nat k)).
Proof.
  intros Hes. revert fuel p s. induction Hes as [|x es [Hx Hsh] Hes IH]; intros fuel p s Hm Hf Hn H8 Hl.
  - exists (mp_ids s). destruct fuel; cbn; rewrite Z.add_0_r, Z.ltb_irrefl, Z.add_0_r; destruct s; (split; [done|]); (split; [done|]); (split; [done|]); intros k Hk; lia.
  - unfold table in Hm. cbn [map concat] in Hm. fold (table es) in Hm. destruct (ldbytes_app _ _ _ _ Hm) as [Hb Ht].
    destruct fuel as [|fuel]; [cbn in Hf; lia|]. cbn [length] in Hf.
    assert (length (table (x :: es)) = (length (bytes_of x) + length (table es))%nat) as El by apply length_app.
    assert (0 < length (bytes_of x))%nat as Hpos by (destruct x; cbn; lia). rewrite El.
    replace (p + Z.of_nat (length (bytes_of x) + length (table es))) with (p + Z.of_nat (length (bytes_of x)) + Z.of_nat (length (table es))) by lia.
    cbn [mpinit_loop]. rewrite (proj2 (Z.ltb_lt _ _)) by lia. pose proof (fun k y => ldbytes_ldb m p _ k y Hb) as Hld.
    destruct x as [a v f rest|a rest|t rest]; cbn [bytes_of] in *; pose proof (Hld 0%nat _ eq_refl) as E0; rewrite Z.add_0_r in E0; rewrite E0.
    + change (apicids (EProc a v f rest :: es)) with (a :: apicids es) in *. cbn [length] in H8.
      assert (Z.of_nat (length (MPPROC :: a :: v :: f :: rest)) = PROCSZ) as Esz by (cbn [length]; rewrite Hsh; done). rewrite Esz in *.
      cbn [Z.eqb MPPROC]. unfold mpinit_proc. rewrite (proj2 (Z.ltb_lt _ _)) by (change (Z.of_nat NCPU) with 8; lia).
      rewrite (Hld 1%nat _ eq_refl : ldb m (p + 1) = a), (Hld 3%nat _ eq_refl : ldb m (p + 3) = f). set (s1 := Mpst _ _ _ _ _ _ _).
      destruct (IH fuel (p + PROCSZ) s1 Ht) as (ids & -> & Hi1 & Hi2 & Hi3); [lia|cbn; lia|cbn; lia|cbn; by rewrite length_insert|].
      exists ids. rewrite in_order_proc. cbn [s1 mp_ncpu mp_ismp mp_ioapicid mp_bcpu mp_lapic mp_outs mp_ids ioapic_of booter length] in *.
      split; [|split; [done|split]].
      * f_equal; f_equal; [|lia]. destruct (Z.eqb_spec (mp_ncpu s) a); cbn [negb andb]; [done|by destruct (in_order _ es)].
      * intros k Hk. rewrite Hi2 by lia. apply list_lookup_insert_ne. lia.
      * intros k Hk. destruct (decide (k = Z.to_nat (mp_ncpu s))) as [->|Hne].
        -- rewrite Hi2, list_lookup_insert_eq by (rewrite ?Hl; unfold NCPU; lia). f_equal. rewrite u8_small; lia.
        -- apply Hi3. lia.
    + change (apicids (EIoapic a rest :: es)) with (apicids es) in *. cbn [length] in H8.
      assert (Z.of_nat (length (MPIOAPIC :: a :: rest)) = IOAPICSZ) as Esz by (cbn [length]; rewrite Hsh; done). rewrite Esz in *.
      cbn [Z.eqb MPPROC MPIOAPIC Pos.eqb]. rewrite (Hld 1%nat _ eq_refl : ldb m (p + 1) = a).
      exact (IH fuel (p + IOAPICSZ) (Mpst _ _ a _ _ _ _) Ht ltac:(lia) Hn H8 Hl).
    + destruct Hsh as [Hty Hsh]. change (apicids (EOther t rest :: es)) with (apicids es) in *.
      assert (Z.of_nat (length (t :: rest)) = 8) as Esz by (cbn [length]; rewrite Hsh; done). rewrite Esz in *.
      destruct Hty as [->|[->| ->]]; cbn [Z.eqb MPPROC MPIOAPIC MPBUS MPIOINTR MPLINTR Pos.eqb orb]; exact (IH fuel (p + 8) s Ht ltac:(lia) Hn H8 Hl).
Qed.

(** The search finds the first structure, at the steps of 16 bytes, and 0 means that
    there is none. *)
Lemma mpsearch1_first n m p e :
  0 < p -> let r := mpsearch1_loop n m p e in
  (exists k, 0 <= k < Z.of_nat n /\ r = p + 16 * k /\ r < e /\ is_mp m r = true /\ forall j, 0 <= j < k -> is_mp m (p + 16 * j) = false) \/
  r = 0 /\ forall k, 0 <= k < Z.of_nat n -> p + 16 * k < e -> is_mp m (p + 16 * k) = false.
Proof.
  revert p. induction n as [|n IH]; intros p Hp; cbn zeta; cbn [mpsearch1_loop]; [right; split; [done|lia]|].
  destruct (Z.ltb_spec p e) as [Hlt|Hge]; [|right; split; [done|lia]]. destruct (is_mp m p) eqn:Em.
  - left. exists 0. rewrite Z.add_0_r. split; [lia|]. split; [done|]. split; [done|]. split; [done|lia].
  - assert (forall j, p + 16 * j = p + MPSZ + 16 * (j - 1)) as Ej by (unfold MPSZ; lia).
    destruct (IH (p + MPSZ) ltac:(unfold MPSZ; lia)) as [(k & Hk & Er & He & Hm & Hb)|[Er Hno]]; [left|right].
    + exists (k + 1). replace (p + 16 * (k + 1)) with (p + MPSZ + 16 * k) by (unfold MPSZ; lia). split; [lia|]. split; [done|]. split; [done|]. split; [done|].
      intros j Hj. destruct (decide (j = 0)) as [->|]; [by rewrite Z.add_0_r|]. rewrite Ej. apply Hb. lia.
    + split; [done|]. intros k Hk Hlt'. destruct (decide (k = 0)) as [->|]; [by rewrite Z.add_0_r|]. rewrite Ej in *. apply Hno; lia.
Qed.


(** A table in memory: the structure at 0xF0000, the configuration behind it, and
    checksums to match. *)
Definition checked (k : nat) (l : list Z) : list Z := <[k := u8 (- foldr Z.add 0 l)]> l.
Definition firmware (body : list Z) : gmap Z Z :=
  stbytes (stbytes ∅ (p2v 0xF0000) (checked 10 (bytes_of_string "_MP_" ++ bytes32 0xF0010 ++ [1; 4; 0; 0; 0; 0; 0; 0])))
    (p2v 0xF0010) (checked 7 (bytes_of_string "PCMP" ++ bytes16 (CONFSZ + Z.of_nat (length body)) ++ [4; 0] ++ replicate 28 0 ++ bytes32 0xFEE00000 ++ replicate 4 0 ++ body)).
Definition table_ex : list mpentry :=
  [EProc 0 20 1 (replicate 16 0); EProc 1 20 3 (replicate 16 0); EOther MPBUS (replicate 7 0); EIoapic 5 (replicate 6 0)].
Lemma table_ex_ok : Forall entry_ok table_ex.
Proof. repeat constructor; unfold MPPROC, MPIOAPIC, MPBUS; try lia; by left. Qed.

(** An entry of another type is not skipped: the loop stays at it. *)
Lemma mpinit_loop_unknown fuel m p e s : p < e -> 4 < ldb m p -> mpinit_loop fuel m p e s = MpFuel.
Proof.
  intros Hp Ht. revert s. induction fuel as [|fuel IH]; intros s; cbn [mpinit_loop]; rewrite (proj2 (Z.ltb_lt _ _)) by done; [done|].
  unfold MPPROC, MPIOAPIC, MPBUS, MPIOINTR, MPLINTR. rewrite !(proj2 (Z.eqb_neq (ldb m p) _)) by lia. apply IH.
Qed.
(** mpinit does not get past an entry whose type it does not know: it says so, decides
    against several processors, and looks at the same entry again for ever. *)
Theorem mpinit_unknown_loops : exists m, is_Some (mpconfig m) /\ forall fuel inb s, mpinit fuel inb m s = MpFuel.
Proof.
  exists (firmware (9 :: replicate 7 0)). assert (mpconfig (firmware (9 :: replicate 7 0)) = Some (p2v 0xF0010, p2v 0xF0000)) as E by (vm_compute; reflexivity).
  split; [by rewrite E|]. intros fuel inb s. unfold mpinit. rewrite E. rewrite mpinit_loop_unknown; [done|vm_compute; reflexivity..].
Qed.
(** A ninth processor is written behind the array of 8. *)
Lemma mpinit_overruns : mpinit 9 0 (firmware (table (map (fun k => EProc k 20 1 (replicate 16 0)) (seqZ 0 9)))) mp_boot = MpFault.
Proof. vm_compute. reflexivity. Qed.
