(* ===== verification/Kalloc.v ===== *)
(** * Kalloc: kalloc.c

    The physical page allocator: a free list threaded through the first word of
    the free pages. The abstract allocator is a list of free pages; [kalloc]
    and [kfree] refine its pop and push. *)
From S2P Require Import Prelude Memory CString State Spinlock.

(** ** Operations *)

Section Kalloc.
Context `{Linker}.

Definition with_kmem_lock (m : M unit) : M unit :=
  u ← gets (fun s => km_use_lock (kmem s)); when (truth u) m.

Definition kalloc : M Z :=
  with_kmem_lock (acquire L_kmem) ;;
  r ← gets (fun s => km_freelist (kmem s));
  when (truth r)
    (modify (fun s => s <| kmem ::= fun k => k <| km_freelist := ld32 (mem s) r |> |>)) ;;
  with_kmem_lock (release L_kmem) ;;
  mret r.

Definition kfree (v : Z) : M unit :=
  if truth (v mod PGSIZE) || (v <? kend) || (PHYSTOP <=? v2p v) then panic "kfree"
  else
    modify (fun s => s <| mem ::= fun m => memset m v 1 PGSIZE |>) ;;
    with_kmem_lock (acquire L_kmem) ;;
    modify (fun s => s <| mem ::= fun m => st32 m v (km_freelist (kmem s)) |>) ;;
    modify (fun s => s <| kmem ::= fun k => k <| km_freelist := v |> |>) ;;
    with_kmem_lock (release L_kmem).

(** kalloc2 and kfree2 repeat kalloc and kfree with [void *] types. *)
Definition kalloc2 : M Z :=
  with_kmem_lock (acquire L_kmem) ;;
  r ← gets (fun s => km_freelist (kmem s));
  when (truth r)
    (modify (fun s => s <| kmem ::= fun k => k <| km_freelist := ld32 (mem s) r |> |>)) ;;
  with_kmem_lock (release L_kmem) ;;
  mret r.

Definition kfree2 (v : Z) : M unit :=
  if truth (v mod PGSIZE) || (v <? kend) || (PHYSTOP <=? v2p v) then panic "kfree"
  else
    modify (fun s => s <| mem ::= fun m => memset m v 1 PGSIZE |>) ;;
    with_kmem_lock (acquire L_kmem) ;;
    modify (fun s => s <| mem ::= fun m => st32 m v (km_freelist (kmem s)) |>) ;;
    modify (fun s => s <| kmem ::= fun k => k <| km_freelist := v |> |>) ;;
    with_kmem_lock (release L_kmem).

(** [for(; p + PGSIZE <= vend; p += PGSIZE) kfree(p);] *)
Fixpoint freerange_loop (fuel : nat) (p vend : Z) : M unit :=
  if u32 (p + PGSIZE) <=? vend then
    match fuel with
    | O => diverge
    | S n => kfree p ;; freerange_loop n (u32 (p + PGSIZE)) vend
    end
  else mret tt.
Definition freerange (vstart vend : Z) : M unit :=
  let p := PGROUNDUP vstart in
  freerange_loop (Z.to_nat ((vend - p) / PGSIZE)) p vend.

Definition kinit1 (vstart vend : Z) : M unit :=
  initlock L_kmem "kmem" ;;
  modify (fun s => s <| kmem ::= fun k => k <| km_use_lock := 0 |> |>) ;;
  freerange vstart vend.
Definition kinit2 (vstart vend : Z) : M unit :=
  freerange vstart vend ;;
  modify (fun s => s <| kmem ::= fun k => k <| km_use_lock := 1 |> |>).

(** ** The abstract allocator *)

(** [flist m h l]: following the links from [h] in [m] visits exactly [l]. *)
Fixpoint flist (m : gmap Z Z) (h : Z) (l : list Z) : Prop :=
  match l with
  | [] => h = 0
  | p :: l' => h = p /\ p <> 0 /\ flist m (ld32 m p) l'
  end.

(** A page the allocator may hand out. *)
Definition page_ok (p : Z) : Prop :=
  p mod 4096 = 0 /\ kend <= p /\ p + 4096 <= KERNBASE + PHYSTOP.
#[global] Instance page_ok_dec p : Decision (page_ok p).
Proof. unfold page_ok. apply _. Defined.

(** [kmem_rep s l]: the allocator's state in [s] stands for the free pages [l]. *)
Definition kmem_rep (s : kstate) (l : list Z) : Prop :=
  flist (mem s) (km_freelist (kmem s)) l /\ NoDup l /\ Forall page_ok l.

Definition spec_alloc (l : list Z) : Z * list Z :=
  match l with [] => (0, []) | p :: l' => (p, l') end.
Definition spec_free (p : Z) (l : list Z) : list Z := p :: l.

(** The allocator's lock, when it is in use, is free. *)
Definition kmem_ready (s : kstate) : Prop :=
  truth (km_use_lock (kmem s)) = true -> cpu_ok (kcpu s) /\ lock_free s L_kmem.
Definition ksync (s : kstate) : kstate :=
  if truth (km_use_lock (kmem s)) then refresh s else s.

Lemma kalloc_run e s :
  kmem_ready s ->
  let r := km_freelist (kmem s) in
  kalloc e s =
    Ok r ((ksync s) <| kmem := (kmem s) <| km_freelist := if truth r then ld32 (mem s) r else r |> |>) e.
Proof.
  intros Hr r. unfold kalloc, with_kmem_lock, ksync. mrun.
  destruct (truth (km_use_lock (kmem s))) eqn:Eu.
  - destruct (Hr Eu) as [Hok [name Hl]]. mrun.
    rewrite (acquire_bind _ name) by done. mrun.
    change (km_freelist (kmem (locked_state L_kmem name s))) with r.
    destruct (truth r) eqn:Er; mrun; rewrite (release_bind _ name _ _ s) by done;
      unfold mret, M_ret; f_equal; unfold locked_state, refresh; state_eq; by destruct (kmem s).
  - mrun. destruct (truth (km_freelist (kmem s))) eqn:Er; mrun; subst r; rewrite Er;
      [done|]. destruct s as [? ? ? []]. done.
Qed.

Context `{!LinkerOk}.

Lemma kend_gt : KERNLINK < kend.
Proof. apply kend_range. Qed.

Lemma page_ok_checks v :
  0 <= v < 4294967296 ->
  truth (v mod PGSIZE) || (v <? kend) || (PHYSTOP <=? v2p v) = false <-> page_ok v.
Proof.
  intros Hv. unfold page_ok, truth, PGSIZE, v2p. pose proof kend_gt as Hk.
  unfold KERNLINK, KERNBASE, EXTMEM, PHYSTOP in *.
  rewrite !orb_false_iff, negb_false_iff, Z.eqb_eq, Z.ltb_ge, Z.leb_gt.
  split; intros; destruct_and!; split_and?; mlia.
Qed.

Lemma page_ok_range v : page_ok v -> 0x80100000 < v < 0x8E000000.
Proof.
  intros (_ & H1 & H2). pose proof kend_gt.
  unfold KERNLINK, KERNBASE, EXTMEM, PHYSTOP in *. lia.
Qed.

Lemma kfree_run v e s :
  page_ok v -> kmem_ready s ->
  kfree v e s =
    Ok tt ((ksync s)
      <| mem := st32 (memset (mem s) v 1 PGSIZE) v (km_freelist (kmem s)) |>
      <| kmem := (kmem s) <| km_freelist := v |> |>) e.
Proof.
  intros Hv Hr. pose proof (page_ok_range v Hv). unfold kfree, with_kmem_lock, ksync.
  rewrite (proj2 (page_ok_checks v ltac:(lia)) Hv). mrun.
  destruct (truth (km_use_lock (kmem s))) eqn:Eu; mrun.
  - destruct (Hr Eu) as [Hok [name Hl]].
    rewrite (acquire_bind _ name) by done. mrun.
    rewrite when_true by done. by rewrite (release_locked _ name _ s) by done.
  - by rewrite when_false by done.
Qed.

Lemma kfree_panics v e s :
  0 <= v < 4294967296 -> ~ page_ok v -> kfree v e s = Panic "kfree" s.
Proof.
  intros Hv Hn. unfold kfree.
  destruct (truth _ || _ || _) eqn:E; [done|]. by apply page_ok_checks in E.
Qed.

(** ** The free list *)

Lemma flist_head m h l : flist m h l -> h = fst (spec_alloc l).
Proof. destruct l; [done | by intros []]. Qed.

Lemma flist_head_range m h l : flist m h l -> Forall page_ok l -> 0 <= h < 4294967296.
Proof.
  intros Hf Hok. rewrite (flist_head _ _ _ Hf). destruct l as [|p l]; cbn; [lia|].
  apply Forall_cons in Hok as [Hp _]. pose proof (page_ok_range p Hp). lia.
Qed.

(** Writing into a page that is not on the list leaves the list. *)
Lemma flist_ext m m' h l :
  flist m h l -> (forall p, p ∈ l -> ld32 m p = ld32 m' p) -> flist m' h l.
Proof.
  revert h. induction l as [|p l IH]; intros h; cbn; [done|].
  intros (-> & Hp & Hl) Hm. split_and!; [done..|]. rewrite <- Hm by set_solver.
  apply IH; [done|]. set_solver.
Qed.

(** Two distinct pages do not overlap. *)
Lemma page_ok_disjoint p q : page_ok p -> page_ok q -> p <> q -> p + 4096 <= q \/ q + 4096 <= p.
Proof. intros (H1 & _) (H2 & _) Hne. mlia. Qed.

Lemma kmem_rep_free m k v l s' :
  page_ok v -> v ∉ l -> flist m (km_freelist k) l -> NoDup l -> Forall page_ok l ->
  mem s' = st32 (memset m v 1 PGSIZE) v (km_freelist k) -> km_freelist (kmem s') = v ->
  0 <= km_freelist k < 4294967296 ->
  kmem_rep s' (v :: l).
Proof.
  intros Hv Hn Hf Hnd Hok Hm Hk Hr. pose proof (page_ok_range v Hv).
  split_and!; [|by constructor|by constructor].
  cbn. rewrite Hk, Hm, ld32_st32_eq, u32_small by done. split_and!; [done|lia|].
  eapply flist_ext; [exact Hf|]. intros p Hp.
  pose proof (proj1 (Forall_forall _ _) Hok p Hp) as Hpo.
  pose proof (page_ok_disjoint p v Hpo Hv ltac:(congruence)).
  apply ld32_ext. intros b Hb. rewrite ldb_st32_ne by lia.
  rewrite ldb_memset by (unfold PGSIZE; lia). by rewrite decide_False by (unfold PGSIZE; lia).
Qed.

(** The allocator stays ready across its own calls. *)
Lemma kmem_ready_ksync s s' :
  kmem_ready s -> km_use_lock (kmem s') = km_use_lock (kmem s) ->
  kcpu s' = kcpu (ksync s) -> locks s' = locks (ksync s) -> kmem_ready s'.
Proof.
  intros Hr Hu Hc Hl Ht. rewrite Hu in Ht. destruct (Hr Ht) as [Hok Hf].
  unfold ksync in Hc, Hl. rewrite Ht in Hc, Hl. unfold lock_free in *. rewrite Hc, Hl.
  split; [by apply cpu_ok_refreshed | done].
Qed.

(** The pages [p], [p + 4096], ... [n] of them. *)
Fixpoint pages (p : Z) (n : nat) : list Z :=
  match n with
  | O => []
  | S n' => p :: pages (p + 4096) n'
  end.

Lemma elem_of_pages p n q : q ∈ pages p n -> p <= q < p + 4096 * Z.of_nat n.
Proof.
  revert p. induction n as [|n IH]; intros p; cbn [pages]; [set_solver|].
  rewrite elem_of_cons. intros [->|Hq]; [lia|]. apply IH in Hq. lia.
Qed.

Lemma freerange_loop_run n p vend l e s :
  kmem_rep s l -> kmem_ready s ->
  p mod 4096 = 0 -> kend <= p <= KERNBASE + PHYSTOP -> vend <= KERNBASE + PHYSTOP ->
  Z.of_nat n = Z.max 0 ((vend - p) / 4096) -> (forall q, q ∈ l -> q < p \/ vend <= q) ->
  exists s', freerange_loop n p vend e s = Ok tt s' e /\
    kmem_rep s' (rev (pages p n) ++ l) /\ kmem_ready s'.
Proof.
  revert p l s. induction n as [|n IH]; intros p l s Hrep Hr Ha Hk Hv Hn Hl.
  all: pose proof kend_gt; unfold KERNLINK, KERNBASE, EXTMEM, PHYSTOP in *.
  all: cbn [freerange_loop pages]; unfold PGSIZE; rewrite u32_small by lia.
  - exists s. replace (p + 4096 <=? vend) with false by mlia. done.
  - assert (p + 4096 <= vend) as Hpv by mlia.
    replace (p + 4096 <=? vend) with true by lia.
    assert (page_ok p) as Hp by (unfold page_ok, KERNBASE, PHYSTOP; split_and!; mlia).
    assert (p ∉ l) as Hpl by (intros Hin; apply Hl in Hin; mlia).
    destruct Hrep as (Hf & Hnd & Hok). rewrite (bind_ok _ _ _ _ _ _ _ (kfree_run p e s Hp Hr)).
    match goal with |- context [freerange_loop n _ vend e ?t] => set (s1 := t) end.
    edestruct (IH (p + 4096) (p :: l) s1) as (s' & Hrun & Hrep' & Hr');
      [| |mlia|lia|lia|mlia| |].
    + by apply (kmem_rep_free (mem s) (kmem s)); try done; apply (flist_head_range _ _ _ Hf).
    + by apply (kmem_ready_ksync s).
    + intros q. rewrite elem_of_cons. intros [->|Hq]; [lia|]. apply Hl in Hq. lia.
    + exists s'. split_and!; [done| |done]. cbn [rev]. by rewrite <- app_assoc.
Qed.

(** [kalloc] and [kfree] against the abstract allocator. *)
Lemma ksync_mem s : mem (ksync s) = mem s.
Proof. unfold ksync. by destruct (truth _). Qed.

Lemma kalloc_spec l e s :
  kmem_rep s l -> kmem_ready s ->
  exists s', kalloc e s = Ok (fst (spec_alloc l)) s' e /\ kmem_rep s' (snd (spec_alloc l)) /\
    s' = (ksync s) <| kmem := kmem s' |> /\ kmem_ready s' /\ mem s' = mem s.
Proof.
  intros (Hf & Hnd & Hok) Hr. eexists. rewrite kalloc_run by done. cbn zeta.
  pose proof (flist_head _ _ _ Hf) as Hh. split; [f_equal; exact Hh|].
  split_and!; [|done|by apply (kmem_ready_ksync s)|apply ksync_mem].
  unfold kmem_rep. rsimpl. rewrite ksync_mem, Hh. destruct l as [|p l]; cbn in *.
  - done.
  - destruct Hf as (_ & Hp & Hl). apply NoDup_cons in Hnd as [_ Hnd].
    apply Forall_cons in Hok as [_ Hok]. unfold truth.
    replace (p =? 0) with false by lia. done.
Qed.

Lemma kfree_spec v l e s :
  kmem_rep s l -> kmem_ready s -> page_ok v -> v ∉ l ->
  exists s', kfree v e s = Ok tt s' e /\ kmem_rep s' (spec_free v l) /\
    (forall b, b < v \/ v + 4096 <= b -> ldb (mem s') b = ldb (mem s) b) /\
    s' = (ksync s) <| mem := mem s' |> <| kmem := kmem s' |> /\ kmem_ready s'.
Proof.
  intros (Hf & Hnd & Hok) Hr Hv Hn. eexists. rewrite kfree_run by done.
  split; [done|]. split_and!; [|intros b Hb|done|by apply (kmem_ready_ksync s)].
  - by apply (kmem_rep_free (mem s) (kmem s)); try done; apply (flist_head_range _ _ _ Hf).
  - rsimpl. rewrite ldb_st32_ne by lia. rewrite ldb_memset by (unfold PGSIZE; lia).
    by rewrite decide_False by (unfold PGSIZE; lia).
Qed.

(** C23. [kalloc] refines the abstract pop: it returns 0 exactly when no page is
    free, and otherwise a free page, which it takes off the list; memory and
    the rest of the state stay as they are. *)
Theorem kalloc_refines l e s :
  kmem_rep s l -> kmem_ready s ->
  exists s', kalloc e s = Ok (fst (spec_alloc l)) s' e /\
    kmem_rep s' (snd (spec_alloc l)) /\ s' = (ksync s) <| kmem := kmem s' |>.
Proof.
  intros Hr Hk. destruct (kalloc_spec l e s Hr Hk) as (s' & ? & ? & ? & _). by exists s'.
Qed.

(** C24. [kfree] refines the abstract push: freeing an allocated page puts it
    first on the list, changes no byte outside the page, and the next [kalloc]
    returns it. *)
Theorem kfree_refines v l e s :
  kmem_rep s l -> kmem_ready s -> page_ok v -> v ∉ l ->
  exists s', kfree v e s = Ok tt s' e /\ kmem_rep s' (spec_free v l) /\
    (forall b, b < v \/ v + 4096 <= b -> ldb (mem s') b = ldb (mem s) b) /\
    s' = (ksync s) <| mem := mem s' |> <| kmem := kmem s' |>.
Proof.
  intros Hr Hk Hv Hn. destruct (kfree_spec v l e s Hr Hk Hv Hn) as (s' & ? & ? & ? & ? & _).
  by exists s'.
Qed.

(** [kfree] panics, without touching the state, on every address that is
    not the start of an allocatable page: misaligned, below the end of the
    kernel, or at or above PHYSTOP. *)
Theorem kfree_rejects v e s :
  0 <= v < 4294967296 -> ~ page_ok v -> kfree v e s = Panic "kfree" s.
Proof. apply kfree_panics. Qed.

(** [freerange] terminates and frees exactly the whole pages of
    [vstart, vend): they come off the list, last page first, before the pages
    that were free already. *)
Theorem freerange_frees vstart vend l e s :
  kmem_rep s l -> kmem_ready s ->
  kend <= vstart <= vend -> vend <= KERNBASE + PHYSTOP ->
  (forall q, q ∈ l -> q < vstart \/ vend <= q) ->
  let p := PGROUNDUP vstart in
  exists s', freerange vstart vend e s = Ok tt s' e /\ kmem_ready s' /\
    kmem_rep s' (rev (pages p (Z.to_nat ((vend - p) / PGSIZE))) ++ l).
Proof.
  intros Hrep Hr Hs Hv Hl p. pose proof kend_gt as Hk.
  assert (p = 4096 * ((vstart + 4095) / 4096)) as Hp.
  { apply PGROUNDUP_eq. unfold KERNLINK, KERNBASE, EXTMEM, PHYSTOP in *. lia. }
  unfold freerange. fold p. unfold PGSIZE.
  destruct (freerange_loop_run (Z.to_nat ((vend - p) / 4096)) p vend l e s)
    as (s' & H1 & H2 & H3); eauto.
  - rewrite Hp. mlia.
  - unfold KERNLINK, KERNBASE, EXTMEM, PHYSTOP in *. mlia.
  - lia.
  - intros q Hq. apply Hl in Hq. mlia.
Qed.

End Kalloc.

(** ** Witnesses *)

#[local] Existing Instance xv6_linker.
#[local] Existing Instance xv6_linker_ok.

(** Two pages freed after boot, before the lock is in use. *)
Definition kalloc_ex : kstate :=
  match freerange 0x80114000 0x80116800 [] kzero_locks with
  | Ok _ s _ => s | _ => kzero_locks
  end.

Lemma kmem_ready_zero : kmem_ready kzero_locks.
Proof. done. Qed.
Lemma kmem_rep_zero : kmem_rep kzero_locks [].
Proof. split_and!; [done | constructor | constructor]. Qed.

Lemma freerange_frees_witness :
  exists s', freerange 0x80114000 0x80116800 [] kzero_locks = Ok tt s' [] /\ kmem_ready s' /\
    kmem_rep s' [0x80115000; 0x80114000].
Proof.
  apply (freerange_frees 0x80114000 0x80116800 [] [] kzero_locks); try done.
  - apply kmem_rep_zero.
  - by intros q Hq%elem_of_nil.
Defined.

Lemma kalloc_ex_rep : kmem_rep kalloc_ex [0x80115000; 0x80114000].
Proof.
  split_and!.
  - vm_compute. repeat split; discriminate.
  - vm_decide.
  - vm_decide.
Qed.
Lemma kalloc_ex_ready : kmem_ready kalloc_ex.
Proof. intros H. vm_compute in H. discriminate. Qed.

Lemma kalloc_refines_witness :
  exists s', kalloc [] kalloc_ex = Ok 0x80115000 s' [] /\ kmem_rep s' [0x80114000] /\
    s' = (ksync kalloc_ex) <| kmem := kmem s' |>.
Proof. exact (kalloc_refines _ [] _ kalloc_ex_rep kalloc_ex_ready). Defined.

Lemma kfree_refines_witness :
  exists s', kfree 0x80116000 [] kalloc_ex = Ok tt s' [] /\
    kmem_rep s' [0x80116000; 0x80115000; 0x80114000] /\
    (forall b, b < 0x80116000 \/ 0x80116000 + 4096 <= b -> ldb (mem s') b = ldb (mem kalloc_ex) b) /\
    s' = (ksync kalloc_ex) <| mem := mem s' |> <| kmem := kmem s' |>.
Proof.
  apply (kfree_refines 0x80116000 _ [] _ kalloc_ex_rep kalloc_ex_ready).
  - vm_decide.
  - vm_decide.
Defined.

Lemma kfree_rejects_witness : kfree 0x80114010 [] kalloc_ex = Panic "kfree" kalloc_ex.
Proof.
  apply (kfree_rejects 0x80114010 [] kalloc_ex ltac:(lia)).
  vm_decide.
Defined.
