(* ===== verification/Consout.v ===== *)
(** * Consout: the output half of console.c, and uart.c

    [consputc] with the CGA and serial back ends, [printint], [cprintf] and
    [consoleinit]. The serial port's status is polled at most 128 times before
    each character is sent, so the polling leaves no trace in the state. *)
From S2P Require Import Prelude Memory State Spinlock.

Definition BACKSPACE : Z := 0x100.
Definition NL : Z := 10.

Definition set_cons (f : console -> console) : M unit := modify (fun s => s <| kcons ::= f |>).

Definition uartputc (c : Z) : M unit :=
  k ← gets kcons;
  when (truth (cn_hasuart k)) (set_cons (fun k => k <| cn_uart ::= (.++ [u8 c]) |>)).

(** [memmove(crt, crt+80, sizeof(crt[0])*23*80)] and the [memset] after it, on
    the cells of the screen. *)
Fixpoint crt_move (crt : gmap Z Z) (d s : Z) (n : nat) : gmap Z Z :=
  match n with
  | O => crt
  | S n' => crt_move (<[d := default 0 (crt !! s)]> crt) (d + 1) (s + 1) n'
  end.
Fixpoint crt_clear (crt : gmap Z Z) (d : Z) (n : nat) : gmap Z Z :=
  match n with
  | O => crt
  | S n' => crt_clear (<[d := 0]> crt) (d + 1) n'
  end.

Definition cga_cell (c : Z) : Z := Z.lor (Z.land c 0xff) 0x0700.

(** The cursor and the cells after [cgaputc(c)]. *)
Definition cga_step (pos : Z) (crt : gmap Z Z) (c : Z) : Z * gmap Z Z :=
  let '(pos, crt) :=
    if c =? NL then (pos + (80 - Z.rem pos 80), crt)
    else if c =? BACKSPACE then (if 0 <? pos then pos - 1 else pos, crt)
    else (pos + 1, <[pos := cga_cell c]> crt) in
  let '(pos, crt) :=
    if 24 <=? Z.quot pos 80 then
      let crt := crt_move crt 0 80 (23 * 80) in
      (pos - 80, crt_clear crt (pos - 80) (Z.to_nat (u32 (2 * (24 * 80 - (pos - 80))) / 2)))
    else (pos, crt) in
  (u16 pos, <[pos := cga_cell 32]> crt).

Definition cgaputc (c : Z) : M unit :=
  set_cons (fun k =>
    let '(pos, crt) := cga_step (cn_pos k) (cn_crt k) c in
    k <| cn_pos := pos |> <| cn_crt := crt |>).

Definition consputc (c : Z) : M unit :=
  k ← gets kcons;
  if truth (cn_panicked k) then
    modify (fun s => s <| kcpu ::= fun c => c <| c_if := false |> |>) ;; diverge
  else
    (if c =? BACKSPACE then uartputc 8 ;; uartputc 32 ;; uartputc 8 else uartputc c) ;;
    cgaputc c.

(** The digits [printint] puts in [buf], least significant first. *)
Definition digits : list Z := bytes_of_string "0123456789abcdef".
Fixpoint print_digits (fuel : nat) (x base : Z) : list Z :=
  match fuel with
  | O => []
  | S n =>
      let d := digits !!! Z.to_nat (x mod base) in
      if x / base =? 0 then [d] else d :: print_digits n (x / base) base
  end.

(** The characters [printint(xx, base, sign)] sends, in order. A 32 bit number
    has at most 32 digits. *)
Definition printint_chars (xx base sign : Z) : list Z :=
  let neg := truth sign && (xx <? 0) in
  let x := u32 (if neg then - xx else xx) in
  rev (print_digits 32 x base ++ (if neg then [45] else [])).

Definition printint (xx base sign : Z) : M unit :=
  mforeach (printint_chars xx base sign) consputc.

(** An argument of [cprintf]: a word, or the string a pointer argument refers
    to ([None] for a null pointer). *)
Inductive carg := A_int (z : Z) | A_str (s : option (list Z)).

Definition arg_int (args : list carg) : M (Z * list carg) :=
  match args with A_int z :: args' => mret (z, args') | _ => fault end.
Definition arg_str (args : list carg) : M (list Z * list carg) :=
  match args with
  | A_str o :: args' => mret (default (bytes_of_string "(null)") o, args')
  | _ => fault
  end.

(** The [for] loop of [cprintf] over the format. *)
Fixpoint cprintf_loop (fmt : list Z) (args : list carg) : M unit :=
  match fmt with
  | [] => mret tt
  | c :: fmt1 =>
      if negb (c =? 37) then consputc c ;; cprintf_loop fmt1 args
      else match fmt1 with
           | [] => mret tt
           | c :: fmt' =>
               if c =? 100 then
                 '(z, args) ← arg_int args; printint (s32 z) 10 1 ;; cprintf_loop fmt' args
               else if (c =? 120) || (c =? 112) then
                 '(z, args) ← arg_int args; printint (s32 z) 16 0 ;; cprintf_loop fmt' args
               else if c =? 115 then
                 '(t, args) ← arg_str args; mforeach t consputc ;; cprintf_loop fmt' args
               else if c =? 37 then consputc 37 ;; cprintf_loop fmt' args
               else consputc 37 ;; consputc c ;; cprintf_loop fmt' args
           end
  end.

Definition cprintf (fmt : string) (args : list carg) : M unit :=
  k ← gets kcons;
  let locking := cn_locking k in
  when (truth locking) (acquire L_cons) ;;
  cprintf_loop (bytes_of_string fmt) args ;;
  when (truth locking) (release L_cons).

(** The interrupt routing [consoleinit] ends with is the interrupt
    controllers', which are not part of the state. *)
Definition CONSOLE : nat := 1.
Definition consoleinit : M unit :=
  initlock L_cons "console" ;;
  initlock L_input "input" ;;
  modify (fun s => s <| kdevsw ::= <[CONSOLE := true]> |>) ;;
  set_cons (fun k => k <| cn_locking := 1 |>).

(** [uartinit], given what the line status and data registers read. *)
Definition uartinit (status : Z) : M unit :=
  if status =? 0xFF then mret tt
  else
    set_cons (fun k => k <| cn_hasuart := 1 |>) ;;
    mforeach (bytes_of_string "xv6..." ++ [NL]) uartputc.
Definition uartgetc (status rbr : Z) : M Z :=
  k ← gets kcons;
  if negb (truth (cn_hasuart k)) then mret (-1)
  else if negb (truth (Z.land status 0x01)) then mret (-1)
  else mret rbr.

(** ** The screen *)

Lemma lookup_crt_move crt d s n c : ~ (d <= c < d + Z.of_nat n) -> crt_move crt d s n !! c = crt !! c.
Proof.
  revert crt d s. induction n as [|n IH]; intros crt d s Hc; cbn; [done|].
  rewrite IH by lia. by rewrite lookup_insert_ne by lia.
Qed.
Lemma lookup_crt_clear crt d n c : ~ (d <= c < d + Z.of_nat n) -> crt_clear crt d n !! c = crt !! c.
Proof.
  revert crt d. induction n as [|n IH]; intros crt d Hc; cbn; [done|].
  rewrite IH by lia. by rewrite lookup_insert_ne by lia.
Qed.

(** Advancing the cursor to [q <= 1920] and scrolling if it left the screen. *)
Lemma cga_scroll q crt :
  0 <= q <= 1920 ->
  let r := if 24 <=? Z.quot q 80 then
      let crt := crt_move crt 0 80 (23 * 80) in
      (q - 80, crt_clear crt (q - 80) (Z.to_nat (u32 (2 * (24 * 80 - (q - 80))) / 2)))
    else (q, crt) in
  0 <= fst r < 1920 /\ forall c, ~ (0 <= c < 1920) -> snd r !! c = crt !! c.
Proof.
  intros Hq. rewrite Z.quot_div_nonneg by lia.
  destruct (24 <=? q / 80) eqn:E.
  - assert (q = 1920) as -> by mlia. cbn zeta iota. unfold fst, snd. split; [lia|]. intros c Hc.
    rewrite lookup_crt_clear, lookup_crt_move; [done|lia|].
    replace (u32 (2 * (24 * 80 - (1920 - 80))) / 2) with 80 by done. lia.
  - split; cbn; [mlia | done].
Qed.

(** ** Numbers *)

(** The value of a digit of [digits], and of a numeral. *)
Definition digit_val (d : Z) : Z := if d <? 58 then d - 48 else d - 87.
Definition numeral (base : Z) (ds : list Z) : Z :=
  fold_left (fun a d => a * base + digit_val d) ds 0.

Lemma digit_val_digits k : 0 <= k < 16 -> digit_val (digits !!! Z.to_nat k) = k.
Proof.
  intros Hk. assert (k ∈ seqZ 0 16) as Hin by (apply elem_of_seqZ; lia).
  clear Hk. revert k Hin. apply Forall_forall. vm_decide.
Qed.

Lemma numeral_snoc base ds d : numeral base (ds ++ [d]) = numeral base ds * base + digit_val d.
Proof. unfold numeral. by rewrite fold_left_app. Qed.

(** The digits, most significant first, are the number; there is no leading
    zero, and no more digits than the bound. *)
Lemma print_digits_correct fuel x base :
  2 <= base <= 16 -> 0 <= x < base ^ Z.of_nat fuel -> (0 < fuel)%nat ->
  let ds := rev (print_digits fuel x base) in
  numeral base ds = x /\ Forall (fun d => 0 <= digit_val d < base) ds /\
  (length ds <= fuel)%nat /\ (x <> 0 -> digit_val (hd 0 ds) <> 0) /\ ds <> [].
Proof.
  intros Hb. revert x. induction fuel as [|n IH]; intros x Hx Hf; [lia|].
  cbn [print_digits]. pose proof (Z.mod_pos_bound x base ltac:(lia)) as Hm.
  pose proof (digit_val_digits (x mod base) ltac:(lia)) as Hd.
  pose proof (Z.div_mod x base ltac:(lia)) as Hdm.
  destruct (Z.eqb_spec (x / base) 0) as [E|E]; cbn [rev app].
  - unfold numeral. cbn [fold_left length hd]. rewrite Hd. split_and!; [lia| |lia|lia|done].
    constructor; [by rewrite Hd | constructor].
  - rewrite Nat2Z.inj_succ, Z.pow_succ_r in Hx by lia.
    assert (0 <= x / base < base ^ Z.of_nat n) as Hx'.
    { split; [apply Z.div_pos; lia | apply Z.div_lt_upper_bound; lia]. }
    destruct n as [|n]; [change (base ^ Z.of_nat 0) with 1 in Hx'; lia|].
    destruct (IH (x / base) Hx' ltac:(lia)) as (Hv & Ha & Hl & Hz & Hne). split_and!.
    + rewrite numeral_snoc, Hv, Hd. lia.
    + apply Forall_app. split; [done|]. constructor; [by rewrite Hd | constructor].
    + rewrite length_app. cbn [length]. lia.
    + intros _. destruct (rev _); [done|]. by apply Hz.
    + by destruct (rev _).
Qed.

(** Ten digits are enough in base 10, eight in base 16. *)
Lemma print_digits_fuel m n x base :
  2 <= base -> 0 <= x < base ^ Z.of_nat m -> (0 < m <= n)%nat ->
  print_digits n x base = print_digits m x base.
Proof.
  intros Hb. revert n x. induction m as [|m IH]; intros [|n] x Hx Hmn; [lia..|].
  cbn. destruct (Z.eqb_spec (x / base) 0) as [E|E]; [done|]. f_equal.
  rewrite Nat2Z.inj_succ, Z.pow_succ_r in Hx by lia.
  assert (0 <= x / base < base ^ Z.of_nat m) as Hx'.
  { split; [apply Z.div_pos; lia | apply Z.div_lt_upper_bound; lia]. }
  destruct m as [|m]; [change (base ^ Z.of_nat 0) with 1 in Hx'; lia|].
  apply IH; lia.
Qed.

(** [printint] prints the numeral of its argument: a minus sign exactly
    for a negative number printed signed, then the digits of the absolute value
    (of the unsigned value when unsigned), most significant first, without a
    leading zero; the characters fit in its 16 byte buffer, for INT_MIN too. *)
Theorem printint_correct xx base sign :
  base = 10 \/ base = 16 -> - 2147483648 <= xx < 2147483648 ->
  let neg := truth sign && (xx <? 0) in
  exists ds,
    printint_chars xx base sign = (if neg then [45] else []) ++ ds /\
    numeral base ds = (if neg then - xx else u32 xx) /\
    Forall (fun d => 0 <= digit_val d < base) ds /\
    (xx <> 0 -> digit_val (hd 0 ds) <> 0) /\
    (length (printint_chars xx base sign) <= 16)%nat.
Proof.
  intros Hb Hx neg. unfold printint_chars. fold neg.
  assert (neg = true -> xx < 0) as Hn by (subst neg; destruct (truth sign); cbn; lia).
  clearbody neg.
  set (x := u32 (if neg then - xx else xx)).
  assert (x = if neg then - xx else u32 xx) as Ex by (subst x; destruct neg; mlia).
  assert (0 <= x < 4294967296) as Hr by apply u32_range.
  assert (x < base ^ Z.of_nat 10) as H10.
  { destruct Hb as [-> | ->]; [change (10 ^ Z.of_nat 10) with 10000000000
                              |change (16 ^ Z.of_nat 10) with 1099511627776]; lia. }
  rewrite (print_digits_fuel 10 32) by (destruct Hb; lia).
  destruct (print_digits_correct 10 x base ltac:(lia) ltac:(lia) ltac:(lia)) as (H1&H2&H3&H4&H5).
  exists (rev (print_digits 10 x base)). rewrite rev_app_distr. split_and!.
  - by destruct neg.
  - by rewrite H1.
  - done.
  - intros Hz. apply H4. rewrite Ex. destruct neg; mlia.
  - rewrite length_app. destruct neg; cbn [rev app length]; lia.
Qed.
Lemma printint_correct_witness :
  exists ds, printint_chars (-2147483648) 10 1 = [45] ++ ds /\ numeral 10 ds = 2147483648.
Proof.
  destruct (printint_correct (-2147483648) 10 1 ltac:(by left) ltac:(lia)) as (ds & H1 & H2 & _).
  by exists ds.
Defined.

(** C37. A character sent to the screen leaves the cursor on the screen and
    changes no cell outside its 24 lines, whether it prints, ends a line, erases
    or scrolls. *)
Theorem cga_step_bounds pos crt c :
  0 <= pos < 1920 ->
  let r := cga_step pos crt c in
  0 <= fst r < 1920 /\ forall k, ~ (0 <= k < 1920) -> snd r !! k = crt !! k.
Proof.
  intros Hp. cbn zeta. unfold cga_step.
  set (a := if c =? NL then (_, _) else _).
  assert (0 <= fst a <= 1920 /\ forall k, ~ (0 <= k < 1920) -> snd a !! k = crt !! k) as [Ha1 Ha2].
  { subst a. destruct (c =? NL); [|destruct (c =? BACKSPACE)]; cbn.
    - rewrite Z.rem_mod_nonneg by lia. split; [mlia | done].
    - destruct (0 <? pos) eqn:E; split; first [lia | done].
    - split; [lia|]. intros k Hk. by rewrite lookup_insert_ne by lia. }
  destruct a as [q crt1]; cbn in Ha1, Ha2.
  destruct (cga_scroll q crt1 Ha1) as [Hs1 Hs2]. cbv zeta in Hs1, Hs2 |- *.
  destruct (if 24 <=? _ then _ else _) as [q2 crt2]; unfold fst, snd in *.
  unfold u16, W16. rewrite Z.mod_small by lia. split; [lia|]. intros k Hk.
  rewrite lookup_insert_ne by lia. rewrite Hs2, Ha2 by done. done.
Qed.
Lemma cga_step_bounds_witness : 0 <= fst (cga_step 1919 ∅ 65) < 1920.
Proof. exact (proj1 (cga_step_bounds 1919 ∅ 65 ltac:(lia))). Defined.
