(* ===== verification/Vm.v ===== *)
(** * Vm: vm.c

    The two level page tables, as words of the physical memory: [walkpgdir],
    [mappages], the set up, growth, copy and release of address spaces, and the
    copies between address spaces. The loading of a segment from a file
    ([loaduvm]) is in Exec. The segment descriptors ([seginit], the TSS
    descriptor of [switchuvm]) are in Segments and not part of the state. *)
From S2P Require Import Prelude Memory CString State Spinlock Kalloc Consout.

(** ** Operations *)

(** A line of output. *)
Definition nl : string := String (Ascii.ascii_of_nat 10) EmptyString.

Definition set_mem (f : gmap Z Z -> gmap Z Z) : M unit := modify (fun s => s <| mem ::= f |>).

(** struct kmap. *)
Record kmapent := Kmapent { virt : Z; phys_start : Z; phys_end : Z; kperm : Z }.

Section Vm.
Context `{Linker}.

Definition walkpgdir (pgdir va : Z) (alloc : bool) : M Z :=
  let pde := pgdir + 4 * PDX va in
  e ← gets (fun s => ld32 (mem s) pde);
  if truth (Z.land e PTE_P) then mret (p2v (PTE_ADDR e) + 4 * PTX va)
  else if negb alloc then mret 0
  else
    pgtab ← kalloc;
    if pgtab =? 0 then mret 0
    else
      set_mem (fun m => memset m pgtab 0 PGSIZE) ;;
      set_mem (fun m => st32 m pde (Z.lor (Z.lor (Z.lor (v2p pgtab) PTE_P) PTE_W) PTE_U)) ;;
      mret (pgtab + 4 * PTX va).

Fixpoint mappages_loop (fuel : nat) (pgdir a last pa perm : Z) : M Z :=
  match fuel with
  | O => diverge
  | S n =>
      pte ← walkpgdir pgdir a true;
      if pte =? 0 then mret (-1)
      else
        e ← gets (fun s => ld32 (mem s) pte);
        if truth (Z.land e PTE_P) then panic "remap"
        else
          set_mem (fun m => st32 m pte (Z.lor (Z.lor pa perm) PTE_P)) ;;
          if a =? last then mret 0
          else mappages_loop n pgdir (u32 (a + PGSIZE)) last (u32 (pa + PGSIZE)) perm
  end.
(** The loop visits the pages from [a] to [last], upwards around 2^32. *)
Definition mappages (pgdir va size pa perm : Z) : M Z :=
  let a := PGROUNDDOWN va in
  let last := PGROUNDDOWN (u32 (va + size - 1)) in
  mappages_loop (S (Z.to_nat (u32 (last - a) / PGSIZE))) pgdir a last pa perm.

(** The table [kmap]. *)
Definition kmap : list kmapent :=
  [Kmapent KERNBASE 0 EXTMEM PTE_W;
   Kmapent KERNLINK (v2p KERNLINK) (v2p kdata) 0;
   Kmapent kdata (v2p kdata) PHYSTOP PTE_W;
   Kmapent DEVSPACE DEVSPACE 0 PTE_W].

Fixpoint setupkvm_loop (ks : list kmapent) (pgdir : Z) : M Z :=
  match ks with
  | [] => mret pgdir
  | k :: ks' =>
      r ← mappages pgdir (virt k) (u32 (phys_end k - phys_start k)) (phys_start k) (kperm k);
      if r <? 0 then mret 0 else setupkvm_loop ks' pgdir
  end.
Definition setupkvm : M Z :=
  pgdir ← kalloc;
  if pgdir =? 0 then mret 0
  else
    set_mem (fun m => memset m pgdir 0 PGSIZE) ;;
    if DEVSPACE <? p2v PHYSTOP then panic "PHYSTOP too high"
    else setupkvm_loop kmap pgdir.

Definition lcr3 (pa : Z) : M unit := modify (fun s => s <| kcpu ::= fun c => c <| c_cr3 := pa |> |>).
Definition switchkvm : M unit := k ← gets kpgdir; lcr3 (v2p k).
Definition kvmalloc : M unit :=
  k ← setupkvm; modify (fun s => s <| kpgdir := k |>) ;; switchkvm.

(** [switchuvm(p)]: the stack comes from the current process, the page table
    from [p]. *)
Definition switchuvm (i : nat) : M unit :=
  pushcli ;;
  cur ← gets (fun s => c_proc (kcpu s) ≫= fun j => ptable s !! j);
  cur ← must cur;
  modify (fun s => s <| kcpu ::= fun c =>
    c <| c_ss0 := SEG_KDATA * 8 |> <| c_esp0 := u32 (p_kstack cur + KSTACKSIZE) |> |>) ;;
  p ← gets (fun s => ptable s !! i);
  p ← must p;
  if p_pgdir p =? 0 then panic "switchuvm: no pgdir"
  else lcr3 (v2p (p_pgdir p)) ;; popcli.

(** [inituvm]: [kalloc]'s result is not tested; 0 is not a mapped address when
    it is called. *)
Definition inituvm (pgdir : Z) (init : list Z) : M unit :=
  if PGSIZE <=? Z.of_nat (length init) then panic "inituvm: more than a page"
  else
    pg ← kalloc;
    if pg =? 0 then fault
    else
      set_mem (fun m => memset m pg 0 PGSIZE) ;;
      r ← mappages pgdir 0 PGSIZE (v2p pg) (Z.lor PTE_W PTE_U);
      set_mem (fun m => stbytes m pg init).

Fixpoint deallocuvm_loop (fuel : nat) (pgdir a oldsz : Z) : M unit :=
  if a <? oldsz then
    match fuel with
    | O => diverge
    | S n =>
        pte ← walkpgdir pgdir a false;
        if pte =? 0 then
          deallocuvm_loop n pgdir (u32 (u32 (a + (NPTENTRIES - 1) * PGSIZE) + PGSIZE)) oldsz
        else
          e ← gets (fun s => ld32 (mem s) pte);
          (if truth (Z.land e PTE_P) then
             let pa := PTE_ADDR e in
             if pa =? 0 then panic "kfree"
             else kfree (p2v pa) ;; set_mem (fun m => st32 m pte 0)
           else mret tt) ;;
          deallocuvm_loop n pgdir (u32 (a + PGSIZE)) oldsz
    end
  else mret tt.
Definition deallocuvm (pgdir oldsz newsz : Z) : M Z :=
  if oldsz <=? newsz then mret oldsz
  else
    let a := PGROUNDUP newsz in
    deallocuvm_loop (Z.to_nat ((oldsz - a) / PGSIZE + 1)) pgdir a oldsz ;; mret newsz.

Fixpoint allocuvm_loop (fuel : nat) (pgdir a oldsz newsz : Z) : M Z :=
  if a <? newsz then
    match fuel with
    | O => diverge
    | S n =>
        pg ← kalloc;
        if pg =? 0 then
          cprintf ("allocuvm out of memory" +:+ nl) [] ;;
          r ← deallocuvm pgdir newsz oldsz;
          mret 0
        else
          set_mem (fun m => memset m pg 0 PGSIZE) ;;
          r ← mappages pgdir a PGSIZE (v2p pg) (Z.lor PTE_W PTE_U);
          allocuvm_loop n pgdir (u32 (a + PGSIZE)) oldsz newsz
    end
  else mret newsz.
Definition allocuvm (pgdir oldsz newsz : Z) : M Z :=
  if KERNBASE <=? newsz then mret 0
  else if newsz <? oldsz then mret oldsz
  else
    let a := PGROUNDUP oldsz in
    allocuvm_loop (Z.to_nat ((newsz - a) / PGSIZE + 1)) pgdir a oldsz newsz.

Definition freevm (pgdir : Z) : M unit :=
  if pgdir =? 0 then panic "freevm: no pgdir"
  else
    r ← deallocuvm pgdir KERNBASE 0;
    mforeach (seqZ 0 NPDENTRIES) (fun i =>
      e ← gets (fun s => ld32 (mem s) (pgdir + 4 * i));
      when (truth (Z.land e PTE_P)) (kfree (p2v (PTE_ADDR e)))) ;;
    kfree pgdir.

Definition clearpteu (pgdir uva : Z) : M unit :=
  pte ← walkpgdir pgdir uva false;
  if pte =? 0 then panic "clearpteu"
  else set_mem (fun m => st32 m pte (Z.land (ld32 m pte) (u32 (Z.lnot PTE_U)))).

Fixpoint copyuvm_loop (fuel : nat) (pgdir d i sz : Z) : M Z :=
  if i <? sz then
    match fuel with
    | O => diverge
    | S n =>
        pte ← walkpgdir pgdir i false;
        if pte =? 0 then panic "copyuvm: pte should exist"
        else
          e ← gets (fun s => ld32 (mem s) pte);
          if negb (truth (Z.land e PTE_P)) then panic "copyuvm: page not present"
          else
            let pa := PTE_ADDR e in
            let flags := PTE_FLAGS e in
            pg ← kalloc;
            if pg =? 0 then freevm d ;; mret 0
            else
              set_mem (fun m => memmove m pg (p2v pa) PGSIZE) ;;
              r ← mappages d i PGSIZE (v2p pg) flags;
              if r <? 0 then freevm d ;; mret 0
              else copyuvm_loop n pgdir d (u32 (i + PGSIZE)) sz
    end
  else mret d.
Definition copyuvm (pgdir sz : Z) : M Z :=
  d ← setupkvm;
  if d =? 0 then mret 0
  else copyuvm_loop (Z.to_nat (sz / PGSIZE)) pgdir d PGSIZE sz.

(** [uva2ka] reads the entry [walkpgdir] returns without testing for 0. *)
Definition uva2ka (pgdir uva : Z) : M Z :=
  pte ← walkpgdir pgdir uva false;
  if pte =? 0 then fault
  else
    e ← gets (fun s => ld32 (mem s) pte);
    if negb (truth (Z.land e PTE_P)) then mret 0
    else if negb (truth (Z.land e PTE_U)) then mret 0
    else mret (p2v (PTE_ADDR e)).

(** [copyout] of the bytes [buf]; an iteration copies at least one. *)
Fixpoint copyout_loop (fuel : nat) (pgdir va : Z) (buf : list Z) : M Z :=
  match buf with
  | [] => mret 0
  | _ =>
      match fuel with
      | O => diverge
      | S k =>
          let va0 := PGROUNDDOWN va in
          pa0 ← uva2ka pgdir va0;
          if pa0 =? 0 then mret (-1)
          else
            let n := Z.min (PGSIZE - (va - va0)) (Z.of_nat (length buf)) in
            set_mem (fun m => stbytes m (pa0 + (va - va0)) (take (Z.to_nat n) buf)) ;;
            copyout_loop k pgdir (u32 (va0 + PGSIZE)) (drop (Z.to_nat n) buf)
      end
  end.
Definition copyout (pgdir va : Z) (buf : list Z) : M Z := copyout_loop (length buf) pgdir va buf.

End Vm.

(** ** Accesses through the current page table

    The kernel follows pointers the user passed: an address below KERNBASE goes
    through the page table in %cr3 (present, and writable for a store, since
    entry.S sets CR0_WP); the kernel's own addresses are mapped as they are. *)
Definition upage (m : gmap Z Z) (pgdir va : Z) : option Z :=
  let e := ld32 m (pgdir + 4 * PDX va) in
  if truth (Z.land e PTE_P) then Some (ld32 m (p2v (PTE_ADDR e) + 4 * PTX va)) else None.
Definition kaddr (w : bool) (s : kstate) (va : Z) : option Z :=
  if KERNBASE <=? va then Some va
  else
    e ← upage (mem s) (p2v (c_cr3 (kcpu s))) va;
    if truth (Z.land e PTE_P) && (negb w || truth (Z.land e PTE_W))
    then Some (p2v (PTE_ADDR e) + va mod PGSIZE) else None.

Definition vldb (va : Z) : M Z :=
  a ← gets (fun s => kaddr false s va); a ← must a; gets (fun s => ldb (mem s) a).
Definition vstb (va v : Z) : M unit :=
  a ← gets (fun s => kaddr true s va); a ← must a; set_mem (fun m => stb m a v).

Fixpoint vldbytes (va : Z) (n : nat) : M (list Z) :=
  match n with
  | O => mret []
  | S n' => b ← vldb va; l ← vldbytes (u32 (va + 1)) n'; mret (b :: l)
  end.
Fixpoint vstbytes (va : Z) (l : list Z) : M unit :=
  match l with
  | [] => mret tt
  | b :: l' => vstb va b ;; vstbytes (u32 (va + 1)) l'
  end.
Definition vld32 (va : Z) : M Z := l ← vldbytes va 4; mret (le32 l 0).
Definition vst32 (va v : Z) : M unit := vstbytes va (bytes32 v).
