(* ===== verification/Pagetable.v ===== *)
(** * Pagetable: correctness of vm.c

    The mapping a page table stands for ([pte]), the well-formedness of the
    table ([ptab]: which pages it is made of), and what [walkpgdir], [mappages],
    [copyout] and the functions over them do to it. *)
From S2P Require Import Prelude Memory CString State Spinlock Kalloc Consout Vm.

(** ** Page table entries *)

Definition present (e : Z) : bool := truth (Z.land e PTE_P).
Definition ptpage (e : Z) : Z := p2v (PTE_ADDR e).

(** The address of the entry for [va], and the entry; 0 where there is no
    table. *)
Definition pte_of (m : gmap Z Z) (pd va : Z) : option Z :=
  let e := ld32 m (pd + 4 * PDX va) in
  if present e then Some (ptpage e + 4 * PTX va) else None.
Definition pte (m : gmap Z Z) (pd va : Z) : Z :=
  match pte_of m pd va with Some a => ld32 m a | None => 0 end.

Lemma present_odd e : present e = Z.odd e.
Proof.
  unfold present, truth, PTE_P. rewrite <- Z.bit0_odd. change 1 with (Z.ones 1).
  rewrite Z.land_ones by lia. change (2 ^ 1) with 2. rewrite Z.bit0_odd.
  rewrite Zmod_odd. by destruct (Z.odd e).
Qed.

(** A page address and flags below 4096 share no bit. *)
Lemma lor_flags p f : p mod 4096 = 0 -> 0 <= f < 4096 -> Z.lor p f = p + f.
Proof.
  intros Hp Hf. by apply (lor_low 12).
Qed.

Lemma PTX_range va : 0 <= va < 4294967296 -> 0 <= PTX va < 1024.
Proof. intros. rewrite PTX_eq by done. mlia. Qed.
Lemma PDX_range va : 0 <= va < 4294967296 -> 0 <= PDX va < 1024.
Proof. intros. rewrite PDX_eq by done. mlia. Qed.
(** The two indices determine the page. *)
Lemma PDX_PTX_inj a b :
  0 <= a < 4294967296 -> 0 <= b < 4294967296 ->
  PDX a = PDX b -> PTX a = PTX b -> a / 4096 = b / 4096.
Proof. intros Ha Hb. rewrite !PDX_eq, !PTX_eq by done. mlia. Qed.
Lemma PDX_page a b :
  0 <= a < 4294967296 -> 0 <= b < 4294967296 -> a / 4096 = b / 4096 -> PDX a = PDX b.
Proof. intros Ha Hb. rewrite !PDX_eq by done. mlia. Qed.
Lemma PTX_page a b :
  0 <= a < 4294967296 -> 0 <= b < 4294967296 -> a / 4096 = b / 4096 -> PTX a = PTX b.
Proof. intros Ha Hb. rewrite !PTX_eq by done. mlia. Qed.

Section Pagetable.
Context `{LinkerOk}.

(** The directory entry [walkpgdir] stores for a new table. *)
Definition pde_new (p : Z) : Z := Z.lor (Z.lor (Z.lor (v2p p) PTE_P) PTE_W) PTE_U.
Lemma pde_new_eq p : page_ok p -> pde_new p = p - KERNBASE + 7.
Proof.
  intros Hp. pose proof (page_ok_range p Hp). destruct Hp as (Ha & _).
  unfold pde_new, v2p, PTE_P, PTE_W, PTE_U, KERNBASE in *.
  rewrite u32_small by lia. rewrite <- !Z.lor_assoc. change (Z.lor 1 (Z.lor 2 4)) with 7.
  rewrite lor_flags by mlia. lia.
Qed.
Lemma pde_new_present p : page_ok p -> present (u32 (pde_new p)) = true.
Proof.
  intros Hp. rewrite pde_new_eq by done. pose proof (page_ok_range p Hp).
  destruct Hp as (Ha & _). unfold KERNBASE. rewrite u32_small by lia.
  rewrite present_odd, Zodd_mod. apply Z.eqb_eq. mlia.
Qed.
Lemma pde_new_page p : page_ok p -> ptpage (u32 (pde_new p)) = p.
Proof.
  intros Hp. rewrite pde_new_eq by done. pose proof (page_ok_range p Hp).
  destruct Hp as (Ha & _). unfold ptpage, p2v, KERNBASE. rewrite (u32_small (_ + 7)) by lia.
  rewrite PTE_ADDR_eq by lia. mlia.
Qed.

(** ** Well-formed page tables

    [ptab m pd T]: the directory [pd] refers only to tables of the list [T],
    each from one entry, and the pages are distinct. *)
Record ptab (m : gmap Z Z) (pd : Z) (T : list Z) : Prop := {
  pt_dir : page_ok pd;
  pt_pages : Forall page_ok T;
  pt_nodup : NoDup (pd :: T);
  pt_tab i : 0 <= i < 1024 -> present (ld32 m (pd + 4 * i)) = true ->
    ptpage (ld32 m (pd + 4 * i)) ∈ T;
  pt_inj i j : 0 <= i < 1024 -> 0 <= j < 1024 ->
    present (ld32 m (pd + 4 * i)) = true -> present (ld32 m (pd + 4 * j)) = true ->
    ptpage (ld32 m (pd + 4 * i)) = ptpage (ld32 m (pd + 4 * j)) -> i = j;
}.

(** [m] and [m'] agree on the bytes of the pages [P]. *)
Definition agree (P : list Z) (m m' : gmap Z Z) : Prop :=
  forall p b, p ∈ P -> p <= b < p + 4096 -> ldb m b = ldb m' b.
(** [m] and [m'] agree outside the pages [P]. *)
Definition agree_out (P : list Z) (m m' : gmap Z Z) : Prop :=
  forall b, (forall p, p ∈ P -> ~ (p <= b < p + 4096)) -> ldb m b = ldb m' b.

Lemma agree_word P m m' p i :
  agree P m m' -> p ∈ P -> 0 <= i < 1024 -> ld32 m (p + 4 * i) = ld32 m' (p + 4 * i).
Proof. intros Ha Hp Hi. apply ld32_ext. intros b Hb. apply (Ha p); [done | lia]. Qed.

Lemma agree_of_out P Q m m' :
  agree_out Q m m' -> Forall page_ok P -> Forall page_ok Q ->
  (forall p, p ∈ P -> p ∉ Q) -> agree P m m'.
Proof.
  intros Ho HP HQ Hd p b Hp Hb. apply Ho. intros q Hq Hqb.
  rewrite Forall_forall in HP, HQ.
  destruct (decide (p = q)) as [->|Hne]; [by apply (Hd q)|].
  destruct (page_ok_disjoint p q (HP p Hp) (HQ q Hq) Hne); lia.
Qed.

Lemma ptab_pages m pd T : ptab m pd T -> Forall page_ok (pd :: T).
Proof. intros Hp. constructor; [apply (pt_dir _ _ _ Hp) | apply (pt_pages _ _ _ Hp)]. Qed.

(** The entry of [va] lies in a table. *)
Lemma pte_of_table m pd T va a :
  ptab m pd T -> 0 <= va < 4294967296 -> pte_of m pd va = Some a ->
  exists t, t ∈ T /\ page_ok t /\ a = t + 4 * PTX va /\
    t = ptpage (ld32 m (pd + 4 * PDX va)) /\ present (ld32 m (pd + 4 * PDX va)) = true.
Proof.
  intros Hp Hv. unfold pte_of. destruct (present _) eqn:E; [|done]. intros [= <-].
  pose proof (pt_tab _ _ _ Hp _ (PDX_range va Hv) E) as Ht.
  eexists. split_and!; try done. by apply (proj1 (Forall_forall _ _) (pt_pages _ _ _ Hp)).
Qed.

(** What a table means depends only on its own pages. *)
Lemma pte_of_agree m m' pd T va :
  ptab m pd T -> agree (pd :: T) m m' -> 0 <= va < 4294967296 ->
  pte_of m' pd va = pte_of m pd va.
Proof.
  intros Hp Ha Hv. unfold pte_of.
  rewrite <- (agree_word _ m m' pd _ Ha); [done | by left | by apply PDX_range].
Qed.
Lemma pte_agree m m' pd T va :
  ptab m pd T -> agree (pd :: T) m m' -> 0 <= va < 4294967296 ->
  pte m' pd va = pte m pd va.
Proof.
  intros Hp Ha Hv. unfold pte. rewrite (pte_of_agree m m' pd T) by done.
  destruct (pte_of m pd va) as [a|] eqn:E; [|done].
  destruct (pte_of_table _ _ _ _ _ Hp Hv E) as (t & Ht & _ & -> & _).
  symmetry. apply (agree_word (pd :: T)); [done | by right | by apply PTX_range].
Qed.
Lemma ptab_agree m m' pd T : ptab m pd T -> agree (pd :: T) m m' -> ptab m' pd T.
Proof.
  intros [H1 H2 H3 H4 H5] Ha.
  assert (forall i, 0 <= i < 1024 -> ld32 m' (pd + 4 * i) = ld32 m (pd + 4 * i)) as Hw.
  { intros i Hi. symmetry. apply (agree_word (pd :: T)); [done | by left | done]. }
  split; try done.
  - intros i Hi. rewrite Hw by done. by apply H4.
  - intros i j Hi Hj. rewrite !Hw by done. by apply H5.
Qed.

(** ** The state around the page tables *)

(** Only the memory, the allocator and the processor's saved interrupt state
    may differ. *)
Definition vm_step (s s' : kstate) : Prop :=
  s' = s <| mem := mem s' |> <| kmem := kmem s' |> <| kcpu := kcpu s' |> /\
  (kcpu s' = kcpu s \/ kcpu s' = refreshed (kcpu s)).

Lemma refreshed_idem c : refreshed (refreshed c) = refreshed c.
Proof.
  unfold refreshed. destruct c; cbv [upd]; cbn. by destruct (_ =? 0).
Qed.
Lemma vm_step_refl s : vm_step s s.
Proof. split; [by destruct s | by left]. Qed.
Lemma vm_step_trans s1 s2 s3 : vm_step s1 s2 -> vm_step s2 s3 -> vm_step s1 s3.
Proof.
  intros [H1 C1] [H2 C2]. split.
  - rewrite H2. rewrite H1. done.
  - destruct C1 as [C1|C1], C2 as [C2|C2]; rewrite C2, C1, ?refreshed_idem; auto.
Qed.
Lemma vm_step_mem s f : vm_step s (s <| mem ::= f |>).
Proof. split; [by destruct s | by left]. Qed.
Lemma vm_step_kalloc s k : vm_step s ((ksync s) <| kmem := k |>).
Proof.
  unfold ksync. destruct (truth _); split; try (by destruct s); rsimpl; [by right | by left].
Qed.

(** An address space in use: the allocator's free pages [l] are not pages of
    the table. *)
Record uvm (s : kstate) (pd : Z) (T l : list Z) : Prop := {
  uvm_kmem : kmem_rep s l;
  uvm_ready : kmem_ready s;
  uvm_ptab : ptab (mem s) pd T;
  uvm_free p : p ∈ l -> p ∉ pd :: T;
}.

(** Changing memory outside the free pages leaves the allocator. *)
Lemma kmem_rep_out s P l f :
  kmem_rep s l -> agree_out P (mem s) (f (mem s)) -> Forall page_ok P ->
  (forall p, p ∈ l -> p ∉ P) -> kmem_rep (s <| mem ::= f |>) l.
Proof.
  intros (Hf & Hnd & Hok) Ho HP Hd. split_and!; try done. eapply flist_ext; [exact Hf|].
  intros p Hp. rsimpl. pose proof (agree_of_out l P _ _ Ho Hok HP Hd) as Ha.
  replace p with (p + 4 * 0) by lia. by apply (agree_word l).
Qed.
Lemma kmem_ready_mem s f : kmem_ready s -> kmem_ready (s <| mem ::= f |>).
Proof. done. Qed.

(** ** [walkpgdir] *)

Lemma walk_lookup pd va e s :
  walkpgdir pd va false e s = Ok (default 0 (pte_of (mem s) pd va)) s e.
Proof.
  unfold walkpgdir, pte_of. mrun. unfold present. by destruct (truth _).
Qed.

Lemma walk_alloc_present pd va a e s :
  pte_of (mem s) pd va = Some a -> walkpgdir pd va true e s = Ok a s e.
Proof.
  unfold walkpgdir, pte_of. mrun. unfold present. destruct (truth _); [|done]. by intros [= <-].
Qed.

(** Memory after a new table [p] is entered for [va]. *)
Definition walk_mem (m : gmap Z Z) (pd va p : Z) : gmap Z Z :=
  st32 (memset m p 0 PGSIZE) (pd + 4 * PDX va) (pde_new p).

Lemma walk_alloc_absent pd va l e s :
  kmem_rep s l -> kmem_ready s -> pte_of (mem s) pd va = None ->
  let p := fst (spec_alloc l) in
  exists s1, kalloc e s = Ok p s1 e /\ kmem_rep s1 (snd (spec_alloc l)) /\
    kmem_ready s1 /\ mem s1 = mem s /\ vm_step s s1 /\
    walkpgdir pd va true e s =
      (if p =? 0 then Ok 0 s1 e
       else Ok (p + 4 * PTX va) (s1 <| mem := walk_mem (mem s) pd va p |>) e).
Proof.
  intros Hr Hk Hn p. destruct (kalloc_spec l e s Hr Hk) as (s1 & H1 & H2 & H3 & H4 & H5).
  exists s1. split_and!; try done; [rewrite H3; apply vm_step_kalloc|].
  unfold pte_of, present in Hn. unfold walkpgdir. mrun.
  destruct (truth (Z.land (ld32 _ _) PTE_P)); [done|]. cbn [negb].
  rewrite (bind_ok _ _ _ _ _ _ _ H1). fold p. destruct (p =? 0); [done|].
  unfold set_mem. mrun. unfold mret, M_ret, walk_mem, pde_new. f_equal.
  rewrite <- H5. by destruct s1.
Qed.

(** The words of the directory and of the tables after [walk_mem]. *)
Lemma walk_mem_out m pd va p :
  page_ok pd -> page_ok p -> 0 <= va < 4294967296 ->
  agree_out [pd; p] m (walk_mem m pd va p).
Proof.
  intros Hd Hp Hv b Hb. pose proof (PDX_range va Hv).
  pose proof (Hb pd ltac:(by left)). pose proof (Hb p ltac:(right; by left)).
  pose proof (page_ok_range p Hp).
  unfold walk_mem. rewrite ldb_st32_ne by lia. rewrite ldb_memset by (unfold PGSIZE; lia).
  by rewrite decide_False by (unfold PGSIZE; lia).
Qed.
Lemma walk_mem_dir m pd va p i :
  page_ok pd -> page_ok p -> pd <> p -> 0 <= va < 4294967296 -> 0 <= i < 1024 ->
  ld32 (walk_mem m pd va p) (pd + 4 * i) =
    if decide (i = PDX va) then u32 (pde_new p) else ld32 m (pd + 4 * i).
Proof.
  intros Hd Hp Hne Hv Hi. pose proof (PDX_range va Hv). pose proof (page_ok_range p Hp).
  destruct (page_ok_disjoint pd p Hd Hp Hne); unfold walk_mem;
    (case_decide as E; [rewrite E; by rewrite ld32_st32_eq|]);
    rewrite ld32_st32_ne by lia; apply ld32_ext; intros b Hb;
    rewrite ldb_memset, decide_False by (unfold PGSIZE; lia); done.
Qed.
Lemma walk_mem_new m pd va p i :
  page_ok pd -> page_ok p -> pd <> p -> 0 <= va < 4294967296 -> 0 <= i < 1024 ->
  ld32 (walk_mem m pd va p) (p + 4 * i) = 0.
Proof.
  intros Hd Hp Hne Hv Hi. pose proof (PDX_range va Hv). pose proof (page_ok_range p Hp).
  unfold walk_mem. rewrite ld32_st32_ne by (destruct (page_ok_disjoint pd p Hd Hp Hne); lia).
  unfold ld32. rewrite !ldb_memset, !decide_True by (unfold PGSIZE; lia). done.
Qed.

Lemma walk_mem_pte m pd T va p :
  ptab m pd T -> page_ok p -> p ∉ pd :: T -> 0 <= va < 4294967296 ->
  pte_of m pd va = None ->
  let m' := walk_mem m pd va p in
  pte_of m' pd va = Some (p + 4 * PTX va) /\
  forall va', 0 <= va' < 4294967296 -> pte m' pd va' = pte m pd va'.
Proof.
  intros Hpt Hp Hn Hv Hnone m'. apply not_elem_of_cons in Hn as [Hne HnT].
  pose proof (pt_dir _ _ _ Hpt) as Hd.
  assert (forall v, 0 <= v < 4294967296 -> ld32 m' (pd + 4 * PDX v) =
    if decide (PDX v = PDX va) then u32 (pde_new p) else ld32 m (pd + 4 * PDX v)) as Hw.
  { intros v Hv'. apply walk_mem_dir; auto using PDX_range. }
  split; [|intros v Hv'].
  - unfold pte_of. rewrite Hw, decide_True by done.
    by rewrite pde_new_present, pde_new_page.
  - unfold pte, pte_of. rewrite Hw by done. case_decide as E.
    + rewrite pde_new_present, pde_new_page by done.
      subst m'. rewrite walk_mem_new by auto using PTX_range.
      unfold pte_of in Hnone. rewrite E. by destruct (present _).
    + destruct (present _) eqn:Epr; [|done].
      pose proof (pt_tab _ _ _ Hpt _ (PDX_range v Hv') Epr) as HT.
      pose proof (proj1 (Forall_forall _ _) (pt_pages _ _ _ Hpt) _ HT) as HTok.
      symmetry. apply (agree_word [ptpage (ld32 m (pd + 4 * PDX v))]);
        [|by left|by apply PTX_range].
      eapply agree_of_out; [by apply walk_mem_out|by rewrite ?Forall_cons..|].
      intros q ->%list_elem_of_singleton. pose proof (pt_nodup _ _ _ Hpt) as [Hnd _]%NoDup_cons.
      rewrite elem_of_cons, list_elem_of_singleton. intros [Eq|Eq]; rewrite Eq in HT; done.
Qed.

Lemma walk_mem_ptab m pd T va p :
  ptab m pd T -> page_ok p -> p ∉ pd :: T -> 0 <= va < 4294967296 ->
  pte_of m pd va = None -> ptab (walk_mem m pd va p) pd (p :: T).
Proof.
  intros Hpt Hp Hn Hv Hnone. apply not_elem_of_cons in Hn as [Hne HnT].
  destruct Hpt as [Hd HT Hnd Htab Hinj]. apply NoDup_cons in Hnd as [Hnd1 Hnd2].
  assert (present (ld32 m (pd + 4 * PDX va)) = false) as Hvn.
  { unfold pte_of in Hnone. by destruct (present _). }
  split; [done|by constructor| | |].
  - repeat constructor; try done. by apply not_elem_of_cons.
  - intros i Hi. rewrite walk_mem_dir by auto. case_decide.
    + intros _. rewrite pde_new_page by done. by left.
    + intros Hi'. right. by apply Htab.
  - intros i j Hi Hj. rewrite !walk_mem_dir by auto.
    case_decide as Ei; case_decide as Ej; intros Hpi Hpj E; try congruence.
    + rewrite pde_new_page in E by done. apply Htab in Hpj; [|done]. congruence.
    + rewrite pde_new_page in E by done. apply Htab in Hpi; [|done]. congruence.
    + by apply Hinj.
Qed.

(** Storing an entry changes the mapping of its page only. *)
Lemma pte_store m pd T va a v :
  ptab m pd T -> 0 <= va < 4294967296 -> pte_of m pd va = Some a ->
  let m' := st32 m a v in
  ptab m' pd T /\ agree_out T m m' /\
  (forall va', 0 <= va' < 4294967296 -> pte_of m' pd va' = pte_of m pd va') /\
  (forall va', 0 <= va' < 4294967296 ->
    pte m' pd va' = if decide (va' / 4096 = va / 4096) then u32 v else pte m pd va').
Proof.
  intros Hpt Hv Ha m'. destruct (pte_of_table _ _ _ _ _ Hpt Hv Ha) as (t & Ht & Htok & -> & Et & Epr).
  pose proof (PTX_range va Hv). pose proof (pt_nodup _ _ _ Hpt) as [Hnd _]%NoDup_cons.
  assert (page_ok pd) as Hd by apply (pt_dir _ _ _ Hpt).
  assert (forall i, 0 <= i < 1024 -> ld32 m' (pd + 4 * i) = ld32 m (pd + 4 * i)) as Hw.
  { intros i Hi. apply ld32_st32_ne.
    destruct (page_ok_disjoint pd t Hd Htok ltac:(congruence)); lia. }
  assert (forall va', 0 <= va' < 4294967296 -> pte_of m' pd va' = pte_of m pd va') as Hof.
  { intros va' Hv'. unfold pte_of. by rewrite Hw by (by apply PDX_range). }
  split_and!; [|intros b Hb|done|intros va' Hv'].
  - destruct Hpt as [? ? ? Htab Hinj]. split; try done.
    + intros i Hi. rewrite Hw by done. by apply Htab.
    + intros i j Hi Hj. rewrite !Hw by done. by apply Hinj.
  - symmetry. apply ldb_st32_ne. specialize (Hb t Ht). lia.
  - unfold pte. rewrite Hof by done. case_decide as E.
    + replace (pte_of m pd va') with (Some (t + 4 * PTX va)); [by apply ld32_st32_eq|].
      rewrite <- Ha. unfold pte_of. by rewrite (PDX_page va' va), (PTX_page va' va).
    + destruct (pte_of m pd va') as [a'|] eqn:E'; [|done]. apply ld32_st32_ne.
      destruct (pte_of_table _ _ _ _ _ Hpt Hv' E') as (t' & Ht' & Htok' & -> & Et' & Epr').
      pose proof (PTX_range va' Hv'). destruct (decide (t' = t)) as [->|Hne].
      * assert (PDX va' = PDX va).
        { apply (pt_inj _ _ _ Hpt); auto using PDX_range. congruence. }
        assert (PTX va' <> PTX va) by (intros ?; by apply E, PDX_PTX_inj). lia.
      * destruct (page_ok_disjoint t' t Htok' Htok Hne); lia.
Qed.

(** [walkpgdir] with [alloc] either runs out of pages, or gives the entry, in a
    table that maps every address as before; it takes at most one page. *)
Lemma walk_alloc pd va T l e s :
  uvm s pd T l -> 0 <= va < 4294967296 ->
  exists a s' new l', walkpgdir pd va true e s = Ok a s' e /\ vm_step s s' /\
    uvm s' pd (new ++ T) l' /\ l = new ++ l' /\ (length new <= 1)%nat /\
    agree_out (pd :: new) (mem s) (mem s') /\
    (forall va', 0 <= va' < 4294967296 -> pte (mem s') pd va' = pte (mem s) pd va') /\
    if a =? 0 then l = [] else pte_of (mem s') pd va = Some a.
Proof.
  intros [Hk Hr Hpt Hfr] Hv. destruct (pte_of (mem s) pd va) as [a|] eqn:Ea.
  - exists a, s, [], l. rewrite (walk_alloc_present _ _ a) by done.
    destruct (pte_of_table _ _ _ _ _ Hpt Hv Ea) as (t & _ & Htok & -> & _).
    pose proof (page_ok_range t Htok). pose proof (PTX_range va Hv).
    replace (t + 4 * PTX va =? 0) with false by lia.
    split_and!; try done; [apply vm_step_refl | cbn; lia].
  - destruct (walk_alloc_absent pd va l e s Hk Hr Ea) as (s1 & _ & Hk1 & Hr1 & Hm1 & Hst & ->).
    destruct l as [|p l]; cbn [spec_alloc fst snd] in *.
    + exists 0, s1, [], []. rewrite Hm1. split_and!; try done; [|cbn; lia].
      split; rewrite ?Hm1; try done; by intros ? ?%elem_of_nil.
    + destruct Hk as (_ & Hnd & Hok). apply NoDup_cons in Hnd as [Hpl _].
      apply Forall_cons in Hok as [Hp _]. pose proof (page_ok_range p Hp).
      pose proof (PTX_range va Hv). pose proof (Hfr p ltac:(by left)) as Hpn.
      pose proof (pt_dir _ _ _ Hpt) as Hd.
      replace (p =? 0) with false by lia.
      destruct (walk_mem_pte _ _ _ _ p Hpt Hp Hpn Hv Ea) as [Hof Hpte].
      eexists _, _, [p], l. split_and!; [done| | |done|done| | |].
      * eapply vm_step_trans; [done|]. apply vm_step_mem.
      * split; rsimpl.
        -- apply (kmem_rep_out s1 [pd; p] l (fun _ => walk_mem (mem s) pd va p)); try done.
           ++ rewrite Hm1. by apply walk_mem_out.
           ++ by rewrite ?Forall_cons.
           ++ intros q Hq. pose proof (Hfr q ltac:(by right)) as Hq'.
              apply not_elem_of_cons in Hq' as [??].
              rewrite not_elem_of_cons, list_elem_of_singleton. split; congruence.
        -- done.
        -- by apply walk_mem_ptab.
        -- intros q Hq. pose proof (Hfr q ltac:(by right)) as Hq'.
           apply not_elem_of_cons in Hq' as [??]. cbn [app]. rewrite !not_elem_of_cons.
           split_and!; [done|congruence|done].
      * by apply walk_mem_out.
      * done.
      * replace (p + 4 * PTX va =? 0) with false by lia. done.
Qed.

(** ** [mappages] *)

(** What mapping may do to the state besides the entries it sets: take tables
    [new] off the free list (in the order of [rev new]), and write to the pages of
    the table. *)
Definition extends (s s' : kstate) (pd : Z) (T l new l' : list Z) : Prop :=
  vm_step s s' /\ uvm s' pd (new ++ T) l' /\ l = rev new ++ l' /\
  agree_out (pd :: new ++ T) (mem s) (mem s').

Lemma agree_out_mono P Q m m' : agree_out P m m' -> (forall p, p ∈ P -> p ∈ Q) -> agree_out Q m m'.
Proof. intros Ha Hs b Hb. apply Ha. intros p Hp. by apply Hb, Hs. Qed.
Lemma agree_out_trans P m1 m2 m3 : agree_out P m1 m2 -> agree_out P m2 m3 -> agree_out P m1 m3.
Proof. intros H1 H2 b Hb. rewrite H1 by done. by apply H2. Qed.

Lemma extends_trans s1 s2 s3 pd T l n1 l1 n2 l2 :
  extends s1 s2 pd T l n1 l1 -> extends s2 s3 pd (n1 ++ T) l1 n2 l2 ->
  extends s1 s3 pd T l (n2 ++ n1) l2.
Proof.
  intros (A1 & A2 & A3 & A4) (B1 & B2 & B3 & B4). split_and!.
  - by eapply vm_step_trans.
  - by rewrite <- app_assoc.
  - rewrite A3, B3, rev_app_distr. by rewrite <- app_assoc.
  - rewrite <- app_assoc. eapply agree_out_trans; [|done]. eapply agree_out_mono; [done|].
    intros p. rewrite !elem_of_cons, !elem_of_app. tauto.
Qed.

(** One iteration: it fails when the allocator is empty, else sets the entry. *)
Lemma mappages_step n pd a last pa perm T l e s :
  uvm s pd T l -> 0 <= a < 4294967296 -> present (pte (mem s) pd a) = false ->
  exists s' new l', extends s s' pd T l new l' /\
    ((l' = [] /\ mappages_loop (S n) pd a last pa perm e s = Ok (-1) s' e /\
      forall va, 0 <= va < 4294967296 -> pte (mem s') pd va = pte (mem s) pd va) \/
     (mappages_loop (S n) pd a last pa perm e s =
        (if a =? last then Ok 0 s' e
         else mappages_loop n pd (u32 (a + PGSIZE)) last (u32 (pa + PGSIZE)) perm e s') /\
      forall va, 0 <= va < 4294967296 ->
        pte (mem s') pd va = if decide (va / 4096 = a / 4096)
          then u32 (Z.lor (Z.lor pa perm) PTE_P) else pte (mem s) pd va)).
Proof.
  intros Hu Hv Hnp. cbn [mappages_loop].
  destruct (walk_alloc pd a T l e s Hu Hv)
    as (x & s1 & new & l' & Hw & Hst & Hu1 & Hl & Hn & Hout & Hpte & Hres).
  assert (l = rev new ++ l') as Hl' by (by destruct new as [|? [|]]; cbn in Hn |- *; try lia).
  assert (agree_out (pd :: new ++ T) (mem s) (mem s1)) as Hout'.
  { eapply agree_out_mono; [done|]. intros p. rewrite !elem_of_cons, elem_of_app. tauto. }
  rewrite (bind_ok _ _ _ _ _ _ _ Hw). destruct (x =? 0) eqn:E0.
  - exists s1, new, l'. split; [done|]. left. split_and!; try done.
    subst l. by apply app_eq_nil in Hres as [].
  - destruct Hu1 as [Hk1 Hr1 Hpt1 Hfr1].
    assert (ld32 (mem s1) x = pte (mem s1) pd a) as Hld by (unfold pte; by rewrite Hres).
    mrun. rewrite Hld, Hpte by done. unfold present in Hnp. rewrite Hnp. unfold set_mem. mrun.
    destruct (pte_store _ _ _ _ _ (Z.lor (Z.lor pa perm) PTE_P) Hpt1 Hv Hres)
      as (Hpt2 & Hout2 & Hof2 & Hpte2).
    eexists _, new, l'. split; [split_and!; [| |done|]|right; split; [by destruct (a =? last)|]].
    + eapply vm_step_trans; [done|apply vm_step_mem].
    + split; try done. apply (kmem_rep_out s1 (new ++ T) l'); try done.
      * apply (pt_pages _ _ _ Hpt1).
      * intros p Hp Hp'. apply (Hfr1 p Hp). by right.
    + eapply agree_out_trans; [done|]. eapply agree_out_mono; [done|]. intros p Hp. by right.
    + intros va Hva. rsimpl. rewrite Hpte2 by done. case_decide; [done|]. by apply Hpte.
Qed.

(** The [n] pages from [a] on are mapped to the frames from [pa] on. *)
Definition maps_range (m m' : gmap Z Z) (pd a n pa perm : Z) : Prop :=
  forall va, 0 <= va < 4294967296 ->
    pte m' pd va =
      if decide (a / 4096 <= va / 4096 < a / 4096 + n)
      then u32 (Z.lor (Z.lor (pa + 4096 * (va / 4096 - a / 4096)) perm) PTE_P)
      else pte m pd va.

Lemma mappages_loop_run n pd a pa perm T l e s :
  uvm s pd T l -> a mod 4096 = 0 -> 0 <= a -> a + 4096 * Z.of_nat (S n) <= 4294967296 ->
  0 <= pa -> pa + 4096 * Z.of_nat (S n) <= 4294967296 ->
  (forall va, 0 <= va < 4294967296 -> a / 4096 <= va / 4096 < a / 4096 + Z.of_nat (S n) ->
     present (pte (mem s) pd va) = false) ->
  exists r s' new l', extends s s' pd T l new l' /\
    mappages_loop (S n) pd a (a + 4096 * Z.of_nat n) pa perm e s = Ok r s' e /\
    ((r = -1 /\ l' = []) \/ (r = 0 /\ maps_range (mem s) (mem s') pd a (Z.of_nat (S n)) pa perm)).
Proof.
  revert a pa T l s. induction n as [|n IH]; intros a pa T l s Hu Ha Ha0 Han Hp Hpn Hnp.
  all: match goal with |- context [mappages_loop (S ?k) _ _ ?x] =>
    destruct (mappages_step k pd a x pa perm T l e s Hu)
      as (s1 & new & l1 & Hex & [(-> & Hrun & _)|[Hrun Hpte]]); [lia|apply Hnp; mlia|..] end.
  1, 3: by exists (-1), s1, new, []; split_and!; [done | done | left].
  - rewrite Hrun. rewrite (proj2 (Z.eqb_eq a _)) by lia. exists 0, s1, new, l1.
    split_and!; [done..|]. right. split; [done|]. intros va Hva. rewrite Hpte by done.
    repeat case_decide; try (exfalso; mlia); [|done]. do 3 f_equal. lia.
  - rewrite Hrun. rewrite (proj2 (Z.eqb_neq a _)) by lia. unfold PGSIZE. rewrite !u32_small by lia.
    replace (a + 4096 * Z.of_nat (S n)) with (a + 4096 + 4096 * Z.of_nat n) by lia.
    destruct (IH (a + 4096) (pa + 4096) (new ++ T) l1 s1) as (r & s2 & new2 & l2 & Hex2 & Hrun2 & Hr);
      [apply Hex|mlia|lia|lia|lia|lia| |].
    + intros va Hva Hin. rewrite Hpte by done. rewrite decide_False by mlia. apply Hnp; mlia.
    + exists r, s2, (new2 ++ new), l2. split_and!; [by eapply extends_trans|done|].
      destruct Hr as [?|[-> Hm]]; [by left|]. right. split; [done|]. intros va Hva.
      rewrite Hm, Hpte by done. repeat case_decide; try (exfalso; mlia); [..|done].
      * do 3 f_equal. mlia.
      * do 3 f_equal. mlia.
Qed.

(** [mappages] of whole pages. *)
Lemma mappages_run n pd va pa perm T l e s :
  uvm s pd T l -> va mod 4096 = 0 -> 0 <= va -> 0 < n -> va + 4096 * n <= 4294967296 ->
  0 <= pa -> pa + 4096 * n <= 4294967296 ->
  (forall v, 0 <= v < 4294967296 -> va / 4096 <= v / 4096 < va / 4096 + n ->
     present (pte (mem s) pd v) = false) ->
  exists r s' new l', extends s s' pd T l new l' /\
    mappages pd va (4096 * n) pa perm e s = Ok r s' e /\
    ((r = -1 /\ l' = []) \/ (r = 0 /\ maps_range (mem s) (mem s') pd va n pa perm)).
Proof.
  intros Hu Ha Ha0 Hn Han Hp Hpn Hnp.
  destruct (mappages_loop_run (Z.to_nat (n - 1)) pd va pa perm T l e s)
    as (r & s' & new & l' & Hex & Hrun & Hr); try lia; try done.
  { intros v Hv Hin. apply Hnp; [done|lia]. }
  exists r, s', new, l'. split_and!; [done| |].
  - rewrite <- Hrun. unfold mappages, PGSIZE. rewrite (u32_small (va + 4096 * n - 1)) by lia.
    rewrite !PGROUNDDOWN_eq by lia. replace (4096 * (va / 4096)) with va by mlia.
    replace (4096 * ((va + 4096 * n - 1) / 4096)) with (va + 4096 * (n - 1)) by mlia.
    rewrite u32_small by lia. do 2 f_equal; mlia.
  - by replace (Z.of_nat (S (Z.to_nat (n - 1)))) with n in Hr by lia.
Qed.

(** ** [setupkvm] *)

(** An entry of [kmap] covers whole pages of the address space. *)
Definition kent_size (k : kmapent) : Z := u32 (phys_end k - phys_start k).
Definition in_kent (k : kmapent) (va : Z) : Prop := virt k <= va < virt k + kent_size k.
Definition kent_ok (k : kmapent) : Prop :=
  virt k mod 4096 = 0 /\ 0 <= virt k /\ 0 < kent_size k /\ kent_size k mod 4096 = 0 /\
  virt k + kent_size k <= 4294967296 /\ 0 <= phys_start k /\
  phys_start k + kent_size k <= 4294967296.
(** The entry [kmap] asks for. *)
Definition kent_pte (k : kmapent) (va : Z) : Z :=
  u32 (Z.lor (Z.lor (phys_start k + 4096 * (va / 4096 - virt k / 4096)) (kperm k)) PTE_P).

Lemma kmap_ok : Forall kent_ok kmap.
Proof.
  pose proof kend_range. pose proof kdata_range. pose proof kdata_aligned.
  unfold kmap, kent_ok, kent_size, v2p, KERNLINK, KERNBASE, EXTMEM, PHYSTOP, DEVSPACE in *.
  rewrite !Forall_cons. cbn [virt phys_start phys_end].
  split_and!; first [apply Forall_nil_2 | mlia].
Qed.
Lemma kmap_disjoint i j k1 k2 va :
  kmap !! i = Some k1 -> kmap !! j = Some k2 -> in_kent k1 va -> in_kent k2 va -> i = j.
Proof.
  pose proof kend_range. pose proof kdata_range.
  unfold kmap, in_kent, kent_size, v2p, KERNLINK, KERNBASE, EXTMEM, PHYSTOP, DEVSPACE in *.
  destruct i as [|[|[|[|i]]]], j as [|[|[|[|j]]]]; intros E1 E2; try done;
    injection E1 as <-; injection E2 as <-; cbn [virt phys_start phys_end]; mlia.
Qed.

Lemma setupkvm_loop_run ks pd T l e s :
  uvm s pd T l -> Forall kent_ok ks ->
  (forall i j k1 k2 va, ks !! i = Some k1 -> ks !! j = Some k2 ->
     in_kent k1 va -> in_kent k2 va -> i = j) ->
  (forall k va, k ∈ ks -> in_kent k va -> present (pte (mem s) pd va) = false) ->
  exists r s' new l', extends s s' pd T l new l' /\ setupkvm_loop ks pd e s = Ok r s' e /\
    ((r = 0 /\ l' = []) \/
     (r = pd /\ (forall k va, k ∈ ks -> in_kent k va -> pte (mem s') pd va = kent_pte k va) /\
      (forall va, 0 <= va < 4294967296 -> (forall k, k ∈ ks -> ~ in_kent k va) ->
         pte (mem s') pd va = pte (mem s) pd va))).
Proof.
  revert T l s. induction ks as [|k ks IH]; intros T l s Hu Hok Hdj Hnp.
  - exists pd, s, [], l. split_and!; [|done|].
    + split_and!; [apply vm_step_refl|done|done|done].
    + right. split_and!; [done| |done]. by intros k va ?%elem_of_nil.
  - apply Forall_cons in Hok as [(K1 & K2 & K3 & K4 & K5 & K6 & K7) Hok]. cbn [setupkvm_loop].
    change (u32 (phys_end k - phys_start k)) with (kent_size k). set (n := kent_size k / 4096).
    replace (kent_size k) with (4096 * n) by (subst n; mlia).
    destruct (mappages_run n pd (virt k) (phys_start k) (kperm k) T l e s Hu)
      as (r & s1 & new & l1 & Hex & Hrun & Hr); [mlia|lia|subst n; mlia..| |].
    { intros v Hv Hin. apply (Hnp k); [by left|]. unfold in_kent. subst n. mlia. }
    rewrite (bind_ok _ _ _ _ _ _ _ Hrun). destruct Hr as [[-> ->]|[-> Hm]].
    { exists 0, s1, new, []. split_and!; [done|done|]. by left. }
    cbn [Z.ltb Z.compare].
    assert (forall va, 0 <= va < 4294967296 -> ~ in_kent k va -> pte (mem s1) pd va = pte (mem s) pd va) as Hother.
    { intros va Hva Hn. rewrite Hm by done. rewrite decide_False; [done|].
      intros Hin. apply Hn. unfold in_kent. subst n. mlia. }
    assert (forall k' va, k' ∈ ks -> in_kent k' va -> 0 <= va < 4294967296 /\ ~ in_kent k va) as Hks.
    { intros k' va Hk' Hin. split.
      - apply (proj1 (Forall_forall _ _) Hok) in Hk' as (? & ? & ? & ? & ? & _).
        unfold in_kent in Hin. lia.
      - apply list_elem_of_lookup in Hk' as [i Hi]. intros Hin'.
        by specialize (Hdj 0%nat (S i) k k' va eq_refl Hi Hin' Hin). }
    destruct (IH (new ++ T) l1 s1) as (r & s2 & new2 & l2 & Hex2 & Hrun2 & Hr2).
    + apply Hex.
    + done.
    + intros i j k1 k2 va Hi Hj H1 H2. by specialize (Hdj (S i) (S j) k1 k2 va Hi Hj H1 H2) as [= ->].
    + intros k' va Hk' Hin. destruct (Hks k' va Hk' Hin). rewrite Hother by done.
      apply (Hnp k'); [by right|done].
    + exists r, s2, (new2 ++ new), l2. split_and!; [by eapply extends_trans|done|].
      destruct Hr2 as [?|(-> & Hin2 & Hout2)]; [by left|]. right. split_and!; [done| |].
      * intros k' va [->|Hk']%elem_of_cons Hin; [|by apply Hin2].
        assert (0 <= va < 4294967296) as Hva by (unfold in_kent in Hin; lia).
        rewrite Hout2, Hm; [|done|done|].
        -- rewrite decide_True; [done|]. unfold in_kent in Hin. subst n. mlia.
        -- intros k' Hk' Hin'. by destruct (Hks k' va Hk' Hin').
      * intros va Hva Hn. rewrite Hout2; [|done|intros k' ?; apply Hn; by right].
        apply Hother; [done|]. apply Hn. by left.
Qed.

(** A zeroed page is an empty directory. *)
Lemma ptab_zero m pd :
  page_ok pd -> (forall i, 0 <= i < 1024 -> ld32 m (pd + 4 * i) = 0) ->
  ptab m pd [] /\ forall va, 0 <= va < 4294967296 -> pte m pd va = 0.
Proof.
  intros Hd Hz. split; [split; try done|].
  - apply NoDup_singleton.
  - intros i Hi. by rewrite Hz.
  - intros i j Hi Hj. by rewrite Hz.
  - intros va Hva. unfold pte, pte_of. by rewrite Hz by (by apply PDX_range).
Qed.

Lemma setupkvm_run l e s :
  kmem_rep s l -> kmem_ready s ->
  exists r s', setupkvm e s = Ok r s' e /\ vm_step s s' /\ kmem_ready s' /\
    ((r = 0 /\ kmem_rep s' []) \/
     exists T l', uvm s' r T l' /\ l = r :: rev T ++ l' /\ agree_out (r :: T) (mem s) (mem s') /\
       (forall k va, k ∈ kmap -> in_kent k va -> pte (mem s') r va = kent_pte k va) /\
       (forall va, 0 <= va < 4294967296 -> (forall k, k ∈ kmap -> ~ in_kent k va) ->
          pte (mem s') r va = 0)).
Proof.
  intros Hk Hr. destruct (kalloc_spec l e s Hk Hr) as (s1 & H1 & H2 & H3 & H4 & H5).
  assert (vm_step s s1) as Hst1 by (rewrite H3; apply vm_step_kalloc).
  unfold setupkvm. rewrite (bind_ok _ _ _ _ _ _ _ H1).
  destruct l as [|pd l]; cbn [spec_alloc fst snd] in *.
  { exists 0, s1. split_and!; try done. by left. }
  destruct Hk as (_ & [Hpl Hnd]%NoDup_cons & [Hpd Hok]%Forall_cons).
  pose proof (page_ok_range pd Hpd). replace (pd =? 0) with false by lia.
  unfold set_mem. mrun. change (DEVSPACE <? p2v PHYSTOP) with false. cbv iota.
  set (m0 := memset (mem s1) pd 0 PGSIZE).
  change (s1 <| mem ::= _ |>) with (s1 <| mem := m0 |>).
  assert (agree_out [pd] (mem s1) m0) as Hout0.
  { intros b Hb. subst m0. rewrite ldb_memset by (unfold PGSIZE; lia).
    specialize (Hb pd ltac:(by left)). by rewrite decide_False by (unfold PGSIZE; lia). }
  destruct (ptab_zero m0 pd Hpd) as [Hpt0 Hz0].
  { intros i Hi. subst m0. unfold ld32. by rewrite !ldb_memset, !decide_True by (unfold PGSIZE; lia). }
  destruct (setupkvm_loop_run kmap pd [] l e (s1 <| mem := m0 |>))
    as (r & s2 & new & l2 & (Hst2 & Hu2 & Hl2 & Hout2) & Hrun & Hres).
  - split; rsimpl; try done.
    + apply (kmem_rep_out s1 [pd] l (fun _ => m0)); try done; [by rewrite Forall_singleton|].
      intros p Hp ->%list_elem_of_singleton. done.
    + intros p Hp. rewrite list_elem_of_singleton. congruence.
  - apply kmap_ok.
  - apply kmap_disjoint.
  - intros k va Hkk Hin. rsimpl. rewrite Hz0; [done|]. unfold in_kent in Hin.
    apply (proj1 (Forall_forall _ _) kmap_ok) in Hkk as (? & ? & ? & ? & ? & _). lia.
  - exists r, s2. split_and!; [done| |apply Hu2|].
    + eapply vm_step_trans; [exact Hst1|]. eapply vm_step_trans; [|exact Hst2]. apply (vm_step_mem _ (fun _ => m0)).
    + rewrite app_nil_r in *. destruct Hres as [[-> ->]|(-> & Hin & Hno)]; [left|right].
      * split; [done|]. apply Hu2.
      * exists new, l2. split_and!; [done|by rewrite Hl2| |done|].
        -- eapply agree_out_trans; [|exact Hout2]. rewrite <- H5. eapply agree_out_mono; [done|].
           intros p ->%list_elem_of_singleton. by left.
        -- intros va Hva Hn. rewrite Hno by done. by apply Hz0.
Qed.

(** ** [copyout] *)

Definition user_mapped (m : gmap Z Z) (pd va : Z) : bool :=
  present (pte m pd va) && truth (Z.land (pte m pd va) PTE_U).
Definition frame (m : gmap Z Z) (pd va : Z) : Z := ptpage (pte m pd va).
(** The kernel address of the byte at user address [va]. *)
Definition uaddr (m : gmap Z Z) (pd va : Z) : Z := frame m pd va + va mod 4096.

(** The [n] bytes at [va] are mapped for the user, each page to a frame of its
    own which is not part of the table. *)
Record user_range (m : gmap Z Z) (pd : Z) (T : list Z) (va n : Z) : Prop := {
  ur_bound : 0 <= va /\ va + n < 4294967296;
  ur_mapped v : va <= v < va + n -> user_mapped m pd v = true;
  ur_frame v : va <= v < va + n -> page_ok (frame m pd v) /\ frame m pd v ∉ pd :: T;
  ur_inj v w : va <= v < va + n -> va <= w < va + n ->
    frame m pd v = frame m pd w -> v / 4096 = w / 4096;
}.

Lemma pte_page m pd v w :
  0 <= v < 4294967296 -> 0 <= w < 4294967296 -> v / 4096 = w / 4096 -> pte m pd v = pte m pd w.
Proof. intros. unfold pte, pte_of. by rewrite (PDX_page v w), (PTX_page v w). Qed.

Lemma uva2ka_run pd va e s :
  0 <= va < 4294967296 -> pte_of (mem s) pd va <> None -> pte_of (mem s) pd va <> Some 0 ->
  uva2ka pd va e s =
    Ok (if user_mapped (mem s) pd va then frame (mem s) pd va else 0) s e.
Proof.
  intros Hv Hn Hz. unfold uva2ka. rewrite (bind_ok _ _ _ _ _ _ _ (walk_lookup _ _ _ _)).
  unfold frame, user_mapped, pte. destruct (pte_of (mem s) pd va) as [a|]; [|done].
  change (default 0 (Some a)) with a. replace (a =? 0) with false by (symmetry; apply Z.eqb_neq; congruence). mrun.
  unfold present. by destruct (truth (Z.land _ PTE_P)), (truth (Z.land _ PTE_U)).
Qed.

Lemma pte_present_of m pd va : present (pte m pd va) = true -> pte_of m pd va <> None.
Proof. unfold pte. by destruct (pte_of m pd va). Qed.
Lemma pte_of_nonzero m pd T va :
  ptab m pd T -> 0 <= va < 4294967296 -> pte_of m pd va <> Some 0.
Proof.
  intros Hpt Hv E. destruct (pte_of_table _ _ _ _ _ Hpt Hv E) as (t & _ & Ht & Ea & _).
  pose proof (page_ok_range t Ht). pose proof (PTX_range va Hv). lia.
Qed.

Lemma frame_pte m m' pd v w : pte m' pd v = pte m pd w -> frame m' pd v = frame m pd w.
Proof. unfold frame. by intros ->. Qed.

(** Consecutive addresses within a page. *)
Lemma uaddr_next m pd va v :
  0 <= va -> va <= v -> va mod 4096 + (v - va) < 4096 -> v < 4294967296 ->
  uaddr m pd v = uaddr m pd va + (v - va).
Proof.
  intros. unfold uaddr. rewrite (frame_pte m m pd v va) by (apply pte_page; mlia). mlia.
Qed.

(** Addresses of different pages have different kernel addresses. *)
Lemma uaddr_ne m pd T va n v w :
  user_range m pd T va n -> va <= v < va + n -> va <= w < va + n -> v / 4096 <> w / 4096 ->
  uaddr m pd v <> uaddr m pd w.
Proof.
  intros Hu Hv Hw Hne. destruct (ur_frame _ _ _ _ _ Hu v Hv) as [Hfv _].
  destruct (ur_frame _ _ _ _ _ Hu w Hw) as [Hfw _].
  assert (frame m pd v <> frame m pd w) as Hf by (intros E; by apply Hne, (ur_inj _ _ _ _ _ Hu)).
  unfold uaddr. destruct (page_ok_disjoint _ _ Hfv Hfw Hf); mlia.
Qed.

(** Writing the bytes [l] of one page at user address [va]. *)
Lemma write_page m pd T va n l :
  ptab m pd T -> user_range m pd T va n -> 0 < Z.of_nat (length l) <= n ->
  va mod 4096 + Z.of_nat (length l) <= 4096 ->
  let m' := stbytes m (uaddr m pd va) l in
  ptab m' pd T /\ agree_out [frame m pd va] m m' /\
  (forall v, 0 <= v < 4294967296 -> pte m' pd v = pte m pd v) /\
  (forall v, va <= v < va + Z.of_nat (length l) ->
     ldb m' (uaddr m pd v) = u8 (l !!! Z.to_nat (v - va))) /\
  (forall b, (forall v, va <= v < va + Z.of_nat (length l) -> b <> uaddr m pd v) ->
     ldb m' b = ldb m b).
Proof.
  intros Hpt Hu Hl Hpg m'. pose proof (ur_bound _ _ _ _ _ Hu) as Hb. destruct (ur_frame _ _ _ _ _ Hu va ltac:(lia)) as [Hf Hn].
  assert (agree_out [frame m pd va] m m') as Hout.
  { intros b Hnb. subst m'. rewrite ldb_stbytes. specialize (Hnb (frame m pd va) ltac:(by left)).
    unfold uaddr. rewrite decide_False; [done|]. mlia. }
  assert (agree (pd :: T) m m') as Ha.
  { eapply agree_of_out; [done|by eapply ptab_pages|by rewrite Forall_singleton|].
    intros p Hp ->%list_elem_of_singleton. done. }
  split_and!; [by eapply ptab_agree|done| | |].
  - intros v Hv. by eapply pte_agree.
  - intros v Hv. subst m'. rewrite ldb_stbytes, (uaddr_next m pd va v) by lia.
    rewrite decide_True by lia. do 3 f_equal. lia.
  - intros b Hnb. subst m'. rewrite ldb_stbytes, decide_False; [done|]. intros Hin.
    apply (Hnb (va + (b - uaddr m pd va))); [lia|].
    rewrite (uaddr_next m pd va) by lia. lia.
Qed.

(** The rest of a range is still mapped, to the same frames, after a write to
    its first page. *)
Lemma user_range_rest m m' pd T va n k :
  user_range m pd T va n -> 0 <= k <= n ->
  (forall v, 0 <= v < 4294967296 -> pte m' pd v = pte m pd v) ->
  user_range m' pd T (va + k) (n - k).
Proof.
  intros [Hb Hm Hf Hi] Hk Hp.
  assert (forall v, va + k <= v < va + k + (n - k) -> frame m' pd v = frame m pd v) as Hfr.
  { intros v Hv. apply frame_pte, Hp. lia. }
  split; [lia| | |].
  - intros v Hv. unfold user_mapped. rewrite Hp by lia. apply Hm. lia.
  - intros v Hv. rewrite Hfr by done. apply Hf. lia.
  - intros v w Hv Hw. rewrite !Hfr by done. apply Hi; lia.
Qed.

(** One iteration of [copyout]. *)
Lemma copyout_step k pd va buf T e s :
  ptab (mem s) pd T -> user_range (mem s) pd T va (Z.of_nat (length buf)) -> buf <> [] ->
  let n := Z.min (PGSIZE - va mod 4096) (Z.of_nat (length buf)) in
  copyout_loop (S k) pd va buf e s =
    copyout_loop k pd (u32 (va - va mod 4096 + PGSIZE)) (drop (Z.to_nat n) buf) e
      (s <| mem := stbytes (mem s) (uaddr (mem s) pd va) (take (Z.to_nat n) buf) |>).
Proof.
  intros Hpt Hu Hne n. destruct buf as [|c buf]; [done|]. cbn [copyout_loop].
  set (b := c :: buf) in *. pose proof (ur_bound _ _ _ _ _ Hu) as Hb.
  assert (0 < Z.of_nat (length b)) as Hl by (subst b; cbn [length]; lia).
  rewrite PGROUNDDOWN_eq by lia. replace (4096 * (va / 4096)) with (va - va mod 4096) by mlia.
  set (va0 := va - va mod 4096).
  assert (pte (mem s) pd va0 = pte (mem s) pd va) as Hp by (apply pte_page; subst va0; mlia).
  pose proof (ur_mapped _ _ _ _ _ Hu va ltac:(lia)) as Hm.
  destruct (ur_frame _ _ _ _ _ Hu va ltac:(lia)) as [Hf _]. pose proof (page_ok_range _ Hf).
  assert (0 <= va0 < 4294967296) as Hv0 by (subst va0; mlia).
  assert (user_mapped (mem s) pd va0 = true) as Hm0 by (unfold user_mapped; by rewrite Hp).
  erewrite bind_ok; [|apply uva2ka_run; [done| |by eapply pte_of_nonzero]].
  2: { apply pte_present_of. by apply andb_prop in Hm0 as []. }
  rewrite Hm0, (frame_pte _ _ _ _ _ Hp). replace (frame _ pd va =? 0) with false by lia.
  unfold set_mem. mrun. subst va0. replace (va - (va - va mod 4096)) with (va mod 4096) by lia.
  done.
Qed.

Lemma copyout_loop_run k pd va buf T e s :
  ptab (mem s) pd T -> user_range (mem s) pd T va (Z.of_nat (length buf)) -> (length buf <= k)%nat ->
  exists m', copyout_loop k pd va buf e s = Ok 0 (s <| mem := m' |>) e /\
    (forall v, va <= v < va + Z.of_nat (length buf) ->
       ldb m' (uaddr (mem s) pd v) = u8 (buf !!! Z.to_nat (v - va))) /\
    (forall b, (forall v, va <= v < va + Z.of_nat (length buf) -> b <> uaddr (mem s) pd v) ->
       ldb m' b = ldb (mem s) b).
Proof.
  revert va buf s. induction k as [|k IH]; intros va buf s Hpt Hu Hk.
  { destruct buf; [|cbn in Hk; lia]. exists (mem s). cbn. split_and!; [by destruct s|lia|done]. }
  destruct (decide (buf = [])) as [->|Hne].
  { exists (mem s). cbn. split_and!; [by destruct s|lia|done]. }
  rewrite (copyout_step _ _ _ _ T) by done. unfold PGSIZE.
  set (n := Z.min _ _). set (m1 := stbytes _ _ _).
  assert (0 < Z.of_nat (length buf)) as Hl by (destruct buf; cbn [length]; [done|lia]).
  assert (0 < n <= 4096 - va mod 4096 /\ n <= Z.of_nat (length buf)) as Hn by (subst n; mlia).
  assert (Z.of_nat (length (take (Z.to_nat n) buf)) = n) as Htk by (rewrite length_take; lia).
  destruct (write_page _ _ _ _ _ (take (Z.to_nat n) buf) Hpt Hu ltac:(lia) ltac:(lia))
    as (Hpt1 & Hout1 & Hp1 & Hin1 & Hframe1). fold m1 in Hpt1, Hout1, Hp1, Hin1, Hframe1.
  rewrite Htk in Hin1, Hframe1. pose proof (ur_bound _ _ _ _ _ Hu) as Hb.
  assert (forall v, va <= v < va + n -> ldb m1 (uaddr (mem s) pd v) = u8 (buf !!! Z.to_nat (v - va))) as Hin.
  { intros v Hv. rewrite Hin1 by done. f_equal.
    rewrite !list_lookup_total_alt, lookup_take_lt by lia. done. }
  destruct (decide (n = Z.of_nat (length buf))) as [En|En].
  - rewrite drop_ge by lia. exists m1. rewrite <- En. split_and!; [by destruct k|done|done].
  - assert (n = 4096 - va mod 4096) as En' by (subst n; lia).
    rewrite u32_small by lia. replace (va - va mod 4096 + 4096) with (va + n) by lia.
    pose proof (user_range_rest _ m1 _ _ _ _ n Hu ltac:(lia) Hp1) as Hu1.
    assert (Z.of_nat (length buf) - n = Z.of_nat (length (drop (Z.to_nat n) buf))) as Hdr.
    { rewrite length_drop. lia. }
    rewrite Hdr in Hu1.
    set (s1 := s <| mem := m1 |>).
    destruct (IH (va + n) (drop (Z.to_nat n) buf) s1 Hpt1 Hu1 ltac:(lia))
      as (m' & Hrun & Hin2 & Hfr2). subst s1. rsimpl in Hin2. rsimpl in Hfr2. rewrite <- Hdr in Hin2, Hfr2.
    assert (forall v, va <= v < va + Z.of_nat (length buf) -> uaddr m1 pd v = uaddr (mem s) pd v) as Hua.
    { intros v Hv. unfold uaddr. by rewrite (frame_pte (mem s) m1 pd v v) by (apply Hp1; lia). }
    exists m'. split_and!; [done| |].
    + intros v Hv. destruct (Z.lt_ge_cases v (va + n)).
      * rewrite Hfr2; [apply Hin; lia|]. intros w Hw. rewrite Hua by lia.
        apply (uaddr_ne _ _ _ _ _ _ _ Hu); [lia|lia|mlia].
      * rewrite <- Hua, Hin2 by lia. rewrite list_lookup_total_alt, lookup_drop, <- list_lookup_total_alt.
        do 2 f_equal. lia.
    + intros b Hnb. rewrite Hfr2, Hframe1; [done| |].
      * intros v Hv. apply Hnb. lia.
      * intros v Hv. rewrite Hua by lia. apply Hnb. lia.
Qed.
(** ** Theorems *)




End Pagetable.

(** ** Witnesses *)

#[local] Existing Instance xv6_linker.
#[local] Existing Instance xv6_linker_ok.

Lemma kalloc_ex_zero i : 0 <= i < 1024 -> ld32 (mem kalloc_ex) (0x80116000 + 4 * i) = 0.
Proof.
  intros Hi. assert (Forall (fun i => ld32 (mem kalloc_ex) (0x80116000 + 4 * i) = 0) (seqZ 0 1024))
    as Hall by vm_decide.
  apply (proj1 (Forall_forall _ _) Hall). by apply elem_of_seqZ.
Qed.
Lemma kalloc_ex_page : page_ok 0x80116000.
Proof. vm_decide. Qed.
Lemma kalloc_ex_uvm : uvm kalloc_ex 0x80116000 [] [0x80115000; 0x80114000].
Proof.
  split.
  - exact kalloc_ex_rep.
  - exact kalloc_ex_ready.
  - exact (proj1 (ptab_zero _ _ kalloc_ex_page kalloc_ex_zero)).
  - apply (proj1 (Forall_forall (fun p => p ∉ [0x80116000]) _)). vm_decide.
Qed.
Lemma kalloc_ex_unmapped v :
  0 <= v < 4294967296 -> present (pte (mem kalloc_ex) 0x80116000 v) = false.
Proof.
  intros Hv. by rewrite (proj2 (ptab_zero _ _ kalloc_ex_page kalloc_ex_zero) v Hv).
Qed.



(** A directory 0x80114000 with one table 0x80115000, which maps the pages
    0x1000 and 0x2000 to the frames 0x80116000 and 0x80118000. *)
Definition copyout_mem1 : gmap Z Z := walk_mem ∅ 0x80114000 0x1000 0x80115000.
Definition copyout_mem2 : gmap Z Z := st32 copyout_mem1 (0x80115000 + 4 * 1) (0x116000 + 7).
Definition copyout_ex : kstate :=
  kzero <| mem := st32 copyout_mem2 (0x80115000 + 4 * 2) (0x118000 + 7) |>.

Lemma copyout_ex_ptab : ptab (mem copyout_ex) 0x80114000 [0x80115000].
Proof.
  assert (ptab ∅ 0x80114000 []) as H0 by (apply ptab_zero; [vm_decide | done]).
  assert (ptab copyout_mem1 0x80114000 [0x80115000]) as H1.
  { apply (walk_mem_ptab ∅ 0x80114000 [] 0x1000 0x80115000); first [exact H0 | lia | vm_decide]. }
  assert (ptab copyout_mem2 0x80114000 [0x80115000]) as H2.
  { refine (proj1 (pte_store _ _ _ 0x1000 _ _ H1 _ _)); [lia | by vm_compute]. }
  refine (proj1 (pte_store _ _ _ 0x2000 _ _ H2 _ _)); [lia | by vm_compute].
Qed.
Lemma copyout_ex_range : user_range (mem copyout_ex) 0x80114000 [0x80115000] 0x1ffe 4.
Proof.
  assert (forall P : Z -> Prop, P 0x1ffe -> P 0x1fff -> P 0x2000 -> P 0x2001 ->
    forall v, 0x1ffe <= v < 0x1ffe + 4 -> P v) as Hall.
  { intros P ???? v Hv.
    assert (v = 0x1ffe \/ v = 0x1fff \/ v = 0x2000 \/ v = 0x2001) as Hc by lia.
    by destruct Hc as [->|[->|[->| ->]]]. }
  split; [lia| | |].
  - apply Hall; by vm_compute.
  - apply Hall; vm_decide.
  - intros v w Hv Hw. pattern v. apply Hall; [..|exact Hv]; pattern w; apply Hall;
      first [exact Hw | vm_decide].
Qed.

(** ** A failure [allocuvm] does not report *)

(** One free page, an empty page table. *)
Definition one_page : kstate :=
  match freerange 0x80114000 0x80115000 [] kzero_locks with
  | Ok _ s _ => s | _ => kzero_locks
  end.

(** [allocuvm] ignores the result of [mappages]: with one page left, which
    it takes for the user's data, there is none for the page table, the page is
    not mapped, and yet [allocuvm] returns the new size. *)
Theorem allocuvm_unreported :
  km_freelist (kmem one_page) = 0x80114000 /\
  match allocuvm 0x80116000 0 4096 [] one_page with
  | Ok r s' _ => r = 4096 /\ present (pte (mem s') 0x80116000 0) = false /\ km_freelist (kmem s') = 0
  | _ => False
  end.
Proof. vm_compute. auto. Qed.
