(* ===== verification/Sched.v ===== *)
(** * Sched: the scheduling half of proc.c

    The scheduler loop, [sched], [yield], [sleep] and [wakeup], [kill] and the
    thread variants. [swtch] is the point where a run waits for the rest of
    the system: it takes the next element of the environment. *)
From S2P Require Import Prelude Memory State Spinlock Kalloc Consout Vm.

(** ** The process table *)

(** [proc], the current process, as an index into [ptable]. *)
Definition myproc : M nat := c ← gets (fun s => c_proc (kcpu s)); must c.
Definition getp (i : nat) : M proc := p ← gets (fun s => ptable s !! i); must p.
Definition setp (i : nat) (f : proc -> proc) : M unit :=
  _ ← getp i; modify (fun s => s <| ptable ::= alter f i |>).
Definition set_myproc (f : proc -> proc) : M unit := i ← myproc; setp i f.
Definition curproc : M proc := i ← myproc; getp i.

(** The other side of a context switch. *)
Definition swtch : M unit := fun e s =>
  match e with
  | [] => Switched s
  | f :: e' => Ok tt (f s) e'
  end.

Definition set_cpu (f : cpu -> cpu) : M unit := modify (fun s => s <| kcpu ::= f |>).

(** ** Operations *)

Definition pinit : M unit := initlock L_ptable "ptable".

(** [sched] and [tsched] differ in the texts of their panics. *)
Definition sched_with (m1 m2 m3 m4 : string) : M unit :=
  h ← holding L_ptable;
  if negb h then panic m1
  else
    c ← gets kcpu;
    if negb (c_ncli c =? 1) then
      p ← curproc;
      cprintf ("current proc %d" +:+ nl +:+ " cpu->ncli %d" +:+ nl) [A_int (p_pid p); A_int (c_ncli c)] ;;
      panic m2
    else
      p ← curproc;
      if decide (p_state p = RUNNING) then panic m3
      else if truth (Z.land (readeflags c) FL_IF) then panic m4
      else
        let intena := c_intena c in
        swtch ;;
        set_cpu (fun c => c <| c_intena := intena |>).
Definition sched : M unit :=
  sched_with "sched ptable.lock" "sched locks" "sched running" "sched interruptible".
Definition tsched : M unit :=
  sched_with "tsched ptable.lock" "sched locks" "tsched running" "tsched interruptible".

Definition yield : M unit :=
  acquire L_ptable ;;
  set_myproc (fun p => p <| p_state := RUNNABLE |>) ;;
  sched ;;
  release L_ptable.
Definition thread_yield3 (tid : Z) : M unit := yield.

(** [sleep(chan, lk)]; every caller passes a lock. *)
Definition sleep (ch : chan) (lk : lockid) : M unit :=
  c ← gets (fun s => c_proc (kcpu s));
  match c with
  | None => panic "sleep"
  | Some _ =>
      when (negb (bool_decide (lk = L_ptable))) (acquire L_ptable ;; release lk) ;;
      set_myproc (fun p => p <| p_chan := Some ch |>) ;;
      set_myproc (fun p => p <| p_state := SLEEPING |>) ;;
      sched ;;
      set_myproc (fun p => p <| p_chan := None |>) ;;
      when (negb (bool_decide (lk = L_ptable))) (release L_ptable ;; acquire lk)
  end.

(** [wakeup1(chan)] on one process; [None] is the null channel. *)
Definition wake (ch : option chan) (p : proc) : proc :=
  if decide (p_state p = SLEEPING /\ p_chan p = ch) then p <| p_state := RUNNABLE |> else p.
Definition wakeup1 (ch : option chan) : M unit :=
  modify (fun s => s <| ptable ::= map (wake ch) |>).
Definition wakeup (ch : chan) : M unit :=
  acquire L_ptable ;; wakeup1 (Some ch) ;; release L_ptable.

Definition twakeup (tid : Z) : M unit :=
  acquire L_ptable ;;
  mforeach (seq 0 NPROC) (fun i =>
    p ← getp i;
    when (bool_decide (p_state p = SLEEPING) && (p_pid p =? tid) && (p_isthread p =? 1))
      (wakeup1 (Some (Ch_proc i)))) ;;
  release L_ptable.

Definition tsleep : M unit :=
  acquire L_ptable ;;
  i ← myproc;
  sleep (Ch_proc i) L_ptable ;;
  release L_ptable.

(** The body of the loop of [kill]; it returns from [kill] on a match. *)
Definition kill_one (pid : Z) (i : nat) : M (option Z) :=
  p ← getp i;
  if p_pid p =? pid then
    setp i (fun p => p <| p_killed := 1 |>) ;;
    when (bool_decide (p_state p = SLEEPING)) (setp i (fun p => p <| p_state := RUNNABLE |>)) ;;
    release L_ptable ;;
    mret (Some 0)
  else mret None.
Definition kill (pid : Z) : M Z :=
  acquire L_ptable ;;
  r ← mfind (seq 0 NPROC) (kill_one pid);
  match r with
  | Some v => mret v
  | None => release L_ptable ;; mret (-1)
  end.

(** ** The scheduler *)
Section Scheduler.

(** The body of the loop over the table. *)
Definition schedule_one (i : nat) : M unit :=
  p ← getp i;
  if negb (bool_decide (p_state p = RUNNABLE)) then mret tt
  else
    set_cpu (fun c => c <| c_proc := Some i |>) ;;
    switchuvm i ;;
    setp i (fun p => p <| p_state := RUNNING |>) ;;
    swtch ;;
    switchkvm ;;
    set_cpu (fun c => c <| c_proc := None |>).

(** One pass of [for(;;)]. *)
Definition scheduler_pass : M unit :=
  set_cpu (fun c => c <| c_if := true |>) ;;
  acquire L_ptable ;;
  mforeach (seq 0 NPROC) schedule_one ;;
  release L_ptable.

(** [scheduler] never returns; [n] bounds the passes that are run. *)
Fixpoint scheduler (n : nat) : M unit :=
  match n with
  | O => diverge
  | S n' => scheduler_pass ;; scheduler n'
  end.
End Scheduler.

(** ** The sleep/wakeup protocol

    Any number of threads, each of which may run [acquire(lk); while(!cond)
    sleep(chan, lk); cond = 0; release(lk)] and [acquire(lk); cond = 1;
    wakeup(chan); release(lk)], interleaved at their accesses to [lk],
    ptable.lock and the process states. *)
Module SleepProto.

(** Program points. [S_] is the sleeper: testing the condition, at the three
    steps of [sleep] before [sched], in [sched] with ptable.lock, asleep,
    runnable, running again with ptable.lock, reacquiring [lk], and after the
    loop; [W_] the waker: with [lk], condition set, with ptable.lock, after
    [wakeup1], after releasing ptable.lock. *)
Inductive pc :=
| Out | S_test | S_wantpt | S_both | S_commit | S_sched | S_asleep | S_runnable
| S_woken | S_wantlk | S_done
| W_lk | W_set | W_pt | W_woke | W_rel.

Record st := St { lk : option nat; pt : option nat; cond : bool; pcs : nat -> pc }.

Definition goto (i : nat) (p : pc) (f : nat -> pc) : nat -> pc :=
  fun j => if decide (j = i) then p else f j.
(** [wakeup1]. *)
Definition wake_all (f : nat -> pc) : nat -> pc :=
  fun j => match f j with S_asleep => S_runnable | p => p end.

Inductive step : st -> st -> Prop :=
| sleeper_acquire i c f q : f i = Out -> step (St None q c f) (St (Some i) q c (goto i S_test f))
| sleeper_go i l q f : f i = S_test -> step (St l q true f) (St l q false (goto i S_done f))
| sleeper_sleep i l q f : f i = S_test -> step (St l q false f) (St l q false (goto i S_wantpt f))
| sleep_acquire i l c f : f i = S_wantpt -> step (St l None c f) (St l (Some i) c (goto i S_both f))
| sleep_release i l q c f : f i = S_both -> step (St l q c f) (St None q c (goto i S_commit f))
| sleep_state i l q c f : f i = S_commit -> step (St l q c f) (St l q c (goto i S_sched f))
| sleep_sched i l q c f : f i = S_sched -> step (St l q c f) (St l None c (goto i S_asleep f))
| sleep_resume i l c f : f i = S_runnable -> step (St l None c f) (St l (Some i) c (goto i S_woken f))
| sleep_release_pt i l q c f : f i = S_woken -> step (St l q c f) (St l None c (goto i S_wantlk f))
| sleep_reacquire i q c f : f i = S_wantlk -> step (St None q c f) (St (Some i) q c (goto i S_test f))
| sleeper_release i l q c f : f i = S_done -> step (St l q c f) (St None q c (goto i Out f))
| waker_acquire i q c f : f i = Out -> step (St None q c f) (St (Some i) q c (goto i W_lk f))
| waker_set i l q c f : f i = W_lk -> step (St l q c f) (St l q true (goto i W_set f))
| wakeup_acquire i l c f : f i = W_set -> step (St l None c f) (St l (Some i) c (goto i W_pt f))
| wakeup_wake i l q c f : f i = W_pt -> step (St l q c f) (St l q c (goto i W_woke (wake_all f)))
| wakeup_release i l q c f : f i = W_woke -> step (St l q c f) (St l None c (goto i W_rel f))
| waker_release i l q c f : f i = W_rel -> step (St l q c f) (St None q c (goto i Out f)).

Definition init : st := St None None false (fun _ => Out).

Definition has_lk (p : pc) : bool :=
  match p with
  | S_test | S_wantpt | S_both | S_done | W_lk | W_set | W_pt | W_woke | W_rel => true
  | _ => false
  end.
Definition has_pt (p : pc) : bool :=
  match p with S_both | S_commit | S_sched | S_woken | W_pt | W_woke => true | _ => false end.
Definition going (p : pc) : bool := match p with S_wantpt | S_both => true | _ => false end.
Definition dozing (p : pc) : bool :=
  match p with S_commit | S_sched | S_asleep => true | _ => false end.
Definition waking (p : pc) : bool := match p with W_set | W_pt => true | _ => false end.

(** The locks are held by the threads at the points that hold them; a thread
    on its way to sleep has seen the condition false; and while the condition
    holds and somebody is committed to sleep, a waker is about to wake them. *)
Record inv (s : st) : Prop := {
  inv_lk i : has_lk (pcs s i) = true <-> lk s = Some i;
  inv_pt i : has_pt (pcs s i) = true <-> pt s = Some i;
  inv_going i : going (pcs s i) = true -> cond s = false;
  inv_dozing i : dozing (pcs s i) = true -> cond s = true -> exists j, waking (pcs s j) = true;
}.

Lemma move_eq i p f : goto i p f i = p.
Proof. unfold goto. by rewrite decide_True. Qed.
Lemma move_ne i j p f : j <> i -> goto i p f j = f j.
Proof. intros. unfold goto. by rewrite decide_False. Qed.
Ltac goto_cases i j :=
  destruct (decide (j = i)) as [->|]; [rewrite ?move_eq | rewrite ?move_ne by done].

(** The lock clauses after a step of thread [i] that leaves, takes or releases
    the lock [l]. *)
Lemma lock_keep (has : pc -> bool) l i p f :
  (forall j, has (f j) = true <-> l = Some j) -> has p = has (f i) ->
  forall j, has (goto i p f j) = true <-> l = Some j.
Proof. intros Hl Hp j. goto_cases i j; [by rewrite Hp, Hl | apply Hl]. Qed.
Lemma lock_take (has : pc -> bool) i p f :
  (forall j, has (f j) = true <-> None = Some j) -> has p = true ->
  forall j, has (goto i p f j) = true <-> Some i = Some j.
Proof.
  intros Hl Hp j. goto_cases i j; [by rewrite Hp|]. rewrite Hl. split; congruence.
Qed.
Lemma lock_drop (has : pc -> bool) l i p f :
  (forall j, has (f j) = true <-> l = Some j) -> has (f i) = true -> has p = false ->
  forall j, has (goto i p f j) = true <-> None = Some j.
Proof.
  intros Hl Hi Hp j. goto_cases i j; [by rewrite Hp|]. rewrite Hl.
  apply Hl in Hi as ->. split; congruence.
Qed.
Lemma wake_all_has (has : pc -> bool) f j :
  has S_asleep = has S_runnable -> has (wake_all f j) = has (f j).
Proof. intros H. unfold wake_all. destruct (f j); done. Qed.

(** A waker other than the moving thread stays. *)
Lemma waking_goto i p f : 
  (exists j, waking (f j) = true) -> waking (f i) = false \/ waking p = true ->
  exists j, waking (goto i p f j) = true.
Proof.
  intros [j Hj] Hi. exists j. goto_cases i j; [|done]. destruct Hi; congruence.
Qed.

(** Two threads at points that hold the same lock are the same. *)
Lemma holder_unique (has : pc -> bool) l (f : nat -> pc) i j :
  (forall k, has (f k) = true <-> l = Some k) -> has (f i) = true -> has (f j) = true -> i = j.
Proof. intros Hl Hi Hj. apply Hl in Hi, Hj. congruence. Qed.

(** The clauses on the condition, for a step of [i] that does not change it. *)
Lemma going_keep i p (f : nat -> pc) c :
  (forall j, going (f j) = true -> c = false) -> going p = false \/ c = false ->
  forall j, going (goto i p f j) = true -> c = false.
Proof. intros Hg Hp j. goto_cases i j; [destruct Hp; congruence | apply Hg]. Qed.
Lemma dozing_keep i p (f : nat -> pc) c :
  (forall j, dozing (f j) = true -> c = true -> exists k, waking (f k) = true) ->
  dozing p = false \/ dozing (f i) = true \/ c = false -> waking (f i) = false \/ waking p = true ->
  forall j, dozing (goto i p f j) = true -> c = true -> exists k, waking (goto i p f k) = true.
Proof.
  intros Hd Hp Hw j Hj Hc. apply waking_goto; [|done]. revert Hj. goto_cases i j.
  - destruct Hp as [Hp|[Hp|Hp]]; try congruence. eauto.
  - eauto.
Qed.

Ltac by_pc Hf := first [done | by rewrite Hf | by left; rewrite ?Hf | by right; rewrite ?Hf
  | by right; left; rewrite Hf | by right; right].

Lemma sleep_inv_step s s' : inv s -> step s s' -> inv s'.
Proof.
  intros [Hl Hp Hg Hd] Hs. destruct Hs as
    [i c f q Hf|i l q f Hf|i l q f Hf|i l c f Hf|i l q c f Hf|i l q c f Hf|i l q c f Hf
    |i l c f Hf|i l q c f Hf|i q c f Hf|i l q c f Hf|i q c f Hf|i l q c f Hf|i l c f Hf
    |i l q c f Hf|i l q c f Hf|i l q c f Hf]; cbn in Hl, Hp, Hg, Hd.
  15: {
    assert (forall j, dozing (goto i W_woke (wake_all f) j) = false) as Hnd.
    { intros j. goto_cases i j; [done|]. unfold wake_all. destruct (f j) eqn:Ej; try done;
        exfalso; by apply n, (holder_unique has_pt q f); rewrite ?Ej, ?Hf. }
    split; cbn; [apply lock_keep|apply lock_keep|apply going_keep|].
    1, 3: intros j; rewrite wake_all_has by done; apply Hl || apply Hp.
    1, 2: by unfold wake_all; rewrite Hf.
    - intros j. rewrite wake_all_has by done. apply Hg.
    - by left.
    - intros j. by rewrite Hnd. }
  13: {
    split; cbn; [by apply lock_keep; [|rewrite Hf]..|intros j|intros j _ _].
    - goto_cases i j; [done|]. intros Hj. exfalso. apply n.
      apply (holder_unique has_lk l f); [done| |by rewrite Hf]. by destruct (f j).
    - exists i. by rewrite move_eq. }
  all: split; cbn;
    [ first [ by apply lock_keep; [|by_pc Hf] | by apply lock_take | by eapply lock_drop; [| |]; by_pc Hf ]
    | first [ by apply lock_keep; [|by_pc Hf] | by apply lock_take | by eapply lock_drop; [| |]; by_pc Hf ]
    | try (apply going_keep; [done|by_pc Hf])
    | try (apply dozing_keep; [done|by_pc Hf|by_pc Hf]) ].
  all: assert (c = false) as -> by (apply (Hg i); by rewrite Hf); done.
Qed.

Lemma sleep_reachable_inv s : rtc step init s -> inv s.
Proof.
  assert (inv init) as Hi by (split; cbn; intros; split || idtac; done).
  intros H. revert Hi. induction H as [|s1 s2 s3 Hs _ IH]; [done|].
  intros Hi. apply IH. by eapply sleep_inv_step.
Qed.

(** C3. No wakeup is lost: whatever the interleaving, when a thread is asleep
    (or committed to sleep) on a condition that has become true, some thread
    that set it has not yet run its [wakeup1], and so will wake the sleeper. *)
Theorem sleep_no_lost_wakeup s i :
  rtc step init s -> dozing (pcs s i) = true -> cond s = true ->
  exists j, pcs s j = W_set \/ pcs s j = W_pt.
Proof.
  intros H Hi Hc. apply sleep_reachable_inv in H as [_ _ _ Hd].
  destruct (Hd i Hi Hc) as [j Hj]. exists j. by destruct (pcs s j); auto.
Qed.

(** A waker sets the condition after thread 0 gave up [lk] and before it slept. *)
Definition racing : st :=
  St (Some 1%nat) (Some 0%nat) true
    (goto 1 W_set (goto 1 W_lk (goto 0 S_commit (goto 0 S_both (goto 0 S_wantpt (goto 0 S_test (fun _ => Out))))))).
Lemma racing_reachable : rtc step init racing.
Proof.
  eapply rtc_l; [by apply (sleeper_acquire 0)|].
  eapply rtc_l; [by apply (sleeper_sleep 0)|].
  eapply rtc_l; [by apply (sleep_acquire 0)|].
  eapply rtc_l; [by apply (sleep_release 0)|].
  eapply rtc_l; [by apply (waker_acquire 1)|].
  eapply rtc_l; [by apply (waker_set 1)|]. apply rtc_refl.
Qed.
Lemma sleep_no_lost_wakeup_witness : exists j, pcs racing j = W_set \/ pcs racing j = W_pt.
Proof. exact (sleep_no_lost_wakeup racing 0 racing_reachable eq_refl eq_refl). Defined.

End SleepProto.
(** ** Runs of the process table operations *)

Lemma getp_run i p e s : ptable s !! i = Some p -> getp i e s = Ok p s e.
Proof. intros H. unfold getp. mrun. by rewrite H. Qed.
Lemma setp_run i p f e s :
  ptable s !! i = Some p -> setp i f e s = Ok tt (s <| ptable ::= <[i := f p]> |>) e.
Proof.
  intros H. unfold setp. rewrite (bind_ok _ _ _ _ _ _ _ (getp_run i p e s H)).
  unfold modify. f_equal. state_eq. apply list_eq. intros j.
  destruct (decide (j = i)) as [->|Hne].
  - rewrite list_lookup_alter_eq, H, list_lookup_insert_eq; [done|]. by eapply lookup_lt_Some.
  - by rewrite list_lookup_alter_ne, list_lookup_insert_ne.
Qed.

(** ** [kill] *)

Definition killed (p : proc) : proc :=
  (if decide (p_state p = SLEEPING) then p <| p_state := RUNNABLE |> else p) <| p_killed := 1 |>.
Definition has_pid (pid : Z) (p : proc) : Prop := p_pid p = pid.
#[export] Instance has_pid_dec pid p : Decision (has_pid pid p).
Proof. unfold has_pid. apply _. Defined.

Lemma kill_one_found i p pid name e s :
  cpu_ok (kcpu s) -> locks s !! L_ptable = Some (Spinlock 0 name None) ->
  ptable s !! i = Some p -> p_pid p = pid ->
  kill_one pid i e (locked_state L_ptable name s) =
    Ok (Some 0) ((refresh s) <| ptable := <[i := killed p]> (ptable s) |>) e.
Proof.
  intros Hok Hl Hp Hpid. set (s1 := locked_state L_ptable name s).
  assert (ptable s1 !! i = Some p) as Hp' by done.
  unfold kill_one. rewrite (bind_ok _ _ _ _ _ _ _ (getp_run i p e s1 Hp')).
  rewrite (proj2 (Z.eqb_eq _ _) Hpid).
  rewrite (bind_ok _ _ _ _ _ _ _ (setp_run _ _ _ _ _ Hp')).
  unfold killed. case_bool_decide as E.
  - rewrite decide_True by done. mrun. erewrite bind_ok; [|apply setp_run].
    2: { rsimpl. apply list_lookup_insert_eq. by eapply lookup_lt_Some. }
    rewrite (release_bind _ name _ _ s) by done. apply ok_eq.
    subst s1. unfold refresh, locked_state. kext. by rewrite list_insert_insert_eq.
  - rewrite decide_False by done. mrun. rewrite (release_bind _ name _ _ s) by done.
    apply ok_eq. subst s1. unfold refresh, locked_state. kext.
Qed.
Lemma kill_one_other i p pid e s :
  ptable s !! i = Some p -> p_pid p <> pid -> kill_one pid i e s = Ok None s e.
Proof.
  intros Hp Hpid. unfold kill_one. rewrite (bind_ok _ _ _ _ _ _ _ (getp_run i p e s Hp)).
  by rewrite (proj2 (Z.eqb_neq _ _) Hpid).
Qed.

Lemma kill_loop n k name pid e s :
  cpu_ok (kcpu s) -> locks s !! L_ptable = Some (Spinlock 0 name None) ->
  length (ptable s) = (k + n)%nat ->
  mfind (seq k n) (kill_one pid) e (locked_state L_ptable name s) =
  match list_find (has_pid pid) (drop k (ptable s)) with
  | Some (j, p) => Ok (Some 0) ((refresh s) <| ptable := <[(k + j)%nat := killed p]> (ptable s) |>) e
  | None => Ok None (locked_state L_ptable name s) e
  end.
Proof.
  intros Hok Hl. revert k. induction n as [|n IH]; intros k Hlen; cbn [seq mfind].
  { by rewrite drop_ge by lia. }
  destruct (lookup_lt_is_Some_2 (ptable s) k ltac:(lia)) as [p Hp].
  rewrite (drop_S _ _ _ Hp). cbn [list_find]. destruct (decide (has_pid pid p)) as [E|E].
  - rewrite (bind_ok _ _ _ _ _ _ _ (kill_one_found k p pid name e s Hok Hl Hp E)).
    by replace (k + 0)%nat with k by lia.
  - rewrite (bind_ok _ _ _ _ _ _ _ (kill_one_other k p pid e (locked_state L_ptable name s) Hp E)).
    rewrite IH by lia.
    destruct (list_find _ _) as [[j q]|]; [|done]. cbn. by replace (k + S j)%nat with (S (k + j)) by lia.
Qed.

(** [kill] marks the first process with the pid, waking it if it sleeps,
    and returns 0; it returns -1 exactly when no process has the pid; every
    other process, and the rest of the state, is untouched. *)
Theorem kill_spec pid e s :
  cpu_ok (kcpu s) -> lock_free s L_ptable -> length (ptable s) = NPROC ->
  kill pid e s =
    match list_find (has_pid pid) (ptable s) with
    | Some (i, p) => Ok 0 ((refresh s) <| ptable := <[i := killed p]> (ptable s) |>) e
    | None => Ok (-1) (refresh s) e
    end.
Proof.
  intros Hok [name Hl] Hn. unfold kill. rewrite (acquire_bind _ name) by done.
  pose proof (kill_loop NPROC 0 name pid e s Hok Hl Hn) as Hk. rewrite drop_0 in Hk.
  destruct (list_find (has_pid pid) (ptable s)) as [[i p]|].
  - by rewrite (bind_ok _ _ _ _ _ _ _ Hk).
  - rewrite (bind_ok _ _ _ _ _ _ _ Hk). rewrite (release_bind _ name _ _ s) by done. 
    apply ok_eq. unfold locked_state, refresh. kext.
Qed.

Lemma kill_spec_witness :
  let s := kzero_locks <| ptable := <[5%nat := proc0 <| p_pid := 7 |> <| p_state := SLEEPING |>]> (ptable kzero) |> in
  match kill 7 [] s with Ok r s' _ => r = 0 /\ p_state <$> ptable s' !! 5%nat = Some RUNNABLE | _ => False end.
Proof.
  intros s. rewrite (kill_spec 7 [] s); [vm_compute; auto | by split | by eexists | reflexivity].
Defined.

(** ** Dispatch *)

(** The processor after [switchuvm]. *)
Definition on_uvm (cur p : proc) (c : cpu) : cpu :=
  c <| c_ss0 := SEG_KDATA * 8 |> <| c_esp0 := u32 (p_kstack cur + KSTACKSIZE) |>
    <| c_cr3 := v2p (p_pgdir p) |>.

Lemma popped_on_uvm cur p c :
  cpu_ok c -> popped (on_uvm cur p (pushed c)) = on_uvm cur p (refreshed c).
Proof.
  intros Hok. rewrite <- popped_pushed by done. unfold popped, on_uvm. by destruct (pushed c).
Qed.

Lemma switchuvm_run i j cur p e s :
  cpu_ok (kcpu s) -> c_proc (kcpu s) = Some j -> ptable s !! j = Some cur ->
  ptable s !! i = Some p -> p_pgdir p <> 0 ->
  switchuvm i e s = Ok tt (s <| kcpu := on_uvm cur p (refreshed (kcpu s)) |>) e.
Proof.
  intros Hok Hj Hcur Hp Hpg. unfold switchuvm.
  rewrite (bind_ok _ _ _ _ _ _ _ (pushcli_run e s)). mrun.
  change (c_proc (pushed (kcpu s))) with (c_proc (kcpu s)). rewrite Hj. cbn [mbind option_bind].
  rewrite Hcur. mrun. rewrite Hp. mrun. rewrite (proj2 (Z.eqb_neq _ _) Hpg). unfold lcr3. mrun.
  rewrite popcli_run; [|done|rsimpl; cbn [c_ncli pushed]; destruct Hok; lia].
  apply ok_eq. kext. by apply (popped_on_uvm cur p).
Qed.

(** Dispatching: given ptable.lock, the scheduler's loop body leaves a
    process that is not RUNNABLE alone, and hands the processor to a RUNNABLE
    one with it as the current process, in state RUNNING, on its own page table
    and kernel stack, with ptable.lock still held and interrupts off. *)
Theorem schedule_one_dispatch i p s :
  lock_held s L_ptable -> c_if (kcpu s) = false -> 0 < c_ncli (kcpu s) ->
  ptable s !! i = Some p -> p_pgdir p <> 0 ->
  if decide (p_state p = RUNNABLE) then
    exists s', schedule_one i [] s = Switched s' /\
      c_proc (kcpu s') = Some i /\ ptable s' = <[i := p <| p_state := RUNNING |>]> (ptable s) /\
      c_cr3 (kcpu s') = v2p (p_pgdir p) /\ c_esp0 (kcpu s') = u32 (p_kstack p + KSTACKSIZE) /\
      lock_held s' L_ptable /\ c_if (kcpu s') = false /\ c_ncli (kcpu s') = c_ncli (kcpu s)
  else schedule_one i [] s = Ok tt s [].
Proof.
  intros Hl Hif Hn Hp Hpg. unfold schedule_one.
  rewrite (bind_ok _ _ _ _ _ _ _ (getp_run i p [] s Hp)).
  destruct (decide (p_state p = RUNNABLE)) as [E|E];
    [rewrite bool_decide_eq_true_2 by done | by rewrite bool_decide_eq_false_2 by done].
  cbn [negb]. unfold set_cpu. mrun. set (s1 := s <| kcpu ::= _ |>).
  assert (cpu_ok (kcpu s1)) as Hok by (split; subst s1; rsimpl; [lia | done]).
  rewrite (bind_ok _ _ _ _ _ _ _ (switchuvm_run i i p p [] s1 Hok eq_refl Hp Hp Hpg)).
  set (s2 := s1 <| kcpu := _ |>). assert (ptable s2 !! i = Some p) as Hp2 by done.
  rewrite (bind_ok _ _ _ _ _ _ _ (setp_run i p _ [] s2 Hp2)).
  eexists. split; [reflexivity|]. by split_and!.
Qed.

Lemma schedule_one_dispatch_witness :
  let p := proc0 <| p_state := RUNNABLE |> <| p_pgdir := 0x80200000 |> in
  let s := (locked_state L_ptable "ptable" kzero_locks) <| ptable := <[3%nat := p]> (ptable kzero) |> in
  exists s', schedule_one 3 [] s = Switched s' /\ c_proc (kcpu s') = Some 3%nat.
Proof.
  intros p s.
  destruct (schedule_one_dispatch 3 p s) as (s' & H1 & H2 & _); try done.
  - by eexists.
  - by exists s'.
Defined.

(** ** [sleep] *)

Lemma curproc_run i p e s :
  c_proc (kcpu s) = Some i -> ptable s !! i = Some p -> curproc e s = Ok p s e.
Proof.
  intros Hi Hp. unfold curproc, myproc. mrun. rewrite Hi. mrun. by apply getp_run.
Qed.
Lemma set_myproc_run i p f e s :
  c_proc (kcpu s) = Some i -> ptable s !! i = Some p ->
  set_myproc f e s = Ok tt (s <| ptable ::= <[i := f p]> |>) e.
Proof.
  intros Hi Hp. unfold set_myproc, myproc. mrun. rewrite Hi. mrun. by apply setp_run.
Qed.

(** [sched] from a correct caller reaches [swtch] in the same state. *)
Lemma sched_switches i p s :
  lock_held s L_ptable -> c_ncli (kcpu s) = 1 -> c_if (kcpu s) = false ->
  c_proc (kcpu s) = Some i -> ptable s !! i = Some p -> p_state p <> RUNNING ->
  sched [] s = Switched s.
Proof.
  intros [name Hl] Hn Hif Hi Hp Hst. unfold sched, sched_with.
  rewrite (bind_ok _ _ _ _ _ _ _ (holding_run _ _ _ _ Hl)). cbn [lk_locked lk_cpu].
  rewrite bool_decide_eq_true_2 by done. cbn [truth Z.eqb negb andb]. mrun.
  rewrite (proj2 (Z.eqb_eq _ _) Hn). cbn [negb].
  rewrite (bind_ok _ _ _ _ _ _ _ (curproc_run i p _ _ Hi Hp)). rewrite decide_False by done.
  unfold readeflags. rewrite Hif. done.
Qed.

(** [sleep(chan, lk)] gives the processor up with ptable.lock held, [lk]
    released and the process asleep on [chan]: it lets go of [lk] only after it
    has taken ptable.lock. *)
Theorem sleep_switches ch lk i p s :
  lk <> L_ptable -> lock_held s lk -> lock_free s L_ptable ->
  c_ncli (kcpu s) = 1 -> c_if (kcpu s) = false ->
  c_proc (kcpu s) = Some i -> ptable s !! i = Some p ->
  exists s', sleep ch lk [] s = Switched s' /\
    lock_held s' L_ptable /\ lock_free s' lk /\
    (forall k, k <> lk -> k <> L_ptable -> locks s' !! k = locks s !! k) /\
    ptable s' = <[i := p <| p_chan := Some ch |> <| p_state := SLEEPING |>]> (ptable s).
Proof.
  intros Hne [lname Hlk] [pname Hpt] Hn Hif Hi Hp. unfold sleep. mrun. rewrite Hi.
  rewrite bool_decide_eq_false_2 by done. cbn [negb]. mrun.
  rewrite (acquire_bind _ pname) by done. set (s1 := locked_state L_ptable pname s).
  assert (locks s1 !! lk = Some (Spinlock 1 lname (Some (c_id (kcpu s1))))) as Hlk1.
  { subst s1. unfold locked_state. rsimpl. by rewrite lookup_insert_ne. }
  erewrite bind_ok; [|apply (release_run lk lname); [exact Hlk1|done|]].
  2: { subst s1. unfold locked_state. rsimpl. cbn [c_ncli pushed]. lia. }
  set (s2 := s1 <| locks := _ |> <| kcpu := _ |>).
  assert (c_proc (kcpu s2) = Some i) as Hi2 by done. assert (ptable s2 !! i = Some p) as Hp2 by done.
  rewrite (bind_ok _ _ _ _ _ _ _ (set_myproc_run i p _ _ s2 Hi2 Hp2)).
  set (s3 := s2 <| ptable ::= _ |>). assert (i < length (ptable s2))%nat as Hlt by (by eapply lookup_lt_Some).
  assert (ptable s3 !! i = Some (p <| p_chan := Some ch |>)) as Hp3 by (by apply list_lookup_insert_eq).
  rewrite (bind_ok _ _ _ _ _ _ _ (set_myproc_run i _ _ _ s3 Hi2 Hp3)).
  set (s4 := s3 <| ptable ::= _ |>).
  assert (lock_held s4 L_ptable) as Hh4.
  { exists pname. subst s4 s3 s2 s1. unfold locked_state. rsimpl.
    rewrite lookup_insert_ne by done. by rewrite lookup_insert_eq. }
  assert (ptable s4 = <[i := p <| p_chan := Some ch |> <| p_state := SLEEPING |>]> (ptable s)) as Hpt4.
  { subst s4 s3. rsimpl. by rewrite list_insert_insert_eq. }
  assert (c_ncli (kcpu s4) = 1) as Hn4.
  { subst s4 s3 s2 s1. unfold locked_state, popped. rsimpl. cbn [c_ncli pushed]. lia. }
  assert (ptable s4 !! i = Some (p <| p_chan := Some ch |> <| p_state := SLEEPING |>)) as Hp4.
  { rewrite Hpt4. by apply list_lookup_insert_eq. }
  assert (c_if (kcpu s4) = false) as Hif4.
  { subst s4 s3 s2 s1. unfold locked_state, popped. rsimpl. cbn [c_ncli pushed]. by rewrite Hn. }
  exists s4. split; [|split_and!; [done| | |done]].
  - unfold mbind at 1, M_bind at 1. by rewrite (sched_switches i _ s4 Hh4 Hn4 Hif4 Hi2 Hp4).
  - exists lname. apply lookup_insert_eq.
  - intros k Hk1 Hk2. subst s4 s3 s2 s1. unfold locked_state. rsimpl.
    by rewrite !lookup_insert_ne.
Qed.

Lemma sleep_switches_witness :
  let s := (locked_state L_log "log" kzero_locks) <| kcpu ::= fun c => c <| c_proc := Some 2%nat |> |> in
  exists s', sleep Ch_log L_log [] s = Switched s' /\ lock_free s' L_log.
Proof.
  intros s.
  destruct (sleep_switches Ch_log L_log 2 proc0 s) as (s' & H1 & _ & H2 & _); try done.
  - by eexists.
  - by eexists.
  - by exists s'.
Defined.

(** ** [wakeup] *)
Lemma wakeup_run ch e s :
  cpu_ok (kcpu s) -> lock_free s L_ptable ->
  wakeup ch e s = Ok tt ((refresh s) <| ptable ::= map (wake (Some ch)) |>) e.
Proof.
  intros Hok [name Hl]. unfold wakeup, wakeup1. rewrite (acquire_bind _ name) by done. mrun.
  rewrite (release_locked _ name _ s) by done. apply ok_eq. unfold locked_state, refresh. kext.
Qed.
