(* ===== verification/Bio.v ===== *)
(** * Bio: bio.c, ide.c and memide.c

    The buffer cache: a doubly linked list through [bcache], most recently
    used first, over a disk driver. [bcache] has the NBUF buffers and, last, the
    list head. The driver is an interface with two implementations: the in-memory
    disk of memide.c and the IDE disk of ide.c. *)
From S2P Require Import Prelude Memory State Spinlock Sched.

Definition B_BUSY : Z := 0x1.
Definition B_VALID : Z := 0x2.
Definition B_DIRTY : Z := 0x4.
Definition BSIZE : Z := 512.

(** The index of [bcache.head]. *)
Definition head : nat := NBUF.

Definition getb (i : nat) : M buf := b ← gets (fun s => bcache s !! i); must b.
Definition setb (i : nat) (f : buf -> buf) : M unit :=
  _ ← getb i; modify (fun s => s <| bcache ::= alter f i |>).

Definition has_flag (b : buf) (fl : Z) : bool := truth (Z.land (b_flags b) fl).
Definition set_flag (fl : Z) (b : buf) : buf := b <| b_flags := Z.lor (b_flags b) fl |>.
Definition clear_flag (fl : Z) (b : buf) : buf := b <| b_flags := Z.land (b_flags b) (Z.lnot fl) |>.

(** ** The disk driver interface *)

(** [ideintr] is given whether the controller reports no error. *)
Class DiskDriver := { iderw : nat -> M unit; ideintr : bool -> M unit }.

(** The disk of a buffer: the drive and 28 bit sector number sent to the
    controller. *)
Definition disk_key (b : buf) : Z * Z := (Z.land (b_dev b) 1, Z.land (b_sector b) 0xFFFFFFF).
Definition disk_read (s : kstate) (k : Z * Z) : list Z := default (replicate 512 0) (disk s !! k).
Definition disk_write (k : Z * Z) (d : list Z) : M unit :=
  modify (fun s => s <| disk ::= <[k := d]> |> <| dwrites ::= (.++ [(k, d)]) |>).

(** ** memide.c *)
Module Memide.
Section Memide.
(** The number of sectors of the disk image. *)
Variable disksize : Z.

Definition iderw (i : nat) : M unit :=
  b ← getb i;
  if negb (has_flag b B_BUSY) then panic "iderw: buf not busy"
  else if Z.land (b_flags b) (Z.lor B_VALID B_DIRTY) =? B_VALID then panic "iderw: nothing to do"
  else if negb (b_dev b =? 1) then panic "iderw: request not for disk 1"
  else if disksize <=? b_sector b then panic "iderw: sector out of range"
  else
    let p := (1, b_sector b) in
    (if has_flag b B_DIRTY then
       setb i (clear_flag B_DIRTY) ;; disk_write p (b_data b)
     else
       d ← gets (fun s => disk_read s p);
       setb i (fun b => b <| b_data := d |>)) ;;
    setb i (set_flag B_VALID).
End Memide.

Definition ideintr (ok : bool) : M unit := mret tt.
End Memide.

(** ** ide.c *)
Module Ide.

(** [ideinit], given whether any of the 1000 polls sees disk 1. *)
Definition ideinit (disk1 : bool) : M unit :=
  initlock L_ide "ide" ;;
  when disk1 (modify (fun s => s <| havedisk1 := 1 |>)).

(** [idestart(b)]: the controller gets the request; a write's data is on the
    disk from here on, a read's is fetched by the interrupt handler. *)
Definition idestart (i : nat) : M unit :=
  b ← getb i;
  when (has_flag b B_DIRTY) (disk_write (disk_key b) (b_data b)).

(** [ideintr]; [ok] is whether [idewait(1)] reports no error. *)
Definition ideintr (ok : bool) : M unit :=
  acquire L_ide ;;
  q ← gets idequeue;
  match q with
  | None => release L_ide
  | Some i =>
      b ← getb i;
      modify (fun s => s <| idequeue := b_qnext b |>) ;;
      when (negb (has_flag b B_DIRTY) && ok)
        (d ← gets (fun s => disk_read s (disk_key b)); setb i (fun b => b <| b_data := d |>)) ;;
      setb i (set_flag B_VALID) ;;
      setb i (clear_flag B_DIRTY) ;;
      wakeup (Ch_buf i) ;;
      q ← gets idequeue;
      (match q with Some j => idestart j | None => mret tt end) ;;
      release L_ide
  end.

(** The loop of [iderw] that finds the end of the queue and stores the buffer
    there, from the element [j] on. *)
Fixpoint append (fuel : nat) (j i : nat) : M unit :=
  match fuel with
  | O => diverge
  | S n =>
      b ← getb j;
      match b_qnext b with
      | None => setb j (fun b => b <| b_qnext := Some i |>)
      | Some k => append n k i
      end
  end.

Definition iderw (i : nat) : M unit :=
  b ← getb i;
  if negb (has_flag b B_BUSY) then panic "iderw: buf not busy"
  else if Z.land (b_flags b) (Z.lor B_VALID B_DIRTY) =? B_VALID then panic "iderw: nothing to do"
  else
    h1 ← gets havedisk1;
    if negb (b_dev b =? 0) && negb (truth h1) then panic "iderw: ide disk 1 not present"
    else
      acquire L_ide ;;
      setb i (fun b => b <| b_qnext := None |>) ;;
      q ← gets idequeue;
      (match q with
       | None => modify (fun s => s <| idequeue := Some i |>)
       | Some j => append (S NBUF) j i
       end) ;;
      q ← gets idequeue;
      when (bool_decide (q = Some i)) (idestart i) ;;
      mwhile_sleep
        (b ← getb i;
         mret (negb (Z.land (b_flags b) (Z.lor B_VALID B_DIRTY) =? B_VALID)))
        (sleep (Ch_buf i) L_ide) ;;
      release L_ide.
End Ide.

Definition memide_driver (disksize : Z) : DiskDriver := 
  {| iderw := Memide.iderw disksize; ideintr := Memide.ideintr |}.
Definition ide_driver : DiskDriver := {| iderw := Ide.iderw; ideintr := Ide.ideintr |}.

(** ** bio.c *)

(** The body of [binit]'s loop. *)
Definition binit_one (i : nat) : M unit :=
  h ← getb head;
  setb i (fun b => b <| b_next := b_next h |>) ;;
  setb i (fun b => b <| b_prev := head |>) ;;
  setb i (fun b => b <| b_dev := u32 (-1) |>) ;;
  h ← getb head;
  setb (b_next h) (fun b => b <| b_prev := i |>) ;;
  setb head (fun b => b <| b_next := i |>).
Definition binit : M unit :=
  initlock L_bcache "bcache" ;;
  setb head (fun b => b <| b_prev := head |>) ;;
  setb head (fun b => b <| b_next := head |>) ;;
  mforeach (seq 0 NBUF) binit_one.

(** The two loops of [bget], from buffer [j] on; a list longer than the cache
    would be a cycle. *)
Fixpoint bget_scan (fuel : nat) (j : nat) (dev sector : Z) : M (option nat) :=
  if decide (j = head) then mret None
  else match fuel with
  | O => diverge
  | S n =>
      b ← getb j;
      if (b_dev b =? dev) && (b_sector b =? sector) then mret (Some j)
      else bget_scan n (b_next b) dev sector
  end.
Fixpoint bget_recycle (fuel : nat) (j : nat) : M (option nat) :=
  if decide (j = head) then mret None
  else match fuel with
  | O => diverge
  | S n =>
      b ← getb j;
      if negb (has_flag b B_BUSY) && negb (has_flag b B_DIRTY) then mret (Some j)
      else bget_recycle n (b_prev b)
  end.

(** From the label [loop]. *)
Definition bget_try (dev sector : Z) : M (option nat) :=
  h ← getb head;
  r ← bget_scan NBUF (b_next h) dev sector;
  match r with
  | Some j =>
      b ← getb j;
      if negb (has_flag b B_BUSY) then
        setb j (set_flag B_BUSY) ;; release L_bcache ;; mret (Some j)
      else sleep (Ch_buf j) L_bcache ;; mret None
  | None =>
      h ← getb head;
      r ← bget_recycle NBUF (b_prev h);
      match r with
      | Some j =>
          setb j (fun b => b <| b_dev := dev |>) ;;
          setb j (fun b => b <| b_sector := sector |>) ;;
          setb j (fun b => b <| b_flags := B_BUSY |>) ;;
          release L_bcache ;;
          mret (Some j)
      | None => panic "bget: no buffers"
      end
  end.
Definition bget (dev sector : Z) : M nat :=
  acquire L_bcache ;; mloop_sleep (bget_try dev sector).

Section Bio.
Context `{DiskDriver}.

Definition bread (dev sector : Z) : M nat :=
  i ← bget dev sector;
  b ← getb i;
  when (negb (has_flag b B_VALID)) (iderw i) ;;
  mret i.

Definition bwrite (i : nat) : M unit :=
  b ← getb i;
  if negb (has_flag b B_BUSY) then panic "bwrite"
  else setb i (set_flag B_DIRTY) ;; iderw i.

End Bio.

(** [b->next->prev = b->prev; ... bcache.head.next = b;] *)
Definition move_to_front (i : nat) : M unit :=
  b ← getb i;
  setb (b_next b) (fun c => c <| b_prev := b_prev b |>) ;;
  b ← getb i;
  setb (b_prev b) (fun c => c <| b_next := b_next b |>) ;;
  h ← getb head;
  setb i (fun b => b <| b_next := b_next h |>) ;;
  setb i (fun b => b <| b_prev := head |>) ;;
  h ← getb head;
  setb (b_next h) (fun c => c <| b_prev := i |>) ;;
  setb head (fun h => h <| b_next := i |>).

Definition brelse (i : nat) : M unit :=
  b ← getb i;
  if negb (has_flag b B_BUSY) then panic "brelse"
  else
    acquire L_bcache ;;
    move_to_front i ;;
    setb i (clear_flag B_BUSY) ;;
    wakeup (Ch_buf i) ;;
    release L_bcache.
