(* ===== verification/Buffers.v ===== *)
(** * Buffers: correctness of the buffer cache

    The linked list of bio.c as a list of indices ([lru]), [bget]'s two loops as
    searches in it, [brelse] as a move to the front, and what the cache promises
    its users. *)
From S2P Require Import Prelude Memory State Spinlock Sched Bio.

(** ** Doubly linked lists *)

Section Links.
Implicit Types (nx pv : nat -> nat) (c l : list nat).

(** Consecutive elements of [c] are linked both ways. *)
Fixpoint links nx pv c : Prop :=
  match c with
  | a :: ((b :: _) as c') => nx a = b /\ pv b = a /\ links nx pv c'
  | _ => True
  end.

Lemma links_app nx pv c1 a c2 :
  links nx pv (c1 ++ a :: c2) <-> links nx pv (c1 ++ [a]) /\ links nx pv (a :: c2).
Proof.
  induction c1 as [|x c1 IH]; cbn [app].
  - cbn. tauto.
  - destruct c1 as [|y c1]; cbn [app] in *.
    + destruct c2; cbn; tauto.
    + change (links nx pv (x :: y :: c1 ++ a :: c2)) with
        (nx x = y /\ pv y = x /\ links nx pv (y :: c1 ++ a :: c2)).
      change (links nx pv (x :: y :: c1 ++ [a])) with
        (nx x = y /\ pv y = x /\ links nx pv (y :: c1 ++ [a])). tauto.
Qed.

(** The list depends on [nx] up to its last element and on [pv] from its second. *)
Lemma links_ext nx pv nx' pv' c x :
  links nx pv (c ++ [x]) -> (forall j, j ∈ c -> nx' j = nx j) ->
  (forall j, j ∈ tail (c ++ [x]) -> pv' j = pv j) -> links nx' pv' (c ++ [x]).
Proof.
  induction c as [|a c IH]; [done|]. destruct c as [|b c]; cbn [app tail] in *.
  - intros (H1 & H2 & _) Hn Hp. cbn. rewrite Hn, Hp by (by left). done.
  - intros (H1 & H2 & H3) Hn Hp. split_and!.
    + rewrite Hn by (by left). done.
    + rewrite Hp by (by left). done.
    + apply IH; [done| |]; intros j Hj; [apply Hn | apply Hp]; by right.
Qed.

Definition fset (f : nat -> nat) (i v : nat) : nat -> nat := fun j => if decide (j = i) then v else f j.
Lemma fset_eq f i v : fset f i v i = v.
Proof. unfold fset. by rewrite decide_True. Qed.
Lemma fset_ne f i v j : j <> i -> fset f i v j = f j.
Proof. intros. unfold fset. by rewrite decide_False. Qed.

(** The circular list through [h], without [i]. *)
Lemma links_remove nx pv h l1 i l2 :
  NoDup (h :: l1 ++ i :: l2) -> links nx pv (h :: l1 ++ i :: l2 ++ [h]) ->
  links (fset nx (pv i) (nx i)) (fset pv (nx i) (pv i)) (h :: l1 ++ l2 ++ [h]).
Proof.
  intros Hnd Hl. change (h :: l1 ++ i :: l2) with ((h :: l1) ++ i :: l2) in Hnd.
  change (links nx pv ((h :: l1) ++ i :: l2 ++ [h])) in Hl.
  change (links (fset nx (pv i) (nx i)) (fset pv (nx i) (pv i)) ((h :: l1) ++ l2 ++ [h])).
  apply links_app in Hl as [HA HB]. apply NoDup_app in Hnd as (HndA & HdAB & [HiB HndB]%NoDup_cons).
  destruct (exists_last (l := h :: l1)) as (A0 & p & EA); [done|].
  destruct (l2 ++ [h]) as [|n B0] eqn:EB; [by destruct l2|].
  rewrite EA in HA. rewrite <- app_assoc in HA. apply links_app in HA as [HA (_ & Ep & _)].
  destruct HB as (En & Ei & HB). rewrite Ep, En, EA, <- app_assoc. cbn [app].
  assert (p ∈ h :: l1) as Hp by (rewrite EA; apply elem_of_app; right; by left).
  assert (n = h \/ n ∈ l2) as Hn.
  { destruct l2 as [|x l2]; injection EB as <-; [by left | right; by left]. }
  apply links_app. split; [|split_and!; [apply fset_eq | apply fset_eq | rewrite <- EB]].
  - apply (links_ext nx pv); [done| |].
    + intros j Hj. apply fset_ne. intros ->. rewrite EA in HndA.
      apply NoDup_app in HndA as (_ & Hd & _). apply (Hd p Hj). by left.
    + intros j Hj. apply fset_ne. intros ->. rewrite <- EA in Hj. cbn in Hj.
      destruct Hn as [-> | Hn]; [by apply NoDup_cons in HndA as []|].
      apply (HdAB n); right; done.
  - apply (links_ext nx pv); [by rewrite EB| |].
    + intros j Hj. apply fset_ne. intros ->. apply (HdAB p Hp). by right.
    + intros j Hj. apply fset_ne. intros ->. destruct l2 as [|x l2]; cbn in Hj, EB.
      { by apply elem_of_nil in Hj. }
      injection EB as <- _. apply elem_of_app in Hj as [Hj|Hj%list_elem_of_singleton].
      * by apply NoDup_cons in HndB as [].
      * apply (HdAB h); [by left | right; rewrite <- Hj; by left].
Qed.

(** Linking [i] in after [h]. *)
Lemma links_insert nx pv h i l :
  NoDup (h :: i :: l) -> links nx pv (h :: l ++ [h]) ->
  links (fset (fset nx i (nx h)) h i) (fset (fset pv i h) (nx h) i) (h :: i :: l ++ [h]).
Proof.
  intros [Hh [Hi Hnd]%NoDup_cons]%NoDup_cons Hl. apply not_elem_of_cons in Hh as [Hhi Hhl].
  destruct (l ++ [h]) as [|n B0] eqn:EB; [by destruct l|]. destruct Hl as (E1 & E2 & HB).
  rewrite E1.
  assert (n = h \/ n ∈ l) as Hn.
  { destruct l as [|x l]; injection EB as <-; [by left | right; by left]. }
  assert (n <> i) as Hni by (destruct Hn; congruence).
  split; [|split; [|split; [|split]]].
  - apply fset_eq.
  - rewrite (fset_ne _ n) by congruence. apply fset_eq.
  - rewrite (fset_ne _ h) by congruence. apply fset_eq.
  - apply fset_eq.
  - rewrite <- EB. apply (links_ext nx pv); [by rewrite EB| |].
    + intros j Hj. rewrite !fset_ne; [done|congruence..].
    + intros j Hj. destruct l as [|x l]; cbn in Hj, EB; [by apply elem_of_nil in Hj|].
      injection EB as <- _. apply NoDup_cons in Hnd as [Hx _].
      assert (j <> x /\ j <> i) as [??].
      { apply elem_of_app in Hj as [Hj| ->%list_elem_of_singleton].
        - apply not_elem_of_cons in Hi as [??]. split; congruence.
        - apply not_elem_of_cons in Hhl as [??]. split; congruence. }
      by rewrite !fset_ne.
Qed.
End Links.

(** ** The list of bio.c *)

Definition nxf (bs : list buf) (j : nat) : nat := from_option b_next 0%nat (bs !! j).
Definition pvf (bs : list buf) (j : nat) : nat := from_option b_prev 0%nat (bs !! j).
(** What a buffer holds besides its place in the list. *)
Definition payload (b : buf) : Z * Z * Z * option nat * list Z :=
  (b_flags b, b_dev b, b_sector b, b_qnext b, b_data b).

(** The cache's buffers in the order of the list, most recently used first. *)
Record lru (bs : list buf) (l : list nat) : Prop := {
  lru_length : length bs = S NBUF;
  lru_perm : l ≡ₚ seq 0 NBUF;
  lru_links : links (nxf bs) (pvf bs) (head :: l ++ [head]);
}.

Lemma lru_elem bs l i : lru bs l -> i ∈ l <-> (i < NBUF)%nat.
Proof. intros Hl. rewrite (lru_perm _ _ Hl), elem_of_seq. unfold NBUF. lia. Qed.
Lemma lru_nodup bs l : lru bs l -> NoDup (head :: l).
Proof.
  intros Hl. apply NoDup_cons. split.
  - rewrite (lru_elem _ _ _ Hl). unfold head. lia.
  - rewrite (lru_perm _ _ Hl). apply NoDup_seq.
Qed.

Lemma getb_run i b e s : bcache s !! i = Some b -> getb i e s = Ok b s e.
Proof. intros H. unfold getb. mrun. by rewrite H. Qed.
Lemma setb_run i b f e s :
  bcache s !! i = Some b -> setb i f e s = Ok tt (s <| bcache ::= <[i := f b]> |>) e.
Proof.
  intros H. unfold setb. rewrite (bind_ok _ _ _ _ _ _ _ (getb_run i b e s H)).
  apply ok_eq. kext. apply list_eq. intros j. destruct (decide (j = i)) as [->|Hne].
  - rewrite list_lookup_alter_eq, H, list_lookup_insert_eq; [done|]. by eapply lookup_lt_Some.
  - by rewrite list_lookup_alter_ne, list_lookup_insert_ne.
Qed.
Lemma setb_alter i f e s :
  (i < length (bcache s))%nat -> setb i f e s = Ok tt (s <| bcache := alter f i (bcache s) |>) e.
Proof.
  intros [b Hb]%lookup_lt_is_Some_2. unfold setb.
  by rewrite (bind_ok _ _ _ _ _ _ _ (getb_run i b e s Hb)).
Qed.
Lemma getb_links i e s :
  (i < length (bcache s))%nat ->
  exists b, getb i e s = Ok b s e /\ b_next b = nxf (bcache s) i /\ b_prev b = pvf (bcache s) i.
Proof.
  intros [b Hb]%lookup_lt_is_Some_2. exists b. rewrite (getb_run _ b) by done.
  unfold nxf, pvf. by rewrite Hb.
Qed.

(** Storing a link. *)
Section Alter.
Context (bs : list buf) (i v : nat) (Hi : (i < length bs)%nat).
Let set_next (b : buf) := b <| b_next := v |>.
Let set_prev (b : buf) := b <| b_prev := v |>.

Lemma nxf_set_next j : nxf (alter set_next i bs) j = fset (nxf bs) i v j.
Proof.
  unfold nxf, fset. case_decide as E.
  - subst. destruct (lookup_lt_is_Some_2 bs i Hi) as [b Hb]. by rewrite list_lookup_alter_eq, Hb.
  - by rewrite list_lookup_alter_ne.
Qed.
Lemma pvf_set_prev j : pvf (alter set_prev i bs) j = fset (pvf bs) i v j.
Proof.
  unfold pvf, fset. case_decide as E.
  - subst. destruct (lookup_lt_is_Some_2 bs i Hi) as [b Hb]. by rewrite list_lookup_alter_eq, Hb.
  - by rewrite list_lookup_alter_ne.
Qed.
Lemma nxf_set_prev j : nxf (alter set_prev i bs) j = nxf bs j.
Proof.
  unfold nxf. destruct (decide (j = i)) as [->|E].
  - destruct (lookup_lt_is_Some_2 bs i Hi) as [b Hb]. by rewrite list_lookup_alter_eq, Hb.
  - by rewrite list_lookup_alter_ne.
Qed.
Lemma pvf_set_next j : pvf (alter set_next i bs) j = pvf bs j.
Proof.
  unfold pvf. destruct (decide (j = i)) as [->|E].
  - destruct (lookup_lt_is_Some_2 bs i Hi) as [b Hb]. by rewrite list_lookup_alter_eq, Hb.
  - by rewrite list_lookup_alter_ne.
Qed.
Lemma payload_alter f : (forall b, payload (f b) = payload b) -> payload <$> alter f i bs = payload <$> bs.
Proof.
  intros Hf. apply list_eq. intros j. rewrite !list_lookup_fmap.
  destruct (decide (j = i)) as [->|E].
  - rewrite list_lookup_alter_eq. destruct (bs !! i); cbn; by rewrite ?Hf.
  - by rewrite list_lookup_alter_ne.
Qed.
End Alter.

Lemma links_eq nx pv nx' pv' c :
  (forall j, nx' j = nx j) -> (forall j, pv' j = pv j) -> links nx pv c -> links nx' pv' c.
Proof.
  intros Hn Hp. induction c as [|a [|b c] IH]; [done..|]. intros (H1 & H2 & H3).
  split_and!; [by rewrite Hn|by rewrite Hp|by apply IH].
Qed.

(** A link leads to an element of the list. *)
Lemma links_next nx pv a c x : links nx pv (a :: c ++ [x]) -> nx a ∈ c ++ [x].
Proof. destruct c as [|b c]; cbn; intros (-> & _); by left. Qed.
Lemma links_prev nx pv c x : links nx pv (c ++ [x]) -> c <> [] -> pv x ∈ c.
Proof.
  intros Hl Hne. destruct (exists_last Hne) as (c0 & y & ->). rewrite <- app_assoc in Hl.
  apply links_app in Hl as [_ (_ & -> & _)]. apply elem_of_app. right. by left.
Qed.

(** The two halves of [move_to_front]: unlinking, and linking in at the front. *)
Definition unlink (bs : list buf) (i : nat) : list buf :=
  alter (fun c => c <| b_next := nxf bs i |>) (pvf bs i)
    (alter (fun c => c <| b_prev := pvf bs i |>) (nxf bs i) bs).
Definition link_front (bs : list buf) (i : nat) : list buf :=
  let h1 := nxf bs head in
  alter (fun c => c <| b_next := i |>) head
    (alter (fun c => c <| b_prev := i |>) h1
      (alter (fun c => c <| b_prev := head |>) i (alter (fun c => c <| b_next := h1 |>) i bs))).

Lemma unlink_payload bs i : payload <$> unlink bs i = payload <$> bs.
Proof. unfold unlink. by rewrite !payload_alter. Qed.
Lemma link_front_payload bs i : payload <$> link_front bs i = payload <$> bs.
Proof. unfold link_front. by rewrite !payload_alter. Qed.

Lemma unlink_links bs i c :
  (nxf bs i < length bs)%nat -> (pvf bs i < length bs)%nat ->
  links (fset (nxf bs) (pvf bs i) (nxf bs i)) (fset (pvf bs) (nxf bs i) (pvf bs i)) c ->
  links (nxf (unlink bs i)) (pvf (unlink bs i)) c.
Proof.
  intros Hn Hp. unfold unlink. apply links_eq; intros j.
  - rewrite nxf_set_next by (by rewrite length_alter). unfold fset. case_decide; [done|].
    by rewrite nxf_set_prev.
  - rewrite pvf_set_next by (by rewrite length_alter). by rewrite pvf_set_prev.
Qed.
Lemma link_front_links bs i c :
  (nxf bs head < length bs)%nat -> (head < length bs)%nat -> (i < length bs)%nat ->
  links (fset (fset (nxf bs) i (nxf bs head)) head i)
    (fset (fset (pvf bs) i head) (nxf bs head) i) c ->
  links (nxf (link_front bs i)) (pvf (link_front bs i)) c.
Proof.
  intros Hh1 Hh Hi. unfold link_front. apply links_eq; intros j.
  - rewrite nxf_set_next by (by rewrite !length_alter). unfold fset. case_decide; [done|].
    rewrite !nxf_set_prev by (by rewrite !length_alter). by rewrite nxf_set_next.
  - rewrite pvf_set_next by (by rewrite !length_alter).
    rewrite pvf_set_prev by (by rewrite !length_alter). unfold fset. case_decide; [done|].
    rewrite pvf_set_prev by (by rewrite !length_alter). unfold fset.
    case_decide; [done|]. by rewrite pvf_set_next.
Qed.

(** [brelse] moves the buffer to the front of the list. *)
Lemma front_lru bs l1 i l2 :
  lru bs (l1 ++ i :: l2) ->
  lru (link_front (unlink bs i) i) (i :: l1 ++ l2) /\
  (pvf bs i <= NBUF)%nat /\ (nxf bs i <= NBUF)%nat /\ (nxf (unlink bs i) head <= NBUF)%nat.
Proof.
  intros Hl. pose proof (lru_nodup _ _ Hl) as Hnd. destruct (Hl) as [Hlen Hperm Hlinks].
  assert (forall j, j ∈ head :: (l1 ++ i :: l2) -> (j <= NBUF)%nat) as Hall.
  { intros j. rewrite elem_of_cons, (lru_elem _ _ _ Hl). unfold head. lia. }
  rewrite <- app_assoc in Hlinks. apply (links_app _ _ (head :: l1)) in Hlinks as Hsp.
  destruct Hsp as [HA HB]. apply links_prev in HA; [|done]. apply links_next in HB.
  assert (pvf bs i <= NBUF)%nat as Hp.
  { apply Hall. rewrite elem_of_cons, elem_of_app in *. tauto. }
  assert (nxf bs i <= NBUF)%nat as Hn.
  { apply Hall. rewrite elem_of_app, list_elem_of_singleton in HB.
    rewrite elem_of_cons, elem_of_app, elem_of_cons. tauto. }
  pose proof (links_remove _ _ head l1 i l2 Hnd Hlinks) as Hrem.
  apply unlink_links in Hrem; [|lia|lia]. rewrite app_assoc in Hrem.
  pose proof (links_next _ _ _ _ _ Hrem) as Hh.
  assert (nxf (unlink bs i) head <= NBUF)%nat as Hh1.
  { apply Hall. rewrite !elem_of_app, list_elem_of_singleton in Hh.
    rewrite elem_of_cons, elem_of_app, elem_of_cons. tauto. }
  assert (head :: i :: l1 ++ l2 ≡ₚ head :: l1 ++ i :: l2) as Hpm by (by rewrite Permutation_middle).
  assert (length (unlink bs i) = S NBUF) as Hlen2 by (unfold unlink; by rewrite !length_alter).
  split_and!; try done. split.
  - unfold link_front. by rewrite !length_alter.
  - rewrite <- Hperm. apply Permutation_middle.
  - apply link_front_links; rewrite ?Hlen2; [lia|unfold head; lia| |].
    + assert (i ∈ l1 ++ i :: l2) as Hi by (apply elem_of_app; right; by left).
      apply (lru_elem _ _ _ Hl) in Hi. lia.
    + apply links_insert; [|done]. by rewrite Hpm.
Qed.

Ltac len := rewrite ?length_alter; assumption.

Lemma move_to_front_run i e s :
  let bs := bcache s in
  (i < length bs)%nat -> (head < length bs)%nat -> (nxf bs i < length bs)%nat ->
  (pvf bs i < length bs)%nat -> (nxf (unlink bs i) head < length bs)%nat ->
  nxf bs i <> i -> i <> head ->
  move_to_front i e s = Ok tt (s <| bcache := link_front (unlink bs i) i |>) e.
Proof.
  intros bs Hi Hh Hn Hp Hh1 Hni Hih. unfold move_to_front.
  destruct (getb_links i e s Hi) as (b & Hb & Eb & Eb'). fold bs in Eb, Eb'.
  rewrite (bind_ok _ _ _ _ _ _ _ Hb), Eb, Eb'.
  rewrite (bind_ok _ _ _ _ _ _ _ (setb_alter _ _ e s Hn)). fold bs.
  set (bs1 := alter _ _ bs). set (s1 := s <| bcache := bs1 |>).
  destruct (getb_links i e s1 ltac:(subst s1 bs1; rsimpl; len)) as (b1 & Hb1 & Eb1 & Eb1').
  assert (nxf bs1 i = nxf bs i) as En by (by apply nxf_set_prev).
  assert (pvf bs1 i = pvf bs i) as Ep by (subst bs1; rewrite pvf_set_prev by done; by apply fset_ne).
  change (bcache s1) with bs1 in Eb1, Eb1'. rewrite En in Eb1. rewrite Ep in Eb1'.
  rewrite (bind_ok _ _ _ _ _ _ _ Hb1), Eb1, Eb1'.
  erewrite bind_ok; [|apply setb_alter; subst s1 bs1; rsimpl; len].
  change (s1 <| bcache := _ |>) with (s <| bcache := unlink bs i |>).
  set (bs2 := unlink bs i). fold bs2 in Hh1. set (s2 := s <| bcache := bs2 |>).
  assert (length bs2 = length bs) as Hl2 by (subst bs2; unfold unlink; by rewrite !length_alter).
  destruct (getb_links head e s2 ltac:(change (head < length bs2)%nat; lia)) as (h & Hb2 & Eh & _).
  change (bcache s2) with bs2 in Eh. rewrite (bind_ok _ _ _ _ _ _ _ Hb2), Eh.
  erewrite bind_ok; [|apply setb_alter; change (i < length bs2)%nat; lia].
  erewrite bind_ok; [|apply setb_alter; rsimpl; rewrite length_alter; change (i < length bs2)%nat; lia].
  rsimpl. set (bs4 := alter _ i (alter _ i _)). set (s4 := _ <| bcache := bs4 |>).
  assert (length bs4 = length bs) as Hl4 by (subst bs4; rewrite !length_alter; exact Hl2).
  destruct (getb_links head e s4 ltac:(change (head < length bs4)%nat; lia)) as (h4 & Hb4 & Eh4 & _).
  assert (nxf bs4 head = nxf bs2 head) as Eh4'.
  { subst bs4. rewrite nxf_set_prev by (rewrite length_alter; change (i < length bs2)%nat; lia).
    rewrite nxf_set_next by (change (i < length bs2)%nat; lia). by apply fset_ne. }
  change (bcache s4) with bs4 in Eh4. rewrite Eh4' in Eh4. rewrite (bind_ok _ _ _ _ _ _ _ Hb4), Eh4.
  erewrite bind_ok; [|apply setb_alter; change (nxf bs2 head < length bs4)%nat; lia].
  rewrite setb_alter by (rsimpl; rewrite length_alter; change (head < length bs4)%nat; lia).
  apply ok_eq. kext.
Qed.

(** ** The searches of [bget] *)

Definition at_buf (bs : list buf) (P : buf -> bool) (j : nat) : bool := from_option P false (bs !! j).
Definition caches (dev sector : Z) (b : buf) : bool := (b_dev b =? dev) && (b_sector b =? sector).
Definition recyclable (b : buf) : bool := negb (has_flag b B_BUSY) && negb (has_flag b B_DIRTY).

Lemma bget_scan_run fuel l dev sector e s :
  let bs := bcache s in
  links (nxf bs) (pvf bs) (l ++ [head]) -> head ∉ l -> Forall (fun j => j < length bs)%nat l ->
  (length l <= fuel)%nat ->
  bget_scan fuel (hd head l) dev sector e s = Ok (find (at_buf bs (caches dev sector)) l) s e.
Proof.
  intros bs. revert l. induction fuel as [|n IH]; intros l Hl Hh Hr Hf.
  all: destruct l as [|j l]; [done|]; cbn [length] in Hf; try lia.
  apply not_elem_of_cons in Hh as [Hj Hh]. apply Forall_cons in Hr as [Hjr Hr].
  cbn [bget_scan hd find]. rewrite decide_False by done.
  destruct (lookup_lt_is_Some_2 bs j Hjr) as [b Hb].
  rewrite (bind_ok _ _ _ _ _ _ _ (getb_run j b e s Hb)).
  assert (at_buf bs (caches dev sector) j = (b_dev b =? dev) && (b_sector b =? sector)) as ->
    by (unfold at_buf; by rewrite Hb).
  destruct ((b_dev b =? dev) && (b_sector b =? sector)); [done|].
  assert (b_next b = hd head l) as ->.
  { replace (b_next b) with (nxf bs j) by (unfold nxf; by rewrite Hb).
    destruct l as [|k l]; cbn in Hl; apply Hl. }
  apply IH; [|done|done|lia]. by destruct l; [|apply Hl].
Qed.

Lemma bget_recycle_run fuel l e s :
  let bs := bcache s in
  links (nxf bs) (pvf bs) (head :: l) -> head ∉ l -> Forall (fun j => j < length bs)%nat l ->
  (length l <= fuel)%nat ->
  bget_recycle fuel (List.last l head) e s = Ok (find (at_buf bs recyclable) (rev l)) s e.
Proof.
  intros bs. revert l. induction fuel as [|n IH]; intros l Hl Hh Hr Hf.
  all: destruct l as [|j l _] using rev_ind; [done|]; rewrite length_app in Hf; cbn [length] in Hf; try lia.
  rewrite not_elem_of_app, list_elem_of_singleton in Hh. destruct Hh as [Hh Hj].
  apply Forall_app in Hr as [Hr [Hjr _]%Forall_cons]. rewrite last_last, rev_unit.
  cbn [bget_recycle find]. rewrite decide_False by congruence.
  destruct (lookup_lt_is_Some_2 bs j Hjr) as [b Hb].
  rewrite (bind_ok _ _ _ _ _ _ _ (getb_run j b e s Hb)).
  assert (at_buf bs recyclable j = negb (has_flag b B_BUSY) && negb (has_flag b B_DIRTY)) as ->
    by (unfold at_buf; by rewrite Hb).
  destruct (negb (has_flag b B_BUSY) && negb (has_flag b B_DIRTY)); [done|].
  destruct (exists_last (l := head :: l)) as (c & p & Ec); [done|].
  change (head :: l ++ [j]) with ((head :: l) ++ [j]) in Hl. rewrite Ec, <- app_assoc in Hl.
  apply links_app in Hl as [Hl (_ & Hp & _)].
  assert (b_prev b = List.last l head) as ->.
  { replace (b_prev b) with (pvf bs j) by (unfold pvf; by rewrite Hb). rewrite Hp.
    replace (List.last l head) with (List.last (head :: l) head) by (by destruct l).
    by rewrite Ec, last_last. }
  apply IH; [by rewrite Ec|done|done|lia].
Qed.

(** ** Flags *)

Lemma flag_bit x k : 0 <= k -> truth (Z.land x (2 ^ k)) = Z.testbit x k.
Proof.
  intros Hk. unfold truth. destruct (Z.testbit x k) eqn:E.
  - destruct (Z.eqb_spec (Z.land x (2 ^ k)) 0) as [E'|]; [|done].
    apply (f_equal (fun z => Z.testbit z k)) in E'.
    rewrite Z.land_spec, E, Z.pow2_bits_true, Z.bits_0 in E' by done. done.
  - replace (Z.land x (2 ^ k)) with 0; [done|]. apply Z.bits_inj'. intros j Hj.
    rewrite Z.bits_0, Z.land_spec. destruct (decide (j = k)) as [->|Hne].
    + by rewrite E.
    + by rewrite Z.pow2_bits_false, andb_false_r by congruence.
Qed.
Lemma busy_bit b : has_flag b B_BUSY = Z.testbit (b_flags b) 0.
Proof. by apply (flag_bit _ 0). Qed.
Lemma valid_bit b : has_flag b B_VALID = Z.testbit (b_flags b) 1.
Proof. by apply (flag_bit _ 1). Qed.
Lemma dirty_bit b : has_flag b B_DIRTY = Z.testbit (b_flags b) 2.
Proof. by apply (flag_bit _ 2). Qed.

(** The flags of a buffer after [set_flag] and [clear_flag]. *)
Ltac flag_bits :=
  rewrite ?busy_bit, ?valid_bit, ?dirty_bit; unfold set_flag, clear_flag; rsimpl;
  rewrite ?Z.lor_spec, ?Z.land_spec, ?Z.lnot_spec by lia;
  try (change (Z.testbit B_BUSY 0) with true); try (change (Z.testbit B_VALID 1) with true);
  try (change (Z.testbit B_DIRTY 2) with true);
  try (change (Z.testbit B_BUSY 1) with false); try (change (Z.testbit B_BUSY 2) with false);
  try (change (Z.testbit B_VALID 0) with false); try (change (Z.testbit B_VALID 2) with false);
  try (change (Z.testbit B_DIRTY 0) with false); try (change (Z.testbit B_DIRTY 1) with false);
  cbn [negb]; rewrite ?orb_false_r, ?orb_true_r, ?andb_true_r, ?andb_false_r; reflexivity.

Section Flags.
Context (b : buf).
Lemma set_busy_busy : has_flag (set_flag B_BUSY b) B_BUSY = true.
Proof. flag_bits. Qed.
Lemma set_busy_valid : has_flag (set_flag B_BUSY b) B_VALID = has_flag b B_VALID.
Proof. flag_bits. Qed.
Lemma set_busy_dirty : has_flag (set_flag B_BUSY b) B_DIRTY = has_flag b B_DIRTY.
Proof. flag_bits. Qed.
Lemma set_valid_busy : has_flag (set_flag B_VALID b) B_BUSY = has_flag b B_BUSY.
Proof. flag_bits. Qed.
Lemma set_valid_valid : has_flag (set_flag B_VALID b) B_VALID = true.
Proof. flag_bits. Qed.
Lemma set_valid_dirty : has_flag (set_flag B_VALID b) B_DIRTY = has_flag b B_DIRTY.
Proof. flag_bits. Qed.
Lemma set_dirty_busy : has_flag (set_flag B_DIRTY b) B_BUSY = has_flag b B_BUSY.
Proof. flag_bits. Qed.
Lemma set_dirty_valid : has_flag (set_flag B_DIRTY b) B_VALID = has_flag b B_VALID.
Proof. flag_bits. Qed.
Lemma set_dirty_dirty : has_flag (set_flag B_DIRTY b) B_DIRTY = true.
Proof. flag_bits. Qed.
Lemma clear_busy_busy : has_flag (clear_flag B_BUSY b) B_BUSY = false.
Proof. flag_bits. Qed.
Lemma clear_busy_valid : has_flag (clear_flag B_BUSY b) B_VALID = has_flag b B_VALID.
Proof. flag_bits. Qed.
Lemma clear_busy_dirty : has_flag (clear_flag B_BUSY b) B_DIRTY = has_flag b B_DIRTY.
Proof. flag_bits. Qed.
Lemma clear_valid_busy : has_flag (clear_flag B_VALID b) B_BUSY = has_flag b B_BUSY.
Proof. flag_bits. Qed.
Lemma clear_valid_valid : has_flag (clear_flag B_VALID b) B_VALID = false.
Proof. flag_bits. Qed.
Lemma clear_valid_dirty : has_flag (clear_flag B_VALID b) B_DIRTY = has_flag b B_DIRTY.
Proof. flag_bits. Qed.
Lemma clear_dirty_busy : has_flag (clear_flag B_DIRTY b) B_BUSY = has_flag b B_BUSY.
Proof. flag_bits. Qed.
Lemma clear_dirty_valid : has_flag (clear_flag B_DIRTY b) B_VALID = has_flag b B_VALID.
Proof. flag_bits. Qed.
Lemma clear_dirty_dirty : has_flag (clear_flag B_DIRTY b) B_DIRTY = false.
Proof. flag_bits. Qed.
Lemma flag_data d f : has_flag (b <| b_data := d |>) f = has_flag b f.
Proof. done. Qed.
End Flags.
Create Rewrite HintDb flags.
#[export] Hint Rewrite flag_data
  set_busy_busy set_busy_valid set_busy_dirty clear_busy_busy clear_busy_valid clear_busy_dirty
  set_valid_busy set_valid_valid set_valid_dirty clear_valid_busy clear_valid_valid clear_valid_dirty
  set_dirty_busy set_dirty_valid set_dirty_dirty clear_dirty_busy clear_dirty_valid clear_dirty_dirty : flags.
Ltac flags := autorewrite with flags in *; try done.

(** The driver's test for a buffer that is in sync. *)
Lemma in_sync b :
  (Z.land (b_flags b) (Z.lor B_VALID B_DIRTY) =? B_VALID) = has_flag b B_VALID && negb (has_flag b B_DIRTY).
Proof.
  rewrite valid_bit, dirty_bit. set (f := b_flags b). change (Z.lor B_VALID B_DIRTY) with 6.
  replace (Z.land f 6) with (Z.land (f mod 8) 6).
  2: { change 8 with (2 ^ 3). rewrite <- Z.land_ones, <- Z.land_assoc by lia. done. }
  replace (Z.testbit f 1) with (Z.testbit (f mod 8) 1) by (apply (Z.mod_pow2_bits_low f 3 1); lia).
  replace (Z.testbit f 2) with (Z.testbit (f mod 8) 2) by (apply (Z.mod_pow2_bits_low f 3 2); lia).
  assert (f mod 8 ∈ seqZ 0 8) as Hin by (apply elem_of_seqZ, Z.mod_pos_bound; lia).
  revert Hin. generalize (f mod 8). apply Forall_forall. vm_decide.
Qed.

(** ** What a driver promises *)

(** The state after the buffer [b], at index [i], is brought in sync. *)
Definition synced (i : nat) (b : buf) (s : kstate) : kstate :=
  let k := (1, b_sector b) in
  if has_flag b B_DIRTY then
    s <| disk ::= <[k := b_data b]> |> <| dwrites ::= (.++ [(k, b_data b)]) |>
      <| bcache ::= <[i := set_flag B_VALID (clear_flag B_DIRTY b)]> |>
  else s <| bcache ::= <[i := set_flag B_VALID (b <| b_data := disk_read s k |>)]> |>.

Class DiskDriverOk `{DiskDriver} := {
  drv_sectors : Z;
  iderw_sync i b e s :
    bcache s !! i = Some b -> has_flag b B_BUSY = true ->
    has_flag b B_VALID && negb (has_flag b B_DIRTY) = false ->
    b_dev b = 1 -> 0 <= b_sector b < drv_sectors ->
    iderw i e s = Ok tt (synced i b s) e;
}.

Lemma memide_sync disksize i b e s :
  bcache s !! i = Some b -> has_flag b B_BUSY = true ->
  has_flag b B_VALID && negb (has_flag b B_DIRTY) = false ->
  b_dev b = 1 -> 0 <= b_sector b < disksize ->
  Memide.iderw disksize i e s = Ok tt (synced i b s) e.
Proof.
  intros Hb Hbusy Hns Hdev Hsec. unfold Memide.iderw.
  rewrite (bind_ok _ _ _ _ _ _ _ (getb_run i b e s Hb)), Hbusy, in_sync, Hns.
  rewrite (proj2 (Z.eqb_eq _ _) Hdev). cbn [negb].
  replace (disksize <=? b_sector b) with false by lia. unfold synced.
  assert (i < length (bcache s))%nat as Hi by (by eapply lookup_lt_Some).
  destruct (has_flag b B_DIRTY); unfold disk_write; mrun.
  - rewrite (bind_ok _ _ _ _ _ _ _ (setb_run i b _ e s Hb)). mrun.
    erewrite setb_run by (by apply list_lookup_insert_eq).
    apply ok_eq. kext. by rewrite list_insert_insert_eq.
  - rewrite (bind_ok _ _ _ _ _ _ _ (setb_run i b _ e s Hb)).
    erewrite setb_run by (by apply list_lookup_insert_eq).
    apply ok_eq. kext. by rewrite list_insert_insert_eq.
Qed.
Definition memide_ok disksize : @DiskDriverOk (memide_driver disksize).
Proof.
  refine {| drv_sectors := disksize |}. exact (memide_sync disksize).
Defined.

(** ** [bget] *)

(** The buffer [bget] picks, and what it becomes; [None] when it has to wait or
    panics. *)
Definition bget_pick (bs : list buf) (l : list nat) (dev sector : Z) : option (nat * buf) :=
  match find (at_buf bs (caches dev sector)) l with
  | Some j =>
      b ← bs !! j; if has_flag b B_BUSY then None else Some (j, set_flag B_BUSY b)
  | None =>
      j ← find (at_buf bs recyclable) (rev l);
      b ← bs !! j;
      Some (j, b <| b_dev := dev |> <| b_sector := sector |> <| b_flags := B_BUSY |>)
  end.

Lemma lru_range bs l : lru bs l -> Forall (fun j => j < length bs)%nat l.
Proof.
  intros Hl. apply Forall_forall. intros j Hj. apply (lru_elem _ _ _ Hl) in Hj.
  rewrite (lru_length _ _ Hl). lia.
Qed.
Lemma lru_len bs l : lru bs l -> length l = NBUF.
Proof. intros Hl. by rewrite (lru_perm _ _ Hl), length_seq. Qed.
Lemma lru_head bs l : lru bs l -> exists h, bs !! head = Some h /\ b_next h = hd head l /\ b_prev h = List.last l head.
Proof.
  intros Hl. destruct (lookup_lt_is_Some_2 bs head) as [h Hh].
  { rewrite (lru_length _ _ Hl). unfold head. lia. }
  exists h. split; [done|]. pose proof (lru_links _ _ Hl) as Hk.
  replace (b_next h) with (nxf bs head) by (unfold nxf; by rewrite Hh).
  replace (b_prev h) with (pvf bs head) by (unfold pvf; by rewrite Hh). split.
  - destruct l as [|j l]; cbn in Hk; apply Hk.
  - change (head :: l ++ [head]) with ((head :: l) ++ [head]) in Hk.
    destruct (exists_last (l := head :: l)) as (c & p & Ec); [done|].
    rewrite Ec, <- app_assoc in Hk. apply links_app in Hk as [_ (_ & -> & _)].
    replace (List.last l head) with (List.last (head :: l) head) by (by destruct l).
    by rewrite Ec, last_last.
Qed.

Lemma bget_try_run name dev sector l j b' e s :
  let bs := bcache s in
  cpu_ok (kcpu s) -> locks s !! L_bcache = Some (Spinlock 0 name None) ->
  lru bs l -> bget_pick bs l dev sector = Some (j, b') ->
  bget_try dev sector e (locked_state L_bcache name s) =
    Ok (Some j) ((refresh s) <| bcache := <[j := b']> bs |>) e.
Proof.
  intros bs Hok Hlk Hl Hpick. set (s1 := locked_state L_bcache name s).
  destruct (lru_head _ _ Hl) as (h & Hh & Hnx & Hpv).
  assert (bcache s1 !! head = Some h) as Hh1 by done.
  pose proof (lru_nodup _ _ Hl) as [Hhl _]%NoDup_cons. pose proof (lru_links _ _ Hl) as Hk.
  assert (links (nxf bs) (pvf bs) (l ++ [head])) as Hk1 by (destruct l; [done|apply Hk]).
  assert (links (nxf bs) (pvf bs) (head :: l)) as Hk2.
  { destruct l as [|x l] using rev_ind; [done|]. rewrite <- app_assoc in Hk.
    apply (links_app _ _ (head :: l)) in Hk as [Hk _]. done. }
  unfold bget_try. rewrite (bind_ok _ _ _ _ _ _ _ (getb_run head h e s1 Hh1)), Hnx.
  rewrite (bind_ok _ _ _ _ _ _ _ (bget_scan_run NBUF l dev sector e s1 Hk1 Hhl (lru_range _ _ Hl)
    ltac:(rewrite (lru_len _ _ Hl); done))).
  unfold bget_pick in Hpick. change (bcache s1) with bs.
  destruct (find (at_buf bs (caches dev sector)) l) as [k|].
  - destruct (bs !! k) as [b|] eqn:Hb; [|done]. cbn in Hpick.
    destruct (has_flag b B_BUSY) eqn:Ebusy; [done|]. injection Hpick as -> <-.
    rewrite (bind_ok _ _ _ _ _ _ _ (getb_run j b e s1 Hb)), Ebusy. cbn [negb].
    rewrite (bind_ok _ _ _ _ _ _ _ (setb_run j b _ e s1 Hb)).
    rewrite (release_bind _ name _ _ s) by (subst s1; unfold locked_state; rsimpl; done). apply ok_eq.
    subst s1. unfold refresh, locked_state. kext.
  - rewrite (bind_ok _ _ _ _ _ _ _ (getb_run head h e s1 Hh1)), Hpv.
    rewrite (bind_ok _ _ _ _ _ _ _ (bget_recycle_run NBUF l e s1 Hk2 Hhl (lru_range _ _ Hl)
      ltac:(rewrite (lru_len _ _ Hl); done))). change (bcache s1) with bs.
    destruct (find (at_buf bs recyclable) (rev l)) as [k|]; [|done]. cbn in Hpick.
    destruct (bs !! k) as [b|] eqn:Hb; [|done]. injection Hpick as -> <-.
    assert (j < length bs)%nat as Hj by (by eapply lookup_lt_Some).
    rewrite (bind_ok _ _ _ _ _ _ _ (setb_run j b _ e s1 Hb)).
    erewrite bind_ok; [|apply setb_run; by apply list_lookup_insert_eq].
    erewrite bind_ok; [|apply setb_run; rsimpl; apply list_lookup_insert_eq; by rewrite length_insert].
    rewrite (release_bind _ name _ _ s) by (subst s1; unfold locked_state; rsimpl; done). apply ok_eq.
    subst s1. unfold refresh, locked_state. kext. by rewrite !list_insert_insert_eq.
Qed.

Lemma bget_run dev sector l j b' e s :
  cpu_ok (kcpu s) -> lock_free s L_bcache -> lru (bcache s) l ->
  bget_pick (bcache s) l dev sector = Some (j, b') ->
  bget dev sector e s = Ok j ((refresh s) <| bcache := <[j := b']> (bcache s) |>) e.
Proof.
  intros Hok [name Hlk] Hl Hpick. unfold bget. rewrite (acquire_bind _ name) by done.
  unfold mloop_sleep. cbn [mloop].
  by rewrite (bind_ok _ _ _ _ _ _ _ (bget_try_run name dev sector l j b' e s Hok Hlk Hl Hpick)).
Qed.

(** ** The cache invariant *)

Record cache_ok (s : kstate) (l : list nat) : Prop := {
  ck_lru : lru (bcache s) l;
  ck_uniq i j b c : (i < NBUF)%nat -> (j < NBUF)%nat ->
    bcache s !! i = Some b -> bcache s !! j = Some c ->
    b_dev b = b_dev c -> b_sector b = b_sector c -> b_dev b <> u32 (-1) -> i = j;
  ck_data i b : bcache s !! i = Some b -> length (b_data b) = 512%nat;
  ck_disk k : length (disk_read s k) = 512%nat;
  ck_dirty i b : bcache s !! i = Some b -> has_flag b B_DIRTY = true -> has_flag b B_VALID = true;
  ck_sync i b : (i < NBUF)%nat -> bcache s !! i = Some b -> b_dev b = 1 ->
    has_flag b B_VALID = true -> has_flag b B_DIRTY = false -> has_flag b B_BUSY = false ->
    b_data b = disk_read s (1, b_sector b);
}.

(** The contents of sector [n] of the root disk as the users of the cache see it. *)
Definition blk (s : kstate) (l : list nat) (n : Z) : list Z :=
  match find (at_buf (bcache s) (caches 1 n)) l with
  | Some j =>
      match bcache s !! j with
      | Some b => if has_flag b B_VALID then b_data b else disk_read s (1, n)
      | None => []
      end
  | None => disk_read s (1, n)
  end.

Lemma caches_true dev n b : caches dev n b = true <-> b_dev b = dev /\ b_sector b = n.
Proof. unfold caches. rewrite andb_true_iff, !Z.eqb_eq. done. Qed.

Lemma rootdev_neg1 : 1 <> u32 (-1).
Proof. done. Qed.

Lemma blk_cached s l n j b :
  cache_ok s l -> (j < NBUF)%nat -> bcache s !! j = Some b -> b_dev b = 1 -> b_sector b = n ->
  blk s l n = if has_flag b B_VALID then b_data b else disk_read s (1, n).
Proof.
  intros Hc Hj Hb Hd Hn. unfold blk.
  destruct (find (at_buf (bcache s) (caches 1 n)) l) as [k|] eqn:E.
  - apply find_some in E as [Hin Hk]. apply list_elem_of_In, (lru_elem _ _ _ (ck_lru _ _ Hc)) in Hin.
    unfold at_buf in Hk. destruct (bcache s !! k) as [c|] eqn:Hc'; [|done]. cbn in Hk.
    apply caches_true in Hk as [Hd' Hn'].
    assert (k = j) as ->.
    { apply (ck_uniq _ _ Hc k j c b); try congruence. rewrite Hd'. apply rootdev_neg1. }
    by simplify_eq.
  - exfalso. pose proof (find_none _ _ E j) as Hf. unfold at_buf in Hf. rewrite Hb in Hf. cbn in Hf.
    rewrite (proj2 (caches_true 1 n b)) in Hf by done.
    enough (true = false) by done. apply Hf, list_elem_of_In, (lru_elem _ _ _ (ck_lru _ _ Hc)), Hj.
Qed.
Lemma blk_uncached s l n :
  lru (bcache s) l ->
  (forall j b, (j < NBUF)%nat -> bcache s !! j = Some b -> b_dev b = 1 -> b_sector b <> n) ->
  blk s l n = disk_read s (1, n).
Proof.
  intros Hl Hno. unfold blk. destruct (find _ l) as [k|] eqn:E; [|done].
  apply find_some in E as [Hin Hk]. apply list_elem_of_In, (lru_elem _ _ _ Hl) in Hin.
  unfold at_buf in Hk. destruct (bcache s !! k) as [c|] eqn:Hc; [|done].
  apply caches_true in Hk as [Hd Hn]. by destruct (Hno k c Hin Hc Hd).
Qed.

(** Replacing what a buffer holds. *)
Lemma lru_insert bs l j b b' :
  lru bs l -> bs !! j = Some b -> b_next b' = b_next b -> b_prev b' = b_prev b ->
  lru (<[j := b']> bs) l.
Proof.
  intros [H1 H2 H3] Hb Hn Hp. assert (j < length bs)%nat by (by eapply lookup_lt_Some).
  split; [by rewrite length_insert|done|]. revert H3.
  apply links_eq; intros k; unfold nxf, pvf; destruct (decide (k = j)) as [->|Hne];
    rewrite ?list_lookup_insert_ne, ?list_lookup_insert_eq by done; rewrite ?Hb; done.
Qed.

Lemma cache_ok_insert s s' l j b b' :
  cache_ok s l -> (j < NBUF)%nat -> bcache s !! j = Some b ->
  bcache s' = <[j := b']> (bcache s) -> disk s' = disk s ->
  b_next b' = b_next b -> b_prev b' = b_prev b -> length (b_data b') = 512%nat ->
  (forall k c, (k < NBUF)%nat -> k <> j -> bcache s !! k = Some c -> b_dev c = b_dev b' ->
     b_sector c = b_sector b' -> b_dev b' = u32 (-1)) ->
  (has_flag b' B_DIRTY = true -> has_flag b' B_VALID = true) ->
  (b_dev b' = 1 -> has_flag b' B_VALID = true -> has_flag b' B_DIRTY = false ->
     has_flag b' B_BUSY = false -> b_data b' = disk_read s (1, b_sector b')) ->
  cache_ok s' l.
Proof.
  intros [H1 H2 H3 H6 H5 H4] Hj Hb Hbs Hdk Hn Hp Hd Hu Hdv Hs.
  assert (j < length (bcache s))%nat as Hjl by (by eapply lookup_lt_Some).
  assert (forall k c, bcache s' !! k = Some c ->
    (k = j /\ c = b') \/ (k <> j /\ bcache s !! k = Some c)) as Hlook.
  { intros k c. rewrite Hbs. destruct (decide (k = j)) as [->|Hne].
    - rewrite list_lookup_insert_eq by done. intros [= <-]. by left.
    - rewrite list_lookup_insert_ne by done. by right. }
  assert (forall n, disk_read s' n = disk_read s n) as Hdr by (unfold disk_read; by rewrite Hdk).
  split.
  - rewrite Hbs. by eapply lru_insert.
  - intros i k c d Hi Hk Hc Hd' E1 E2 Hdev.
    apply Hlook in Hc as [[-> ->]|[Hni Hc]], Hd' as [[-> ->]|[Hnk Hd']]; [done|..|by apply (H2 i k c d)].
    + destruct Hdev. rewrite E1 in *. apply (Hu k d); congruence.
    + destruct Hdev. rewrite E1. apply (Hu i c); congruence.
  - intros i c [[-> ->]|[_ Hc]]%Hlook; [done|by eapply H3].
  - intros k. by rewrite Hdr.
  - intros i c [[-> ->]|[_ Hc]]%Hlook; [done|by eapply H5].
  - intros i c Hi Hc Hd1. rewrite Hdr. apply Hlook in Hc as [[-> ->]|[_ Hc]]; [by apply Hs|by apply (H4 i)].
Qed.

(** ** [bread], [bwrite] and [brelse] *)

Lemma find_at bs P l j : find (at_buf bs P) l = Some j -> lru bs l \/ lru bs (rev l) ->
  exists b, bs !! j = Some b /\ P b = true /\ (j < NBUF)%nat.
Proof.
  intros [Hin Hp]%find_some Hl. apply list_elem_of_In in Hin. unfold at_buf in Hp.
  destruct (bs !! j) as [b|]; [|done]. exists b. split_and!; try done.
  destruct Hl as [Hl|Hl]; apply (lru_elem _ _ _ Hl); [done|].
  by rewrite list_elem_of_In, <- in_rev, <- list_elem_of_In.
Qed.

Lemma bget_pick_cases s l n j b' :
  cache_ok s l -> bget_pick (bcache s) l 1 n = Some (j, b') ->
  exists b, bcache s !! j = Some b /\ (j < NBUF)%nat /\ b_dev b' = 1 /\ b_sector b' = n /\
    has_flag b' B_BUSY = true /\ b_next b' = b_next b /\ b_prev b' = b_prev b /\
    b_data b' = b_data b /\
    ((b_dev b = 1 /\ b_sector b = n /\ has_flag b B_BUSY = false /\ b' = set_flag B_BUSY b) \/
     (recyclable b = true /\ has_flag b' B_VALID = false /\ has_flag b' B_DIRTY = false /\
      forall k c, (k < NBUF)%nat -> bcache s !! k = Some c -> b_dev c = 1 -> b_sector c <> n)).
Proof.
  intros Hc Hp. pose proof (ck_lru _ _ Hc) as Hl. unfold bget_pick in Hp.
  destruct (find (at_buf (bcache s) (caches 1 n)) l) as [k|] eqn:E.
  - destruct (find_at _ _ _ _ E (or_introl Hl)) as (b & Hb & [Hd Hn]%caches_true & Hk).
    rewrite Hb in Hp. cbn in Hp. destruct (has_flag b B_BUSY) eqn:Eb; [done|].
    injection Hp as -> <-. exists b. split_and!; try done; [by flags|by left].
  - destruct (find (at_buf (bcache s) recyclable) (rev l)) as [k|] eqn:E'; [|done]. cbn in Hp.
    destruct (find_at _ _ _ _ E') as (b & Hb & Hr & Hk); [right; by rewrite rev_involutive|].
    rewrite Hb in Hp. injection Hp as -> <-. exists b. split_and!; try done. right. split_and!; try done.
    intros k c Hk' Hc' Hd Hn. pose proof (find_none _ _ E k) as Hf. unfold at_buf in Hf.
    rewrite Hc' in Hf. cbn in Hf. rewrite (proj2 (caches_true 1 n c)) in Hf by done.
    enough (true = false) by done. by apply Hf, list_elem_of_In, (lru_elem _ _ _ Hl).
Qed.

Section BufferCache.
Context `{DiskDriverOk}.

(** The cache can serve sector [n]: its buffer is not in use, or there is a
    clean buffer to recycle for it. *)
Definition servable (s : kstate) (l : list nat) (n : Z) : Prop :=
  is_Some (bget_pick (bcache s) l 1 n).

Lemma bread_run n l e s :
  cache_ok s l -> cpu_ok (kcpu s) -> lock_free s L_bcache -> 0 <= n < drv_sectors ->
  servable s l n ->
  exists j b b', bread 1 n e s = Ok j ((refresh s) <| bcache := <[j := b']> (bcache s) |>) e /\
    (j < NBUF)%nat /\ bcache s !! j = Some b /\ has_flag b B_BUSY = false /\
    b_dev b' = 1 /\ b_sector b' = n /\
    has_flag b' B_BUSY = true /\ has_flag b' B_VALID = true /\
    b_next b' = b_next b /\ b_prev b' = b_prev b /\ b_data b' = blk s l n /\
    ((b_dev b = 1 /\ b_sector b = n /\ has_flag b' B_DIRTY = has_flag b B_DIRTY) \/
     (recyclable b = true /\ has_flag b' B_DIRTY = false /\
      forall k c, (k < NBUF)%nat -> bcache s !! k = Some c -> b_dev c = 1 -> b_sector c <> n)).
Proof.
  intros Hc Hok Hlk Hn [[j b'] Hp]. pose proof (ck_lru _ _ Hc) as Hl.
  destruct (bget_pick_cases _ _ _ _ _ Hc Hp) as (b & Hb & Hj & Hd & Hs & Hbusy & Hnx & Hpv & Hdat & Hcase).
  unfold bread. rewrite (bind_ok _ _ _ _ _ _ _ (bget_run 1 n l j b' e s Hok Hlk Hl Hp)).
  set (s1 := (refresh s) <| bcache := _ |>). assert (j < length (bcache s))%nat as Hjl by (by eapply lookup_lt_Some).
  assert (bcache s1 !! j = Some b') as Hb1 by (by apply list_lookup_insert_eq).
  rewrite (bind_ok _ _ _ _ _ _ _ (getb_run j b' e s1 Hb1)).
  destruct (has_flag b' B_VALID) eqn:Ev.
  - cbn [negb]. mrun. destruct Hcase as [(Hd0 & Hs0 & Hb0 & ->)|(_ & ? & _)]; [|congruence].
    exists j, b, (set_flag B_BUSY b). split_and!; try done; [|left; split_and!; [done..|by flags]].
    rewrite (blk_cached s l n j b) by done. replace (has_flag b B_VALID) with true by (by flags). done.
  - cbn [negb]. mrun. assert (has_flag b' B_DIRTY = false) as Hnd.
    { destruct Hcase as [(_ & _ & _ & ->)|(_ & _ & ? & _)]; [|done].
      destruct (has_flag b B_DIRTY) eqn:E; [|by flags]. apply (ck_dirty _ _ Hc j b Hb) in E. flags. congruence. }
    rewrite (bind_ok _ _ _ _ _ _ _ (iderw_sync j b' e s1 Hb1 Hbusy ltac:(by rewrite Ev) Hd ltac:(lia))).
    set (b2 := set_flag B_VALID (b' <| b_data := disk_read s (1, n) |>)).
    exists j, b, b2. split_and!; try done.
    + apply ok_eq. unfold synced. rewrite Hnd, Hs. subst s1. unfold refresh. kext.
      by rewrite list_insert_insert_eq.
    + destruct Hcase as [(_ & _ & ? & _)|(Hr & _)]; [done|]. unfold recyclable in Hr.
      apply andb_true_iff in Hr as [Hr _]. by destruct (has_flag b B_BUSY).
    + subst b2. by flags.
    + subst b2. by flags.
    + destruct Hcase as [(Hd0 & Hs0 & _ & ->)|(_ & _ & _ & Hno)].
      * rewrite (blk_cached s l n j b) by done. replace (has_flag b B_VALID) with false by (by flags). done.
      * by rewrite blk_uncached.
    + destruct Hcase as [(Hd0 & Hs0 & _ & ->)|(Hr & _ & _ & Hno)]; [left|right]; split_and!; try done.
      * subst b2. by flags.
      * subst b2. by flags.
Qed.

(** Whether sector [m] has a buffer. *)
Lemma cached_dec s l m :
  lru (bcache s) l ->
  (exists k c, (k < NBUF)%nat /\ bcache s !! k = Some c /\ b_dev c = 1 /\ b_sector c = m) \/
  (forall k c, (k < NBUF)%nat -> bcache s !! k = Some c -> b_dev c = 1 -> b_sector c <> m).
Proof.
  intros Hl. destruct (find (at_buf (bcache s) (caches 1 m)) l) as [k|] eqn:E.
  - left. destruct (find_at _ _ _ _ E (or_introl Hl)) as (c & Hc & [Hd Hs]%caches_true & Hk).
    by exists k, c.
  - right. intros k c Hk Hc Hd Hs. pose proof (find_none _ _ E k) as Hf. unfold at_buf in Hf.
    rewrite Hc in Hf. cbn in Hf. rewrite (proj2 (caches_true 1 m c)) in Hf by done.
    enough (true = false) by done. by apply Hf, list_elem_of_In, (lru_elem _ _ _ Hl).
Qed.

(** A buffer that comes to hold sector [n] does not change what the other
    sectors hold, if what it held before was clean. *)
Lemma blk_insert_other s s' l j b b' m :
  cache_ok s l -> cache_ok s' l -> (j < NBUF)%nat -> bcache s !! j = Some b ->
  bcache s' = <[j := b']> (bcache s) -> disk s' = disk s ->
  b_dev b' = 1 -> b_sector b' <> m ->
  (b_dev b = 1 -> b_sector b = m -> recyclable b = true) ->
  blk s' l m = blk s l m.
Proof.
  intros Hc Hc' Hj Hb Hbs Hdk Hd Hm Hrec. pose proof (ck_lru _ _ Hc) as Hl.
  assert (j < length (bcache s))%nat as Hjl by (by eapply lookup_lt_Some).
  assert (disk_read s' (1, m) = disk_read s (1, m)) as Hdr by (unfold disk_read; by rewrite Hdk).
  assert (bcache s' !! j = Some b') as Hb' by (rewrite Hbs; by apply list_lookup_insert_eq).
  destruct (cached_dec s l m Hl) as [(k & c & Hk & Hck & Hdc & Hsc)|Hno].
  - destruct (decide (k = j)) as [->|Hne].
    + assert (b = c) as <- by congruence. specialize (Hrec Hdc Hsc). rewrite (blk_cached s l m j b) by done.
      unfold recyclable in Hrec. apply andb_true_iff in Hrec as [Hr1 Hr2].
      rewrite blk_uncached.
      * rewrite Hdr. destruct (has_flag b B_VALID) eqn:Ev; [|done]. symmetry. subst m.
        apply (ck_sync _ _ Hc j b); try done; [by destruct (has_flag b B_DIRTY)|by destruct (has_flag b B_BUSY)].
      * apply (ck_lru _ _ Hc').
      * intros k c Hk' Hc1 Hd1 Hs1. destruct (decide (k = j)) as [->|Hne]; [congruence|].
        rewrite Hbs, list_lookup_insert_ne in Hc1 by done.
        destruct Hne. apply (ck_uniq _ _ Hc k j c b); try congruence. rewrite Hd1. apply rootdev_neg1.
    + rewrite (blk_cached s l m k c) by done.
      rewrite (blk_cached s' l m k c), Hdr; try done. by rewrite Hbs, list_lookup_insert_ne.
  - rewrite !blk_uncached; [done|done|done|apply (ck_lru _ _ Hc')|].
    intros k c Hk Hc1 Hd1 Hs1. destruct (decide (k = j)) as [->|Hne]; [congruence|].
    rewrite Hbs, list_lookup_insert_ne in Hc1 by done. by apply (Hno k c).
Qed.

Lemma blk_length s l n : cache_ok s l -> length (blk s l n) = 512%nat.
Proof.
  intros Hc. unfold blk. destruct (find _ l) as [k|] eqn:E; [|apply (ck_disk _ _ Hc)].
  destruct (find_at _ _ _ _ E (or_introl (ck_lru _ _ Hc))) as (b & Hb & _ & _). rewrite Hb.
  destruct (has_flag b B_VALID); [by apply (ck_data _ _ Hc k)|apply (ck_disk _ _ Hc)].
Qed.

(** What [bread] promises: the buffer holds the sector, for the caller alone;
    the cache stays in order and holds what it held. *)
Lemma bread_spec n l e s :
  cache_ok s l -> cpu_ok (kcpu s) -> lock_free s L_bcache -> 0 <= n < drv_sectors ->
  servable s l n ->
  exists j s' b, bread 1 n e s = Ok j s' e /\ (j < NBUF)%nat /\ bcache s' !! j = Some b /\
    b_dev b = 1 /\ b_sector b = n /\ has_flag b B_BUSY = true /\ has_flag b B_VALID = true /\
    b_data b = blk s l n /\ cache_ok s' l /\ (forall m, blk s' l m = blk s l m) /\
    (forall k, k <> j -> bcache s' !! k = bcache s !! k) /\
    (exists b0, bcache s !! j = Some b0 /\ has_flag b0 B_BUSY = false /\
       has_flag b B_DIRTY = has_flag b0 B_DIRTY /\
       (has_flag b B_DIRTY = true -> b_dev b0 = 1 /\ b_sector b0 = n)) /\
    s' = (refresh s) <| bcache := bcache s' |>.
Proof.
  intros Hc Hok Hlk Hn Hsv.
  destruct (bread_run n l e s Hc Hok Hlk Hn Hsv)
    as (j & b & b' & Hrun & Hj & Hb & Hnb & Hd & Hs & Hbusy & Hv & Hnx & Hpv & Hdat & Hcase).
  set (s' := (refresh s) <| bcache := _ |>) in Hrun.
  assert (j < length (bcache s))%nat as Hjl by (by eapply lookup_lt_Some).
  assert (bcache s' !! j = Some b') as Hb' by (by apply list_lookup_insert_eq).
  assert (cache_ok s' l) as Hc'.
  { apply (cache_ok_insert s s' l j b b'); try done.
    - rewrite Hdat. by apply blk_length.
    - intros k c Hk Hne Hck E1 E2. rewrite Hd, Hs in *. exfalso. destruct Hcase as [(Hd0 & Hs0 & _)|(_ & _ & Hno)].
      + apply Hne, (ck_uniq _ _ Hc k j c b); try congruence. rewrite E1. apply rootdev_neg1.
      + by apply (Hno k c).
    - intros. congruence. }
  exists j, s', b'. split_and!; try done.
  - intros m. destruct (decide (m = n)) as [->|Hne].
    + rewrite (blk_cached s' l n j b') by done. by rewrite Hv.
    + apply (blk_insert_other s s' l j b b'); try done; [congruence|].
      intros _ Hm. destruct Hcase as [(_ & ? & _)|(? & _)]; [congruence|done].
  - intros k Hk. by apply list_lookup_insert_ne.
  - exists b. destruct Hcase as [(? & ? & E)|(Hr & E & _)]; [by split_and!|].
    split_and!; try done; [|congruence]. unfold recyclable in Hr. rewrite E. by destruct (has_flag b B_DIRTY), (has_flag b B_BUSY).
Qed.
End BufferCache.

(** ** Buffers with the same contents *)

Lemma payload_lookup (bs bs' : list buf) (k : nat) c' :
  payload <$> bs' = payload <$> bs -> bs' !! k = Some c' ->
  exists c, bs !! k = Some c /\ payload c' = payload c.
Proof.
  intros E Hc. pose proof (f_equal (fun x : list _ => x !! k) E) as Ek.
  cbv beta in Ek. rewrite !list_lookup_fmap, Hc in Ek.
  destruct (bs !! k) as [c|]; [|done]. exists c. split; [done|].
  by apply (inj Some) in Ek.
Qed.
Lemma payload_fields b c :
  payload b = payload c ->
  b_dev b = b_dev c /\ b_sector b = b_sector c /\ b_data b = b_data c /\
  (forall f, has_flag b f = has_flag c f).
Proof. intros [= E1 E2 E3 E4 E5]. split_and!; try done. intros f. unfold has_flag. by rewrite E1. Qed.

Lemma cache_ok_payload s s' l l' :
  cache_ok s l -> payload <$> bcache s' = payload <$> bcache s -> lru (bcache s') l' ->
  disk s' = disk s -> cache_ok s' l'.
Proof.
  intros [H1 H2 H3 H4 H5 H6] Hp Hl Hdk.
  assert (forall k, disk_read s' k = disk_read s k) as Hdr by (unfold disk_read; by rewrite Hdk).
  assert (forall k c', bcache s' !! k = Some c' -> exists c, bcache s !! k = Some c /\ payload c' = payload c)
    as Hlk by (intros; by eapply payload_lookup).
  split; [done| | |intros; by rewrite Hdr| |].
  - intros i j b c Hi Hj Hb Hc. destruct (Hlk _ _ Hb) as (b0 & Hb0 & (->&->&_)%payload_fields).
    destruct (Hlk _ _ Hc) as (c0 & Hc0 & (->&->&_)%payload_fields). by apply (H2 i j b0 c0).
  - intros i b Hb. destruct (Hlk _ _ Hb) as (b0 & Hb0 & (_&_&->&_)%payload_fields). by apply (H3 i).
  - intros i b Hb. destruct (Hlk _ _ Hb) as (b0 & Hb0 & (_&_&_&Hf)%payload_fields).
    rewrite !Hf. by apply (H5 i).
  - intros i b Hi Hb. destruct (Hlk _ _ Hb) as (b0 & Hb0 & (->&->&->&Hf)%payload_fields).
    rewrite !Hf, Hdr. by apply (H6 i).
Qed.

(** What the users of the cache see of a buffer. *)
Definition content (b : buf) : Z * Z * bool * list Z :=
  (b_dev b, b_sector b, has_flag b B_VALID, b_data b).

Lemma blk_content s s' l l' m :
  cache_ok s l -> cache_ok s' l' -> disk s' = disk s ->
  (forall k, content <$> (bcache s' !! k) = content <$> (bcache s !! k)) ->
  blk s' l' m = blk s l m.
Proof.
  intros Hc Hc' Hdk Hp.
  assert (disk_read s' (1, m) = disk_read s (1, m)) as Hdr by (unfold disk_read; by rewrite Hdk).
  destruct (cached_dec s' l' m (ck_lru _ _ Hc')) as [(k & c & Hk & Hck & Hdc & Hsc)|Hno].
  - pose proof (Hp k) as Hpk. rewrite Hck in Hpk. destruct (bcache s !! k) as [c0|] eqn:Hc0; [|done].
    injection Hpk as E1 E2 E3 E4.
    rewrite (blk_cached s' l' m k c), (blk_cached s l m k c0) by congruence.
    by rewrite E3, E4, Hdr.
  - rewrite !blk_uncached; [done|apply (ck_lru _ _ Hc)| |apply (ck_lru _ _ Hc')|done].
    intros k c Hk Hck Hd. pose proof (Hp k) as Hpk. rewrite Hck in Hpk.
    destruct (bcache s' !! k) as [c0|] eqn:Hc0; [|done]. injection Hpk as E1 E2 E3 E4.
    rewrite <- E2. apply (Hno k c0); congruence.
Qed.
Lemma payload_content (o o' : option buf) : payload <$> o' = payload <$> o -> content <$> o' = content <$> o.
Proof.
  destruct o, o'; try done. intros [= E1 E2 E3 E4 E5]. cbn. unfold content, has_flag.
  by rewrite E1, E2, E3, E5.
Qed.

(** ** [brelse] *)


(** The cache after [brelse i]. *)
Definition released (bs : list buf) (i : nat) : list buf :=
  alter (clear_flag B_BUSY) i (link_front (unlink bs i) i).

Lemma brelse_run l1 i l2 b e s :
  cache_ok s (l1 ++ i :: l2) -> cpu_ok (kcpu s) -> lock_free s L_bcache -> lock_free s L_ptable ->
  bcache s !! i = Some b -> has_flag b B_BUSY = true ->
  brelse i e s = Ok tt ((refresh s) <| bcache ::= (fun bs => released bs i) |>
                          <| ptable ::= map (wake (Some (Ch_buf i))) |>) e.
Proof.
  intros Hc Hok [name Hlk] [pname Hpt] Hb Hbusy. pose proof (ck_lru _ _ Hc) as Hl.
  unfold brelse. rewrite (bind_ok _ _ _ _ _ _ _ (getb_run i b e s Hb)), Hbusy. cbn [negb].
  rewrite (acquire_bind _ name) by done. set (s1 := locked_state L_bcache name s).
  destruct (front_lru _ _ _ _ Hl) as (Hlru & Hp & Hn & Hh).
  pose proof (lru_length _ _ Hl) as Hlen. pose proof (lru_nodup _ _ Hl) as Hnd.
  assert (i < NBUF)%nat as Hi by (apply (lru_elem _ _ _ Hl), elem_of_app; right; by left).
  assert (nxf (bcache s) i <> i) as Hni.
  { pose proof (lru_links _ _ Hl) as Hk. rewrite <- app_assoc in Hk.
    apply (links_app _ _ (head :: l1)) in Hk as [_ Hk]. apply links_next in Hk. intros E. rewrite E in Hk.
    apply NoDup_cons in Hnd as [Hh' Hnd]. apply NoDup_app in Hnd as (_ & _ & [Hnd _]%NoDup_cons).
    apply elem_of_app in Hk as [Hk|Hk%list_elem_of_singleton]; [done|]. unfold head in Hk. lia. }
  assert (length (link_front (unlink (bcache s) i) i) = S NBUF) as Hlen2 by apply (lru_length _ _ Hlru).
  rewrite (bind_ok _ _ _ _ _ _ _ (move_to_front_run i e s1 ltac:(change (i < length (bcache s))%nat; lia)
    ltac:(change (head < length (bcache s))%nat; unfold head; lia)
    ltac:(change (nxf (bcache s) i < length (bcache s))%nat; lia)
    ltac:(change (pvf (bcache s) i < length (bcache s))%nat; lia)
    ltac:(change (nxf (unlink (bcache s) i) head < length (bcache s))%nat; lia)
    Hni ltac:(unfold head; lia))).
  erewrite bind_ok; [|apply setb_alter; rsimpl; change (bcache s1) with (bcache s); lia].
  erewrite bind_ok; [|apply wakeup_run].
  - rewrite (release_locked _ name _ s _ Hok Hlk).
    + apply ok_eq. subst s1. unfold refresh, locked_state. kext.
    + unfold refresh. rsimpl. subst s1. unfold locked_state. rsimpl. by apply refreshed_pushed.
    + done.
  - rsimpl. subst s1. unfold locked_state. rsimpl. destruct Hok. split; cbn; [lia|done].
  - exists pname. rsimpl. subst s1. unfold locked_state. rsimpl. by rewrite lookup_insert_ne.
Qed.

Lemma lookup_released bs i b k :
  bs !! i = Some b -> payload <$> (released bs i !! k) =
    payload <$> (if decide (k = i) then Some (clear_flag B_BUSY b) else bs !! k).
Proof.
  intros Hb. unfold released.
  assert (forall j, payload <$> (link_front (unlink bs i) i !! j) = payload <$> (bs !! j)) as Hp.
  { intros j. by rewrite <- !list_lookup_fmap, link_front_payload, unlink_payload. }
  case_decide as E.
  - subst k. specialize (Hp i). rewrite Hb in Hp. rewrite list_lookup_alter_eq.
    destruct (link_front (unlink bs i) i !! i) as [c|]; [|done]. injection Hp as E1 E2 E3 E4 E5.
    cbn. unfold payload, clear_flag. rsimpl. by rewrite E1, E2, E3, E4, E5.
  - rewrite list_lookup_alter_ne by done. apply Hp.
Qed.

(** What [brelse] promises, if its caller has not left the buffer's data out of
    step with a disk it claims to agree with. *)
Lemma brelse_spec l1 i l2 b e s :
  let l := l1 ++ i :: l2 in
  cache_ok s l -> cpu_ok (kcpu s) -> lock_free s L_bcache -> lock_free s L_ptable ->
  bcache s !! i = Some b -> has_flag b B_BUSY = true ->
  (b_dev b = 1 -> has_flag b B_VALID = true -> has_flag b B_DIRTY = false ->
     b_data b = disk_read s (1, b_sector b)) ->
  exists s', brelse i e s = Ok tt s' e /\ cache_ok s' (i :: l1 ++ l2) /\
    (forall m, blk s' (i :: l1 ++ l2) m = blk s l m) /\
    (forall k, payload <$> (bcache s' !! k) =
       payload <$> (if decide (k = i) then Some (clear_flag B_BUSY b) else bcache s !! k)) /\
    s' = (refresh s) <| bcache := bcache s' |> <| ptable ::= map (wake (Some (Ch_buf i))) |>.
Proof.
  intros l Hc Hok Hlk Hpt Hb Hbusy Hsync. eexists. split; [by eapply brelse_run|].
  set (s' := (refresh s) <| bcache ::= _ |> <| ptable ::= _ |>).
  pose proof (ck_lru _ _ Hc) as Hl. destruct (front_lru _ _ _ _ Hl) as (Hlru & _).
  assert (i < NBUF)%nat as Hi by (apply (lru_elem _ _ _ Hl), elem_of_app; right; by left).
  set (s1 := s <| bcache := link_front (unlink (bcache s) i) i |>).
  assert (payload <$> bcache s1 = payload <$> bcache s) as Hpay.
  { subst s1. rsimpl. by rewrite link_front_payload, unlink_payload. }
  assert (cache_ok s1 (i :: l1 ++ l2)) as Hc1 by (by apply (cache_ok_payload s s1 l)).
  destruct (lookup_lt_is_Some_2 (bcache s1) i) as [c Hci].
  { pose proof (lru_length _ _ (ck_lru _ _ Hc1)). lia. }
  destruct (payload_lookup _ _ _ _ Hpay Hci) as (b0 & Hb0 & (E1 & E2 & E3 & Hf)%payload_fields).
  assert (b0 = b) as -> by congruence.
  assert (bcache s' = <[i := clear_flag B_BUSY c]> (bcache s1)) as Hbs.
  { subst s' s1. rsimpl in Hci. unfold released, refresh. rsimpl. apply list_eq. intros k.
    destruct (decide (k = i)) as [->|Hne].
    - rewrite list_lookup_alter_eq, Hci, list_lookup_insert_eq; [done|]. by eapply lookup_lt_Some.
    - by rewrite list_lookup_alter_ne, list_lookup_insert_ne. }
  assert (cache_ok s' (i :: l1 ++ l2)) as Hc'.
  { apply (cache_ok_insert s1 s' _ i c (clear_flag B_BUSY c)); try done.
    - change (length (b_data c) = 512%nat). by apply (ck_data _ _ Hc1 i).
    - intros k d Hk Hne Hd F1 F2. destruct (decide (b_dev c = u32 (-1))) as [|Hnd]; [done|].
      destruct Hne. symmetry. by apply (ck_uniq _ _ Hc1 i k c d).
    - flags. rewrite !Hf. by apply (ck_dirty _ _ Hc i).
    - flags. intros F1 F2 F3 _. change (b_data (clear_flag B_BUSY c)) with (b_data c).
      change (b_sector (clear_flag B_BUSY c)) with (b_sector c).
      rewrite E3, E2. apply Hsync; [by rewrite <- E1 | by rewrite <- Hf..]. }
  split_and!; [done| | |].
  - intros m. apply blk_content; [done..|]. intros k.
    transitivity (content <$> (if decide (k = i) then Some (clear_flag B_BUSY b) else bcache s !! k)).
    + apply payload_content, (lookup_released (bcache s) i b k Hb).
    + case_decide as E; [subst k; rewrite Hb|done]. cbn. unfold content. by flags.
  - intros k. subst s'. rsimpl. by apply lookup_released.
  - subst s'. unfold refresh. kext.
Qed.

Section Claims.
Context `{DiskDriverOk}.

(** [bread] returns a buffer with the sector's contents (the cached copy,
    or the disk's when there is none), marked busy and valid; every sector
    reads as before, although a clean buffer may have been recycled; there is
    still at most one buffer per sector, and no other buffer is touched. *)
Theorem bread_correct n l e s :
  cache_ok s l -> cpu_ok (kcpu s) -> lock_free s L_bcache -> 0 <= n < drv_sectors ->
  servable s l n ->
  exists j s' b, bread 1 n e s = Ok j s' e /\ bcache s' !! j = Some b /\
    b_dev b = 1 /\ b_sector b = n /\ has_flag b B_BUSY = true /\ has_flag b B_VALID = true /\
    b_data b = blk s l n /\ cache_ok s' l /\ (forall m, blk s' l m = blk s l m) /\
    (forall k, k <> j -> bcache s' !! k = bcache s !! k) /\
    s' = (refresh s) <| bcache := bcache s' |>.
Proof.
  intros H1 H2 H3 H4 H5. destruct (bread_spec n l e s H1 H2 H3 H4 H5)
    as (j & s' & b & ? & _ & ? & ? & ? & ? & ? & ? & ? & ? & ? & _ & ?).
  by exists j, s', b.
Qed.

Lemma bwrite_spec i b e s :
  bcache s !! i = Some b -> has_flag b B_BUSY = true -> b_dev b = 1 -> 0 <= b_sector b < drv_sectors ->
  bwrite i e s =
    Ok tt (s <| disk ::= <[(1, b_sector b) := b_data b]> |>
             <| dwrites ::= (.++ [((1, b_sector b), b_data b)]) |>
             <| bcache ::= <[i := set_flag B_VALID (clear_flag B_DIRTY (set_flag B_DIRTY b))]> |>) e.
Proof.
  intros Hb Hbusy Hd Hs. unfold bwrite.
  rewrite (bind_ok _ _ _ _ _ _ _ (getb_run i b e s Hb)), Hbusy. cbn [negb].
  rewrite (bind_ok _ _ _ _ _ _ _ (setb_run i b _ e s Hb)).
  assert (i < length (bcache s))%nat as Hi by (by eapply lookup_lt_Some).
  rewrite (iderw_sync i (set_flag B_DIRTY b)); try done.
  - apply ok_eq. unfold synced. flags. kext. by rewrite list_insert_insert_eq.
  - by apply list_lookup_insert_eq.
  - by flags.
  - flags. by destruct (has_flag b B_VALID).
Qed.

(** [bwrite] of a busy buffer puts its data on the disk, in one write, and
    leaves the buffer clean, valid and busy. *)
Theorem bwrite_correct i b e s :
  bcache s !! i = Some b -> has_flag b B_BUSY = true -> b_dev b = 1 -> 0 <= b_sector b < drv_sectors ->
  exists s' b', bwrite i e s = Ok tt s' e /\ bcache s' = <[i := b']> (bcache s) /\
    content b' = (1, b_sector b, true, b_data b) /\
    has_flag b' B_BUSY = true /\ has_flag b' B_DIRTY = false /\
    disk s' = <[(1, b_sector b) := b_data b]> (disk s) /\
    dwrites s' = dwrites s ++ [((1, b_sector b), b_data b)].
Proof.
  intros Hb Hbusy Hd Hs. rewrite (bwrite_spec i b e s) by done.
  eexists _, (set_flag B_VALID (clear_flag B_DIRTY (set_flag B_DIRTY b))).
  split_and!; try done; [|by flags|by flags].
  unfold content. flags. by rewrite <- Hd.
Qed.
End Claims.

(** [brelse] refines the move to the front of the least recently used
    order: the buffer is free again and first in the list, the others keep
    their order and contents, every sector reads as before, and the processes
    that wait for the buffer are runnable. *)
Theorem brelse_mru l1 i l2 b e s :
  let l := l1 ++ i :: l2 in
  cache_ok s l -> cpu_ok (kcpu s) -> lock_free s L_bcache -> lock_free s L_ptable ->
  bcache s !! i = Some b -> has_flag b B_BUSY = true ->
  (b_dev b = 1 -> has_flag b B_VALID = true -> has_flag b B_DIRTY = false ->
     b_data b = disk_read s (1, b_sector b)) ->
  exists s', brelse i e s = Ok tt s' e /\ cache_ok s' (i :: l1 ++ l2) /\
    (forall m, blk s' (i :: l1 ++ l2) m = blk s l m) /\
    (forall k, payload <$> (bcache s' !! k) =
       payload <$> (if decide (k = i) then Some (clear_flag B_BUSY b) else bcache s !! k)) /\
    s' = (refresh s) <| bcache := bcache s' |> <| ptable ::= map (wake (Some (Ch_buf i))) |>.
Proof. apply brelse_spec. Qed.

(** ** Witnesses *)

(** The state after [binit]. *)
Definition binit_ex : kstate :=
  match binit [] kzero_locks with Ok _ s _ => s | _ => kzero_locks end.
Definition binit_order : list nat := [9; 8; 7; 6; 5; 4; 3; 2; 1; 0]%nat.

Lemma forall_buf (P : buf -> Prop) (bs : list buf) : Forall P bs -> forall i b, bs !! i = Some b -> P b.
Proof. intros Hf i b. apply (Forall_lookup_1 _ _ _ _ Hf). Qed.

Lemma binit_cache_ok : cache_ok binit_ex binit_order.
Proof.
  assert (forall i b, bcache binit_ex !! i = Some b -> b_flags b = 0) as Hfl by (apply forall_buf; vm_decide).
  assert (Forall (fun b => b_dev b = u32 (-1)) (take NBUF (bcache binit_ex))) as Hdev by vm_decide.
  assert (forall i b, (i < NBUF)%nat -> bcache binit_ex !! i = Some b -> b_dev b = u32 (-1)) as Hd.
  { intros i b Hi Hb. apply (Forall_lookup_1 _ _ i b Hdev). by rewrite lookup_take_lt. }
  split.
  - split; [by vm_compute| |vm_compute; auto 30]. apply (Permutation_rev binit_order).
  - intros i j b c Hi _ Hb _ _ _ Hne. by destruct Hne; eapply Hd.
  - apply forall_buf. vm_decide.
  - assert (disk binit_ex = ∅) as Hdk by (by vm_compute).
    intros k. unfold disk_read. by rewrite Hdk, lookup_empty.
  - intros i b Hb. unfold has_flag. by rewrite (Hfl i b Hb).
  - intros i b _ Hb _. unfold has_flag at 1. by rewrite (Hfl i b Hb).
Qed.

Definition memdrv : DiskDriver := memide_driver 1024.
Definition memdrv_ok : @DiskDriverOk memdrv := memide_ok 1024.
#[local] Existing Instance memdrv.
#[local] Existing Instance memdrv_ok.

Lemma binit_cpu : cpu_ok (kcpu binit_ex).
Proof. vm_compute. by split. Qed.
Lemma binit_lock : lock_free binit_ex L_bcache.
Proof. exists "bcache"%string. vm_compute. reflexivity. Qed.
Lemma binit_servable : servable binit_ex binit_order 5.
Proof. vm_compute. by eexists. Qed.

Lemma bread_correct_witness :
  exists j s' b, bread 1 5 [] binit_ex = Ok j s' [] /\ bcache s' !! j = Some b /\
    b_data b = blk binit_ex binit_order 5.
Proof.
  destruct (bread_correct 5 binit_order [] binit_ex binit_cache_ok binit_cpu binit_lock
    ltac:(by vm_compute) binit_servable) as (j & s' & b & H1 & H2 & _ & _ & _ & _ & H4 & _).
  exists j, s', b. exact (conj H1 (conj H2 H4)).
Defined.

(** Buffer 0 of that state, held for sector 5. *)
Definition buf5 : buf := buf0 <| b_flags := 3 |> <| b_dev := 1 |> <| b_sector := 5 |> <| b_next := 10%nat |> <| b_prev := 1%nat |>.
Definition bread_ex : kstate := binit_ex <| bcache := <[0%nat := buf5]> (bcache binit_ex) |>.
Lemma bread_ex_lookup : bcache bread_ex !! 0%nat = Some buf5.
Proof. vm_compute. reflexivity. Qed.

Lemma bwrite_correct_witness :
  exists s' b', bwrite 0 [] bread_ex = Ok tt s' [] /\ has_flag b' B_DIRTY = false.
Proof.
  destruct (bwrite_correct 0 buf5 [] bread_ex bread_ex_lookup eq_refl eq_refl ltac:(by vm_compute))
    as (s' & b' & H1 & _ & _ & _ & H2 & _).
  exists s', b'. exact (conj H1 H2).
Defined.

Lemma bread_ex_cache_ok : cache_ok bread_ex binit_order.
Proof.
  assert (bcache binit_ex !! 0%nat = Some (buf5 <| b_flags := 0 |> <| b_dev := u32 (-1) |> <| b_sector := 0 |>)) as H0
    by (vm_compute; reflexivity).
  apply (cache_ok_insert binit_ex bread_ex _ 0 _ buf5 binit_cache_ok ltac:(unfold NBUF; lia) H0).
  - unfold bread_ex. rsimpl. reflexivity.
  - unfold bread_ex. rsimpl. reflexivity.
  - vm_compute. reflexivity.
  - vm_compute. reflexivity.
  - vm_compute. reflexivity.
  - intros k c Hk _ Hc Hd _. exfalso.
    assert (Forall (fun b => b_dev b = u32 (-1)) (take NBUF (bcache binit_ex))) as Hdev by vm_decide.
    assert (b_dev c = u32 (-1)) as Hc' by (apply (Forall_lookup_1 _ _ k c Hdev); by rewrite lookup_take_lt).
    rewrite Hc' in Hd. vm_compute in Hd. discriminate Hd.
  - intros _. vm_compute. reflexivity.
  - intros _ _ _ E. vm_compute in E. discriminate E.
Qed.
Lemma bread_ex_cpu : cpu_ok (kcpu bread_ex).
Proof. vm_compute. by split. Qed.
Lemma bread_ex_lock : lock_free bread_ex L_bcache.
Proof. exists "bcache"%string. vm_compute. reflexivity. Qed.

Lemma brelse_mru_witness :
  exists s', brelse 0 [] bread_ex = Ok tt s' [] /\ cache_ok s' [0; 9; 8; 7; 6; 5; 4; 3; 2; 1]%nat.
Proof.
  assert (lock_free bread_ex L_ptable) as Hpt by (exists "ptable"%string; vm_compute; reflexivity).
  assert (has_flag buf5 B_BUSY = true) as Hb by (vm_compute; reflexivity).
  assert (b_data buf5 = disk_read bread_ex (1, b_sector buf5)) as Hd by (vm_compute; reflexivity).
  destruct (brelse_mru [9; 8; 7; 6; 5; 4; 3; 2; 1]%nat 0 [] buf5 [] bread_ex bread_ex_cache_ok bread_ex_cpu
    bread_ex_lock Hpt bread_ex_lookup Hb (fun _ _ _ => Hd)) as (s' & H1 & H2 & _).
  exists s'. exact (conj H1 H2).
Defined.
