(* ===== verification/Log.v ===== *)
(** * Log: log.c

    The redo log of one transaction: the header block with the home sectors,
    the logged blocks behind it, and the order in which commit writes them. *)
From S2P Require Import Prelude Memory State Spinlock Sched Bio.

(** struct superblock of fs.h, and its bytes. *)
Record superblock := Superblock { sb_size : Z; sb_nblocks : Z; sb_ninodes : Z; sb_nlog : Z }.
Definition sb_of_bytes (d : list Z) : superblock :=
  Superblock (le32 d 0) (le32 d 4) (le32 d 8) (le32 d 12).

Definition set_log (f : logst -> logst) : M unit := modify (fun s => s <| klog ::= f |>).
Definition get_data (i : nat) : M (list Z) := b ← getb i; mret (b_data b).
Definition set_data (i : nat) (d : list Z) : M unit := setb i (fun b => b <| b_data := d |>).

(** [log.lh.sector[i]], an array of LOGSIZE ints. *)
Definition get_sector (i : Z) : M Z := lg ← gets klog; must (lg_sector lg !! Z.to_nat i).
Definition set_sector (i v : Z) : M unit :=
  _ ← get_sector i; set_log (fun lg => lg <| lg_sector ::= <[Z.to_nat i := v]> |>).

Section Log.
Context `{DiskDriver}.

(** [readsb] of fs.c. *)
Definition readsb (dev : Z) : M superblock :=
  bp ← bread dev 1;
  d ← get_data bp;
  brelse bp ;;
  mret (sb_of_bytes d).

(** The loops over the header stop at the end of [sector] at the latest, where
    an access is undefined; LOGSIZE bounds their iterations. *)
Fixpoint install_loop (fuel : nat) (tail : Z) : M unit :=
  lg ← gets klog;
  if tail <? lg_n lg then
    match fuel with
    | O => fault
    | S k =>
        lbuf ← bread (lg_dev lg) (u32 (lg_start lg + tail + 1));
        lg ← gets klog;
        sector ← get_sector tail;
        dbuf ← bread (lg_dev lg) (u32 sector);
        d ← get_data lbuf;
        set_data dbuf d ;;
        bwrite dbuf ;;
        brelse lbuf ;;
        brelse dbuf ;;
        install_loop k (tail + 1)
    end
  else mret tt.
Definition install_trans : M unit := install_loop (Z.to_nat LOGSIZE) 0.

Fixpoint read_head_loop (fuel : nat) (d : list Z) (i : Z) : M unit :=
  lg ← gets klog;
  if i <? lg_n lg then
    match fuel with
    | O => fault
    | S k =>
        set_sector i (s32 (le32 d (Z.to_nat (4 + 4 * i)))) ;;
        read_head_loop k d (i + 1)
    end
  else mret tt.
Definition read_head : M unit :=
  lg ← gets klog;
  buf ← bread (lg_dev lg) (u32 (lg_start lg));
  d ← get_data buf;
  set_log (fun lg => lg <| lg_n := s32 (le32 d 0) |>) ;;
  read_head_loop (Z.to_nat LOGSIZE) d 0 ;;
  brelse buf.

Fixpoint write_head_loop (fuel : nat) (buf : nat) (i : Z) : M unit :=
  lg ← gets klog;
  if i <? lg_n lg then
    match fuel with
    | O => fault
    | S k =>
        sector ← get_sector i;
        d ← get_data buf;
        set_data buf (splice d (Z.to_nat (4 + 4 * i)) (bytes32 sector)) ;;
        write_head_loop k buf (i + 1)
    end
  else mret tt.
Definition write_head : M unit :=
  lg ← gets klog;
  buf ← bread (lg_dev lg) (u32 (lg_start lg));
  lg ← gets klog;
  d ← get_data buf;
  set_data buf (splice d 0 (bytes32 (lg_n lg))) ;;
  write_head_loop (Z.to_nat LOGSIZE) buf 0 ;;
  bwrite buf ;;
  brelse buf.

Definition recover_from_log : M unit :=
  read_head ;;
  install_trans ;;
  set_log (fun lg => lg <| lg_n := 0 |>) ;;
  write_head.

(** sizeof(struct logheader) is 4 + 4 * LOGSIZE. *)
Definition initlog : M unit :=
  if BSIZE <=? 4 + 4 * LOGSIZE then panic "initlog: too big logheader"
  else
    initlock L_log "log" ;;
    sb ← readsb ROOTDEV;
    set_log (fun lg => lg <| lg_start := s32 (u32 (sb_size sb - sb_nlog sb)) |>) ;;
    set_log (fun lg => lg <| lg_size := s32 (sb_nlog sb) |>) ;;
    set_log (fun lg => lg <| lg_dev := ROOTDEV |>) ;;
    recover_from_log.

Definition begin_trans : M unit :=
  acquire L_log ;;
  mwhile_sleep (lg ← gets klog; mret (truth (lg_busy lg))) (sleep Ch_log L_log) ;;
  set_log (fun lg => lg <| lg_busy := 1 |>) ;;
  release L_log.

Definition commit_trans : M unit :=
  lg ← gets klog;
  when (0 <? lg_n lg)
    (write_head ;;
     install_trans ;;
     set_log (fun lg => lg <| lg_n := 0 |>) ;;
     write_head) ;;
  acquire L_log ;;
  set_log (fun lg => lg <| lg_busy := 0 |>) ;;
  wakeup Ch_log ;;
  release L_log.

(** The index in the header of sector [sec]: its entry among the first [n], or [n]. *)
Fixpoint absorb (n : nat) (i : Z) (sectors : list Z) (sec : Z) : Z :=
  match n, sectors with
  | S n', x :: sectors' => if u32 x =? sec then i else absorb n' (i + 1) sectors' sec
  | _, _ => i
  end.
Definition log_write (b : nat) : M unit :=
  lg ← gets klog;
  if (LOGSIZE <=? lg_n lg) || (lg_size lg - 1 <=? lg_n lg) then panic "too big a transaction"
  else if negb (truth (lg_busy lg)) then panic "write outside of trans"
  else
    bp ← getb b;
    let i := absorb (Z.to_nat (lg_n lg)) 0 (lg_sector lg) (b_sector bp) in
    set_sector i (s32 (b_sector bp)) ;;
    lbuf ← bread (b_dev bp) (u32 (lg_start lg + i + 1));
    d ← get_data b;
    set_data lbuf d ;;
    bwrite lbuf ;;
    brelse lbuf ;;
    lg ← gets klog;
    when (i =? lg_n lg) (set_log (fun lg => lg <| lg_n := lg_n lg + 1 |>)) ;;
    setb b (set_flag B_DIRTY).

End Log.
