(* ===== verification/Blocks.v ===== *)
(** * Blocks: the buffer cache as an array of sectors

    The view of the root disk that log.c and fs.c build on: the sectors on
    the disk ([v_disk]), as the kernel sees them ([v_blk]), the buffers it holds
    ([v_held], by sector), the sectors whose buffers log_write pinned ([v_pin]) and
    the history of disk writes ([v_w]). Each operation of the buffer cache is a
    rule on views. *)
From S2P Require Import Prelude Memory State Spinlock Sched Bio Buffers Log.

Definition fupd {A} (n : Z) (x : A) (f : Z -> A) : Z -> A := fun m => if decide (m = n) then x else f m.
Lemma fupd_eq {A} n (x : A) f : fupd n x f n = x.
Proof. unfold fupd. by rewrite decide_True. Qed.
Lemma fupd_ne {A} n m (x : A) f : m <> n -> fupd n x f m = f m.
Proof. intros. unfold fupd. by rewrite decide_False. Qed.

Record view := View {
  v_w : list ((Z * Z) * list Z);
  v_disk : Z -> list Z;
  v_blk : Z -> list Z;
  v_held : gmap Z nat;
  v_pin : gset Z
}.
#[export] Instance eta_view : Eta view :=
  {| eta := fun r => View (v_w r) (v_disk r) (v_blk r) (v_held r) (v_pin r) |}.
#[export] Instance upd_v_w : Upd v_w := ltac:(field_update v_w).
#[export] Instance upd_v_disk : Upd v_disk := ltac:(field_update v_disk).
#[export] Instance upd_v_blk : Upd v_blk := ltac:(field_update v_blk).
#[export] Instance upd_v_held : Upd v_held := ltac:(field_update v_held).
#[export] Instance upd_v_pin : Upd v_pin := ltac:(field_update v_pin).

(** Buffer [j] is [b], for sector [n]. *)
Definition buf_at (s : kstate) (j : nat) (b : buf) (n : Z) : Prop :=
  (j < NBUF)%nat /\ bcache s !! j = Some b /\ b_dev b = 1 /\ b_sector b = n.

Record views (s : kstate) (v : view) : Prop := {
  vw_cache : exists l, cache_ok s l /\ forall n, blk s l n = v_blk v n;
  vw_disk n : disk_read s (1, n) = v_disk v n;
  vw_w : dwrites s = v_w v;
  vw_held n j : v_held v !! n = Some j ->
    exists b, buf_at s j b n /\ has_flag b B_BUSY = true /\ has_flag b B_VALID = true;
  vw_busy j b : (j < NBUF)%nat -> bcache s !! j = Some b -> has_flag b B_BUSY = true ->
    b_dev b = 1 /\ v_held v !! b_sector b = Some j;
  vw_dirty j b : (j < NBUF)%nat -> bcache s !! j = Some b -> has_flag b B_DIRTY = true ->
    b_dev b = 1 /\ b_sector b ∈ v_pin v;
  vw_pin n : n ∈ v_pin v -> exists j b, buf_at s j b n /\ has_flag b B_DIRTY = true;
  vw_cpu : cpu_ok (kcpu s);
  vw_bcache : lock_free s L_bcache;
  vw_ptable : lock_free s L_ptable;
}.

(** What the operations of the cache leave alone. *)
Record kept (s s' : kstate) : Prop := {
  kp_locks : locks s' = locks s;
  kp_mem : mem s' = mem s;
  kp_kmem : kmem s' = kmem s;
  kp_klog : klog s' = klog s;
  kp_icache : icache s' = icache s;
  kp_ftable : ftable s' = ftable s;
  kp_pipes : pipes s' = pipes s;
  kp_kcons : kcons s' = kcons s;
  kp_devsw : kdevsw s' = kdevsw s;
  kp_proc : c_proc (kcpu s') = c_proc (kcpu s);
  kp_nproc : length (ptable s') = length (ptable s);
}.
Lemma kept_refl s : kept s s.
Proof. by split. Qed.
Lemma kept_trans s1 s2 s3 : kept s1 s2 -> kept s2 s3 -> kept s1 s3.
Proof. intros [] []. split; congruence. Qed.
#[export] Hint Resolve kept_refl kept_trans : core.

Section Views.
Context (s : kstate) (v : view) (Hv : views s v).

Lemma views_at j b n l :
  cache_ok s l -> (forall m, blk s l m = v_blk v m) ->
  buf_at s j b n -> has_flag b B_VALID = true -> b_data b = v_blk v n.
Proof.
  intros Hc Hb (Hj & Hbj & Hd & Hn) Hval. rewrite <- Hb.
  rewrite (blk_cached s l n j b) by done. by rewrite Hval.
Qed.
Lemma views_len n : length (v_blk v n) = 512%nat.
Proof. destruct (vw_cache _ _ Hv) as (l & Hc & Hb). rewrite <- Hb. by apply blk_length. Qed.
Lemma views_disk_len n : length (v_disk v n) = 512%nat.
Proof. destruct (vw_cache _ _ Hv) as (l & Hc & _). rewrite <- (vw_disk _ _ Hv). apply (ck_disk _ _ Hc). Qed.

(** A sector nobody holds or pinned is on the disk as the kernel sees it. *)
Lemma views_clean n : v_held v !! n = None -> n ∉ v_pin v -> v_blk v n = v_disk v n.
Proof.
  intros Hh Hp. destruct (vw_cache _ _ Hv) as (l & Hc & Hb). rewrite <- Hb, <- (vw_disk _ _ Hv).
  destruct (cached_dec s l n (ck_lru _ _ Hc)) as [(j & b & Hj & Hbj & Hd & Hn)|Hno].
  - rewrite (blk_cached s l n j b) by done.
    destruct (has_flag b B_VALID) eqn:Ev; [|done]. subst n.
    apply (ck_sync _ _ Hc j b); try done.
    + destruct (has_flag b B_DIRTY) eqn:E; [|done].
      destruct (vw_dirty _ _ Hv j b Hj Hbj E) as [_ ?]. by destruct Hp.
    + destruct (has_flag b B_BUSY) eqn:E; [|done].
      destruct (vw_busy _ _ Hv j b Hj Hbj E) as [_ ?]. congruence.
  - apply blk_uncached; [apply (ck_lru _ _ Hc)|]. by intros j b Hj Hbj Hd <-; eapply Hno.
Qed.

(** There is a buffer for sector [n]. *)
Definition room (v : view) (n : Z) : Prop :=
  v_held v !! n = None /\ (n ∈ v_pin v \/ (size (dom (v_held v) ∪ v_pin v) < NBUF)%nat).

Lemma all_in_use l :
  cache_ok s l -> find (at_buf (bcache s) recyclable) (rev l) = None ->
  (NBUF <= size (dom (v_held v) ∪ v_pin v))%nat.
Proof.
  intros Hc Hf. pose proof (ck_lru _ _ Hc) as Hl.
  set (sec := fun j => from_option b_sector 0 (bcache s !! j)).
  assert (forall j, (j < NBUF)%nat -> exists b, bcache s !! j = Some b /\ b_dev b = 1 /\
    b_sector b ∈ dom (v_held v) ∪ v_pin v) as Hall.
  { intros j Hj. destruct (lookup_lt_is_Some_2 (bcache s) j) as [b Hb].
    { rewrite (lru_length _ _ Hl). lia. }
    exists b. split; [done|].
    assert (recyclable b = false) as Hr.
    { pose proof (find_none _ _ Hf j) as Hn. unfold at_buf in Hn. rewrite Hb in Hn. apply Hn.
      apply in_rev. rewrite rev_involutive. by apply list_elem_of_In, (lru_elem _ _ _ Hl). }
    unfold recyclable in Hr. destruct (has_flag b B_BUSY) eqn:E1.
    - destruct (vw_busy _ _ Hv j b Hj Hb E1) as [? ?]. split; [done|].
      apply elem_of_union_l, elem_of_dom. by eexists.
    - destruct (has_flag b B_DIRTY) eqn:E2; [|done].
      destruct (vw_dirty _ _ Hv j b Hj Hb E2) as [? ?]. split; [done|]. by apply elem_of_union_r. }
  assert (NoDup (sec <$> seq 0 NBUF)) as Hnd.
  { apply NoDup_fmap_2_strong; [|apply NoDup_seq].
    intros i j Hi%elem_of_seq Hj%elem_of_seq E.
    destruct (Hall i) as (b & Hb & Hdb & _); [lia|]. destruct (Hall j) as (c & Hcj & Hdc & _); [lia|].
    unfold sec in E. rewrite Hb, Hcj in E. cbn in E.
    apply (ck_uniq _ _ Hc i j b c); try congruence; try lia. rewrite Hdb. apply rootdev_neg1. }
  assert (size (list_to_set (sec <$> seq 0 NBUF) : gset Z) = NBUF) as Hsz.
  { rewrite size_list_to_set by done. by rewrite length_fmap, length_seq. }
  rewrite <- Hsz. apply subseteq_size. intros x Hx.
  apply elem_of_list_to_set, list_elem_of_fmap in Hx as (j & -> & Hj%elem_of_seq).
  destruct (Hall j) as (b & Hb & _ & Hin); [lia|]. unfold sec. by rewrite Hb.
Qed.

Lemma room_servable l n : cache_ok s l -> room v n -> servable s l n.
Proof.
  intros Hc [Hh Hr]. pose proof (ck_lru _ _ Hc) as Hl. unfold servable, bget_pick.
  destruct (find (at_buf (bcache s) (caches 1 n)) l) as [j|] eqn:E.
  - destruct (find_at _ _ _ _ E (or_introl Hl)) as (b & Hb & [Hd Hs]%caches_true & Hj).
    rewrite Hb. cbn. destruct (has_flag b B_BUSY) eqn:Eb; [|by eexists].
    destruct (vw_busy _ _ Hv j b Hj Hb Eb) as [_ ?]. congruence.
  - destruct Hr as [Hpin|Hsz].
    { exfalso. destruct (vw_pin _ _ Hv n Hpin) as (j & b & (Hj & Hb & Hd & Hs) & _).
      pose proof (find_none _ _ E j) as Hf. unfold at_buf in Hf. rewrite Hb in Hf. cbn in Hf.
      rewrite (proj2 (caches_true 1 n b)) in Hf by done. enough (true = false) by done.
      by apply Hf, list_elem_of_In, (lru_elem _ _ _ Hl). }
    destruct (find (at_buf (bcache s) recyclable) (rev l)) as [k|] eqn:E'.
    + destruct (find_at _ _ _ _ E') as (b & Hb & _ & _); [right; by rewrite rev_involutive|].
      cbn. rewrite Hb. by eexists.
    + pose proof (all_in_use l Hc E'). lia.
Qed.

End Views.

Lemma lock_free_locks s s' lk : locks s' = locks s -> lock_free s lk -> lock_free s' lk.
Proof. intros E [n H]. exists n. by rewrite E. Qed.

(** ** Updates of a held buffer *)

(** A write to a sector whose buffer is held leaves the cache in order. *)
Lemma cache_ok_disk s s' l j b :
  cache_ok s l -> bcache s' = bcache s -> (j < NBUF)%nat -> bcache s !! j = Some b ->
  b_dev b = 1 -> has_flag b B_BUSY = true -> has_flag b B_VALID = true ->
  (forall k, length (disk_read s' k) = 512%nat) ->
  (forall m, m <> b_sector b -> disk_read s' (1, m) = disk_read s (1, m)) ->
  cache_ok s' l /\ forall m, blk s' l m = blk s l m.
Proof.
  intros Hc Ebs Hj Hb Hd Hbusy Hval Hlen Hdk. pose proof Hc as [H1 H2 H3 H4 H5 H6]. split.
  - split; rewrite ?Ebs; try done. intros i c Hi Hci Hdc Hvc Hdy Hnb.
    rewrite Hdk; [by apply (H6 i)|]. intros E.
    enough (i = j) by congruence. apply (H2 i j c b); try congruence. rewrite Hdc. apply rootdev_neg1.
  - intros m. unfold blk. rewrite Ebs. destruct (find _ l) as [k|] eqn:E.
    + destruct (find_at _ _ _ _ E (or_introl H1)) as (c & Hck & [Hdc Hsc]%caches_true & Hk).
      rewrite Hck. destruct (has_flag c B_VALID) eqn:Ev; [done|]. apply Hdk. intros ->.
      enough (k = j) by congruence. apply (H2 k j c b); try congruence. rewrite Hdc. apply rootdev_neg1.
    + apply Hdk. intros ->. pose proof (find_none _ _ E j) as Hf. unfold at_buf in Hf. rewrite Hb in Hf.
      cbn in Hf. rewrite (proj2 (caches_true 1 _ b)) in Hf by done. enough (true = false) by done.
      by apply Hf, list_elem_of_In, (lru_elem _ _ _ H1).
Qed.

Lemma held_unique s v n j k c :
  views s v -> v_held v !! n = Some j -> (k < NBUF)%nat -> bcache s !! k = Some c -> b_dev c = 1 ->
  b_sector c = n -> k = j.
Proof.
  intros Hv Hh Hk Hc Hd Hn. destruct (vw_held _ _ Hv n j Hh) as (b & (Hj & Hb & Hdb & Hs) & _).
  destruct (vw_cache _ _ Hv) as (l & Hl & _). apply (ck_uniq _ _ Hl k j c b); try congruence.
  rewrite Hd. apply rootdev_neg1.
Qed.

(** The held buffer of sector [n] becomes [b']. *)
Lemma views_update s s' v v' n j b b' :
  views s v -> v_held v !! n = Some j -> bcache s !! j = Some b ->
  bcache s' = <[j := b']> (bcache s) -> b_dev b' = 1 -> b_sector b' = n ->
  has_flag b' B_BUSY = true -> has_flag b' B_VALID = true ->
  b_next b' = b_next b -> b_prev b' = b_prev b -> length (b_data b') = 512%nat ->
  kcpu s' = kcpu s -> locks s' = locks s ->
  (forall k, length (disk_read s' k) = 512%nat) ->
  (forall m, m <> n -> disk_read s' (1, m) = disk_read s (1, m)) ->
  dwrites s' = v_w v' -> (forall m, disk_read s' (1, m) = v_disk v' m) ->
  (forall m, v_blk v' m = fupd n (b_data b') (v_blk v) m) -> v_held v' = v_held v ->
  (forall m, m ∈ v_pin v' <-> if decide (m = n) then has_flag b' B_DIRTY = true else m ∈ v_pin v) ->
  views s' v'.
Proof.
  intros Hv Hh Hb Ebs Hd Hn Hbusy Hval Hnx Hpv Hdat Ecpu Elk Hlen Hdk Hw Hdisk Hblk Eheld Hpin.
  destruct (vw_held _ _ Hv n j Hh) as (b0 & (Hj & Hb0 & Hdb & Hs) & Hbusy0 & Hval0).
  assert (b0 = b) as -> by congruence. clear Hb0. subst n.
  assert (j < length (bcache s))%nat as Hjl by (by eapply lookup_lt_Some).
  assert (bcache s' !! j = Some b') as Hb' by (rewrite Ebs; by apply list_lookup_insert_eq).
  assert (forall k, k <> j -> bcache s' !! k = bcache s !! k) as Hoth.
  { intros k Hk. rewrite Ebs. by apply list_lookup_insert_ne. }
  destruct (vw_cache _ _ Hv) as (l & Hc & Hblk0). set (s1 := s <| disk := disk s' |>).
  destruct (cache_ok_disk s s1 l j b Hc eq_refl Hj Hb Hdb Hbusy0 Hval0 Hlen) as [Hc1 Hblk1].
  { intros m Hm. change (disk_read s1 (1, m)) with (disk_read s' (1, m)). apply Hdk. congruence. }
  assert (cache_ok s' l) as Hc'.
  { apply (cache_ok_insert s1 s' l j b b'); try done.
    - intros k c Hk Hne Hck E1 E2. destruct Hne.
      apply (held_unique s v (b_sector b') j k c Hv Hh Hk Hck); congruence.
    - intros. congruence. }
  split; rewrite ?Ecpu; try done.
  - exists l. split; [done|]. intros m. rewrite Hblk. destruct (decide (m = b_sector b')) as [->|Hne].
    + rewrite fupd_eq, (blk_cached s' l _ j b') by done. by rewrite Hval.
    + rewrite fupd_ne by done. rewrite <- Hblk0, <- Hblk1.
      apply (blk_insert_other s1 s' l j b b'); try done; congruence.
  - intros m k. rewrite Eheld. intros Hk. destruct (decide (m = b_sector b')) as [->|Hne].
    + assert (k = j) as -> by congruence. by exists b'.
    + destruct (vw_held _ _ Hv m k Hk) as (c & (Hk1 & Hk2 & Hk3 & Hk4) & ? & ?).
      exists c. split; [|done]. unfold buf_at. rewrite Hoth; [done|]. intros ->. congruence.
  - intros k c Hk Hck Hbz. rewrite Eheld. destruct (decide (k = j)) as [->|Hne]; [by simplify_eq|].
    rewrite Hoth in Hck by done. by apply (vw_busy _ _ Hv k c).
  - intros k c Hk Hck Hdz. rewrite Hpin. destruct (decide (k = j)) as [->|Hne].
    + simplify_eq. split; [done|]. by rewrite decide_True.
    + rewrite Hoth in Hck by done. destruct (vw_dirty _ _ Hv k c Hk Hck Hdz) as [Hk1 Hk2].
      split; [done|]. rewrite decide_False; [done|]. intros E. destruct Hne.
      by apply (held_unique s v (b_sector b') j k c).
  - intros m. rewrite Hpin. case_decide as E; [intros; subst; by exists j, b'|].
    intros Hm. destruct (vw_pin _ _ Hv m Hm) as (k & c & (Hk1 & Hk2 & Hk3 & Hk4) & ?).
    exists k, c. split; [|done]. unfold buf_at. rewrite Hoth; [done|]. intros ->. congruence.
  - apply (vw_cpu _ _ Hv).
  - apply (lock_free_locks s); [done|apply (vw_bcache _ _ Hv)].
  - apply (lock_free_locks s); [done|apply (vw_ptable _ _ Hv)].
Qed.

(** ** The rules *)

Section Rules.
Context `{DiskDriverOk}.

Lemma wp_bread n Q e s v :
  views s v -> 0 <= n < drv_sectors -> room v n ->
  (forall j s', views s' (v <| v_held ::= <[n := j]> |>) -> kept s s' -> Q j s' e) ->
  wp (bread 1 n) Q e s.
Proof.
  intros Hv Hn Hr HQ. destruct (vw_cache _ _ Hv) as (l & Hc & Hblk).
  pose proof (room_servable s v Hv l n Hc Hr) as Hsv. destruct Hr as [Hh _].
  destruct (bread_spec n l e s Hc (vw_cpu _ _ Hv) (vw_bcache _ _ Hv) Hn Hsv)
    as (j & s' & b & Hrun & Hj & Hb & Hd & Hs & Hbusy & Hval & Hdat & Hc' & Hblk' & Hoth & (b0 & Hb0 & Hnb & Edy & Hdy) & Es).
  apply (wp_ok _ _ _ _ _ _ _ Hrun), HQ.
  2: { rewrite Es. split; try reflexivity. }
  assert (disk s' = disk s) as Edk by (rewrite Es; reflexivity).
  assert (locks s' = locks s) as Elk by (rewrite Es; reflexivity).
  split; rsimpl.
  - exists l. split; [done|]. intros m. by rewrite Hblk'.
  - intros m. rewrite <- (vw_disk _ _ Hv). unfold disk_read. by rewrite Edk.
  - rewrite Es. rsimpl. apply (vw_w _ _ Hv).
  - intros m k. rewrite lookup_insert. case_decide as E.
    + intros [= <-]. subst m. by exists b.
    + intros Hk. destruct (vw_held _ _ Hv m k Hk) as (c & (Hk1 & Hk2 & Hk3 & Hk4) & Hk5 & Hk6).
      exists c. split_and!; try done. unfold buf_at. rewrite Hoth; [done|]. intros ->. congruence.
  - intros k c Hk Hck Hbz. destruct (decide (k = j)) as [->|Hne].
    + simplify_eq. split; [done|]. by rewrite lookup_insert_eq.
    + rewrite Hoth in Hck by done. destruct (vw_busy _ _ Hv k c Hk Hck Hbz) as [Hk1 Hk2].
      split; [done|]. rewrite lookup_insert_ne; [done|]. intros E. congruence.
  - intros k c Hk Hck Hdz. destruct (decide (k = j)) as [->|Hne].
    + simplify_eq. destruct (Hdy Hdz) as (E1 & E2). rewrite Edy in Hdz.
      destruct (vw_dirty _ _ Hv j b0 Hj Hb0 Hdz) as [_ Hp]. split; [done|]. congruence.
    + rewrite Hoth in Hck by done. by apply (vw_dirty _ _ Hv k c).
  - intros m Hm. destruct (vw_pin _ _ Hv m Hm) as (k & c & (Hk1 & Hk2 & Hk3 & Hk4) & Hk5).
    destruct (decide (k = j)) as [->|Hne].
    + simplify_eq. rewrite <- Edy in Hk5. destruct (Hdy Hk5) as [_ ->]. by exists j, b.
    + exists k, c. split; [|done]. unfold buf_at. by rewrite Hoth.
  - rewrite Es. rsimpl. apply cpu_ok_refreshed, (vw_cpu _ _ Hv).
  - apply (lock_free_locks s); [done|apply (vw_bcache _ _ Hv)].
  - apply (lock_free_locks s); [done|apply (vw_ptable _ _ Hv)].
Qed.

(** The buffer of a held sector. *)
Lemma held_buf s v n j :
  views s v -> v_held v !! n = Some j ->
  exists b, bcache s !! j = Some b /\ b_dev b = 1 /\ b_sector b = n /\ b_data b = v_blk v n /\
    has_flag b B_BUSY = true /\ has_flag b B_VALID = true.
Proof.
  intros Hv Hh. destruct (vw_held _ _ Hv n j Hh) as (b & Hat & Hbz & Hvl). exists b.
  destruct (vw_cache _ _ Hv) as (l & Hc & Hblk).
  pose proof (views_at s v j b n l Hc Hblk Hat Hvl). destruct Hat as (_ & ? & ? & ?). done.
Qed.
Lemma wp_getb_held n j Q e s v :
  views s v -> v_held v !! n = Some j ->
  (forall b, b_dev b = 1 -> b_sector b = n -> b_data b = v_blk v n -> Q b s e) ->
  wp (getb j) Q e s.
Proof.
  intros Hv Hh HQ. destruct (held_buf s v n j Hv Hh) as (b & Hb & Hd & Hs & Hdat & _).
  apply (wp_ok _ _ _ _ _ _ _ (getb_run j b e s Hb)). by apply HQ.
Qed.
Lemma wp_get_data n j Q e s v :
  views s v -> v_held v !! n = Some j -> Q (v_blk v n) s e -> wp (get_data j) Q e s.
Proof.
  intros Hv Hh HQ. apply wp_bind, (wp_getb_held n j _ e s v Hv Hh). intros b _ _ Hd.
  apply wp_ret. by rewrite Hd.
Qed.

Lemma wp_set_data n j d Q e s v :
  views s v -> v_held v !! n = Some j -> length d = 512%nat ->
  (forall s', views s' (v <| v_blk ::= fupd n d |>) -> kept s s' -> Q tt s' e) ->
  wp (set_data j d) Q e s.
Proof.
  intros Hv Hh Hlen HQ. destruct (held_buf s v n j Hv Hh) as (b & Hb & Hd & Hs & Hdat & Hbz & Hvl).
  destruct (vw_cache _ _ Hv) as (l & Hc & _).
  eapply wp_ok; [apply (setb_run j b _ e s Hb)|]. apply HQ; [|by split].
  eapply (views_update s _ v _ n j b (b <| b_data := d |>)); rsimpl; try done.
  - intros k. apply (ck_disk _ _ Hc).
  - apply (vw_w _ _ Hv).
  - intros m. apply (vw_disk _ _ Hv).
  - intros m. case_decide as E; [|done]. subst m. split.
    + intros (k & c & (Hk & Hck & Hdc & Hsc) & Hdy)%(vw_pin _ _ Hv).
      rewrite (held_unique s v n j k c) in Hck by done. congruence.
    + intros Hdy. destruct (vw_held _ _ Hv n j Hh) as (b0 & (Hj & _) & _).
      destruct (vw_dirty _ _ Hv j b Hj Hb Hdy). congruence.
Qed.

Lemma wp_pin n j Q e s v :
  views s v -> v_held v !! n = Some j ->
  (forall s', views s' (v <| v_pin ::= fun p => {[n]} ∪ p |>) -> kept s s' -> Q tt s' e) ->
  wp (setb j (set_flag B_DIRTY)) Q e s.
Proof.
  intros Hv Hh HQ. destruct (held_buf s v n j Hv Hh) as (b & Hb & Hd & Hs & Hdat & Hbz & Hvl).
  destruct (vw_cache _ _ Hv) as (l & Hc & _).
  eapply wp_ok; [apply (setb_run j b _ e s Hb)|]. apply HQ; [|by split].
  eapply (views_update s _ v _ n j b (set_flag B_DIRTY b)); rsimpl; try done.
  - by rewrite set_dirty_busy.
  - by rewrite set_dirty_valid.
  - apply (ck_data _ _ Hc j b Hb).
  - intros k. apply (ck_disk _ _ Hc).
  - apply (vw_w _ _ Hv).
  - intros m. apply (vw_disk _ _ Hv).
  - intros m. unfold set_flag. rsimpl. unfold fupd. case_decide; congruence.
  - intros m. rewrite set_dirty_dirty, elem_of_union, elem_of_singleton. case_decide; [split; auto|tauto].
Qed.

Lemma disk_read_insert s s' n d k :
  disk s' = <[(1, n) := d]> (disk s) ->
  disk_read s' k = if decide (k = (1, n)) then d else disk_read s k.
Proof.
  intros E. unfold disk_read. rewrite E, lookup_insert. repeat case_decide; simplify_eq; done.
Qed.

Lemma wp_bwrite n j Q e s v :
  views s v -> v_held v !! n = Some j -> 0 <= n < drv_sectors ->
  (forall s', views s' (v <| v_disk ::= fupd n (v_blk v n) |>
                          <| v_w ::= (.++ [((1, n), v_blk v n)]) |>
                          <| v_pin ::= fun p => p ∖ {[n]} |>) -> kept s s' -> Q tt s' e) ->
  wp (bwrite j) Q e s.
Proof.
  intros Hv Hh Hn HQ. destruct (held_buf s v n j Hv Hh) as (b & Hb & Hd & Hs & Hdat & Hbz & Hvl).
  destruct (vw_cache _ _ Hv) as (l & Hc & _).
  eapply wp_ok; [apply (bwrite_spec j b e s Hb Hbz Hd ltac:(by rewrite Hs))|]. apply HQ; [|by split].
  set (b' := set_flag B_VALID (clear_flag B_DIRTY (set_flag B_DIRTY b))).
  assert (b_data b' = b_data b) as Edat by done.
  eapply (views_update s _ v _ n j b b'); rsimpl; try done.
  - subst b'. by flags.
  - subst b'. by flags.
  - rewrite Edat. apply (ck_data _ _ Hc j b Hb).
  - intros k. erewrite disk_read_insert by reflexivity. case_decide; [apply (ck_data _ _ Hc j b Hb)|].
    apply (ck_disk _ _ Hc).
  - intros m Hm. erewrite disk_read_insert by reflexivity. rewrite decide_False; [done|]. congruence.
  - rewrite (vw_w _ _ Hv). congruence.
  - intros m. erewrite disk_read_insert by reflexivity. unfold fupd. rewrite <- Hdat.
    repeat case_decide; try congruence. apply (vw_disk _ _ Hv).
  - intros m. rewrite Edat. unfold fupd. case_decide; congruence.
  - intros m. subst b'. flags. rewrite elem_of_difference, elem_of_singleton. case_decide; [split; [tauto|done]|tauto].
Qed.

Lemma wp_brelse n j Q e s v :
  views s v -> v_held v !! n = Some j -> (n ∈ v_pin v \/ v_blk v n = v_disk v n) ->
  (forall s', views s' (v <| v_held ::= delete n |>) -> kept s s' -> Q tt s' e) ->
  wp (brelse j) Q e s.
Proof.
  intros Hv Hh Hcl HQ. destruct (held_buf s v n j Hv Hh) as (b & Hb & Hd & Hs & Hdat & Hbz & Hvl).
  destruct (vw_held _ _ Hv n j Hh) as (b0 & (Hj & _) & _).
  destruct (vw_cache _ _ Hv) as (l & Hc & Hblk).
  destruct (list_elem_of_split l j) as (l1 & l2 & ->); [by apply (lru_elem _ _ _ (ck_lru _ _ Hc))|].
  assert (b_dev b = 1 -> has_flag b B_VALID = true -> has_flag b B_DIRTY = false ->
    b_data b = disk_read s (1, b_sector b)) as Hsync.
  { intros _ _ Hnd. rewrite Hs, Hdat, (vw_disk _ _ Hv). destruct Hcl as [Hp|]; [|done].
    destruct (vw_pin _ _ Hv n Hp) as (k & c & (Hk & Hck & Hdc & Hsc) & Hdy).
    rewrite (held_unique s v n j k c) in Hck by done. congruence. }
  destruct (brelse_spec l1 j l2 b e s Hc (vw_cpu _ _ Hv) (vw_bcache _ _ Hv) (vw_ptable _ _ Hv) Hb Hbz Hsync)
    as (s' & Hrun & Hc' & Hblk' & Hpay & Es).
  apply (wp_ok _ _ _ _ _ _ _ Hrun), HQ.
  2: { rewrite Es. split; try reflexivity. rsimpl. apply length_map. }
  assert (disk s' = disk s) as Edk by (rewrite Es; reflexivity).
  assert (locks s' = locks s) as Elk by (rewrite Es; reflexivity).
  (* a buffer of the new cache, and its old self *)
  assert (forall k c', bcache s' !! k = Some c' -> exists c, bcache s !! k = Some c /\
    b_dev c' = b_dev c /\ b_sector c' = b_sector c /\ has_flag c' B_VALID = has_flag c B_VALID /\
    has_flag c' B_DIRTY = has_flag c B_DIRTY /\
    has_flag c' B_BUSY = if decide (k = j) then false else has_flag c B_BUSY) as Hold.
  { intros k c' Hc1. pose proof (Hpay k) as Hpk. rewrite Hc1 in Hpk. case_decide as E.
    - subst k. injection Hpk as E1 E2 E3 E4 E5. exists b. unfold has_flag. rewrite E1, E2, E3.
      pose proof (clear_busy_valid b). pose proof (clear_busy_dirty b). pose proof (clear_busy_busy b).
      by unfold has_flag in *.
    - destruct (bcache s !! k) as [c|] eqn:Hck; [|done]. injection Hpk as E1 E2 E3 E4 E5.
      exists c. unfold has_flag. rewrite E1. by split_and!. }
  assert (forall k c, bcache s !! k = Some c -> exists c', bcache s' !! k = Some c') as Hnew.
  { intros k c Hck. pose proof (Hpay k) as Hpk. rewrite Hck in Hpk.
    destruct (bcache s' !! k); [by eexists|]. by case_decide. }
  split; rsimpl.
  - eexists. split; [exact Hc'|]. intros m. by rewrite Hblk'.
  - intros m. rewrite <- (vw_disk _ _ Hv). unfold disk_read. by rewrite Edk.
  - rewrite Es. rsimpl. apply (vw_w _ _ Hv).
  - intros m k [Hne Hk]%lookup_delete_Some. destruct (vw_held _ _ Hv m k Hk) as (c & (Hk1 & Hk2 & Hk3 & Hk4) & Hb1 & Hv1).
    destruct (Hnew k c Hk2) as (c' & Hc1). destruct (Hold k c' Hc1) as (c2 & ? & E1 & E2 & E3 & E4 & E5).
    simplify_eq. exists c'. rewrite decide_False in E5 by congruence.
    split_and!; try congruence. unfold buf_at. split_and!; congruence.
  - intros k c' Hk Hc1 Hb1. destruct (Hold k c' Hc1) as (c & Hck & E1 & E2 & E3 & E4 & E5).
    rewrite Hb1 in E5. case_decide as Ek; [done|]. destruct (vw_busy _ _ Hv k c Hk Hck (eq_sym E5)) as [? ?].
    split; [congruence|]. rewrite E2, lookup_delete_ne; [done|]. intros E. congruence.
  - intros k c' Hk Hc1 Hd1. destruct (Hold k c' Hc1) as (c & Hck & E1 & E2 & E3 & E4 & E5).
    rewrite Hd1 in E4. rewrite E1, E2. by apply (vw_dirty _ _ Hv k c).
  - intros m Hm. destruct (vw_pin _ _ Hv m Hm) as (k & c & (Hk1 & Hk2 & Hk3 & Hk4) & Hd1).
    destruct (Hnew k c Hk2) as (c' & Hc1). destruct (Hold k c' Hc1) as (c2 & ? & E1 & E2 & E3 & E4 & E5).
    simplify_eq. exists k, c'. split; [|congruence]. unfold buf_at. split_and!; congruence.
  - rewrite Es. rsimpl. apply cpu_ok_refreshed, (vw_cpu _ _ Hv).
  - apply (lock_free_locks s); [done|apply (vw_bcache _ _ Hv)].
  - apply (lock_free_locks s); [done|apply (vw_ptable _ _ Hv)].
Qed.
End Rules.
