(* ===== verification/Recovery.v ===== *)
(** * Recovery: correctness of the log

    What the functions of log.c that move blocks between the log and their
    home sectors do to the view of the disk, and what recovery makes of a commit
    that a crash cut short. *)
From S2P Require Import Prelude Memory State Spinlock Sched Bio Buffers Log Blocks.

(** ** Views up to extensionality *)

#[export] Instance view_equiv : Equiv view := fun v v' =>
  v_w v = v_w v' /\ (forall m, v_disk v m = v_disk v' m) /\ (forall m, v_blk v m = v_blk v' m) /\
  v_held v = v_held v' /\ (forall m, m ∈ v_pin v <-> m ∈ v_pin v').
#[export] Instance view_equivalence : Equivalence (≡@{view}).
Proof.
  split.
  - by intros v.
  - intros v v' (E1 & E2 & E3 & E4 & E5).
    split_and!; [done|intros m; by rewrite E2|intros m; by rewrite E3|done|intros m; by rewrite E5].
  - intros v1 v2 v3 (E1 & E2 & E3 & E4 & E5) (F1 & F2 & F3 & F4 & F5). split_and!.
    + congruence.
    + intros m. by rewrite E2.
    + intros m. by rewrite E3.
    + congruence.
    + intros m. by rewrite E5.
Qed.
#[export] Instance views_proper s : Proper ((≡) ==> iff) (views s).
Proof.
  enough (forall v v', v ≡ v' -> views s v -> views s v') as Himp.
  { intros v v' E. split; apply Himp; [done|by symmetry]. }
  intros v v' (E1 & E2 & E3 & E4 & E5) [H1 H2 H3 H4 H5 H6 H7 H8 H9 H10].
  split; rewrite <- ?E1, <- ?E4; try done.
  - destruct H1 as (l & ? & Hb). exists l. split; [done|]. intros n. by rewrite <- E3.
  - intros n. by rewrite <- E2.
  - intros j b Hj Hb Hd. rewrite <- E5. by apply (H6 j b).
  - intros n. rewrite <- E5. apply H7.
Qed.

(** The view does not depend on the rest of the state. *)
Lemma views_other s s' v :
  views s v -> cpu_ok (kcpu s') -> locks s' = locks s -> bcache s' = bcache s -> disk s' = disk s ->
  dwrites s' = dwrites s -> views s' v.
Proof.
  intros [H1 H2 H3 H4 H5 H6 H7 H8 H9 H10] E1 E2 E3 E4 E5.
  assert (forall k, disk_read s' k = disk_read s k) as Hdr by (unfold disk_read; by rewrite E4).
  split; unfold buf_at, lock_free in *; rewrite ?E2, ?E3, ?E5; try done; [|intros; by rewrite Hdr].
  destruct H1 as (l & [K1 K2 K3 K4 K5 K6] & Hb). exists l. split.
  - split; rewrite ?E3; try done; [intros; by rewrite Hdr|]. intros i b Hi Hbi Hd Hv Hdy Hnb.
    rewrite Hdr. by apply (K6 i b).
  - intros n. rewrite <- Hb. unfold blk. rewrite E3. destruct (find _ l); [|apply Hdr].
    destruct (bcache s !! _); [|done]. by rewrite Hdr.
Qed.
Lemma views_klog s v lg : views s v -> views (s <| klog := lg |>) v.
Proof. intros Hv. apply (views_other s); try done. apply (vw_cpu _ _ Hv). Qed.

(** ** The header block *)

(** The header's bytes: [n] and the first sectors, over the old contents [d]. *)
Fixpoint put_secs (d : list Z) (i : nat) (secs : list Z) : list Z :=
  match secs with
  | [] => d
  | x :: secs' => put_secs (splice d (4 + 4 * i) (bytes32 x)) (S i) secs'
  end.
Definition head_bytes (d : list Z) (n : Z) (secs : list Z) : list Z :=
  put_secs (splice d 0 (bytes32 n)) 0 secs.

Lemma length_put_secs d i secs :
  (4 + 4 * (i + length secs) <= length d)%nat -> length (put_secs d i secs) = length d.
Proof.
  revert d i. induction secs as [|x secs IH]; intros d i Hd; cbn [put_secs length] in *; [done|].
  rewrite IH; rewrite length_splice; try done; unfold bytes32; cbn [length]; lia.
Qed.
Lemma le32_put_secs_lt d i secs k :
  (4 + 4 * (i + length secs) <= length d)%nat -> (k + 4 <= 4 + 4 * i)%nat ->
  le32 (put_secs d i secs) k = le32 d k.
Proof.
  revert d i. induction secs as [|x secs IH]; intros d i Hd Hk; cbn [put_secs length] in *; [done|].
  rewrite IH; [|rewrite length_splice; cbn; lia|lia].
  apply le32_splice_ne; cbn; lia.
Qed.
Lemma le32_put_secs d i secs k x :
  (4 + 4 * (i + length secs) <= length d)%nat -> secs !! k = Some x ->
  le32 (put_secs d i secs) (4 + 4 * (i + k)) = u32 x.
Proof.
  revert d i k. induction secs as [|y secs IH]; intros d i k Hd Hk; cbn [put_secs length] in *; [done|].
  destruct k as [|k]; cbn in Hk.
  - injection Hk as ->. rewrite le32_put_secs_lt; [|rewrite length_splice; cbn; lia|lia].
    replace (i + 0)%nat with i by lia. apply le32_splice. lia.
  - replace (i + S k)%nat with (S i + k)%nat by lia. apply IH; [rewrite length_splice; cbn; lia|done].
Qed.

Section HeadBytes.
Context (d : list Z) (n : Z) (secs : list Z).
Context (Hd : length d = 512%nat) (Hs : (length secs <= 10)%nat).
Lemma length_head_bytes : length (head_bytes d n secs) = 512%nat.
Proof. unfold head_bytes. rewrite length_put_secs; rewrite length_splice; cbn; lia. Qed.
Lemma head_bytes_n : le32 (head_bytes d n secs) 0 = u32 n.
Proof.
  unfold head_bytes. rewrite le32_put_secs_lt; [|rewrite length_splice; cbn; lia|lia].
  apply le32_splice. lia.
Qed.
Lemma head_bytes_sec k x : secs !! k = Some x -> le32 (head_bytes d n secs) (4 + 4 * k) = u32 x.
Proof.
  intros Hk. unfold head_bytes. apply (le32_put_secs _ 0 secs k x); [|done].
  rewrite length_splice; cbn; lia.
Qed.
End HeadBytes.

(** [view_eq]: two views built by updates are equivalent. *)
Ltac view_eq :=
  unfold equiv, view_equiv; rsimpl; split_and!; try done;
  [try (intros; unfold fupd; repeat case_decide; congruence)..].

Lemma take_drop_S {A} (l : list A) (i n : nat) x :
  l !! i = Some x -> (i < n)%nat -> take (n - i) (drop i l) = x :: take (n - S i) (drop (S i) l).
Proof. intros Hx Hi. rewrite (drop_S _ _ _ Hx). by replace (n - i)%nat with (S (n - S i)) by lia. Qed.

Section LogSpec.
Context `{DiskDriverOk}.

Lemma wp_get_sector i x Q e s :
  lg_sector (klog s) !! i = Some x -> Q x s e -> wp (get_sector (Z.of_nat i)) Q e s.
Proof. intros Hx HQ. unfold get_sector. apply wp_bind, wp_gets. rewrite Nat2Z.id. by apply (wp_must _ x). Qed.

Lemma wp_write_head_loop fuel j (i n : nat) Q e s v L :
  let lg := klog s in
  views s v -> v_held v !! L = Some j -> lg_n lg = Z.of_nat n -> length (lg_sector lg) = 10%nat ->
  (n <= 10)%nat -> (i <= n)%nat -> (n - i <= fuel)%nat ->
  (forall s', views s' (v <| v_blk ::= fupd L (put_secs (v_blk v L) i (take (n - i) (drop i (lg_sector lg)))) |>) ->
     kept s s' -> Q tt s' e) ->
  wp (write_head_loop fuel j (Z.of_nat i)) Q e s.
Proof.
  revert i s v. induction fuel as [|fuel IH]; intros i s v lg Hv Hh Hn Hlen Hn10 Hi Hf HQ.
  all: cbn [write_head_loop]; apply wp_bind, wp_gets; fold lg; rewrite Hn.
  - rewrite (proj2 (Z.ltb_ge _ _)) by lia. apply wp_ret, HQ; [|done].
    replace (n - i)%nat with 0%nat by lia. rewrite take_0. cbn [put_secs]. eapply views_proper; [|exact Hv]. view_eq.
  - destruct (decide (i = n)) as [->|Hne].
    { rewrite (proj2 (Z.ltb_ge _ _)) by lia. apply wp_ret, HQ; [|done].
      replace (n - n)%nat with 0%nat by lia. rewrite take_0. cbn [put_secs]. eapply views_proper; [|exact Hv]. view_eq. }
    rewrite (proj2 (Z.ltb_lt _ _)) by lia.
    destruct (lookup_lt_is_Some_2 (lg_sector lg) i ltac:(lia)) as [x Hx].
    apply wp_bind, (wp_get_sector i x _ e s Hx).
    apply wp_bind, (wp_get_data L j _ e s v Hv Hh).
    replace (Z.to_nat (4 + 4 * Z.of_nat i)) with (4 + 4 * i)%nat by lia.
    pose proof (views_len s v Hv L) as HL.
    apply wp_bind, (wp_set_data L j _ _ e s v Hv Hh).
    { rewrite length_splice; cbn; lia. }
    intros s1 Hv1 Hk1. replace (Z.of_nat i + 1) with (Z.of_nat (S i)) by lia.
    pose proof (kp_klog _ _ Hk1) as El.
    eapply IH; [exact Hv1|done|by rewrite El|by rewrite El|done|lia|lia|].
    intros s2 Hv2 Hk2. apply HQ; [|by eapply kept_trans].
    eapply views_proper; [|exact Hv2]. rewrite El. fold lg. rewrite (take_drop_S _ _ _ x Hx) by lia.
    cbn [put_secs]. view_eq.
Qed.

(** [write_head] puts the header on the disk. *)
Definition head_of (v : view) (L : Z) (n : nat) (secs : list Z) : list Z :=
  head_bytes (v_blk v L) (Z.of_nat n) (take n secs).
Definition wrote (n : Z) (d : list Z) (v : view) : view :=
  v <| v_blk ::= fupd n d |> <| v_disk ::= fupd n d |> <| v_w ::= (.++ [((1, n), d)]) |>.

Lemma wp_write_head (n : nat) Q e s v L :
  let lg := klog s in
  views s v -> v_held v = ∅ -> room v L -> L ∉ v_pin v -> 0 <= L < drv_sectors -> L < 2147483648 ->
  lg_dev lg = 1 -> lg_start lg = L -> lg_n lg = Z.of_nat n -> length (lg_sector lg) = 10%nat -> (n <= 10)%nat ->
  (forall s', views s' (wrote L (head_of v L n (lg_sector lg)) v) -> kept s s' -> Q tt s' e) ->
  wp write_head Q e s.
Proof.
  intros lg Hv Hh0 Hroom Hpin HL HL31 Hdev Hst Hn Hlen Hn10 HQ. unfold write_head.
  apply wp_bind, wp_gets. fold lg. rewrite Hdev, Hst. replace (u32 L) with L by mlia.
  apply wp_bind, (wp_bread L _ e s v Hv HL Hroom). intros j s1 Hv1 Hk1.
  apply wp_bind, wp_gets. rewrite (kp_klog _ _ Hk1). fold lg. rewrite Hn.
  assert (forall v', v_held v' = <[L := j]> (v_held v) -> v_held v' !! L = Some j) as Hheld.
  { intros v' ->. apply lookup_insert_eq. }
  apply wp_bind. eapply wp_get_data; [exact Hv1|by apply Hheld|].
  pose proof (views_len s v Hv L) as HLen.
  apply wp_bind. eapply wp_set_data; [exact Hv1|by apply Hheld|rsimpl; rewrite length_splice; cbn; lia|].
  intros s2 Hv2 Hk2. pose proof (kept_trans _ _ _ Hk1 Hk2) as Hk12. pose proof (kp_klog _ _ Hk12) as El.
  apply wp_bind.
  eapply (wp_write_head_loop _ j 0%nat); [exact Hv2|by apply Hheld|by rewrite El|by rewrite El|done|lia|change (Z.to_nat LOGSIZE) with 10%nat; lia|].
  intros s3 Hv3 Hk3. apply wp_bind. eapply wp_bwrite; [exact Hv3|by apply Hheld|done|].
  intros s4 Hv4 Hk4. eapply wp_brelse; [exact Hv4|by apply Hheld|right; rsimpl; by rewrite !fupd_eq|].
  intros s5 Hv5 Hk5. apply HQ; [|eauto using kept_trans].
  eapply views_proper; [|exact Hv5]. rewrite El. fold lg.
  replace (n - 0)%nat with n by lia. rewrite drop_0. unfold wrote, head_of, head_bytes.
  unfold equiv, view_equiv. rsimpl. rewrite !fupd_eq. split_and!; try done.
  - intros m. unfold fupd. by repeat case_decide.
  - rewrite delete_insert_id; [done|]. by rewrite Hh0.
  - intros m. rewrite elem_of_difference, elem_of_singleton. split; [|tauto]. intros Hm. split; [done|]. by intros ->.
Qed.

(** [install_trans] copies the logged blocks from [k] on to their sectors. *)
Definition install1 (k x : Z) (v : view) : view :=
  (wrote x (v_blk v k) v) <| v_pin ::= fun p => p ∖ {[x]} |>.
Fixpoint installs (k : Z) (secs : list Z) (v : view) : view :=
  match secs with
  | [] => v
  | x :: secs' => installs (k + 1) secs' (install1 k x v)
  end.

(** There are buffers for a log block and the sectors [secs] in turn. *)
Definition capacity (v : view) (secs : list Z) : Prop :=
  (size (v_pin v) < NBUF)%nat /\
  ((forall x, x ∈ secs -> x ∈ v_pin v) \/ (S (size (v_pin v)) < NBUF)%nat).

Lemma capacity_install1 k x secs v : capacity v (x :: secs) -> capacity (install1 k x v) secs.
Proof.
  intros [H1 H2]. unfold capacity, install1, wrote. rsimpl.
  assert (size (v_pin v ∖ {[x]}) <= size (v_pin v))%nat as Hle by (apply subseteq_size, subseteq_difference_l; done).
  split; [lia|right]. destruct H2 as [H2|H2]; [|lia].
  assert (x ∈ v_pin v) as Hx by (apply H2; left).
  rewrite size_difference by (apply singleton_subseteq_l; done). rewrite size_singleton. unfold NBUF in *. lia.
Qed.

Lemma room_log v k : v_held v = ∅ -> (size (v_pin v) < NBUF)%nat -> room v k.
Proof. intros Hh Hs. unfold room. rewrite Hh, dom_empty_L, union_empty_l_L. split; [done|by right]. Qed.
Lemma room_home v k j x secs :
  v_held v = ∅ -> capacity v (x :: secs) -> x <> k -> room (v <| v_held ::= <[k := j]> |>) x.
Proof.
  intros Hh [_ Hc] Hne. unfold room. rsimpl. rewrite Hh, lookup_insert_ne by done. split; [done|].
  destruct Hc as [Hc|Hc]; [left; apply Hc; left|right].
  rewrite dom_insert_L, dom_empty_L, union_empty_r_L, size_union_alt, size_singleton.
  assert (size (v_pin v ∖ {[k]}) <= size (v_pin v))%nat by (apply subseteq_size, subseteq_difference_l; done). lia.
Qed.

(** The body of the loop, for the log block [k] and its sector [x]. *)
Lemma install_body k x secs lb (K : M unit) Q e s v :
  v_held v = ∅ -> views s (v <| v_held ::= <[k := lb]> |>) -> capacity v (x :: secs) -> x <> k ->
  v_blk v k = v_disk v k -> 0 <= x < drv_sectors ->
  (forall s', views s' (install1 k x v) -> kept s s' -> wp K Q e s') ->
  wp (dbuf ← bread 1 x; d ← get_data lb; set_data dbuf d ;; bwrite dbuf ;; brelse lb ;; brelse dbuf ;; K) Q e s.
Proof.
  intros Hh Hv Hcap Hne Hcl Hx HQ.
  apply wp_bind. eapply wp_bread; [exact Hv|done|by eapply room_home|]. intros db s1 Hv1 Hk1.
  assert (forall v', v_held v' = <[x := db]> (<[k := lb]> (v_held v)) ->
    v_held v' !! x = Some db /\ v_held v' !! k = Some lb) as Hheld.
  { intros v' ->. rewrite lookup_insert_eq, lookup_insert_ne, lookup_insert_eq by done. done. }
  apply wp_bind. eapply wp_get_data; [exact Hv1|by apply Hheld|]. rsimpl.
  apply wp_bind. eapply wp_set_data; [exact Hv1|by apply Hheld|apply (views_len s _ Hv k)|]. intros s2 Hv2 Hk2.
  apply wp_bind. eapply wp_bwrite; [exact Hv2|by apply Hheld|done|]. intros s3 Hv3 Hk3.
  apply wp_bind. eapply wp_brelse; [exact Hv3|by apply Hheld|right; rsimpl; by rewrite !fupd_ne by done|].
  intros s4 Hv4 Hk4.
  apply wp_bind. eapply wp_brelse; [exact Hv4| |right; rsimpl; by rewrite !fupd_eq|].
  { rsimpl. rewrite lookup_delete_ne by done. apply lookup_insert_eq. }
  intros s5 Hv5 Hk5. apply HQ; [|eauto 6 using kept_trans].
  eapply views_proper; [|exact Hv5]. unfold install1, wrote, equiv, view_equiv. rsimpl.
  rewrite !fupd_eq. split_and!; try done.
  rewrite Hh. apply map_eq. intros m. rewrite !lookup_delete, !lookup_insert, lookup_empty.
  by repeat case_decide.
Qed.

Lemma wp_install_loop fuel (t n : nat) Q e s v L :
  let lg := klog s in
  views s v -> v_held v = ∅ -> lg_dev lg = 1 -> lg_start lg = L -> lg_n lg = Z.of_nat n ->
  length (lg_sector lg) = 10%nat -> (n <= 10)%nat -> (t <= n)%nat -> (n - t <= fuel)%nat ->
  0 <= L -> L + 1 + Z.of_nat n <= drv_sectors -> L < 2147483600 ->
  (forall x, x ∈ take n (lg_sector lg) -> 0 <= x < L) ->
  (forall k, L < k -> v_blk v k = v_disk v k) ->
  capacity v (take (n - t) (drop t (lg_sector lg))) ->
  (forall s', views s' (installs (L + 1 + Z.of_nat t) (take (n - t) (drop t (lg_sector lg))) v) ->
     kept s s' -> Q tt s' e) ->
  wp (install_loop fuel (Z.of_nat t)) Q e s.
Proof.
  revert t s v. induction fuel as [|fuel IH];
    intros t s v lg Hv Hh Hdev Hst Hn Hlen Hn10 Ht Hf HL0 HLd HL31 Hsec Hcl Hcap HQ.
  all: cbn [install_loop]; apply wp_bind, wp_gets; fold lg; rewrite Hn.
  - rewrite (proj2 (Z.ltb_ge _ _)) by lia. apply wp_ret, HQ; [|done].
    by replace (n - t)%nat with 0%nat by lia.
  - destruct (decide (t = n)) as [->|Hne].
    { rewrite (proj2 (Z.ltb_ge _ _)) by lia. apply wp_ret, HQ; [|done].
      by replace (n - n)%nat with 0%nat by lia. }
    rewrite (proj2 (Z.ltb_lt _ _)) by lia.
    destruct (lookup_lt_is_Some_2 (lg_sector lg) t ltac:(lia)) as [x Hx].
    rewrite (take_drop_S _ _ _ x Hx) in Hcap by lia.
    assert (0 <= x < L) as Hx0.
    { apply Hsec, list_elem_of_lookup. exists t. rewrite lookup_take_lt by lia. done. }
    rewrite Hdev, Hst. replace (u32 (L + Z.of_nat t + 1)) with (L + 1 + Z.of_nat t) by mlia.
    apply wp_bind. eapply wp_bread; [exact Hv|lia|apply room_log; [done|apply Hcap]|]. intros lb s1 Hv1 Hk1.
    pose proof (kp_klog _ _ Hk1) as El.
    apply wp_bind, wp_gets. rewrite El. fold lg. rewrite Hdev.
    apply wp_bind, (wp_get_sector t x); [by rewrite El|].
    replace (u32 x) with x by mlia.
    eapply install_body; [done|exact Hv1|exact Hcap|lia|apply Hcl; lia|lia|].
    intros s2 Hv2 Hk2. pose proof (kept_trans _ _ _ Hk1 Hk2) as Hk12. pose proof (kp_klog _ _ Hk12) as El2.
    replace (Z.of_nat t + 1) with (Z.of_nat (S t)) by lia.
    eapply IH; [exact Hv2|done|by rewrite El2|by rewrite El2|by rewrite El2|by rewrite El2|done|lia|lia|done|done|done| | | |].
    + by rewrite El2.
    + intros k Hk. unfold install1, wrote. rsimpl. rewrite !fupd_ne by lia. by apply Hcl.
    + rewrite El2. fold lg. by apply capacity_install1.
    + intros s3 Hv3 Hk3. apply HQ; [|by eapply kept_trans].
      rewrite (take_drop_S _ _ _ x Hx) by lia. cbn [installs].
      rewrite El2 in Hv3. fold lg in Hv3.
      by replace (L + 1 + Z.of_nat t + 1) with (L + 1 + Z.of_nat (S t)) by lia.
Qed.

(** What is left alone by an operation that changes the log's record. *)
Definition kept_but_log (s s' : kstate) : Prop := kept (s <| klog := klog s' |>) s'.
Lemma kept_but_log_trans s1 s2 s3 : kept_but_log s1 s2 -> kept_but_log s2 s3 -> kept_but_log s1 s3.
Proof.
  intros [] []. repeat match goal with H : _ = _ |- _ => progress rsimpl in H end.
  split; rsimpl; congruence.
Qed.
Lemma kept_log s s' : kept s s' -> kept_but_log s s'.
Proof. intros []. by split. Qed.
Lemma kept_set_log s lg : kept_but_log s (s <| klog := lg |>).
Proof. by split. Qed.

Lemma wp_set_log f Q e s v :
  views s v -> (forall s', views s' v -> kept_but_log s s' -> klog s' = f (klog s) -> Q tt s' e) ->
  wp (set_log f) Q e s.
Proof.
  intros Hv HQ. apply wp_modify, HQ; [|by split|by rsimpl].
  apply (views_other s); try done. apply (vw_cpu _ _ Hv).
Qed.
Lemma wp_set_sector i x Q e s v :
  views s v -> (i < length (lg_sector (klog s)))%nat ->
  (forall s', views s' v -> kept_but_log s s' ->
     klog s' = (klog s) <| lg_sector ::= <[i := x]> |> -> Q tt s' e) ->
  wp (set_sector (Z.of_nat i) x) Q e s.
Proof.
  intros Hv Hi HQ. unfold set_sector. destruct (lookup_lt_is_Some_2 _ _ Hi) as [y Hy].
  apply wp_bind, (wp_get_sector i y _ e s Hy). rewrite Nat2Z.id. by eapply wp_set_log.
Qed.

(** The header on disk: the number of blocks and their sectors. *)
Definition head_n (d : list Z) : Z := s32 (le32 d 0).
Definition head_secs (d : list Z) (n : nat) : list Z :=
  map (fun i => s32 (le32 d (4 + 4 * i))) (seq 0 n).

Lemma wp_read_head_loop fuel d (i n : nat) Q e s v :
  views s v -> lg_n (klog s) = Z.of_nat n -> length (lg_sector (klog s)) = 10%nat ->
  (n <= 10)%nat -> (i <= n)%nat -> (n - i <= fuel)%nat ->
  take i (lg_sector (klog s)) = head_secs d i ->
  (forall s' secs, views s' v -> kept_but_log s s' -> klog s' = (klog s) <| lg_sector := secs |> ->
     length secs = 10%nat -> take n secs = head_secs d n -> Q tt s' e) ->
  wp (read_head_loop fuel d (Z.of_nat i)) Q e s.
Proof.
  revert i s. induction fuel as [|fuel IH]; intros i s Hv Hn Hlen Hn10 Hi Hf Htk HQ.
  all: cbn [read_head_loop]; apply wp_bind, wp_gets; rewrite Hn.
  - rewrite (proj2 (Z.ltb_ge _ _)) by lia. replace i with n in Htk by lia.
    apply wp_ret, (HQ s (lg_sector (klog s))); try done. by destruct (klog s).
  - destruct (decide (i = n)) as [->|Hne].
    { rewrite (proj2 (Z.ltb_ge _ _)) by lia.
      apply wp_ret, (HQ s (lg_sector (klog s))); try done. by destruct (klog s). }
    rewrite (proj2 (Z.ltb_lt _ _)) by lia.
    replace (Z.to_nat (4 + 4 * Z.of_nat i)) with (4 + 4 * i)%nat by lia.
    apply wp_bind. eapply wp_set_sector; [exact Hv|lia|]. intros s1 Hv1 Hk1 El.
    replace (Z.of_nat i + 1) with (Z.of_nat (S i)) by lia.
    eapply IH; [done|by rewrite El|rewrite El; rsimpl; by rewrite length_insert|done|lia|lia| |].
    + rewrite El. rsimpl. unfold head_secs. rewrite seq_S, map_app. cbn [map].
      erewrite take_S_r by (apply list_lookup_insert_eq; lia).
      rewrite take_insert_ge by lia. by rewrite Htk.
    + intros s2 secs Hv2 Hk2 El2 Hl2 Htk2. apply (HQ s2 secs); try done; [by eapply kept_but_log_trans|].
      rewrite El2, El. destruct (klog s). by cbv [upd].
Qed.

Lemma wp_read_head (n : nat) Q e s v L :
  views s v -> v_held v = ∅ -> v_pin v = ∅ -> 0 <= L < drv_sectors -> L < 2147483648 ->
  lg_dev (klog s) = 1 -> lg_start (klog s) = L -> length (lg_sector (klog s)) = 10%nat ->
  head_n (v_blk v L) = Z.of_nat n -> (n <= 10)%nat ->
  (forall s' secs, views s' v -> kept_but_log s s' ->
     klog s' = (klog s) <| lg_n := Z.of_nat n |> <| lg_sector := secs |> ->
     length secs = 10%nat -> take n secs = head_secs (v_blk v L) n -> Q tt s' e) ->
  wp read_head Q e s.
Proof.
  intros Hv Hh Hp HL HL31 Hdev Hst Hlen Hn Hn10 HQ. unfold read_head.
  apply wp_bind, wp_gets. rewrite Hdev, Hst. replace (u32 L) with L by mlia.
  assert (v_disk v L = v_blk v L) as Hcl.
  { symmetry. apply (views_clean s v Hv); rewrite ?Hh, ?Hp; [done|]. apply not_elem_of_empty. }
  apply wp_bind. eapply wp_bread; [exact Hv|done| |].
  { apply room_log; [done|]. rewrite Hp, size_empty. unfold NBUF. lia. }
  intros j s1 Hv1 Hk1. pose proof (kp_klog _ _ Hk1) as El.
  apply wp_bind. eapply wp_get_data; [exact Hv1|rsimpl; apply lookup_insert_eq|]. rsimpl.
  apply wp_bind. eapply wp_set_log; [exact Hv1|]. intros s2 Hv2 Hk2 El2.
  apply wp_bind. unfold head_n in Hn. rewrite Hn in El2.
  eapply (wp_read_head_loop _ _ 0%nat n); [exact Hv2|by rewrite El2|by rewrite El2, El|done|lia| |done|].
  { change (Z.to_nat LOGSIZE) with 10%nat. lia. }
  intros s3 secs Hv3 Hk3 El3 Hl3 Htk.
  eapply wp_brelse; [exact Hv3|rsimpl; apply lookup_insert_eq|by right|].
  intros s4 Hv4 Hk4. apply (HQ s4 secs); try done.
  - eapply views_proper; [|exact Hv4]. view_eq. by rewrite Hh, delete_insert_id.
  - eauto 6 using kept_but_log_trans, kept_log.
  - by rewrite (kp_klog _ _ Hk4), El3, El2, El.
Qed.

(** ** What [install_trans] makes of the disk *)

Fixpoint install_writes (k : Z) (secs : list Z) (f : Z -> list Z) : list ((Z * Z) * list Z) :=
  match secs with
  | [] => []
  | x :: secs' => ((1, x), f k) :: install_writes (k + 1) secs' f
  end.

Section Installs.
Implicit Types (v : view) (secs : list Z).

Lemma install_writes_ext k secs f g :
  (forall m, k <= m -> f m = g m) -> install_writes k secs f = install_writes k secs g.
Proof.
  revert k. induction secs as [|x secs IH]; intros k Hfg; cbn; [done|].
  rewrite (Hfg k) by lia. f_equal. apply IH. intros. apply Hfg. lia.
Qed.
Lemma installs_w k secs v :
  (forall x, x ∈ secs -> x < k) -> v_w (installs k secs v) = v_w v ++ install_writes k secs (v_blk v).
Proof.
  revert k v. induction secs as [|x secs IH]; intros k v Hlt; cbn [installs install_writes]; [by rewrite app_nil_r|].
  rewrite IH by (intros y Hy; specialize (Hlt y ltac:(by right)); lia).
  unfold install1, wrote. rsimpl. rewrite <- app_assoc. cbn. f_equal. f_equal.
  apply install_writes_ext. intros m Hm. apply fupd_ne. specialize (Hlt x ltac:(by left)). lia.
Qed.
Lemma installs_held k secs v : v_held (installs k secs v) = v_held v.
Proof. revert k v. induction secs as [|x secs IH]; intros k v; cbn [installs]; [done|]. by rewrite IH. Qed.
Lemma installs_pin k secs v m : m ∈ v_pin (installs k secs v) <-> m ∈ v_pin v /\ m ∉ secs.
Proof.
  revert k v. induction secs as [|x secs IH]; intros k v; cbn [installs].
  - split; [|tauto]. intros Hm. split; [done|]. apply not_elem_of_nil.
  - rewrite IH. unfold install1, wrote. rsimpl. rewrite elem_of_difference, elem_of_singleton, not_elem_of_cons. tauto.
Qed.
Lemma installs_out k secs v m :
  m ∉ secs -> v_disk (installs k secs v) m = v_disk v m /\ v_blk (installs k secs v) m = v_blk v m.
Proof.
  revert k v. induction secs as [|x secs IH]; intros k v Hm; cbn [installs]; [done|].
  apply not_elem_of_cons in Hm as [Hx Hm]. destruct (IH (k + 1) (install1 k x v) Hm) as [-> ->].
  unfold install1, wrote. rsimpl. by rewrite !fupd_ne.
Qed.
Lemma installs_in k secs v i x :
  NoDup secs -> (forall x, x ∈ secs -> x < k) -> secs !! i = Some x ->
  v_disk (installs k secs v) x = v_blk v (k + Z.of_nat i) /\
  v_blk (installs k secs v) x = v_blk v (k + Z.of_nat i).
Proof.
  revert k v i. induction secs as [|y secs IH]; intros k v i Hnd Hlt Hi; [done|].
  apply NoDup_cons in Hnd as [Hy Hnd]. cbn [installs]. destruct i as [|i]; cbn in Hi.
  - injection Hi as ->. destruct (installs_out (k + 1) secs (install1 k x v) x Hy) as [-> ->].
    unfold install1, wrote. rsimpl. rewrite !fupd_eq. by rewrite Z.add_0_r.
  - destruct (IH (k + 1) (install1 k y v) i Hnd) as [-> ->]; [|done|].
    + intros z Hz. specialize (Hlt z ltac:(by right)). lia.
    + unfold install1, wrote. rsimpl. specialize (Hlt y ltac:(by left)).
      rewrite fupd_ne by lia. by replace (k + 1 + Z.of_nat i) with (k + Z.of_nat (S i)) by lia.
Qed.
End Installs.

(** ** Commit *)

(** The sectors from [L] on are the log's. *)
Definition log_geometry (L : Z) (n : nat) : Prop :=
  0 < L /\ L + 1 + Z.of_nat n <= drv_sectors /\ L < 2147483600.
Definition log_record (lg : logst) (L : Z) (secs : list Z) : Prop :=
  lg_dev lg = 1 /\ lg_start lg = L /\ lg_n lg = Z.of_nat (length secs) /\
  length (lg_sector lg) = 10%nat /\ take (length secs) (lg_sector lg) = secs.

(** The state in which [commit_trans] is called: the blocks of the sectors
    [secs] are in the log as the kernel sees them, and their buffers pinned. *)
Record committable (s : kstate) (v : view) (L : Z) (secs : list Z) : Prop := {
  cm_views : views s v;
  cm_held : v_held v = ∅;
  cm_rec : log_record (klog s) L secs;
  cm_small : (length secs < NBUF)%nat;
  cm_geom : log_geometry L (length secs);
  cm_home x : x ∈ secs -> 0 <= x < L;
  cm_nodup : NoDup secs;
  cm_pin m : m ∈ v_pin v <-> m ∈ secs;
  cm_logged i x : secs !! i = Some x -> v_blk v (L + 1 + Z.of_nat i) = v_blk v x;
  cm_lock : lock_free s L_log;
}.

Definition head_written (v : view) (L : Z) (secs : list Z) : view :=
  wrote L (head_bytes (v_blk v L) (Z.of_nat (length secs)) secs) v.
(** The end of [commit_trans] and of recovery: install, then erase. *)
Definition erased (v : view) (L : Z) : view := wrote L (head_bytes (v_blk v L) 0 []) v.
Definition install_erase (v : view) (L : Z) (secs : list Z) : view :=
  erased (installs (L + 1) secs v) L.

Lemma capacity_pin v secs :
  (forall m, m ∈ v_pin v <-> m ∈ secs) -> NoDup secs -> (length secs < NBUF)%nat -> capacity v secs.
Proof.
  intros Hp Hnd Hl. split; [|left; intros x; apply Hp].
  assert (v_pin v = list_to_set secs) as ->. { apply set_eq. intros x. rewrite Hp. by rewrite elem_of_list_to_set. }
  by rewrite size_list_to_set.
Qed.
Lemma home_lt (secs : list Z) (L k : Z) : (forall x, x ∈ secs -> 0 <= x < L) -> L <= k -> forall x, x ∈ secs -> x < k.
Proof. intros Hx Hk x Hi. specialize (Hx x Hi). lia. Qed.

(** [install_trans], [log.lh.n = 0] and [write_head], which end both
    [commit_trans] and [recover_from_log]. *)
Lemma wp_install_erase Q e s v L secs :
  views s v -> v_held v = ∅ -> log_record (klog s) L secs -> log_geometry L (length secs) ->
  (forall x, x ∈ secs -> 0 <= x < L) -> capacity v secs ->
  (forall m, m ∈ v_pin v -> m < L) ->
  (forall s', views s' (install_erase v L secs) -> kept_but_log s s' ->
     klog s' = (klog s) <| lg_n := 0 |> -> Q tt s' e) ->
  wp (install_trans ;; set_log (fun lg => lg <| lg_n := 0 |>) ;; write_head) Q e s.
Proof.
  intros Hv Hh (Hdev & Hst & Hn & Hlen & Htk) (HL0 & HLd & HL31) Hhome Hcap Hpin HQ.
  assert (length secs <= 10)%nat as Hn10.
  { rewrite <- Htk, length_take. lia. }
  apply wp_bind. unfold install_trans.
  eapply (wp_install_loop _ 0%nat (length secs)); [exact Hv|done|done|exact Hst|done|done|done|lia| |lia|lia|lia| | | |].
  { change (Z.to_nat LOGSIZE) with 10%nat. lia. }
  { by rewrite Htk. }
  { intros k Hk. apply (views_clean s v Hv); [by rewrite Hh|]. intros Hm%Hpin. lia. }
  { by rewrite drop_0, Nat.sub_0_r, Htk. }
  rewrite drop_0, Nat.sub_0_r, Htk.
  intros s1 Hv1 Hk1. rewrite Z.add_0_r in Hv1.
  apply wp_bind. eapply wp_set_log; [exact Hv1|]. intros s2 Hv2 Hk2 El2.
  assert (klog s1 = klog s) as El1 by apply (kp_klog _ _ Hk1). rewrite El1 in El2.
  assert (~ L ∈ v_pin (installs (L + 1) secs v)) as HLp.
  { intros [Hm _]%installs_pin. apply Hpin in Hm. lia. }
  eapply (wp_write_head 0); [exact Hv2|by rewrite installs_held| |done|lia|lia|by rewrite El2|by rewrite El2|by rewrite El2|by rewrite El2|lia|].
  { apply room_log; [by rewrite installs_held|]. destruct Hcap as [Hc _].
    eapply Nat.le_lt_trans; [|exact Hc]. apply subseteq_size. by intros m [? _]%installs_pin. }
  intros s3 Hv3 Hk3. apply HQ.
  - exact Hv3.
  - eauto using kept_but_log_trans, kept_log.
  - by rewrite (kp_klog _ _ Hk3).
Qed.

Lemma wp_end_commit Q e s v :
  views s v -> lock_free s L_log ->
  (forall s', views s' v -> kept_but_log s s' -> klog s' = (klog s) <| lg_busy := 0 |> -> Q tt s' e) ->
  wp (acquire L_log ;; set_log (fun lg => lg <| lg_busy := 0 |>) ;; wakeup Ch_log ;; release L_log) Q e s.
Proof.
  intros Hv [name Hlk] HQ. pose proof (vw_cpu _ _ Hv) as Hok. destruct (vw_ptable _ _ Hv) as [pname Hpt].
  apply wp_bind, (wp_ok _ _ _ _ _ _ _ (acquire_run _ _ e s Hlk)). apply wp_bind, wp_modify.
  set (s1 := (locked_state L_log name s) <| klog ::= _ |>).
  assert (cpu_ok (kcpu s1)) as Hok1 by (subst s1; unfold locked_state; rsimpl; destruct Hok; split; cbn; [lia|done]).
  assert (lock_free s1 L_ptable) as Hpt1.
  { exists pname. subst s1. unfold locked_state. rsimpl. by rewrite lookup_insert_ne. }
  apply wp_bind, (wp_ok _ _ _ _ _ _ _ (wakeup_run Ch_log e s1 Hok1 Hpt1)).
  eapply wp_ok; [eapply (release_locked _ name e s); [done|done| |]|].
  - unfold refresh. subst s1. unfold locked_state. rsimpl. by apply refreshed_pushed.
  - done.
  - apply HQ.
    + apply (views_other s); try done.
    + subst s1. unfold refresh, locked_state. split; rsimpl; try done. apply length_map.
    + done.
Qed.

Lemma wp_commit_trans Q e s v L secs :
  committable s v L secs -> secs <> [] ->
  (forall s', views s' (install_erase (head_written v L secs) L secs) -> kept_but_log s s' ->
     klog s' = (klog s) <| lg_n := 0 |> <| lg_busy := 0 |> -> Q tt s' e) ->
  wp commit_trans Q e s.
Proof.
  intros [Hv Hh Hrec Hsm Hgeo Hhome Hnd Hpin Hlg Hlk] Hne HQ. unfold commit_trans.
  pose proof Hrec as (Hdev & Hst & Hn & Hlen & Htk). pose proof Hgeo as (HL0 & HLd & HL31).
  assert (length secs <> 0)%nat as Hn0 by (by destruct secs).
  apply wp_bind, wp_gets. rewrite Hn. rewrite (proj2 (Z.ltb_lt _ _)) by lia. cbn [when].
  assert (L ∉ v_pin v) as HLp. { rewrite Hpin. intros Hm%Hhome. lia. }
  pose proof (capacity_pin v secs Hpin Hnd Hsm) as Hcap.
  assert (forall s', views s' (install_erase (head_written v L secs) L secs) -> kept_but_log s s' ->
     klog s' = (klog s) <| lg_n := 0 |> ->
     wp (acquire L_log ;; set_log (fun lg => lg <| lg_busy := 0 |>) ;; wakeup Ch_log ;; release L_log) Q e s') as Hend.
  { intros s' Hv' Hk' El. eapply wp_end_commit; [exact Hv'| |].
    - apply (lock_free_locks s); [apply (kp_locks _ _ Hk')|done].
    - intros s2 Hv2 Hk2 El2. apply HQ; [done|by eapply kept_but_log_trans|]. by rewrite El2, El. }
  apply wp_bind.
  apply wp_bind. eapply (wp_write_head (length secs)); [exact Hv|done| |done|lia|lia|done|done|done|done| |].
  { apply room_log; [done|apply Hcap]. }
  { unfold NBUF in Hsm. lia. }
  intros s1 Hv1 Hk1. unfold head_of in Hv1. rewrite Htk in Hv1.
  eapply wp_install_erase; [exact Hv1|done|by rewrite (kp_klog _ _ Hk1)|done|done|exact Hcap| |].
  { intros m Hm%Hpin%Hhome. lia. }
  intros s2 Hv2 Hk2 El2. apply Hend; [done|eauto using kept_but_log_trans, kept_log|].
  by rewrite El2, (kp_klog _ _ Hk1).
Qed.

(** ** Recovery *)

Lemma held_restore v n j s :
  v_held v !! n = None -> views s ((v <| v_held ::= <[n := j]> |>) <| v_held ::= delete n |>) -> views s v.
Proof.
  intros Hh Hv. eapply views_proper; [|exact Hv]. view_eq. by rewrite delete_insert_id.
Qed.

Lemma wp_readsb Q e s v :
  views s v -> room v 1 -> 1 < drv_sectors ->
  (forall s', views s' v -> kept s s' -> Q (sb_of_bytes (v_blk v 1)) s' e) ->
  wp (readsb 1) Q e s.
Proof.
  intros Hv Hr Hd HQ. unfold readsb. pose proof Hr as [Hh _].
  assert (1 ∈ v_pin v \/ v_blk v 1 = v_disk v 1) as Hcl.
  { destruct (decide (1 ∈ v_pin v)); [by left|right]. by apply (views_clean s). }
  apply wp_bind. eapply wp_bread; [exact Hv|lia|done|]. intros j s1 Hv1 Hk1.
  apply wp_bind. eapply wp_get_data; [exact Hv1|rsimpl; apply lookup_insert_eq|].
  apply wp_bind. eapply wp_brelse; [exact Hv1|rsimpl; apply lookup_insert_eq|exact Hcl|].
  intros s2 Hv2 Hk2. apply wp_ret, HQ; [|by eapply kept_trans]. by eapply held_restore.
Qed.

Lemma views_initlock s v name :
  views s v -> views (s <| locks ::= <[L_log := Spinlock 0 name None]> |>) v.
Proof.
  intros [H1 H2 H3 H4 H5 H6 H7 H8 [n1 H9] [n2 H10]]. split; try done.
  - destruct H1 as (l & [] & Hb). exists l. split; [by split|done].
  - exists n1. rsimpl. by rewrite lookup_insert_ne.
  - exists n2. rsimpl. by rewrite lookup_insert_ne.
Qed.

(** The disk a crashed kernel left: its superblock puts the log at [L], and
    the log's header lists [secs]. *)
Record log_disk (D : Z -> list Z) (L : Z) (secs : list Z) : Prop := {
  ld_sb : let sb := sb_of_bytes (D 1) in
    0 <= sb_nlog sb < 2147483648 /\ sb_size sb - sb_nlog sb = L;
  ld_n : head_n (D L) = Z.of_nat (length secs);
  ld_secs : head_secs (D L) (length secs) = secs;
}.

(** The state in which a new kernel calls [initlog]: nothing cached or held. *)
Record rebooted (s : kstate) (v : view) : Prop := {
  rb_views : views s v;
  rb_held : v_held v = ∅;
  rb_pin : v_pin v = ∅;
  rb_len : length (lg_sector (klog s)) = 10%nat;
}.

Lemma wp_initlog Q e s v L secs :
  rebooted s v -> log_disk (v_disk v) L secs -> log_geometry L (length secs) -> 1 < drv_sectors ->
  (length secs <= 10)%nat -> (forall x, x ∈ secs -> 0 <= x < L) ->
  (forall s', views s' (install_erase v L secs) -> lock_free s' L_log ->
     lg_n (klog s') = 0 -> lg_start (klog s') = L -> lg_dev (klog s') = 1 ->
     length (lg_sector (klog s')) = 10%nat -> Q tt s' e) ->
  wp initlog Q e s.
Proof.
  intros [Hv Hh Hp Hlen] [[Hnl HL] Hn Hsecs] Hgeo Hd1 Hn10 Hhome HQ.
  pose proof Hgeo as (HL0 & HLd & HL31).
  assert (forall m, v_blk v m = v_disk v m) as Hcl.
  { intros m. apply (views_clean s v Hv); [by rewrite Hh|]. rewrite Hp. apply not_elem_of_empty. }
  unfold initlog. change (BSIZE <=? 4 + 4 * LOGSIZE) with false. cbv iota.
  apply wp_bind, wp_modify. set (s0 := s <| locks ::= _ |>).
  assert (views s0 v) as Hv0 by (by apply views_initlock).
  apply wp_bind. eapply wp_readsb; [exact Hv0| |done|].
  { apply room_log; [done|]. rewrite Hp, size_empty. unfold NBUF. lia. }
  intros s1 Hv1 Hk1. rewrite Hcl. set (sb := sb_of_bytes (v_disk v 1)) in *.
  apply wp_bind. eapply wp_set_log; [exact Hv1|]. intros s2 Hv2 Hk2 El2.
  apply wp_bind. eapply wp_set_log; [exact Hv2|]. intros s3 Hv3 Hk3 El3.
  apply wp_bind. eapply wp_set_log; [exact Hv3|]. intros s4 Hv4 Hk4 El4.
  assert (s32 (u32 (sb_size sb - sb_nlog sb)) = L) as EL by mlia. rewrite EL in El2.
  assert (lg_start (klog s4) = L /\ lg_dev (klog s4) = 1 /\ length (lg_sector (klog s4)) = 10%nat) as (Hst & Hdev & Hl4).
  { rewrite El4, El3, El2, (kp_klog _ _ Hk1). split_and!; done. }
  assert (locks s4 = locks s0) as Elk.
  { rewrite (kp_locks _ _ Hk4). rsimpl. rewrite (kp_locks _ _ Hk3). rsimpl. rewrite (kp_locks _ _ Hk2). rsimpl.
    apply (kp_locks _ _ Hk1). }
  unfold recover_from_log. apply wp_bind.
  eapply (wp_read_head (length secs) _ _ _ _ L); [exact Hv4|done|done|lia|lia|done|exact Hst|done|by rewrite Hcl|done|].
  intros s5 secs' Hv5 Hk5 El5 Hl5 Htk. rewrite Hcl, Hsecs in Htk.
  eapply wp_install_erase; [exact Hv5|done| |exact Hgeo|done| | |].
  - rewrite El5. by split_and!.
  - split; rewrite Hp, size_empty; unfold NBUF; [lia|right; lia].
  - rewrite Hp. intros m Hm. by apply not_elem_of_empty in Hm.
  - intros s6 Hv6 Hk6 El6. apply HQ; try (rewrite El6, El5; done); [done|].
    exists "log"%string. rewrite (kp_locks _ _ Hk6). rsimpl. rewrite (kp_locks _ _ Hk5). rsimpl.
    rewrite Elk. subst s0. rsimpl. apply lookup_insert_eq.
Qed.

(** ** Crashes *)

(** The sectors after the writes [w]. *)
Fixpoint replay (w : list ((Z * Z) * list Z)) (D : Z -> list Z) : Z -> list Z :=
  match w with
  | [] => D
  | ((_, n), d) :: w' => replay w' (fupd n d D)
  end.
Lemma replay_app w1 w2 D : replay (w1 ++ w2) D = replay w2 (replay w1 D).
Proof. revert D. induction w1 as [|[[k n] d] w1 IH]; intros D; [done|]. apply IH. Qed.
Lemma replay_notin w D m : (forall k d, ((k, m), d) ∉ w) -> replay w D m = D m.
Proof.
  revert D. induction w as [|[[k n] d] w IH]; intros D Hm; cbn; [done|].
  rewrite IH by (intros k' d' Hi; apply (Hm k' d'); by right).
  apply fupd_ne. intros ->. apply (Hm k d). by left.
Qed.
(** A sector that the writes, if any, leave with contents [d]. *)
Lemma replay_same w D m d :
  (forall k d', ((k, m), d') ∈ w -> d' = d) -> replay w D m = d \/ replay w D m = D m.
Proof.
  revert D. induction w as [|[[k n] d'] w IH]; intros D Hm; cbn; [by right|].
  destruct (IH (fupd n d' D)) as [E|E]; [intros k2 d2 Hi; apply (Hm k2 d2); by right|by left|].
  rewrite E. destruct (decide (m = n)) as [->|Hne]; [|right; by apply fupd_ne].
  left. rewrite fupd_eq. apply (Hm k). by left.
Qed.

Lemma replay_ext w D D' m : (forall k, D k = D' k) -> replay w D m = replay w D' m.
Proof.
  revert D D'. induction w as [|[[k n] d] w IH]; intros D D' E; cbn; [done|].
  apply IH. intros j. unfold fupd. by case_decide.
Qed.
Lemma replay_installs k secs v m :
  (forall x, x ∈ secs -> x < k) ->
  replay (install_writes k secs (v_blk v)) (v_disk v) m = v_disk (installs k secs v) m.
Proof.
  revert k v. induction secs as [|x secs IH]; intros k v Hlt; cbn [install_writes installs replay]; [done|].
  rewrite <- IH by (intros y Hy; specialize (Hlt y ltac:(by right)); lia).
  unfold install1, wrote. rsimpl. erewrite install_writes_ext; [by apply replay_ext|].
  intros j Hj. symmetry. apply fupd_ne. specialize (Hlt x ltac:(by left)). lia.
Qed.
Lemma elem_of_install_writes k secs f a m d :
  ((a, m), d) ∈ install_writes k secs f -> m ∈ secs.
Proof.
  revert k. induction secs as [|x secs IH]; intros k; cbn; [by intros ?%not_elem_of_nil|].
  intros [E|Hi]%elem_of_cons; [simplify_eq; by left|]. right. by eapply IH.
Qed.

(** The writes of a commit. *)
Definition commit_writes (v : view) (L : Z) (secs : list Z) : list ((Z * Z) * list Z) :=
  let v1 := head_written v L secs in
  ((1, L), head_bytes (v_blk v L) (Z.of_nat (length secs)) secs)
  :: install_writes (L + 1) secs (v_blk v1)
  ++ [((1, L), head_bytes (v_blk (installs (L + 1) secs v1) L) 0 [])].

Lemma commit_view_w v L secs :
  (forall x, x ∈ secs -> 0 <= x < L) ->
  v_w (install_erase (head_written v L secs) L secs) = v_w v ++ commit_writes v L secs.
Proof.
  intros Hx. unfold install_erase, erased, wrote. rsimpl.
  rewrite installs_w by (apply (home_lt _ L); [done|lia]).
  unfold commit_writes, head_written, wrote at 1. rsimpl. by rewrite <- !app_assoc.
Qed.

Lemma head_of_secs d n secs L :
  length d = 512%nat -> (length secs <= 10)%nat -> (forall x, x ∈ secs -> 0 <= x < L) -> L < 2147483600 ->
  head_secs (head_bytes d n secs) (length secs) = secs.
Proof.
  intros Hd Hl Hx HL. apply list_eq. intros i. unfold head_secs. rewrite list_lookup_fmap.
  destruct (decide (i < length secs)%nat) as [Hi|Hi].
  - destruct (lookup_lt_is_Some_2 secs i Hi) as [x Hxi]. rewrite lookup_seq_lt, Hxi by done.
    transitivity (Some (s32 (le32 (head_bytes d n secs) (4 + 4 * i)))); [done|].
    f_equal. rewrite (head_bytes_sec d n secs Hd Hl i x Hxi).
    specialize (Hx x (list_elem_of_lookup_2 _ _ _ Hxi)). mlia.
  - rewrite lookup_seq_ge, lookup_ge_None_2 by lia. done.
Qed.

(** Recovery from a disk whose header is empty. *)
Lemma recover_empty L e2 sr vr :
  log_geometry L 0 -> 1 < drv_sectors -> log_disk (v_disk vr) L [] -> rebooted sr vr ->
  exists s2, initlog e2 sr = Ok tt s2 e2 /\ forall m, 0 <= m < L -> disk_read s2 (1, m) = v_disk vr m.
Proof.
  intros Hgeo Hd1 Hld Hrb.
  destruct (wp_ok_inv initlog (fun _ s2 e' => e' = e2 /\ forall m, 0 <= m < L -> disk_read s2 (1, m) = v_disk vr m) e2 sr)
    as ([] & s2 & e' & Hrun & -> & Hm); [|by exists s2].
  eapply wp_initlog; [exact Hrb|exact Hld|exact Hgeo|done|cbn; lia|by intros x ?%not_elem_of_nil|].
  intros s2 Hv2 _ _ _ _ _. split; [done|]. intros m Hm. rewrite (vw_disk _ _ Hv2).
  unfold install_erase, erased, wrote. rsimpl. by rewrite fupd_ne by lia.
Qed.

(** The state of the log's disk blocks part way through a commit. *)
Section Crash.
Context (s : kstate) (v : view) (L : Z) (secs : list Z) (Hcm : committable s v L secs).
Context (HL1 : 1 < L) (Hsb : 1 ∉ secs).

Lemma crash_ten : (length secs <= 10)%nat.
Proof. pose proof (cm_small _ _ _ _ Hcm). unfold NBUF in *. lia. Qed.
Lemma crash_clean m : m ∉ secs -> v_blk v m = v_disk v m.
Proof.
  intros Hm. apply (views_clean s v (cm_views _ _ _ _ Hcm)); [by rewrite (cm_held _ _ _ _ Hcm)|].
  by rewrite (cm_pin _ _ _ _ Hcm).
Qed.
Lemma crash_notin m : L <= m -> m ∉ secs.
Proof. intros Hm Hi%(cm_home _ _ _ _ Hcm). lia. Qed.
Lemma crash_geom : log_geometry L 0.
Proof. destruct (cm_geom _ _ _ _ Hcm) as (? & ? & ?). split_and!; cbn; lia. Qed.

(** Recovery from a disk on which the header is written and some of the
    sectors may be. *)
Lemma recover_partial e2 sr vr :
  1 < drv_sectors -> log_disk (v_disk v) L [] -> rebooted sr vr ->
  v_disk vr L = head_bytes (v_blk v L) (Z.of_nat (length secs)) secs ->
  (forall m, m <> L -> m ∉ secs -> v_disk vr m = v_disk v m) ->
  exists s2, initlog e2 sr = Ok tt s2 e2 /\ forall m, 0 <= m < L -> disk_read s2 (1, m) = v_blk v m.
Proof.
  intros Hd1 [[Hnl HL] _ _] Hrb HhL Hoth. pose proof crash_ten as Hten.
  pose proof (cm_geom _ _ _ _ Hcm) as Hgeo. pose proof Hgeo as (_ & _ & HL31).
  pose proof (views_len s v (cm_views _ _ _ _ Hcm) L) as Hlen.
  assert (log_disk (v_disk vr) L secs) as Hld.
  { split.
    - by rewrite Hoth by (done || lia).
    - rewrite HhL. unfold head_n. rewrite head_bytes_n by done. mlia.
    - rewrite HhL. apply (head_of_secs _ _ _ L); try done. apply (cm_home _ _ _ _ Hcm). }
  destruct (wp_ok_inv initlog (fun _ s2 e' => e' = e2 /\ forall m, 0 <= m < L -> disk_read s2 (1, m) = v_blk v m) e2 sr)
    as ([] & s2 & e' & Hrun & -> & Hm); [|by exists s2].
  eapply wp_initlog; [exact Hrb|exact Hld|exact Hgeo|done|done|apply (cm_home _ _ _ _ Hcm)|].
  intros s2 Hv2 _ _ _ _ _. split; [done|]. intros m Hm. rewrite (vw_disk _ _ Hv2).
  unfold install_erase, erased, wrote. rsimpl. rewrite fupd_ne by lia.
  assert (forall k, v_blk vr k = v_disk vr k) as Hcl.
  { intros k. apply (views_clean sr vr (rb_views _ _ Hrb)); rewrite ?(rb_held _ _ Hrb), ?(rb_pin _ _ Hrb); [done|].
    apply not_elem_of_empty. }
  destruct (decide (m ∈ secs)) as [Hi|Hi].
  - apply list_elem_of_lookup in Hi as [i Hi].
    destruct (installs_in (L + 1) secs vr i m (cm_nodup _ _ _ _ Hcm)) as [-> _]; [|done|].
    { apply (home_lt _ L); [apply (cm_home _ _ _ _ Hcm)|lia]. }
    rewrite Hcl, Hoth by (lia || (apply crash_notin; lia)).
    rewrite <- crash_clean by (apply crash_notin; lia). by apply (cm_logged _ _ _ _ Hcm).
  - destruct (installs_out (L + 1) secs vr m Hi) as [-> _].
    rewrite Hoth by (done || lia). by rewrite crash_clean.
Qed.

(** The disk when the commit is over, and when it is cut short. *)
Lemma final_disk m :
  0 <= m < L -> v_disk (install_erase (head_written v L secs) L secs) m = v_blk v m.
Proof.
  intros Hm. unfold install_erase, erased, wrote. rsimpl. rewrite fupd_ne by lia.
  destruct (decide (m ∈ secs)) as [Hi|Hi].
  - apply list_elem_of_lookup in Hi as [i Hi].
    destruct (installs_in (L + 1) secs (head_written v L secs) i m (cm_nodup _ _ _ _ Hcm)) as [-> _]; [|done|].
    { apply (home_lt _ L); [apply (cm_home _ _ _ _ Hcm)|lia]. }
    unfold head_written, wrote. rsimpl. rewrite fupd_ne by lia. by apply (cm_logged _ _ _ _ Hcm).
  - destruct (installs_out (L + 1) secs (head_written v L secs) m Hi) as [-> _].
    unfold head_written, wrote. rsimpl. rewrite fupd_ne by lia. by rewrite crash_clean.
Qed.

Lemma final_log :
  log_disk (v_disk v) L [] -> log_disk (v_disk (install_erase (head_written v L secs) L secs)) L [].
Proof.
  intros [Hsb0 _ _]. pose proof (views_len s v (cm_views _ _ _ _ Hcm) L) as Hlen.
  set (v1 := head_written v L secs). unfold install_erase, erased, wrote. split; rsimpl.
  - rewrite fupd_ne by lia. destruct (installs_out (L + 1) secs v1 1 Hsb) as [-> _].
    unfold v1, head_written, wrote. rsimpl. by rewrite fupd_ne by lia.
  - rewrite fupd_eq. unfold head_n. rewrite head_bytes_n; [done| |cbn; lia].
    destruct (installs_out (L + 1) secs v1 L (crash_notin L ltac:(lia))) as [_ ->].
    unfold v1, head_written, wrote. rsimpl. rewrite fupd_eq. apply length_head_bytes; [done|apply crash_ten].
  - done.
Qed.

Lemma crash_cases w1 w2 e2 sr vr :
  1 < drv_sectors -> log_disk (v_disk v) L [] ->
  commit_writes v L secs = w1 ++ w2 -> rebooted sr vr ->
  (forall m, v_disk vr m = replay w1 (v_disk v) m) ->
  exists s2, initlog e2 sr = Ok tt s2 e2 /\
    forall m, 0 <= m < L -> disk_read s2 (1, m) = match w1 with [] => v_disk v m | _ => v_blk v m end.
Proof.
  intros Hd1 Hld Ew Hrb Hdisk. destruct w1 as [|x w1].
  { destruct (recover_empty L e2 sr vr crash_geom Hd1) as (s2 & Hrun & Hm); [|done|].
    - destruct Hld as [Hsb0 Hn0 Hs0]. by split; rewrite !Hdisk.
    - exists s2. split; [done|]. intros m Hlt. by rewrite Hm, Hdisk. }
  unfold commit_writes in Ew. cbn [app] in Ew. injection Ew as <- Ew.
  set (v1 := head_written v L secs) in *. set (iw := install_writes (L + 1) secs (v_blk v1)) in *.
  set (h0 := head_bytes _ 0 []) in Ew.
  assert (forall m, (forall a d, ((a, m), d) ∉ iw) -> replay iw (v_disk v1) m = v_disk v1 m) as Hiw
    by (intros; by apply replay_notin).
  destruct w2 as [|y w2 _] using rev_ind.
  - (* all the writes were done *)
    rewrite app_nil_r in Ew. subst w1.
    assert (forall m, v_disk vr m = fupd L h0 (v_disk (installs (L + 1) secs v1)) m) as Hd.
    { intros m. rewrite Hdisk. cbn [replay]. rewrite replay_app. cbn [replay].
      destruct (decide (m = L)) as [->|HmL]; [by rewrite !fupd_eq|]. rewrite !(fupd_ne L m h0) by done.
      rewrite <- replay_installs by (apply (home_lt _ L); [apply (cm_home _ _ _ _ Hcm)|lia]).
      by apply replay_ext. }
    destruct (recover_empty L e2 sr vr crash_geom Hd1) as (s2 & Hrun & Hm); [|done|].
    + destruct (final_log Hld) as [Hsb0 Hn0 _].
      assert (forall m, v_disk vr m = v_disk (install_erase (head_written v L secs) L secs) m) as Hd' by done.
      by split; rewrite !Hd'.
    + exists s2. split; [done|]. intros m Hlt. rewrite Hm, Hd by done. rewrite <- (final_disk m Hlt).
      unfold install_erase, erased, wrote. rsimpl. by rewrite !fupd_ne by lia.
  - (* the header was written, the erasing write was not *)
    rewrite app_assoc in Ew. apply app_inj_tail in Ew as [Ew _].
    assert (forall m, m ∉ secs -> forall a d, ((a, m), d) ∉ w1) as Hnot.
    { intros m Hm a d Hi. apply Hm. apply (elem_of_install_writes (L + 1) secs (v_blk v1) a m d).
      assert (((a, m), d) ∈ w1 ++ w2) as Hi2 by (by apply elem_of_app; left). by rewrite <- Ew in Hi2. }
    apply (recover_partial e2 sr vr Hd1 Hld Hrb).
    + rewrite Hdisk. cbn [replay]. rewrite replay_notin by (apply Hnot, crash_notin; lia). apply fupd_eq.
    + intros m HmL Hm. rewrite Hdisk. cbn [replay]. rewrite replay_notin by (by apply Hnot). by apply fupd_ne.
Qed.
End Crash.

(** A commit is atomic and durable. [commit_trans] puts the transaction on
    the disk; and if the machine crashes after any number of its disk writes
    ([w1] of them done), the next kernel's [initlog] leaves all of the file system
    either as it was before the transaction (when not even the header was written)
    or as the transaction made it (from the header on). *)
Lemma commit_crash e s v L secs :
  committable s v L secs -> secs <> [] -> 1 < drv_sectors -> 1 < L -> 1 ∉ secs ->
  log_disk (v_disk v) L [] ->
  exists s' w, commit_trans e s = Ok tt s' e /\ dwrites s' = dwrites s ++ w /\ (0 < length w)%nat /\
    views s' (install_erase (head_written v L secs) L secs) /\ kept_but_log s s' /\
    klog s' = (klog s) <| lg_n := 0 |> <| lg_busy := 0 |> /\
    forall w1 w2 e2 sr vr,
      w = w1 ++ w2 -> rebooted sr vr -> (forall m, v_disk vr m = replay w1 (v_disk v) m) ->
      exists s2, initlog e2 sr = Ok tt s2 e2 /\
        forall m, 0 <= m < L -> disk_read s2 (1, m) = match w1 with [] => v_disk v m | _ => v_blk v m end.
Proof.
  intros Hcm Hne Hd1 HL1 Hsb Hld. pose proof (cm_home _ _ _ _ Hcm) as Hhome.
  set (vf := install_erase (head_written v L secs) L secs).
  destruct (wp_ok_inv commit_trans (fun _ s' e' => e' = e /\ views s' vf /\ kept_but_log s s' /\
    klog s' = (klog s) <| lg_n := 0 |> <| lg_busy := 0 |>) e s) as ([] & s' & e' & Hrun & -> & Hv' & Hk & El).
  { eapply wp_commit_trans; [done|done|]. by intros. }
  exists s', (commit_writes v L secs). split_and!; try done; [|cbn; lia|].
  - rewrite (vw_w _ _ Hv'). unfold vf. rewrite commit_view_w by done. by rewrite (vw_w _ _ (cm_views _ _ _ _ Hcm)).
  - intros w1 w2 e2 sr vr Ew Hrb Hdisk. by eapply crash_cases.
Qed.
End LogSpec.
