(* ===== verification/Transaction.v ===== *)
(** * Transaction: the log while a transaction runs

    The rules of [log_write] and [begin_trans]: what the log records between
    begin_trans and commit_trans. *)
From S2P Require Import Prelude Memory State Spinlock Sched Bio Buffers Log Blocks Recovery.

Section Transaction.
Context `{DiskDriverOk}.

(** ** [log_write] *)

Lemma absorb_spec (secs l : list Z) (i0 n : Z) :
  take (length secs) l = secs -> (forall x, x ∈ secs -> 0 <= x < 2147483648) ->
  (exists k : nat, absorb (length secs) i0 l n = i0 + Z.of_nat k /\ secs !! k = Some n) \/
  (absorb (length secs) i0 l n = i0 + Z.of_nat (length secs) /\ n ∉ secs).
Proof.
  revert l i0. induction secs as [|x secs IH]; intros l i0 Htk Hx; cbn [length absorb].
  { right. split; [by destruct l; cbn; lia|apply not_elem_of_nil]. }
  destruct l as [|y l]; [done|]. cbn in Htk. injection Htk as -> Htk.
  specialize (Hx x ltac:(by left)) as Hx0. replace (u32 x) with x by mlia.
  destruct (Z.eqb_spec x n) as [->|Hne].
  { left. exists 0%nat. split; [lia|done]. }
  destruct (IH l (i0 + 1) Htk) as [(k & E & Hk)|[E Hni]]; [intros z Hz; apply Hx; by right| |].
  - left. exists (S k). rewrite E. split; [lia|done].
  - right. rewrite E. split; [lia|]. by apply not_elem_of_cons.
Qed.

(** The state inside a transaction that has logged the sectors [secs]: the log
    has the contents of each of them that nobody holds. *)
Record logging (s : kstate) (v : view) (L : Z) (secs : list Z) : Prop := {
  lo_views : views s v;
  lo_rec : log_record (klog s) L secs;
  lo_busy : lg_busy (klog s) = 1;
  lo_geom : log_geometry L 10;
  lo_home x : x ∈ secs -> 0 <= x < L;
  lo_nodup : NoDup secs;
  lo_pin m : m ∈ v_pin v <-> m ∈ secs;
  lo_logged i x : secs !! i = Some x -> v_held v !! x = None -> v_blk v (L + 1 + Z.of_nat i) = v_blk v x;
  lo_free k : L <= k -> v_held v !! k = None;
}.

(** The sectors after logging [n], and the place of [n] among them. *)
Definition log_add (n : Z) (secs : list Z) : list Z := if decide (n ∈ secs) then secs else secs ++ [n].

Lemma log_record_add lg L secs (k : nat) n :
  log_record lg L secs -> (length secs < 10)%nat ->
  (secs !! k = Some n \/ (k = length secs /\ n ∉ secs)) -> 0 <= n < 2147483648 ->
  let secs' := log_add n secs in
  let lg1 := lg <| lg_sector ::= <[k := s32 n]> |> in
  let lg2 := if Z.of_nat k =? lg_n lg then lg1 <| lg_n := lg_n lg + 1 |> else lg1 in
  log_record lg2 L secs' /\ secs' !! k = Some n.
Proof.
  intros (Hdev & Hst & Hn & Hlen & Htk) H10 Hk Hn31 secs' lg1 lg2.
  assert (s32 n = n) as En by mlia. destruct Hk as [Hk|[-> Hni]].
  - assert (n ∈ secs) as Hin by (by eapply list_elem_of_lookup_2).
    pose proof (lookup_lt_Some _ _ _ Hk) as Hlt.
    assert (secs' = secs) as E' by (unfold secs', log_add; by rewrite decide_True). rewrite E'.
    subst lg2 lg1. rewrite Hn, (proj2 (Z.eqb_neq _ _)) by lia. split; [|done]. unfold log_record. rsimpl.
    split_and!; [done|done|done|by rewrite length_insert|].
    rewrite En, list_insert_id; [done|]. rewrite <- Htk in Hk. by rewrite lookup_take_lt in Hk.
  - assert (secs' = secs ++ [n]) as E' by (unfold secs', log_add; by rewrite decide_False). rewrite E'.
    subst lg2 lg1. rewrite Hn, (proj2 (Z.eqb_eq _ _)) by lia. unfold log_record. rsimpl. split.
    + rewrite length_app. cbn. split_and!; [done|done|lia|by rewrite length_insert|].
      replace (length secs + 1)%nat with (S (length secs)) by lia.
      erewrite take_S_r by (apply list_lookup_insert_eq; lia).
      rewrite take_insert_ge by lia. by rewrite Htk, En.
    + by apply list_lookup_middle.
Qed.

(** What log_write makes of the header in memory, and of the view: the block of
    sector [n] is copied to log block [k], and its buffer pinned. *)
Definition log_added (k : nat) (n : Z) (lg : logst) : logst :=
  let lg1 := lg <| lg_sector ::= <[k := s32 n]> |> in
  if Z.of_nat k =? lg_n lg then lg1 <| lg_n := lg_n lg + 1 |> else lg1.
Definition logged (L : Z) (k : nat) (n : Z) (v : view) : view :=
  wrote (L + 1 + Z.of_nat k) (v_blk v n) v <| v_pin ::= fun p => {[n]} ∪ p |>.

Lemma logging_add s v L secs s' k n j :
  logging s v L secs -> v_held v !! n = Some j -> 0 <= n < L -> (length secs < 10)%nat ->
  (secs !! k = Some n \/ (k = length secs /\ n ∉ secs)) ->
  views s' (logged L k n v) -> klog s' = log_added k n (klog s) ->
  logging s' (logged L k n v) L (log_add n secs) /\ log_add n secs !! k = Some n.
Proof.
  intros [Hv Hrec Hbusy Hgeo Hhome Hnd Hpin Hlogd Hfree] Hh Hn H10 Hk Hv' El.
  pose proof Hgeo as (HL0 & HLd & HL31).
  destruct (log_record_add (klog s) L secs k n Hrec H10 Hk ltac:(lia)) as [Hrec' Hk'].
  split; [|done]. split; try (rewrite El); try done.
  - unfold log_added. by case_match.
  - unfold log_add. case_decide; [done|]. intros x [Hx|Hx%list_elem_of_singleton]%elem_of_app; [by apply Hhome|lia].
  - unfold log_add. case_decide as Ed; [done|]. apply NoDup_app. split_and!; [done| |apply NoDup_singleton].
    by intros x Hx ->%list_elem_of_singleton.
  - intros m. unfold logged, wrote. rsimpl. rewrite elem_of_union, elem_of_singleton, Hpin. unfold log_add.
    case_decide as Ed; [|rewrite elem_of_app, list_elem_of_singleton; tauto].
    split; [intros [->|]; done|by right].
  - intros i x Hi Hhx. change (v_held v !! x = None) in Hhx. unfold logged, wrote. rsimpl.
    assert (x <> n) as Hxn by congruence. assert (i <> k) as Hik by congruence.
    assert (secs !! i = Some x) as Hi0.
    { unfold log_add in Hi. case_decide; [done|]. apply lookup_app_Some in Hi as [|[_ Hi]]; [done|].
      apply list_lookup_singleton_Some in Hi as [_ Hi]. congruence. }
    pose proof (Hhome x (list_elem_of_lookup_2 _ _ _ Hi0)).
    rewrite !fupd_ne by lia. by apply Hlogd.
Qed.

Lemma wp_log_write n j Q e s v L secs :
  logging s v L secs -> v_held v !! n = Some j -> 0 <= n < L ->
  (length secs < 10)%nat -> Z.of_nat (length secs) < lg_size (klog s) - 1 ->
  (size (dom (v_held v) ∪ v_pin v) < NBUF)%nat ->
  (forall s' (k : nat), logging s' (logged L k n v) L (log_add n secs) -> log_add n secs !! k = Some n ->
     kept_but_log s s' -> lg_size (klog s') = lg_size (klog s) -> Q tt s' e) ->
  wp (log_write j) Q e s.
Proof.
  intros Hlo Hh Hn H10 Hsz Hroom HQ. pose proof Hlo as [Hv Hrec Hbusy Hgeo Hhome _ Hpin _ Hfree].
  pose proof Hrec as (Hdev & Hst & Hln & Hlen & Htk). destruct Hgeo as (HL0 & HLd & HL31).
  unfold log_write. apply wp_bind, wp_gets. rewrite Hln, Hbusy, Hst.
  change LOGSIZE with 10. rewrite (proj2 (Z.leb_gt _ _)) by lia. rewrite (proj2 (Z.leb_gt _ _)) by lia.
  cbn [orb truth negb Z.eqb]. apply wp_bind. eapply wp_getb_held; [exact Hv|exact Hh|].
  intros b Hbd Hbs Hbdat. rewrite Hbs, Hbd, Nat2Z.id.
  assert (exists k : nat, absorb (length secs) 0 (lg_sector (klog s)) n = Z.of_nat k /\ (k < 10)%nat /\
    (secs !! k = Some n \/ (k = length secs /\ n ∉ secs))) as (k & Ek & Hk10 & Hk).
  { destruct (absorb_spec secs (lg_sector (klog s)) 0 n Htk) as [(k & E & Hk)|[E Hni]].
    - intros x Hx%Hhome. lia.
    - exists k. pose proof (lookup_lt_Some _ _ _ Hk). split_and!; [lia|lia|by left].
    - exists (length secs). split_and!; [lia|lia|by right]. }
  rewrite Ek. set (lb := L + 1 + Z.of_nat k).
  apply wp_bind. eapply wp_set_sector; [exact Hv|lia|]. intros s1 Hv1 Hk1 El1.
  replace (u32 (L + Z.of_nat k + 1)) with lb by (unfold lb; mlia).
  assert (room v lb) as Hrm by (split; [apply Hfree; lia|by right]).
  apply wp_bind. eapply wp_bread; [exact Hv1|lia|done|]. intros lj s2 Hv2 Hk2.
  assert (forall v', v_held v' = <[lb := lj]> (v_held v) -> v_held v' !! lb = Some lj /\ v_held v' !! n = Some j) as Hheld.
  { intros v' ->. rewrite lookup_insert_eq, lookup_insert_ne by lia. done. }
  apply wp_bind. eapply wp_get_data; [exact Hv2|by apply Hheld|]. rsimpl.
  apply wp_bind. eapply wp_set_data; [exact Hv2|by apply Hheld|apply (views_len s v Hv n)|]. intros s3 Hv3 Hk3.
  apply wp_bind. eapply wp_bwrite; [exact Hv3|by apply Hheld|lia|]. intros s4 Hv4 Hk4.
  apply wp_bind. eapply wp_brelse; [exact Hv4|by apply Hheld|right; rsimpl; by rewrite !fupd_eq|].
  intros s5 Hv5 Hk5.
  assert (klog s5 = (klog s) <| lg_sector ::= <[k := s32 n]> |>) as El5.
  { by rewrite (kp_klog _ _ Hk5), (kp_klog _ _ Hk4), (kp_klog _ _ Hk3), (kp_klog _ _ Hk2), El1. }
  assert (kept_but_log s s5) as Hk15 by eauto 9 using kept_but_log_trans, kept_log.
  apply wp_bind, wp_gets. rewrite El5. rsimpl. apply wp_bind.
  set (v5 := wrote lb (v_blk v n) v).
  assert (views s5 v5) as Hv5'.
  { eapply views_proper; [|exact Hv5]. unfold v5, wrote, equiv, view_equiv. rsimpl. rewrite !fupd_eq.
    split_and!; try done.
    - by rewrite delete_insert_id by (apply Hfree; lia).
    - intros m. rewrite elem_of_difference, elem_of_singleton. split; [|tauto]. intros Hm. split; [done|].
      intros ->. apply Hpin, Hhome in Hm. lia. }
  assert (forall s6, views s6 v5 -> kept_but_log s s6 -> klog s6 = log_added k n (klog s) ->
    wp (setb j (set_flag B_DIRTY)) Q e s6) as Hlast.
  { intros s6 Hv6 Hk6 El6. eapply wp_pin; [exact Hv6|exact Hh|]. intros s7 Hv7 Hk7.
    assert (klog s7 = log_added k n (klog s)) as El7 by (by rewrite (kp_klog _ _ Hk7)).
    destruct (logging_add s v L secs s7 k n j) as [Hlo7 Hkn]; try done.
    apply (HQ s7 k); [done|done|eauto using kept_but_log_trans, kept_log|].
    rewrite El7. unfold log_added. by case_match. }
  destruct (Z.of_nat k =? lg_n (klog s)) eqn:E; cbn [when].
  - eapply wp_set_log; [exact Hv5'|]. intros s6 Hv6 Hk6 El6. apply Hlast; [done|by eapply kept_but_log_trans|].
    rewrite El6, El5. unfold log_added. by rewrite E.
  - apply wp_ret, Hlast; [done|done|]. rewrite El5. unfold log_added. by rewrite E.
Qed.

(** Between transactions. *)
Record idle (s : kstate) (v : view) (L : Z) : Prop := {
  id_views : views s v;
  id_held : v_held v = ∅;
  id_pin : v_pin v = ∅;
  id_rec : log_record (klog s) L [];
  id_busy : lg_busy (klog s) = 0;
  id_geom : log_geometry L 10;
  id_disk : log_disk (v_disk v) L [];
  id_lock : lock_free s L_log;
}.

Lemma wp_begin_trans Q e s v L :
  idle s v L ->
  (forall s', logging s' v L [] -> lock_free s' L_log -> lg_size (klog s') = lg_size (klog s) ->
     kept_but_log s s' -> Q tt s' e) ->
  wp begin_trans Q e s.
Proof.
  intros [Hv Hh Hp Hrec Hbusy Hgeo Hd [name Hlk]] HQ. pose proof (vw_cpu _ _ Hv) as Hok. unfold begin_trans.
  apply wp_bind, (wp_ok _ _ _ _ _ _ _ (acquire_run _ _ e s Hlk)). apply wp_bind.
  eapply (wp_ok _ _ _ _ tt (locked_state L_log name s) e).
  { unfold mwhile_sleep. cbn [mwhile]. mrun. unfold locked_state. rsimpl. by rewrite Hbusy. }
  apply wp_bind, wp_modify.
  eapply wp_ok; [eapply (release_locked _ name e s); done|].
  assert (cpu_ok (refreshed (kcpu s))) as Hr by (by apply cpu_ok_refreshed).
  apply HQ; [|by exists name|done|by split]. split; try done.
  - apply (views_other s); done.
  - intros x Hx. by apply not_elem_of_nil in Hx.
  - by apply NoDup_nil_2.
  - intros m. rewrite Hp. split; intros Hm; [by apply not_elem_of_empty in Hm|by apply not_elem_of_nil in Hm].
  - intros k _. by rewrite Hh.
Qed.
End Transaction.
