(* ===== verification/Atomic.v ===== *)
(** * Atomic: the file system's view of the log

    The interface log.c and bio.c give to fs.c: [fs] is the state inside a
    transaction, with the blocks as the kernel sees them, the buffers held and
    the ones changed since they were logged. Each operation is a rule on [fs], and
    whatever is done with the rules between begin_trans and commit_trans is
    atomic with respect to crashes. *)
From S2P Require Import Prelude Memory State Spinlock Sched Bio Buffers Log Blocks Recovery Transaction.

Lemma elem_of_log_add n secs x : x ∈ log_add n secs <-> x = n \/ x ∈ secs.
Proof.
  unfold log_add. case_decide; [|rewrite elem_of_app, list_elem_of_singleton; tauto].
  split; [by right|by intros [->|]].
Qed.
Lemma log_add_other n secs i x : log_add n secs !! i = Some x -> x <> n -> secs !! i = Some x.
Proof.
  unfold log_add. case_decide; [done|]. intros [|[_ Hi]]%lookup_app_Some Hne; [done|].
  apply list_lookup_singleton_Some in Hi as [_ Hi]. congruence.
Qed.

Section Fs.
Context {dd : DiskDriver} {ddok : DiskDriverOk}.
(** The start of the log and its size; the disk and the history of writes when
    the transaction began. *)
Context (L lsz : Z) (D0 : Z -> list Z) (W : list ((Z * Z) * list Z)).

Record fsv (s : kstate) (B : Z -> list Z) (secs : list Z) (H : gmap Z nat) (U : gset Z)
    (v : view) (w : list ((Z * Z) * list Z)) : Prop := {
  fv_log : logging s v L secs;
  fv_held : v_held v = H;
  fv_blk m : m < L -> v_blk v m = B m;
  fv_copy i x : secs !! i = Some x -> x ∉ U -> v_blk v (L + 1 + Z.of_nat i) = v_blk v x;
  fv_clean n : n ∉ secs -> n ∉ U -> v_blk v n = v_disk v n;
  fv_unlogged n : n ∈ U -> n ∈ dom H;
  fv_w : v_w v = W ++ w;
  fv_above a m d : ((a, m), d) ∈ w -> L < m;
  fv_disk : v_disk v = replay w D0;
  fv_size : lg_size (klog s) = lsz;
  fv_lock : lock_free s L_log;
}.

(** Inside a transaction that logged the sectors [secs]: the blocks are [B], the
    buffers of the sectors of [H] are held, and those of [U] were changed since
    they were logged. *)
Definition fs (s : kstate) (B : Z -> list Z) (secs : list Z) (H : gmap Z nat) (U : gset Z) : Prop :=
  exists v w, fsv s B secs H U v w.

(** Room for one more buffer, and for one more sector in the log. *)
Definition cap (secs : list Z) (H : gmap Z nat) : Prop :=
  (size (dom H ∪ list_to_set secs) < NBUF)%nat /\ Z.of_nat (length secs) < lsz - 1.

Lemma fs_len s B secs H U n : fs s B secs H U -> n < L -> length (B n) = 512%nat.
Proof.
  intros (v & w & Hf) Hn. rewrite <- (fv_blk _ _ _ _ _ _ _ Hf n Hn).
  apply (views_len s v (lo_views _ _ _ _ (fv_log _ _ _ _ _ _ _ Hf))).
Qed.
Lemma fs_nodup s B secs H U : fs s B secs H U -> NoDup secs.
Proof. intros (v & w & Hf). apply (lo_nodup _ _ _ _ (fv_log _ _ _ _ _ _ _ Hf)). Qed.
Lemma fs_home s B secs H U x : fs s B secs H U -> x ∈ secs -> 0 <= x < L.
Proof. intros (v & w & Hf). apply (lo_home _ _ _ _ (fv_log _ _ _ _ _ _ _ Hf)). Qed.
Lemma fs_ext s B B' secs H U : fs s B secs H U -> (forall m, m < L -> B m = B' m) -> fs s B' secs H U.
Proof.
  intros (v & w & [F1 F2 F3 F4 F5 F6 F7 F8 F9 F10 F11]) E. exists v, w. split; try done.
  intros m Hm. by rewrite <- E, F3.
Qed.

(** What does not touch the disk, the cache or the log is no concern of [fs]. *)
Lemma fs_other s s' B secs H U :
  fs s B secs H U -> cpu_ok (kcpu s') -> locks s' = locks s -> bcache s' = bcache s -> disk s' = disk s ->
  dwrites s' = dwrites s -> klog s' = klog s -> fs s' B secs H U.
Proof.
  intros (v & w & [[G1 G2 G3 G4 G5 G6 G7 G8 G9] F2 F3 F4 F5 F6 F7 F8 F9 F10 F11]) E1 E2 E3 E4 E5 E6.
  exists v, w. split; rewrite ?E6; try done; [|by apply (lock_free_locks s)].
  split; rewrite ?E6; try done. by apply (views_other s).
Qed.
Lemma fs_cpu s B secs H U : fs s B secs H U -> cpu_ok (kcpu s).
Proof. intros (v & w & Hf). apply (vw_cpu _ _ (lo_views _ _ _ _ (fv_log _ _ _ _ _ _ _ Hf))). Qed.
Lemma fs_ptable s B secs H U : fs s B secs H U -> lock_free s L_ptable.
Proof. intros (v & w & Hf). apply (vw_ptable _ _ (lo_views _ _ _ _ (fv_log _ _ _ _ _ _ _ Hf))). Qed.

Lemma cap_pin s B secs H U v w :
  fsv s B secs H U v w -> cap secs H -> (size (dom (v_held v) ∪ v_pin v) < NBUF)%nat.
Proof.
  intros Hf [Hc _]. eapply Nat.le_lt_trans; [|exact Hc]. rewrite (fv_held _ _ _ _ _ _ _ Hf).
  apply subseteq_size. intros x. rewrite !elem_of_union, elem_of_list_to_set.
  by rewrite (lo_pin _ _ _ _ (fv_log _ _ _ _ _ _ _ Hf)).
Qed.
Lemma cap_ten secs H : NoDup secs -> cap secs H -> (length secs < 10)%nat.
Proof.
  intros Hnd [Hc _]. eapply Nat.le_lt_trans; [|exact Hc]. rewrite <- (size_list_to_set (C := gset Z)) by done.
  apply subseteq_size, union_subseteq_r.
Qed.

(** ** Rules *)

Lemma fs_bread n Q e s B secs H U :
  fs s B secs H U -> 0 <= n < L -> n ∉ dom H -> cap secs H ->
  (forall j s', fs s' B secs (<[n := j]> H) U -> kept s s' -> Q j s' e) ->
  wp (bread 1 n) Q e s.
Proof.
  intros (v & w & Hf) Hn Hni Hc HQ. pose proof Hf as [Hlo F2 F3 F4 F5 F6 F7 F8 F9 F10 F11].
  pose proof Hlo as [Hv Hrec Hbusy Hgeo Hhome Hnd Hpin Hlogd Hfree]. pose proof Hgeo as (? & ? & ?).
  assert (v_held v !! n = None) as Hh by (rewrite F2; by apply not_elem_of_dom).
  eapply wp_bread; [exact Hv|lia|split; [done|right; by eapply cap_pin]|]. intros j s' Hv' Hk.
  apply HQ; [|done]. exists (v <| v_held ::= <[n := j]> |>), w.
  split; rsimpl; rewrite ?(kp_klog _ _ Hk); try done.
  - split; rsimpl; rewrite ?(kp_klog _ _ Hk); try done.
    + intros i x Hi Hx. apply Hlogd; [done|]. destruct (decide (x = n)) as [->|]; [done|].
      by rewrite lookup_insert_ne in Hx.
    + intros k Hk'. rewrite lookup_insert_ne by lia. by apply Hfree.
  - by rewrite F2.
  - intros x Hx%F6. rewrite dom_insert. by apply elem_of_union_r.
  - apply (lock_free_locks s); [apply (kp_locks _ _ Hk)|done].
Qed.

Lemma fs_get_data n j Q e s B secs H U :
  fs s B secs H U -> H !! n = Some j -> n < L -> Q (B n) s e -> wp (get_data j) Q e s.
Proof.
  intros (v & w & Hf) Hh Hn HQ. eapply wp_get_data; [apply (fv_log _ _ _ _ _ _ _ Hf)|by rewrite (fv_held _ _ _ _ _ _ _ Hf)|].
  by rewrite (fv_blk _ _ _ _ _ _ _ Hf n Hn).
Qed.

Lemma fs_set_data n j d Q e s B secs H U :
  fs s B secs H U -> H !! n = Some j -> n < L -> length d = 512%nat ->
  (forall s', fs s' (fupd n d B) secs H ({[n]} ∪ U) -> kept s s' -> Q tt s' e) ->
  wp (set_data j d) Q e s.
Proof.
  intros (v & w & Hf) Hh Hn Hd HQ. pose proof Hf as [Hlo F2 F3 F4 F5 F6 F7 F8 F9 F10 F11].
  pose proof Hlo as [Hv Hrec Hbusy Hgeo Hhome Hnd Hpin Hlogd Hfree].
  eapply wp_set_data; [exact Hv|by rewrite F2|done|]. intros s' Hv' Hk. apply HQ; [|done].
  exists (v <| v_blk ::= fupd n d |>), w.
  assert (forall x, x ∉ {[n]} ∪ U -> x <> n /\ x ∉ U) as Hx.
  { intros x. rewrite not_elem_of_union, not_elem_of_singleton. tauto. }
  split; rsimpl; rewrite ?(kp_klog _ _ Hk); try done.
  - split; rsimpl; rewrite ?(kp_klog _ _ Hk); try done.
    intros i x Hi Hu. assert (x <> n) by (intros ->; rewrite F2 in Hu; congruence).
    rewrite !fupd_ne by (done || lia). by apply Hlogd.
  - intros m Hm. unfold fupd. case_decide; [done|by apply F3].
  - intros i x Hi [Hne Hu]%Hx. rewrite !fupd_ne by (done || lia). by apply F4.
  - intros x Hs [Hne Hu]%Hx. rewrite fupd_ne by done. by apply F5.
  - intros x [->%elem_of_singleton|Hu]%elem_of_union; [by apply elem_of_dom|by apply F6].
  - apply (lock_free_locks s); [apply (kp_locks _ _ Hk)|done].
Qed.

Lemma fs_log_write n j Q e s B secs H U :
  fs s B secs H U -> H !! n = Some j -> 0 <= n < L -> cap secs H ->
  (forall s', fs s' B (log_add n secs) H (U ∖ {[n]}) -> kept_but_log s s' -> Q tt s' e) ->
  wp (log_write j) Q e s.
Proof.
  intros (v & w & Hf) Hh Hn Hc HQ. pose proof Hf as [Hlo F2 F3 F4 F5 F6 F7 F8 F9 F10 F11].
  pose proof Hlo as [Hv Hrec Hbusy Hgeo Hhome Hnd Hpin Hlogd Hfree].
  eapply wp_log_write; [exact Hlo|by rewrite F2|done|by eapply cap_ten|by rewrite F10; apply Hc|by eapply cap_pin|].
  intros s' k Hlo' Hkn Hk El. apply HQ; [|done].
  set (lb := L + 1 + Z.of_nat k). exists (logged L k n v), (w ++ [((1, lb), v_blk v n)]).
  assert (forall x, x ∉ U ∖ {[n]} -> x = n \/ x ∉ U) as Hx.
  { intros x. rewrite elem_of_difference, elem_of_singleton. destruct (decide (x = n)); tauto. }
  split; try done.
  - intros m Hm. unfold logged, wrote. rsimpl. rewrite fupd_ne by lia. by apply F3.
  - intros i x Hi Hu. unfold logged, wrote. rsimpl. assert (0 <= x < L) as Hxl by (eapply (lo_home _ _ _ _ Hlo'), list_elem_of_lookup_2, Hi).
    destruct (decide (x = n)) as [->|Hne].
    + rewrite (NoDup_lookup _ i k n (lo_nodup _ _ _ _ Hlo') Hi Hkn). by rewrite fupd_eq, fupd_ne by lia.
    + assert (i <> k) by congruence. rewrite !fupd_ne by lia. apply F4; [by eapply log_add_other|].
      by destruct (Hx x Hu).
  - intros x Hs Hu. rewrite elem_of_log_add in Hs. unfold logged, wrote. rsimpl.
    destruct (decide (x = lb)) as [->|Hne]; [by rewrite !fupd_eq|]. rewrite !fupd_ne by done.
    destruct (Hx x Hu) as [->|]; [by destruct Hs; left|]. apply F5; tauto.
  - intros x [Hu _]%elem_of_difference. by apply F6.
  - unfold logged, wrote. rsimpl. by rewrite F7, app_assoc.
  - intros a m d [Hi|Hi%list_elem_of_singleton]%elem_of_app; [by eapply F8|]. injection Hi as _ -> _. lia.
  - unfold logged, wrote. rsimpl. rewrite replay_app, <- F9. done.
  - by rewrite El.
  - apply (lock_free_locks s); [apply (kp_locks _ _ Hk)|done].
Qed.

Lemma fs_brelse n j Q e s B secs H U :
  fs s B secs H U -> H !! n = Some j -> n ∉ U ->
  (forall s', fs s' B secs (delete n H) U -> kept s s' -> Q tt s' e) ->
  wp (brelse j) Q e s.
Proof.
  intros (v & w & Hf) Hh Hu HQ. pose proof Hf as [Hlo F2 F3 F4 F5 F6 F7 F8 F9 F10 F11].
  pose proof Hlo as [Hv Hrec Hbusy Hgeo Hhome Hnd Hpin Hlogd Hfree].
  eapply wp_brelse; [exact Hv|by rewrite F2| |].
  { rewrite Hpin. destruct (decide (n ∈ secs)); [by left|right; by apply F5]. }
  intros s' Hv' Hk. apply HQ; [|done]. exists (v <| v_held ::= delete n |>), w.
  assert (forall x, x ∈ U -> x <> n) as Hx by (intros x Hxu ->; done).
  split; rsimpl; rewrite ?(kp_klog _ _ Hk); try done.
  - split; rsimpl; rewrite ?(kp_klog _ _ Hk); try done.
    + intros i x Hi Hd. apply F4; [done|]. intros Hxu. specialize (Hx x Hxu) as Hne. apply F6, elem_of_dom in Hxu as [j' Hj'].
      rewrite lookup_delete_ne in Hd by done. rewrite F2 in Hd. congruence.
    + intros m Hm. apply lookup_delete_None. right. by apply Hfree.
  - by rewrite F2.
  - intros x Hxu. rewrite dom_delete. apply elem_of_difference. split; [by apply F6|]. rewrite elem_of_singleton. by apply Hx.
  - apply (lock_free_locks s); [apply (kp_locks _ _ Hk)|done].
Qed.

(** Reading a block and letting it go. *)
Lemma delete_held (H : gmap Z nat) n j : n ∉ dom H -> delete n (<[n := j]> H) = H.
Proof. intros Hn. apply delete_insert_id. by apply not_elem_of_dom. Qed.

Lemma fs_readsb Q e s B secs H U :
  fs s B secs H U -> 1 < L -> 1 ∉ dom H -> cap secs H ->
  (forall s', fs s' B secs H U -> kept s s' -> Q (sb_of_bytes (B 1)) s' e) ->
  wp (readsb 1) Q e s.
Proof.
  intros Hf HL Hni Hc HQ. unfold readsb. assert (1 ∉ U) as Hu.
  { destruct Hf as (v & w & Hf). intros Hu%(fv_unlogged _ _ _ _ _ _ _ Hf). done. }
  apply wp_bind. eapply fs_bread; [done|lia|done|done|]. intros j s1 Hf1 Hk1.
  apply wp_bind. eapply (fs_get_data 1); [exact Hf1|apply lookup_insert_eq|lia|].
  apply wp_bind. eapply (fs_brelse 1); [exact Hf1|apply lookup_insert_eq|done|].
  intros s2 Hf2 Hk2. apply wp_ret, HQ; [by rewrite delete_held in Hf2|by eapply kept_trans].
Qed.
End Fs.

(** ** Transactions *)

Section Transactions.
Context {dd : DiskDriver} {ddok : DiskDriverOk}.

Lemma fs_begin L Q e s v :
  idle s v L ->
  (forall s', fs L (lg_size (klog s)) (v_disk v) (v_w v) s' (v_disk v) [] ∅ ∅ -> kept_but_log s s' -> Q tt s' e) ->
  wp begin_trans Q e s.
Proof.
  intros Hid HQ. eapply wp_begin_trans; [done|]. intros s' Hlo Hl El Hk. apply HQ; [|done].
  assert (forall m, v_blk v m = v_disk v m) as Hcl.
  { intros m. apply (views_clean s v (id_views _ _ _ Hid)); rewrite ?(id_held _ _ _ Hid), ?(id_pin _ _ _ Hid); [done|].
    apply not_elem_of_empty. }
  exists v, []. split; try done.
  - apply (id_held _ _ _ Hid).
  - by rewrite app_nil_r.
  - intros a m d Hi. by apply not_elem_of_nil in Hi.
Qed.

Lemma replay_above w (D : Z -> list Z) L m :
  (forall a m d, ((a, m), d) ∈ w -> L < m) -> m <= L -> replay w D m = D m.
Proof. intros Hgt Hm. apply replay_notin. intros a d Hi%Hgt. lia. Qed.

(** Where a crash in the middle of writes [w0 ++ w] falls. *)
Lemma crash_point {A} (w0 w w1 w2 : list A) :
  w0 ++ w = w1 ++ w2 ->
  ((length w1 <= length w0)%nat /\ exists w3, w0 = w1 ++ w3) \/
  ((length w0 < length w1)%nat /\ exists x w3, w1 = w0 ++ x :: w3 /\ w = (x :: w3) ++ w2).
Proof.
  intros E. destruct (decide (length w1 <= length w0)%nat) as [Hle|Hgt].
  - left. split; [done|]. exists (drop (length w1) w0).
    assert (take (length w1) (w0 ++ w) = w1) as Et by (rewrite E; apply take_app_length).
    rewrite take_app_le in Et by done. rewrite <- Et at 1. symmetry. apply take_drop.
  - right. split; [lia|].
    assert (drop (length w0) (w0 ++ w) = w) as Ed by apply drop_app_length.
    assert (take (length w0) (w0 ++ w) = w0) as Et by apply take_app_length.
    rewrite E in Ed, Et. rewrite drop_app_le in Ed by lia. rewrite take_app_le in Et by lia.
    destruct (drop (length w0) w1) as [|x w3] eqn:Edr.
    { apply (f_equal length) in Edr. rewrite length_drop in Edr. cbn in Edr. lia. }
    exists x, w3. split; [|done]. rewrite <- Edr, <- Et at 1. symmetry. apply take_drop.
Qed.

(** The state after a transaction that began with the disk [D], left the blocks
    [B] and made the writes [w]; and what a crash amounts to: a new kernel that
    starts after the first writes [w1] of [w] finds the blocks of [D], up to
    the first [k] writes, or those of [B]. *)
Record committed (D B : Z -> list Z) (L : Z) (s s' : kstate) (w : list ((Z * Z) * list Z)) (k : nat) : Prop := {
  co_idle : exists v', idle s' v' L /\ forall m, 0 <= m < L -> v_disk v' m = B m;
  co_writes : dwrites s' = dwrites s ++ w;
  co_crash w1 w2 e2 sr vr :
    w = w1 ++ w2 -> rebooted sr vr -> (forall m, v_disk vr m = replay w1 D m) ->
    exists s2, initlog e2 sr = Ok tt s2 e2 /\
      forall m, 0 <= m < L -> disk_read s2 (1, m) = (if (length w1 <=? k)%nat then D else B) m;
}.

Section Commit.
Context (L : Z) (e : env) (s : kstate) (v : view) (Hid : idle s v L) (HL1 : 1 < L).
Context (s1 : kstate) (B : Z -> list Z) (secs : list Z) (v1 : view) (w0 : list ((Z * Z) * list Z)).
Context (Hf : fsv L (lg_size (klog s)) (v_disk v) (v_w v) s1 B secs ∅ ∅ v1 w0).

Lemma commit_drv : L + 11 <= drv_sectors.
Proof. destruct (id_geom _ _ _ Hid) as (? & ? & ?). lia. Qed.
Lemma commit_log_disk (D : Z -> list Z) : (forall m, m <= L -> D m = v_disk v m) -> log_disk D L [].
Proof. intros E. destruct (id_disk _ _ _ Hid) as [Hsb Hn Hsecs]. by split; rewrite !E by lia. Qed.
Lemma commit_before (w1 w2 : list ((Z * Z) * list Z)) e2 sr vr :
  w0 = w1 ++ w2 -> rebooted sr vr -> (forall m, v_disk vr m = replay w1 (v_disk v) m) ->
  exists s2, initlog e2 sr = Ok tt s2 e2 /\ forall m, 0 <= m < L -> disk_read s2 (1, m) = v_disk v m.
Proof.
  intros Ew Hrb Hdisk. destruct (id_geom _ _ _ Hid) as (? & ? & ?). assert (forall m, m <= L -> v_disk vr m = v_disk v m) as Hvr.
  { intros m Hm. rewrite Hdisk. apply (replay_above _ _ L); [|done]. intros a k d Hi.
    eapply (fv_above _ _ _ _ _ _ _ _ _ _ _ Hf). rewrite Ew. apply elem_of_app. by left. }
  destruct (recover_empty L e2 sr vr) as (s2 & Hr2 & Hm2); [split_and!; cbn; lia|lia|by apply commit_log_disk|done|].
  { exists s2. split; [done|]. intros m Hm. rewrite (Hm2 m Hm). apply Hvr. lia. }
Qed.

Lemma committable_fs : (length secs < NBUF)%nat -> committable s1 v1 L secs.
Proof.
  intros Hlen. pose proof Hf as [[G1 G2 G3 G4 G5 G6 G7 G8 G9] F2 F3 F4 F5 F6 F7 F8 F9 F10 F11].
  split; try done.
  - destruct G4 as (? & ? & ?). unfold NBUF in Hlen. split_and!; lia.
  - intros i x Hi. apply G8; [done|by rewrite F2].
Qed.

Lemma idle_end s' :
  committable s1 v1 L secs -> 1 ∉ secs -> views s' (install_erase (head_written v1 L secs) L secs) ->
  kept_but_log s1 s' -> klog s' = (klog s1) <| lg_n := 0 |> <| lg_busy := 0 |> -> log_disk (v_disk v1) L [] ->
  idle s' (install_erase (head_written v1 L secs) L secs) L.
Proof.
  intros Hcm H1 Hv' Hk El Hld. pose proof (cm_rec _ _ _ _ Hcm) as (Hdev & Hst & Hn & Hlen & Htk).
  split; rewrite ?El; try done.
  - unfold install_erase, erased, wrote. rsimpl. rewrite installs_held. apply (cm_held _ _ _ _ Hcm).
  - apply set_eq. intros m. rewrite elem_of_empty. unfold install_erase, erased, wrote. rsimpl.
    rewrite installs_pin. unfold head_written, wrote. rsimpl. rewrite (cm_pin _ _ _ _ Hcm). tauto.
  - apply (id_geom _ _ _ Hid).
  - by apply (final_log s1 v1 L secs).
  - apply (lock_free_locks s1); [apply (kp_locks _ _ Hk)|apply (cm_lock _ _ _ _ Hcm)].
Qed.

Lemma commit_dwrites : dwrites s1 = dwrites s ++ w0.
Proof.
  rewrite (vw_w _ _ (lo_views _ _ _ _ (fv_log _ _ _ _ _ _ _ _ _ _ _ Hf))), (fv_w _ _ _ _ _ _ _ _ _ _ _ Hf).
  by rewrite (vw_w _ _ (id_views _ _ _ Hid)).
Qed.

Lemma commit_some :
  secs <> [] -> 1 ∉ secs -> (length secs < NBUF)%nat ->
  exists s' w k, commit_trans e s1 = Ok tt s' e /\ committed (v_disk v) B L s s' w k /\ (k < length w)%nat /\
    kept_but_log s1 s'.
Proof.
  intros Hne H1 Hlen. pose proof commit_drv. pose proof (committable_fs Hlen) as Hcm.
  assert (log_disk (v_disk v1) L []) as Hld.
  { apply commit_log_disk. intros m Hm. rewrite (fv_disk _ _ _ _ _ _ _ _ _ _ _ Hf).
    apply (replay_above _ _ L); [apply (fv_above _ _ _ _ _ _ _ _ _ _ _ Hf)|done]. }
  destruct (commit_crash e s1 v1 L secs Hcm Hne ltac:(lia) HL1 H1 Hld)
    as (s' & w & Hrun & Ew & Hlw & Hv' & Hk & El & Hcrash).
  exists s', (w0 ++ w), (length w0). split_and!; [done| |rewrite length_app; lia|done]. split.
  - exists (install_erase (head_written v1 L secs) L secs). split; [by apply idle_end|].
    intros m Hm. rewrite (final_disk s1 v1 L secs Hcm m Hm). apply (fv_blk _ _ _ _ _ _ _ _ _ _ _ Hf). lia.
  - by rewrite Ew, commit_dwrites, app_assoc.
  - intros w1 w2 e2 sr vr [[Hle (w3 & E0)]|[Hlt (x & w3 & -> & Ex)]]%crash_point Hrb Hdisk.
    + rewrite (proj2 (Nat.leb_le _ _) Hle). by eapply commit_before.
    + rewrite (proj2 (Nat.leb_gt _ _) Hlt).
      destruct (Hcrash (x :: w3) w2 e2 sr vr Ex Hrb) as (s2 & Hr2 & Hm2).
      { intros m. by rewrite Hdisk, replay_app, (fv_disk _ _ _ _ _ _ _ _ _ _ _ Hf). }
      exists s2. split; [done|]. intros m Hm. rewrite (Hm2 m Hm). apply (fv_blk _ _ _ _ _ _ _ _ _ _ _ Hf). lia.
Qed.

(** Nothing was logged. *)
Lemma commit_none :
  secs = [] ->
  exists s' w k, commit_trans e s1 = Ok tt s' e /\ committed (v_disk v) B L s s' w k /\ kept_but_log s1 s'.
Proof.
  intros Esecs. pose proof Hf as [[G1 G2 G3 G4 G5 G6 G7 G8 G9] F2 F3 F4 F5 F6 F7 F8 F9 F10 F11].
  rewrite Esecs in G2, G7, F5. destruct G2 as (Hdev & Hst & Hn & Hlen & _).
  assert (forall m, m < L -> v_disk v m = B m) as HB.
  { intros m Hm. rewrite <- F3 by done. rewrite F5 by (apply not_elem_of_nil || apply not_elem_of_empty).
    rewrite F9. symmetry. apply (replay_above _ _ L); [done|lia]. }
  destruct (wp_ok_inv commit_trans (fun _ s' e' => e' = e /\ views s' v1 /\ kept_but_log s1 s' /\
    klog s' = (klog s1) <| lg_busy := 0 |>) e s1) as ([] & s' & e' & Hrun & -> & Hv' & Hk & El).
  { unfold commit_trans. apply wp_bind, wp_gets. rewrite Hn. apply wp_bind, wp_ret.
    eapply wp_end_commit; [exact G1|done|]. by intros. }
  exists s', w0, (length w0). split_and!; [done| |done]. split.
  - exists v1. split.
    + split; rewrite ?El; try done.
      * apply set_eq. intros m. rewrite elem_of_empty, G7. split; [apply not_elem_of_nil|done].
      * apply commit_log_disk. intros m Hm. rewrite F9. by apply (replay_above _ _ L).
      * apply (lock_free_locks s1); [apply (kp_locks _ _ Hk)|done].
    + intros m Hm. rewrite F9, <- HB by lia. apply (replay_above _ _ L); [done|lia].
  - rewrite (vw_w _ _ Hv'), <- (vw_w _ _ G1). apply commit_dwrites.
  - intros w1 w2 e2 sr vr Ew Hrb Hdisk.
    replace (length w1 <=? length w0)%nat with true by (symmetry; apply Nat.leb_le; rewrite Ew, length_app; lia).
    by eapply commit_before.
Qed.
End Commit.

(** A transaction whose body is [m]: if [m], run inside a transaction, lets all
    buffers go and has at most nine sectors logged, the transaction is atomic. *)
Theorem atomic {A} (m : M A) (R : A -> (Z -> list Z) -> list Z -> kstate -> Prop) L e s v :
  idle s v L -> 1 < L ->
  (forall s1, fs L (lg_size (klog s)) (v_disk v) (v_w v) s1 (v_disk v) [] ∅ ∅ -> kept_but_log s s1 ->
     wp m (fun a s2 e2 => e2 = e /\ exists B secs, R a B secs s2 /\
       fs L (lg_size (klog s)) (v_disk v) (v_w v) s2 B secs ∅ ∅ /\ (1 ∉ secs) /\ (length secs < NBUF)%nat) e s1) ->
  exists a B secs s2 s' w k, (begin_trans ;; (x ← m; commit_trans ;; mret x)) e s = Ok a s' e /\
    R a B secs s2 /\ committed (v_disk v) B L s s' w k /\ (secs <> [] -> (k < length w)%nat) /\ kept_but_log s2 s'.
Proof.
  intros Hid HL1 Hm.
  destruct (wp_ok_inv (begin_trans ;; m) (fun a s2 e2 => e2 = e /\ exists B secs, R a B secs s2 /\
    fs L (lg_size (klog s)) (v_disk v) (v_w v) s2 B secs ∅ ∅ /\ (1 ∉ secs) /\ (length secs < NBUF)%nat) e s)
    as (a & s2 & e2 & Hrun & -> & B & secs & HR & (v1 & w0 & Hf) & H1 & Hlen).
  { apply wp_bind. eapply fs_begin; [done|]. intros s1 Hf Hk. by apply Hm. }
  assert (forall s' : kstate, commit_trans e s2 = Ok tt s' e ->
    (begin_trans ;; (x ← m; commit_trans ;; mret x)) e s = Ok a s' e) as Hall.
  { intros s' Hc. rewrite <- (bind_assoc_M begin_trans (fun _ => m)), (bind_ok _ _ _ _ _ _ _ Hrun).
    by rewrite (bind_ok _ _ _ _ _ _ _ Hc). }
  destruct (decide (secs = [])) as [Es|Es].
  - destruct (commit_none L e s v Hid HL1 s2 B secs v1 w0 Hf Es) as (s' & w & k & Hc & Hco & Hk).
    exists a, B, secs, s2, s', w, k. split_and!; auto; done.
  - destruct (commit_some L e s v Hid HL1 s2 B secs v1 w0 Hf Es H1 Hlen) as (s' & w & k & Hc & Hco & Hkw & Hk).
    exists a, B, secs, s2, s', w, k. split_and!; auto.
Qed.

(** ** Any number of blocks, written the way fs.c writes them *)

Definition write_block (u : Z * list Z) : M unit :=
  j ← bread 1 u.1; set_data j u.2 ;; log_write j ;; brelse j.
Fixpoint write_blocks (ups : list (Z * list Z)) : M unit :=
  match ups with [] => mret tt | u :: ups' => write_block u ;; write_blocks ups' end.
Definition transaction (ups : list (Z * list Z)) : M unit :=
  begin_trans ;; write_blocks ups ;; commit_trans.

(** The blocks the transaction is to leave. *)
Fixpoint updates (ups : list (Z * list Z)) (D : Z -> list Z) : Z -> list Z :=
  match ups with [] => D | u :: ups' => updates ups' (fupd u.1 u.2 D) end.

Lemma cap_within lsz secs (H : gmap Z nat) (S : gset Z) :
  NoDup secs -> (forall x, x ∈ secs -> x ∈ S) -> (forall x, x ∈ dom H -> x ∈ S) ->
  (size S < NBUF)%nat -> Z.of_nat (size S) < lsz - 1 -> cap lsz secs H.
Proof.
  intros Hnd Hs Hh Hn Hl. split.
  - eapply Nat.le_lt_trans; [|exact Hn]. apply subseteq_size. intros x.
    rewrite elem_of_union, elem_of_list_to_set. intros [Hx|Hx]; auto.
  - assert (length secs <= size S)%nat; [|lia]. rewrite <- (size_list_to_set (C := gset Z)) by done.
    apply subseteq_size. intros x Hx%elem_of_list_to_set. auto.
Qed.

Section Blocks.
Context (L lsz : Z) (D0 : Z -> list Z) (W : list ((Z * Z) * list Z)) (S : gset Z).
Context (HSn : (size S < NBUF)%nat) (HSl : Z.of_nat (size S) < lsz - 1).

Lemma wp_write_block n d Q e s B secs :
  fs L lsz D0 W s B secs ∅ ∅ -> (forall x, x ∈ secs -> x ∈ S) -> n ∈ S -> 0 <= n < L -> length d = 512%nat ->
  (forall s', fs L lsz D0 W s' (fupd n d B) (log_add n secs) ∅ ∅ -> Q tt s' e) ->
  wp (write_block (n, d)) Q e s.
Proof.
  intros Hf Hs HnS Hn Hd HQ. pose proof (fs_nodup _ _ _ _ _ _ _ _ _ Hf) as Hnd.
  unfold write_block. cbn [fst snd]. apply wp_bind. eapply fs_bread; [exact Hf|done| | |].
  { rewrite dom_empty. apply not_elem_of_empty. }
  { by apply (cap_within _ _ _ S). }
  intros j s1 Hf1 _. apply wp_bind. eapply (fs_set_data L lsz D0 W n); [exact Hf1|apply lookup_insert_eq|lia|done|].
  intros s2 Hf2 _. apply wp_bind. eapply (fs_log_write L lsz D0 W n); [exact Hf2|apply lookup_insert_eq|done| |].
  { apply (cap_within _ _ _ S); try done. intros x. rewrite dom_insert, dom_empty, elem_of_union, elem_of_singleton, elem_of_empty.
    by intros [->|]. }
  intros s3 Hf3 _. eapply (fs_brelse L lsz D0 W n); [exact Hf3|apply lookup_insert_eq| |].
  { rewrite elem_of_difference, elem_of_singleton. tauto. }
  intros s4 Hf4 _. apply HQ. rewrite delete_held in Hf4 by (rewrite dom_empty; apply not_elem_of_empty).
  replace (({[n]} ∪ ∅) ∖ {[n]} : gset Z) with (∅ : gset Z) in Hf4; [done|].
  apply set_eq. intros x. rewrite elem_of_difference, elem_of_union, elem_of_empty. tauto.
Qed.

Lemma wp_write_blocks ups Q e s B secs :
  fs L lsz D0 W s B secs ∅ ∅ -> (forall x, x ∈ secs -> x ∈ S) ->
  (forall n d, (n, d) ∈ ups -> n ∈ S /\ 0 <= n < L /\ length d = 512%nat) ->
  (forall s' secs', fs L lsz D0 W s' (updates ups B) secs' ∅ ∅ ->
     (forall x, x ∈ secs' <-> x ∈ secs \/ x ∈ ups.*1) -> Q tt s' e) ->
  wp (write_blocks ups) Q e s.
Proof.
  revert s B secs. induction ups as [|[n d] ups IH]; intros s B secs Hf HS Hups HQ; cbn [write_blocks].
  { apply wp_ret, (HQ s secs); [done|]. intros x. cbn. rewrite elem_of_nil. tauto. }
  destruct (Hups n d ltac:(by left)) as (HnS & Hn & Hd).
  apply wp_bind. apply (wp_write_block n d _ e s B secs Hf HS HnS Hn Hd). intros s1 Hf1. eapply IH; [exact Hf1| | |].
  - intros x [->|Hx]%elem_of_log_add; auto.
  - intros n' d' Hi. apply Hups. by right.
  - intros s2 secs' Hf2 Hin. apply (HQ s2 secs'); [done|].
    intros x. rewrite Hin, elem_of_log_add. cbn. rewrite elem_of_cons. tauto.
Qed.
End Blocks.

(** C1. A transaction is atomic and durable. A transaction of writes to different
    blocks, fewer than the buffer cache and the log have room for, made between
    [begin_trans] and [commit_trans] with [log_write], completes, leaves the disk
    as the writes say and the log idle; and if the machine crashes after any
    number of the disk writes it makes, the next kernel's [initlog] leaves the
    whole file system as it was before the transaction (up to the first [k]
    writes) or as all of the transaction made it (after them). *)
Theorem transaction_crash_atomic e s v L ups :
  idle s v L -> 1 < L -> ups <> [] ->
  (forall n d, (n, d) ∈ ups -> 1 < n < L /\ length d = 512%nat) ->
  (size (list_to_set ups.*1 : gset Z) < NBUF)%nat ->
  Z.of_nat (size (list_to_set ups.*1 : gset Z)) < lg_size (klog s) - 1 ->
  exists s' w k, transaction ups e s = Ok tt s' e /\
    committed (v_disk v) (updates ups (v_disk v)) L s s' w k /\ (k < length w)%nat.
Proof.
  intros Hid HL1 Hne Hups Hsize Hsz. set (S := list_to_set ups.*1 : gset Z) in *.
  destruct (atomic (write_blocks ups) (fun _ B secs _ => B = updates ups (v_disk v) /\ secs <> []) L e s v Hid HL1)
    as ([] & B & secs & s2 & s' & w & k & Hrun & [-> Hns] & Hco & Hk & _).
  - intros s1 Hf _. eapply (wp_write_blocks L _ _ _ S Hsize Hsz); [exact Hf|by intros x ?%not_elem_of_nil| |].
    { intros n d Hi. destruct (Hups n d Hi) as [? ?]. split_and!; [|lia|lia|done].
      apply elem_of_list_to_set, list_elem_of_fmap. by exists (n, d). }
    intros s2 secs Hf2 Hin. split; [done|]. exists (updates ups (v_disk v)), secs.
    assert (forall x, x ∈ secs <-> x ∈ ups.*1) as Hin' by (intros x; rewrite Hin, elem_of_nil; tauto).
    split_and!; [done| |done| |].
    + destruct ups as [|[n d] ups]; [done|]. intros ->. apply (not_elem_of_nil n), Hin'. by left.
    + intros ([n d] & E & Hi)%Hin'%list_elem_of_fmap. apply Hups in Hi as [? _]. cbn in E. lia.
    + eapply Nat.le_lt_trans; [|exact Hsize]. rewrite <- (size_list_to_set (C := gset Z)) by apply (fs_nodup _ _ _ _ _ _ _ _ _ Hf2).
      apply subseteq_size. intros x Hx%elem_of_list_to_set. by apply elem_of_list_to_set, Hin'.
  - exists s', w, k. split_and!; [|done|by apply Hk]. rewrite <- Hrun. unfold transaction, mbind, M_bind.
    destruct (begin_trans e s); try done. destruct (write_blocks ups _ _) as [[]| | | | |]; try done.
    by destruct (commit_trans _ _) as [[]| | | | |].
Qed.
End Transactions.

(** ** A machine that starts from a disk *)

(** A state in which no buffer holds a block sees the disk it is given. *)
Definition boot_view (d : gmap (Z * Z) (list Z)) : view :=
  let D n := default (replicate 512 0) (d !! (1, n)) in View [] D D ∅ ∅.

Lemma find_none_Forall {A} (f : A -> bool) l : Forall (fun x => f x = false) l -> find f l = None.
Proof. induction 1 as [|x l Hx _ IH]; [done|]. cbn. by rewrite Hx. Qed.

Section Fresh.
Context (s : kstate) (l : list nat) (Hc : cache_ok s l) (Hw : dwrites s = []).
Context (Hfl : forall i b, bcache s !! i = Some b -> b_flags b = 0).
Context (Hdev : Forall (fun i => forall n, at_buf (bcache s) (caches 1 n) i = false) l).
Context (Hcpu : cpu_ok (kcpu s)) (Hb : lock_free s L_bcache) (Hp : lock_free s L_ptable).

Lemma fresh_flag i b f : bcache s !! i = Some b -> has_flag b f = false.
Proof. intros Hi. unfold has_flag. by rewrite (Hfl i b Hi), Z.land_0_l. Qed.

Lemma fresh_cache_ok d : map_Forall (fun _ x => length x = 512%nat) d -> cache_ok (s <| disk := d |>) l.
Proof.
  intros Hd. destruct Hc as [H1 H2 H3 _ H5 _]. split; try done.
  - intros k. unfold disk_read. rsimpl. destruct (d !! k) as [x|] eqn:E; [|done]. exact (Hd k x E).
  - intros i b _ Hi _ Hv. by rewrite (fresh_flag i b _ Hi) in Hv.
Qed.

Lemma fresh_views d : map_Forall (fun _ x => length x = 512%nat) d -> views (s <| disk := d |>) (boot_view d).
Proof.
  intros Hd. split; try done.
  - exists l. split; [by apply fresh_cache_ok|]. intros n. unfold blk. rsimpl.
    rewrite find_none_Forall; [done|]. eapply Forall_impl; [exact Hdev|]. cbn. intros i Hi. apply Hi.
  - intros j b _ Hi Hv. by rewrite (fresh_flag j b _ Hi) in Hv.
  - intros j b _ Hi Hv. by rewrite (fresh_flag j b _ Hi) in Hv.
Qed.

Lemma fresh_rebooted d :
  map_Forall (fun _ x => length x = 512%nat) d -> length (lg_sector (klog s)) = 10%nat ->
  rebooted (s <| disk := d |>) (boot_view d).
Proof. intros Hd Hlen. split; [by apply fresh_views|done|done|done]. Qed.

Lemma fresh_idle `{DiskDriverOk} d lg L :
  map_Forall (fun _ x => length x = 512%nat) d -> lock_free s L_log ->
  log_record lg L [] -> lg_busy lg = 0 -> log_geometry L 10 -> log_disk (v_disk (boot_view d)) L [] ->
  idle (s <| disk := d |> <| klog := lg |>) (boot_view d) L.
Proof. intros Hd Hl Hr Hbz Hg Hld. split; try done. by apply views_klog, fresh_views. Qed.
End Fresh.

(** The state a new kernel is in after binit, with the disk [d]. *)
Definition boot (d : gmap (Z * Z) (list Z)) : kstate := binit_ex <| disk := d |>.

Lemma binit_flags i b : bcache binit_ex !! i = Some b -> b_flags b = 0.
Proof. revert i b. apply forall_buf. vm_decide. Qed.
Lemma binit_devs : Forall (fun i => forall n, at_buf (bcache binit_ex) (caches 1 n) i = false) binit_order.
Proof. repeat apply Forall_cons_2; try apply Forall_nil_2; intros n; vm_compute; reflexivity. Qed.
Lemma binit_ptable : lock_free binit_ex L_ptable.
Proof. exists "ptable"%string. vm_compute. reflexivity. Qed.
Lemma binit_log : length (lg_sector (klog binit_ex)) = 10%nat.
Proof. vm_compute. reflexivity. Qed.
Lemma binit_dwrites : dwrites binit_ex = [].
Proof. vm_compute. reflexivity. Qed.

Lemma binit_log_free : lock_free binit_ex L_log.
Proof. exists "log"%string. vm_compute. reflexivity. Qed.

Lemma boot_rebooted d : map_Forall (fun _ x => length x = 512%nat) d -> rebooted (boot d) (boot_view d).
Proof.
  intros Hd. exact (fresh_rebooted binit_ex binit_order binit_cache_ok binit_dwrites binit_flags binit_devs
    binit_cpu binit_lock binit_ptable d Hd binit_log).
Qed.

(** A disk of 1000 blocks, the last 20 of them the log, whose bitmap marks the
    first 29 blocks (the bitmap is block 28); and the state between transactions
    of a kernel that runs on it. *)
Definition disk_ex : gmap (Z * Z) (list Z) :=
  <[ (1, 1) := bytes32 1000 ++ bytes32 900 ++ bytes32 200 ++ bytes32 20 ++ replicate 496 0 ]>
    {[ (1, 28) := [255; 255; 255; 31] ++ replicate 508 0 ]}.
Definition log_ex : logst :=
  {| lg_start := 980; lg_size := 20; lg_busy := 0; lg_dev := 1; lg_n := 0; lg_sector := replicate 10 0 |}.
Definition idle_ex : kstate := (boot disk_ex) <| klog := log_ex |>.

#[local] Existing Instance memdrv.
#[local] Existing Instance memdrv_ok.

Lemma disk_ex_len : map_Forall (fun _ x => length x = 512%nat) disk_ex.
Proof. apply map_Forall_insert_2; [|apply map_Forall_singleton]; vm_compute; reflexivity. Qed.
Lemma disk_ex_log : log_disk (v_disk (boot_view disk_ex)) 980 [].
Proof. split; vm_compute; repeat split; congruence. Qed.

Lemma idle_ex_idle : idle idle_ex (boot_view disk_ex) 980.
Proof.
  exact (fresh_idle binit_ex binit_order binit_cache_ok binit_dwrites binit_flags binit_devs
    binit_cpu binit_lock binit_ptable disk_ex log_ex 980 disk_ex_len binit_log_free
    ltac:(by split_and!) eq_refl ltac:(by split_and!) disk_ex_log).
Qed.
Lemma idle_ex_size : lg_size (klog idle_ex) = 20.
Proof. reflexivity. Qed.

Definition blocks_ex : Z -> list Z := v_disk (boot_view disk_ex).
Lemma fs_ex : exists s, fs 980 20 blocks_ex [] s blocks_ex [] ∅ ∅.
Proof.
  destruct (wp_ok_inv begin_trans (fun _ s _ => fs 980 20 blocks_ex [] s blocks_ex [] ∅ ∅) [] idle_ex)
    as (? & s & ? & _ & Hf); [|by exists s].
  eapply fs_begin; [exact idle_ex_idle|]. intros s' Hf _. exact Hf.
Qed.

Lemma transaction_crash_atomic_witness :
  let ups := [(5, replicate 512 7); (6, replicate 512 8); (5, replicate 512 9)] in
  exists s' v', transaction ups [] idle_ex = Ok tt s' [] /\ v_disk v' 5 = replicate 512 9 /\ v_disk v' 6 = replicate 512 8.
Proof.
  intros ups.
  destruct (transaction_crash_atomic [] idle_ex (boot_view disk_ex) 980 ups idle_ex_idle ltac:(lia) ltac:(done))
    as (s' & w & k & Hrun & [(v' & _ & Hd) _ _] & _).
  - intros n d Hi. assert (Forall (fun u => 1 < u.1 < 980 /\ length u.2 = 512%nat) ups) as Hf by (subst ups; vm_decide).
    exact (proj1 (Forall_forall _ _) Hf (n, d) Hi).
  - subst ups. vm_compute. lia.
  - rewrite idle_ex_size. subst ups. vm_compute. reflexivity.
  - exists s', v'. split; [exact Hrun|]. rewrite !Hd by lia. subst ups. split; vm_compute; reflexivity.
Defined.
