(* ===== verification/Inode.v ===== *)
(** * Inode: blocks and inodes of fs.c

    The block allocator and its bitmap, the inode table on disk and the cache of
    in-memory inodes with its locks and reference counts, and the block map of
    an inode. Pointers to inodes are indices into [icache]. *)
From S2P Require Import Prelude Memory State Spinlock Sched Bio Log.

Definition ROOTINO : Z := 1.
Definition NDIRECT : nat := 12.
Definition NINDIRECT : nat := 128.
Definition MAXFILE : Z := 140.
Definition BPB : Z := BSIZE * 8.
Definition IPB : Z := 8.
Definition IBLOCK (i : Z) : Z := i / IPB + 2.
Definition BBLOCK (b ninodes : Z) : Z := b / BPB + ninodes / IPB + 3.
Definition I_BUSY : Z := 0x1.
Definition I_VALID : Z := 0x2.
Definition T_DIR : Z := 1.
Definition T_FILE : Z := 2.
Definition T_DEV : Z := 3.

(** struct stat of stat.h. *)
Record stat := Stat { st_type : Z; st_dev : Z; st_ino : Z; st_nlink : Z; st_size : Z }.

(** struct dinode of fs.h, at its place in a block. *)
Record dinode := Dinode {
  d_type : Z; d_major : Z; d_minor : Z; d_nlink : Z; d_size : Z; d_addrs : list Z }.
Definition dinode_off (inum : Z) : nat := Z.to_nat (64 * (inum mod IPB)).
Definition load_dinode (d : list Z) (off : nat) : dinode := {|
  d_type := s16 (le16 d off);
  d_major := s16 (le16 d (off + 2));
  d_minor := s16 (le16 d (off + 4));
  d_nlink := s16 (le16 d (off + 6));
  d_size := le32 d (off + 8);
  d_addrs := map (fun k => le32 d (off + 12 + 4 * k)) (seq 0 (S NDIRECT));
|}.
Definition dinode_bytes (x : dinode) : list Z :=
  bytes16 (d_type x) ++ bytes16 (d_major x) ++ bytes16 (d_minor x) ++ bytes16 (d_nlink x)
  ++ bytes32 (d_size x) ++ concat (map bytes32 (d_addrs x)).
Definition store_dinode (d : list Z) (off : nat) (x : dinode) : list Z :=
  splice d off (dinode_bytes x).
Definition dinode0 : dinode := Dinode 0 0 0 0 0 (replicate (S NDIRECT) 0).

Definition geti (i : nat) : M inode := ip ← gets (fun s => icache s !! i); must ip.
Definition seti (i : nat) (f : inode -> inode) : M unit :=
  _ ← geti i; modify (fun s => s <| icache ::= alter f i |>).
Definition i_flag (ip : inode) (fl : Z) : bool := truth (Z.land (ip_flags ip) fl).

(** ** The bitmap *)

(** Bit [bi] of the bitmap block [d]. *)
Definition bit_mask (bi : Z) : Z := Z.shiftl 1 (bi mod 8).
Definition bit_byte (bi : Z) : nat := Z.to_nat (bi / 8).
Definition bit_set (d : list Z) (bi : Z) : bool :=
  negb (Z.land (d !!! bit_byte bi) (bit_mask bi) =? 0).
Definition mark_used (d : list Z) (bi : Z) : list Z :=
  alter (fun x => u8 (Z.lor x (bit_mask bi))) (bit_byte bi) d.
Definition mark_free (d : list Z) (bi : Z) : list Z :=
  alter (fun x => u8 (Z.land x (Z.lnot (bit_mask bi)))) (bit_byte bi) d.

Section Blocks.
Context `{DiskDriver}.

Definition bzero (dev bno : Z) : M unit :=
  bp ← bread dev bno;
  set_data bp (replicate 512 0) ;;
  log_write bp ;;
  brelse bp.

(** The loop over the bitmap blocks, from block [b] on; the inner loop is the
    search for a clear bit. *)
Fixpoint balloc_loop (fuel : nat) (dev b : Z) (sb : superblock) : M Z :=
  if b <? sb_size sb then
    match fuel with
    | O => diverge
    | S k =>
        bp ← bread dev (BBLOCK b (sb_ninodes sb));
        d ← get_data bp;
        match find (fun bi => negb (bit_set d bi)) (seqZ 0 (Z.min BPB (sb_size sb - b))) with
        | Some bi =>
            set_data bp (mark_used d bi) ;;
            log_write bp ;;
            brelse bp ;;
            bzero dev (b + bi) ;;
            mret (b + bi)
        | None => brelse bp ;; balloc_loop k dev (b + BPB) sb
        end
    end
  else panic "balloc: out of blocks".
Definition balloc (dev : Z) : M Z :=
  sb ← readsb dev;
  balloc_loop (S (Z.to_nat (sb_size sb / BPB))) dev 0 sb.

Definition bfree (dev b : Z) : M unit :=
  sb ← readsb dev;
  bp ← bread dev (BBLOCK b (sb_ninodes sb));
  let bi := b mod BPB in
  d ← get_data bp;
  if negb (bit_set d bi) then panic "freeing free block"
  else
    set_data bp (mark_free d bi) ;;
    log_write bp ;;
    brelse bp.

(** ** Inodes *)

Definition iinit : M unit := initlock L_icache "icache".

(** The loop of [iget]: the entry for the inode, or the first free one. *)
Fixpoint iget_scan (ips : list inode) (i : nat) (dev inum : Z) (empty : option nat) : nat + option nat :=
  match ips with
  | [] => inr empty
  | ip :: ips' =>
      if (0 <? ip_ref ip) && (ip_dev ip =? dev) && (ip_inum ip =? inum) then inl i
      else iget_scan ips' (S i) dev inum
        (if bool_decide (empty = None) && (ip_ref ip =? 0) then Some i else empty)
  end.
Definition iget (dev inum : Z) : M nat :=
  acquire L_icache ;;
  ips ← gets icache;
  match iget_scan ips 0 dev inum None with
  | inl i =>
      seti i (fun ip => ip <| ip_ref := ip_ref ip + 1 |>) ;;
      release L_icache ;;
      mret i
  | inr None => panic "iget: no inodes"
  | inr (Some i) =>
      seti i (fun ip => ip <| ip_dev := dev |>) ;;
      seti i (fun ip => ip <| ip_inum := inum |>) ;;
      seti i (fun ip => ip <| ip_ref := 1 |>) ;;
      seti i (fun ip => ip <| ip_flags := 0 |>) ;;
      release L_icache ;;
      mret i
  end.

Fixpoint ialloc_loop (fuel : nat) (dev type inum : Z) (sb : superblock) : M nat :=
  if inum <? sb_ninodes sb then
    match fuel with
    | O => diverge
    | S k =>
        bp ← bread dev (IBLOCK inum);
        d ← get_data bp;
        if d_type (load_dinode d (dinode_off inum)) =? 0 then
          set_data bp (store_dinode d (dinode_off inum)
            (Dinode type 0 0 0 0 (replicate (S NDIRECT) 0))) ;;
          log_write bp ;;
          brelse bp ;;
          iget dev inum
        else brelse bp ;; ialloc_loop k dev type (inum + 1) sb
    end
  else panic "ialloc: no inodes".
Definition ialloc (dev type : Z) : M nat :=
  sb ← readsb dev;
  ialloc_loop (Z.to_nat (sb_ninodes sb)) dev type 1 sb.

(** The fields an inode has on disk. *)
Definition to_dinode (ip : inode) : dinode :=
  Dinode (ip_type ip) (ip_major ip) (ip_minor ip) (ip_nlink ip) (ip_size ip) (ip_addrs ip).
Definition iupdate (i : nat) : M unit :=
  ip ← geti i;
  bp ← bread (ip_dev ip) (IBLOCK (ip_inum ip));
  ip ← geti i;
  d ← get_data bp;
  set_data bp (store_dinode d (dinode_off (ip_inum ip)) (to_dinode ip)) ;;
  log_write bp ;;
  brelse bp.

Definition idup (i : nat) : M nat :=
  acquire L_icache ;;
  seti i (fun ip => ip <| ip_ref := ip_ref ip + 1 |>) ;;
  release L_icache ;;
  mret i.

Definition from_dinode (x : dinode) (ip : inode) : inode :=
  ip <| ip_type := d_type x |> <| ip_major := d_major x |> <| ip_minor := d_minor x |>
     <| ip_nlink := d_nlink x |> <| ip_size := d_size x |> <| ip_addrs := d_addrs x |>.
Definition ilock (i : nat) : M unit :=
  ip ← geti i;
  if ip_ref ip <? 1 then panic "ilock"
  else
    acquire L_icache ;;
    mwhile_sleep (ip ← geti i; mret (i_flag ip I_BUSY)) (sleep (Ch_inode i) L_icache) ;;
    seti i (fun ip => ip <| ip_flags := Z.lor (ip_flags ip) I_BUSY |>) ;;
    release L_icache ;;
    ip ← geti i;
    if i_flag ip I_VALID then mret tt
    else
      bp ← bread (ip_dev ip) (IBLOCK (ip_inum ip));
      d ← get_data bp;
      seti i (from_dinode (load_dinode d (dinode_off (ip_inum ip)))) ;;
      brelse bp ;;
      seti i (fun ip => ip <| ip_flags := Z.lor (ip_flags ip) I_VALID |>) ;;
      ip ← geti i;
      if ip_type ip =? 0 then panic "ilock: no type" else mret tt.

Definition iunlock (i : nat) : M unit :=
  ip ← geti i;
  if negb (i_flag ip I_BUSY) || (ip_ref ip <? 1) then panic "iunlock"
  else
    acquire L_icache ;;
    seti i (fun ip => ip <| ip_flags := Z.land (ip_flags ip) (Z.lnot I_BUSY) |>) ;;
    wakeup (Ch_inode i) ;;
    release L_icache.

(** ** Contents *)

Definition get_addr (i : nat) (k : nat) : M Z := ip ← geti i; must (ip_addrs ip !! k).
Definition set_addr (i : nat) (k : nat) (a : Z) : M unit :=
  seti i (fun ip => ip <| ip_addrs ::= <[k := a]> |>).

(** [ip->addrs[k]], allocating the block when there is none. *)
Definition bmap_direct (i : nat) (k : nat) : M Z :=
  addr ← get_addr i k;
  if addr =? 0 then
    ip ← geti i;
    addr ← balloc (ip_dev ip);
    set_addr i k addr ;;
    mret addr
  else mret addr.
Definition bmap (i : nat) (bn : Z) : M Z :=
  if bn <? Z.of_nat NDIRECT then bmap_direct i (Z.to_nat bn)
  else
    let bn := bn - Z.of_nat NDIRECT in
    if bn <? Z.of_nat NINDIRECT then
      addr ← bmap_direct i NDIRECT;
      ip ← geti i;
      bp ← bread (ip_dev ip) addr;
      d ← get_data bp;
      let addr := le32 d (Z.to_nat (4 * bn)) in
      addr ←
        (if addr =? 0 then
           addr ← balloc (ip_dev ip);
           d ← get_data bp;
           set_data bp (splice d (Z.to_nat (4 * bn)) (bytes32 addr)) ;;
           log_write bp ;;
           mret addr
         else mret addr);
      brelse bp ;;
      mret addr
    else panic "bmap: out of range".

Definition itrunc (i : nat) : M unit :=
  mforeach (seq 0 NDIRECT) (fun k =>
    addr ← get_addr i k;
    when (negb (addr =? 0)) (ip ← geti i; bfree (ip_dev ip) addr ;; set_addr i k 0)) ;;
  addr ← get_addr i NDIRECT;
  when (negb (addr =? 0))
    (ip ← geti i;
     bp ← bread (ip_dev ip) addr;
     mforeach (seq 0 NINDIRECT) (fun j =>
       d ← get_data bp;
       when (negb (le32 d (4 * j) =? 0)) (bfree (ip_dev ip) (le32 d (4 * j)))) ;;
     brelse bp ;;
     addr ← get_addr i NDIRECT;
     bfree (ip_dev ip) addr ;;
     set_addr i NDIRECT 0) ;;
  seti i (fun ip => ip <| ip_size := 0 |>) ;;
  iupdate i.

Definition iput (i : nat) : M unit :=
  acquire L_icache ;;
  ip ← geti i;
  when ((ip_ref ip =? 1) && i_flag ip I_VALID && (ip_nlink ip =? 0))
    (if i_flag ip I_BUSY then panic "iput busy"
     else
       seti i (fun ip => ip <| ip_flags := Z.lor (ip_flags ip) I_BUSY |>) ;;
       release L_icache ;;
       itrunc i ;;
       seti i (fun ip => ip <| ip_type := 0 |>) ;;
       iupdate i ;;
       acquire L_icache ;;
       seti i (fun ip => ip <| ip_flags := 0 |>) ;;
       wakeup (Ch_inode i)) ;;
  seti i (fun ip => ip <| ip_ref := ip_ref ip - 1 |>) ;;
  release L_icache.

Definition iunlockput (i : nat) : M unit := iunlock i ;; iput i.

Definition stati (i : nat) : M stat :=
  ip ← geti i;
  mret (Stat (ip_type ip) (ip_dev ip) (ip_inum ip) (ip_nlink ip) (ip_size ip)).

End Blocks.
