(* ===== verification/Bitmap.v ===== *)
(** * Bitmap: correctness of the block allocator

    [balloc] and [bfree] of fs.c as operations on the set of used blocks that
    the bitmap on disk represents. *)
From S2P Require Import Prelude Memory State Spinlock Sched Bio Buffers Log Blocks Recovery Transaction Atomic Inode.

(** ** Bits *)

Lemma land_bit x k : 0 <= k -> negb (Z.land x (Z.shiftl 1 k) =? 0) = Z.testbit x k.
Proof.
  intros Hk. destruct (Z.testbit x k) eqn:E.
  - apply negb_true_iff, Z.eqb_neq. intros E0. apply (f_equal (fun z => Z.testbit z k)) in E0.
    rewrite Z.land_spec, E, Z.shiftl_spec, Z.sub_diag, Z.bits_0 in E0 by lia. done.
  - apply negb_false_iff, Z.eqb_eq, Z.bits_inj'. intros i Hi.
    rewrite Z.land_spec, Z.shiftl_spec, Z.bits_0 by lia. destruct (decide (i = k)) as [->|Hne]; [by rewrite E|].
    replace (Z.testbit 1 (i - k)) with false; [apply andb_false_r|].
    symmetry. destruct (decide (i < k)); [apply Z.testbit_neg_r; lia|]. change 1 with (2 ^ 0).
    apply Z.pow2_bits_false. lia.
Qed.
Lemma bit_set_testbit d bi : bit_set d bi = Z.testbit (d !!! bit_byte bi) (bi mod 8).
Proof. apply land_bit. apply Z.mod_pos_bound. lia. Qed.

Lemma u8_testbit x k : 0 <= k < 8 -> Z.testbit (u8 x) k = Z.testbit x k.
Proof. intros Hk. unfold u8. apply (Z.mod_pow2_bits_low x 8). lia. Qed.
Lemma mask_testbit bi k : 0 <= k -> Z.testbit (bit_mask bi) k = (k =? bi mod 8).
Proof.
  intros Hk. unfold bit_mask. pose proof (Z.mod_pos_bound bi 8 ltac:(lia)). rewrite Z.shiftl_spec by lia.
  destruct (Z.eqb_spec k (bi mod 8)) as [->|Hne]; [by rewrite Z.sub_diag|].
  destruct (decide (k < bi mod 8)); [apply Z.testbit_neg_r; lia|]. change 1 with (2 ^ 0).
  apply Z.pow2_bits_false. lia.
Qed.

(** The bits after a change [f] of the byte of bit [bi]. *)
Lemma bit_alter f d bi bj :
  length d = 512%nat -> 0 <= bi < BPB -> 0 <= bj < BPB ->
  bit_set (alter f (bit_byte bi) d) bj =
    Z.testbit (if decide (bi / 8 = bj / 8) then f (d !!! bit_byte bj) else d !!! bit_byte bj) (bj mod 8).
Proof.
  intros Hd Hbi Hbj. unfold BPB, BSIZE in *. rewrite bit_set_testbit. f_equal. unfold bit_byte.
  pose proof (Z.div_lt_upper_bound bi 8 512 ltac:(lia) ltac:(lia)). pose proof (Z.div_pos bi 8 ltac:(lia) ltac:(lia)).
  pose proof (Z.div_lt_upper_bound bj 8 512 ltac:(lia) ltac:(lia)). pose proof (Z.div_pos bj 8 ltac:(lia) ltac:(lia)).
  rewrite !list_lookup_total_alt. case_decide as E.
  - rewrite E, list_lookup_alter_eq. destruct (lookup_lt_is_Some_2 d (Z.to_nat (bj / 8))) as [x ->]; [lia|done].
  - rewrite list_lookup_alter_ne by lia. done.
Qed.

Lemma bit_mark_used d bi bj :
  length d = 512%nat -> 0 <= bi < BPB -> 0 <= bj < BPB ->
  bit_set (mark_used d bi) bj = (bj =? bi) || bit_set d bj.
Proof.
  intros Hd Hbi Hbj. unfold mark_used. rewrite bit_alter, bit_set_testbit by done.
  pose proof (Z.mod_pos_bound bj 8 ltac:(lia)). case_decide as E.
  - rewrite u8_testbit, Z.lor_spec, mask_testbit, orb_comm by lia. f_equal.
    destruct (Z.eqb_spec bj bi) as [->|Hne]; [by rewrite Z.eqb_refl|]. apply Z.eqb_neq. intros Em. apply Hne.
    rewrite (Z.div_mod bj 8), (Z.div_mod bi 8) by lia. lia.
  - by rewrite (proj2 (Z.eqb_neq bj bi)) by (intros ->; done).
Qed.
Lemma bit_mark_free d bi bj :
  length d = 512%nat -> 0 <= bi < BPB -> 0 <= bj < BPB ->
  bit_set (mark_free d bi) bj = negb (bj =? bi) && bit_set d bj.
Proof.
  intros Hd Hbi Hbj. unfold mark_free. rewrite bit_alter, bit_set_testbit by done.
  pose proof (Z.mod_pos_bound bj 8 ltac:(lia)). case_decide as E.
  - rewrite u8_testbit, Z.land_spec, Z.lnot_spec, mask_testbit, andb_comm by lia. do 2 f_equal.
    destruct (Z.eqb_spec bj bi) as [->|Hne]; [by rewrite Z.eqb_refl|]. apply Z.eqb_neq. intros Em. apply Hne.
    rewrite (Z.div_mod bj 8), (Z.div_mod bi 8) by lia. lia.
  - by rewrite (proj2 (Z.eqb_neq bj bi)) by (intros ->; done).
Qed.
Lemma length_mark_used d bi : length (mark_used d bi) = length d.
Proof. apply length_alter. Qed.
Lemma length_mark_free d bi : length (mark_free d bi) = length d.
Proof. apply length_alter. Qed.

(** ** The set of used blocks *)

(** Block [b] is marked in the bitmap of a file system of [nin] inodes. *)
Definition used (B : Z -> list Z) (nin b : Z) : bool := bit_set (B (BBLOCK b nin)) (b mod BPB).

Lemma bpb_pos : 0 < BPB.
Proof. by vm_compute. Qed.
Lemma bblock_inj b c nin : BBLOCK b nin = BBLOCK c nin -> b / BPB = c / BPB.
Proof. unfold BBLOCK. lia. Qed.
Lemma bblock_mono b c nin : b <= c -> BBLOCK b nin <= BBLOCK c nin.
Proof. intros Hb. pose proof (Z.div_le_mono b c BPB bpb_pos Hb). unfold BBLOCK. lia. Qed.

Section Used.
Context (B : Z -> list Z) (nin b : Z) (Hlen : length (B (BBLOCK b nin)) = 512%nat).

Lemma used_change (f : list Z -> Z -> list Z) (g : bool -> bool -> bool) c :
  (forall d bi bj, length d = 512%nat -> 0 <= bi < BPB -> 0 <= bj < BPB ->
     bit_set (f d bi) bj = g (bj =? bi) (bit_set d bj)) -> (forall x, g false x = x) ->
  used (fupd (BBLOCK b nin) (f (B (BBLOCK b nin)) (b mod BPB)) B) nin c = g (c =? b) (used B nin c).
Proof.
  intros Hf Hg. unfold used. pose proof (Z.mod_pos_bound b BPB bpb_pos). pose proof (Z.mod_pos_bound c BPB bpb_pos).
  destruct (decide (BBLOCK c nin = BBLOCK b nin)) as [E|Hne].
  - rewrite E, fupd_eq, Hf by done. f_equal. apply bblock_inj in E.
    destruct (Z.eqb_spec c b) as [->|Hcb]; [by rewrite Z.eqb_refl|]. apply Z.eqb_neq. intros Em. apply Hcb.
    pose proof bpb_pos. rewrite (Z.div_mod c BPB), (Z.div_mod b BPB) by lia. lia.
  - rewrite fupd_ne by done. by rewrite (proj2 (Z.eqb_neq c b)), Hg by (intros ->; done).
Qed.
Lemma used_mark c :
  used (fupd (BBLOCK b nin) (mark_used (B (BBLOCK b nin)) (b mod BPB)) B) nin c = (c =? b) || used B nin c.
Proof. apply (used_change mark_used orb); [apply bit_mark_used|done]. Qed.
Lemma used_free c :
  used (fupd (BBLOCK b nin) (mark_free (B (BBLOCK b nin)) (b mod BPB)) B) nin c = negb (c =? b) && used B nin c.
Proof. apply (used_change mark_free (fun x y => negb x && y)); [apply bit_mark_free|done]. Qed.
End Used.

Lemma find_seqZ f m n bi :
  m <= bi < m + n -> f bi = true -> (forall x, m <= x < bi -> f x = false) -> find f (seqZ m n) = Some bi.
Proof.
  intros Hbi Hf Hx. assert (exists k, n = Z.of_nat k) as [k ->] by (exists (Z.to_nat n); lia).
  revert m Hbi Hx. induction k as [|k IH]; intros m Hbi Hx; [lia|].
  rewrite seqZ_cons by lia. cbn [find]. destruct (decide (m = bi)) as [->|Hne]; [by rewrite Hf|].
  rewrite Hx by lia. replace (Z.pred (Z.of_nat (S k))) with (Z.of_nat k) by lia. apply IH; [lia|]. intros x ?. apply Hx. lia.
Qed.
Lemma find_seqZ_none f m n : (forall x, m <= x < m + n -> f x = false) -> find f (seqZ m n) = None.
Proof.
  intros Hx. destruct (find f (seqZ m n)) as [x|] eqn:E; [|done]. apply find_some in E as [Hi Hf].
  apply list_elem_of_In, elem_of_seqZ in Hi. rewrite Hx in Hf by lia. done.
Qed.

(** ** [balloc] and [bfree] *)

Section Alloc.
Context {dd : DiskDriver} {ddok : DiskDriverOk}.
Context (L lsz : Z) (D0 : Z -> list Z) (W : list ((Z * Z) * list Z)).
#[local] Abbreviation fs := (fs L lsz D0 W).
#[local] Abbreviation cap := (cap lsz).

Lemma clean_set (n : Z) : ({[n]} ∪ ∅) ∖ {[n]} = (∅ : gset Z).
Proof. apply set_eq. intros x. rewrite elem_of_difference, elem_of_union, elem_of_empty. tauto. Qed.

(** The blocks that may be logged or held at once. *)
Context (S : gset Z) (HSn : (size S < NBUF)%nat) (HSl : Z.of_nat (size S) < lsz - 1).
Definition within (secs : list Z) (H : gmap Z nat) : Prop :=
  (forall x, x ∈ secs -> x ∈ S) /\ (forall x, x ∈ dom H -> x ∈ S).
Lemma within_cap secs H : NoDup secs -> within secs H -> cap secs H.
Proof. intros Hnd [H1 H2]. by apply (cap_within _ _ _ S). Qed.
Lemma within_hold n j secs H : within secs H -> n ∈ S -> within secs (<[n := j]> H).
Proof.
  intros [H1 H2] Hn. split; [done|]. intros x. rewrite dom_insert, elem_of_union, elem_of_singleton.
  intros [->|Hx]; auto.
Qed.
Lemma within_log n secs H : within secs H -> n ∈ S -> within (log_add n secs) H.
Proof. intros [H1 H2] Hn. split; [|done]. intros x [->|Hx]%elem_of_log_add; auto. Qed.

(** The end of a change: the block is logged and let go. *)
Lemma wp_log_release n j Q e s B secs H :
  fs s B secs (<[n := j]> H) ({[n]} ∪ ∅) -> within secs H -> n ∈ S -> 0 <= n < L -> n ∉ dom H ->
  (forall s', fs s' B (log_add n secs) H ∅ -> kept_but_log s s' -> Q tt s' e) ->
  wp (log_write j ;; brelse j) Q e s.
Proof.
  intros Hf Hw HS Hn Hni HQ. apply wp_bind. eapply (fs_log_write L lsz D0 W n); [exact Hf|apply lookup_insert_eq|lia| |].
  { apply within_cap; [apply (fs_nodup _ _ _ _ _ _ _ _ _ Hf)|by apply within_hold]. }
  intros s3 Hf3 Hk3. rewrite clean_set in Hf3.
  eapply (fs_brelse L lsz D0 W n); [exact Hf3|apply lookup_insert_eq|apply not_elem_of_empty|].
  intros s4 Hf4 Hk4. rewrite delete_held in Hf4 by done. apply HQ; [done|eauto using kept_but_log_trans, kept_log].
Qed.
Lemma wp_log_release_then n j {A} (K : M A) Q e s B secs H :
  fs s B secs (<[n := j]> H) ({[n]} ∪ ∅) -> within secs H -> n ∈ S -> 0 <= n < L -> n ∉ dom H ->
  (forall s', fs s' B (log_add n secs) H ∅ -> kept_but_log s s' -> wp K Q e s') ->
  wp (log_write j ;; brelse j ;; K) Q e s.
Proof.
  intros Hf Hw HS Hn Hni HQ.
  assert (wp (log_write j ;; brelse j) (fun _ s' e' => wp K Q e' s') e s) as Hwp by (by eapply wp_log_release).
  unfold wp, mbind, M_bind in *. destruct (log_write j e s) as [[]| | | | |]; try done.
  destruct (brelse j _ _); done.
Qed.

Lemma wp_bzero n Q e s B secs H :
  fs s B secs H ∅ -> within secs H -> n ∈ S -> 0 <= n < L -> n ∉ dom H ->
  (forall s', fs s' (fupd n (replicate 512 0) B) (log_add n secs) H ∅ -> kept_but_log s s' -> Q tt s' e) ->
  wp (bzero 1 n) Q e s.
Proof.
  intros Hf Hw HS Hn Hni HQ. unfold bzero. pose proof (fs_nodup _ _ _ _ _ _ _ _ _ Hf) as Hnd.
  apply wp_bind. eapply fs_bread; [exact Hf|done|done|by apply within_cap|]. intros j s1 Hf1 Hk1.
  apply wp_bind. eapply (fs_set_data L lsz D0 W n); [exact Hf1|apply lookup_insert_eq|lia|by rewrite length_replicate|].
  intros s2 Hf2 Hk2. eapply wp_log_release; [exact Hf2|done..|].
  intros s3 Hf3 Hk3. apply HQ; [done|eauto using kept_but_log_trans, kept_log].
Qed.

(** A file system of [size] blocks and [nin] inodes: the bitmap lies before the
    log, and the blocks up to its end are marked as used. *)
Record formatted (B : Z -> list Z) (size nin : Z) : Prop := {
  fm_size : sb_size (sb_of_bytes (B 1)) = size;
  fm_nin : sb_ninodes (sb_of_bytes (B 1)) = nin;
  fm_pos : 0 < size /\ 0 <= nin /\ 1 < L;
  fm_bitmap : BBLOCK (size - 1) nin < L;
  fm_meta x : 0 <= x < size -> x <= BBLOCK (size - 1) nin -> used B nin x = true;
}.

(** The first unused block is [b], a block before the log. *)
Record first_free (B : Z -> list Z) (size nin b : Z) : Prop := {
  ff_range : 0 <= b < size;
  ff_log : b < L;
  ff_free : used B nin b = false;
  ff_first x : 0 <= x < b -> used B nin x = true;
}.

Section Balloc.
Context (B : Z -> list Z) (size nin b : Z) (Hfm : formatted B size nin) (Hff : first_free B size nin b).

Lemma balloc_bitmap x : 0 <= x < size -> 0 < BBLOCK x nin < L.
Proof.
  clear HSn HSl.
  intros Hx. destruct (fm_pos _ _ _ Hfm) as (_ & Hnin & _). pose proof (fm_bitmap _ _ _ Hfm).
  pose proof (bblock_mono x (size - 1) nin ltac:(lia)). split; [|lia]. unfold BBLOCK, IPB.
  pose proof (Z.div_pos x BPB ltac:(lia) bpb_pos). pose proof (Z.div_pos nin 8 ltac:(lia) ltac:(lia)). lia.
Qed.
Lemma balloc_above : BBLOCK (size - 1) nin < b.
Proof.
  clear HSn HSl.
  destruct (Z.ltb_spec (BBLOCK (size - 1) nin) b) as [|Hle]; [done|].
  pose proof (fm_meta _ _ _ Hfm b (ff_range _ _ _ _ Hff) Hle) as Hu. rewrite (ff_free _ _ _ _ Hff) in Hu. done.
Qed.

(** The search in the bitmap block of [b0], the first of its blocks. *)
Lemma balloc_search b0 d :
  d = B (BBLOCK b0 nin) -> b0 mod BPB = 0 -> 0 <= b0 <= b ->
  find (fun bi => negb (bit_set d bi)) (seqZ 0 (Z.min BPB (size - b0))) =
    if b <? b0 + BPB then Some (b mod BPB) else None.
Proof.
  clear HSn HSl.
  intros -> Hb0 Hb. destruct Hff as [Hr Hl Hfree Hfirst]. pose proof bpb_pos as Hp.
  assert (forall bi, 0 <= bi < BPB -> bit_set (B (BBLOCK b0 nin)) bi = used B nin (b0 + bi)) as Hu.
  { intros bi Hbi. unfold used. assert (b0 = BPB * (b0 / BPB)) as E by (rewrite (Z.div_mod b0 BPB) at 1 by lia; lia).
    assert ((b0 + bi) / BPB = b0 / BPB /\ (b0 + bi) mod BPB = bi) as [E1 E2].
    { rewrite E at 1 3. rewrite Z.mul_comm, Z.add_comm, Z.div_add, Z.mod_add, Z.div_small, Z.mod_small by lia. lia. }
    rewrite E2. f_equal. f_equal. unfold BBLOCK. by rewrite E1. }
  destruct (Z.ltb_spec b (b0 + BPB)) as [Hlt|Hge].
  - assert (b mod BPB = b - b0) as ->.
    { rewrite (Z.div_mod b0 BPB), Hb0, Z.add_0_r by lia. set (q := b0 / BPB) in *.
      assert (b0 = BPB * q) as E by (rewrite (Z.div_mod b0 BPB) at 1 by lia; unfold q; lia).
      symmetry. apply (Z.mod_unique _ _ q); lia. }
    apply find_seqZ; [lia| |].
    + rewrite Hu by lia. replace (b0 + (b - b0)) with b by lia. by rewrite Hfree.
    + intros x Hx. rewrite Hu by lia. by rewrite Hfirst by lia.
  - apply find_seqZ_none. intros x Hx. rewrite Hu by lia. by rewrite Hfirst by lia.
Qed.

(** The blocks after [balloc]. *)
Definition allocated : Z -> list Z :=
  fupd b (replicate 512 0) (fupd (BBLOCK b nin) (mark_used (B (BBLOCK b nin)) (b mod BPB)) B).

Lemma balloc_loop_run fuel b0 Q e s secs H :
  fs s B secs H ∅ -> within secs H -> b ∈ S -> BBLOCK b nin ∈ S -> b ∉ dom H ->
  (forall x, 0 <= x < size -> BBLOCK x nin ∉ dom H) ->
  b0 mod BPB = 0 -> 0 <= b0 <= b -> (Z.to_nat ((b - b0) / BPB) < fuel)%nat ->
  (forall s', fs s' allocated (log_add b (log_add (BBLOCK b nin) secs)) H ∅ -> kept_but_log s s' -> Q b s' e) ->
  wp (balloc_loop fuel 1 b0 (sb_of_bytes (B 1))) Q e s.
Proof.
  intros Hf Hw HbS HbbS Hbi Hmi. revert b0 s Hf Q. induction fuel as [|fuel IH]; intros b0 s Hf Q Hb0 Hb Hfuel HQ; [lia|].
  destruct (ff_range _ _ _ _ Hff). pose proof (ff_log _ _ _ _ Hff). pose proof bpb_pos as Hp.
  cbn [balloc_loop]. rewrite (fm_size _ _ _ Hfm), (fm_nin _ _ _ Hfm), (proj2 (Z.ltb_lt _ _)) by lia.
  destruct (balloc_bitmap b0 ltac:(lia)) as [Hbb1 Hbb2]. pose proof (fs_nodup _ _ _ _ _ _ _ _ _ Hf) as Hnd.
  pose proof (fs_len _ _ _ _ _ _ _ _ _ _ Hf Hbb2) as Hlen.
  apply wp_bind. eapply fs_bread; [exact Hf|lia|by apply Hmi; lia|by apply within_cap|]. intros j s1 Hf1 Hk1.
  apply wp_bind. eapply (fs_get_data L lsz D0 W (BBLOCK b0 nin)); [exact Hf1|apply lookup_insert_eq|done|].
  rewrite (balloc_search b0) by done. destruct (Z.ltb_spec b (b0 + BPB)) as [Hlt|Hge].
  - assert (b / BPB = b0 / BPB /\ b0 + b mod BPB = b) as [Eq Eb].
    { assert (b0 = BPB * (b0 / BPB)) as E by (rewrite (Z.div_mod b0 BPB) at 1 by lia; lia).
      assert (b / BPB = b0 / BPB) as Eq by (symmetry; apply (Z.div_unique _ _ _ (b - b0)); lia).
      split; [done|]. rewrite (Z.div_mod b BPB) at 2 by lia. rewrite Eq. lia. }
    assert (BBLOCK b0 nin = BBLOCK b nin) as Ebb by (unfold BBLOCK; by rewrite Eq).
    rewrite Ebb in *. rewrite Eb.
    apply wp_bind. eapply (fs_set_data L lsz D0 W (BBLOCK b nin)); [exact Hf1|apply lookup_insert_eq|done|by rewrite length_mark_used|].
    intros s2 Hf2 Hk2. eapply wp_log_release_then; [exact Hf2|done|done|lia|by apply Hmi|]. intros s3 Hf3 Hk3.
    apply wp_bind. eapply wp_bzero; [exact Hf3|by apply within_log|done|lia|done|]. intros s4 Hf4 Hk4.
    apply wp_ret, HQ; [done|eauto 9 using kept_but_log_trans, kept_log].
  - apply wp_bind. eapply (fs_brelse L lsz D0 W (BBLOCK b0 nin)); [exact Hf1|apply lookup_insert_eq|apply not_elem_of_empty|].
    intros s2 Hf2 Hk2. rewrite delete_held in Hf2 by (by apply Hmi; lia).
    replace (sb_of_bytes (B 1)) with (sb_of_bytes (B 1)) by done. apply IH; [done| |lia| |].
    + rewrite Z.add_mod, Hb0, Z.mod_same by lia. by rewrite Z.add_0_l, Z.mod_0_l by lia.
    + replace (b - b0) with (b - (b0 + BPB) + 1 * BPB) in Hfuel by lia. rewrite Z.div_add in Hfuel by lia.
      pose proof (Z.div_pos (b - (b0 + BPB)) BPB ltac:(lia) Hp). lia.
    + intros s3 Hf3 Hk3. apply HQ; [done|eauto 9 using kept_but_log_trans, kept_log].
Qed.

Lemma wp_balloc Q e s secs H :
  fs s B secs H ∅ -> within secs H -> b ∈ S -> BBLOCK b nin ∈ S -> b ∉ dom H -> 1 ∉ dom H ->
  (forall x, 0 <= x < size -> BBLOCK x nin ∉ dom H) ->
  (forall s', fs s' allocated (log_add b (log_add (BBLOCK b nin) secs)) H ∅ -> kept_but_log s s' -> Q b s' e) ->
  wp (balloc 1) Q e s.
Proof.
  intros Hf Hw HbS HbbS Hbi H1 Hmi HQ. unfold balloc. destruct (ff_range _ _ _ _ Hff). pose proof bpb_pos as Hp.
  destruct (fm_pos _ _ _ Hfm) as (_ & _ & HL1). pose proof (fs_nodup _ _ _ _ _ _ _ _ _ Hf) as Hnd.
  apply wp_bind. eapply fs_readsb; [exact Hf|done|done|by apply within_cap|]. intros s1 Hf1 Hk1.
  eapply balloc_loop_run; [exact Hf1|done..|by rewrite Z.mod_0_l by lia|lia| |].
  - rewrite (fm_size _ _ _ Hfm), Z.sub_0_r. pose proof (Z.div_le_mono b size BPB Hp ltac:(lia)).
    pose proof (Z.div_pos b BPB ltac:(lia) Hp). lia.
  - intros s2 Hf2 Hk2. apply HQ; [done|eauto using kept_but_log_trans, kept_log].
Qed.

Lemma allocated_used : length (B (BBLOCK b nin)) = 512%nat -> forall x, 0 <= x < size ->
  used allocated nin x = (x =? b) || used B nin x.
Proof.
  clear HSn HSl.
  intros Hlen x Hx. rewrite <- used_mark by done. unfold allocated, used. rewrite (fupd_ne b); [done|].
  pose proof balloc_above. pose proof (bblock_mono x (size - 1) nin ltac:(lia)). lia.
Qed.
End Balloc.
End Alloc.

(** C25. balloc, called in a transaction on a file system with a free block before
    the log, terminates and returns the first free block [b]: the bitmap then
    marks [b] in addition to the blocks it marked, [b] is filled with zeros, both
    are in the log, no other block changes, and no buffer stays held. *)
Theorem balloc_allocates {dd : DiskDriver} {ddok : DiskDriverOk} L lsz D0 W e s B sz nin b secs :
  fs L lsz D0 W s B secs ∅ ∅ -> formatted L B sz nin -> first_free L B sz nin b ->
  (size ({[b; BBLOCK b nin]} ∪ list_to_set secs : gset Z) < NBUF)%nat ->
  Z.of_nat (size ({[b; BBLOCK b nin]} ∪ list_to_set secs : gset Z)) < lsz - 1 ->
  exists s' B' secs', balloc 1 e s = Ok b s' e /\ fs L lsz D0 W s' B' secs' ∅ ∅ /\
    (forall x, 0 <= x < sz -> used B' nin x = (x =? b) || used B nin x) /\
    B' b = replicate 512 0 /\
    (forall m, m <> b -> m <> BBLOCK b nin -> B' m = B m) /\
    (forall x, x ∈ secs' <-> x = b \/ x = BBLOCK b nin \/ x ∈ secs) /\ kept_but_log s s'.
Proof.
  intros Hf Hfm Hff HSn HSl.
  destruct (wp_ok_inv (balloc 1) (fun r s' e' => r = b /\ e' = e /\
    fs L lsz D0 W s' (allocated B nin b) (log_add b (log_add (BBLOCK b nin) secs)) ∅ ∅ /\ kept_but_log s s') e s)
    as (r & s' & e' & Hrun & -> & -> & Hf' & Hk).
  { eapply (wp_balloc L lsz D0 W _ HSn HSl B sz nin b Hfm Hff); [exact Hf| |..]; try apply not_elem_of_empty.
    - split; [|done]. intros x Hx. apply elem_of_union_r. by apply elem_of_list_to_set.
    - apply elem_of_union_l, elem_of_union_l. by apply elem_of_singleton.
    - apply elem_of_union_l, elem_of_union_r. by apply elem_of_singleton.
    - intros x _. apply not_elem_of_empty.
    - by intros s' Hf' Hk. }
  pose proof (balloc_above L B sz nin b Hfm Hff) as Hab. destruct (ff_range _ _ _ _ _ Hff).
  pose proof (balloc_bitmap L B sz nin Hfm b ltac:(done)) as [_ Hbb].
  pose proof (bblock_mono b (sz - 1) nin ltac:(lia)).
  exists s', (allocated B nin b), (log_add b (log_add (BBLOCK b nin) secs)). split_and!; try done.
  - apply (allocated_used L); try done. by eapply fs_len.
  - unfold allocated. by rewrite fupd_eq.
  - intros m Hmb Hmbb. unfold allocated. by rewrite !fupd_ne.
  - intros x. by rewrite !elem_of_log_add.
Qed.

(** [bfree] up to the check. *)
Definition bfree_read `{DiskDriver} (b : Z) : M (nat * list Z) :=
  sb ← readsb 1; bp ← bread 1 (BBLOCK b (sb_ninodes sb)); d ← get_data bp; mret (bp, d).
Definition bfree_write `{DiskDriver} (b : Z) (x : nat * list Z) : M unit :=
  if negb (bit_set x.2 (b mod BPB)) then panic "freeing free block"
  else set_data x.1 (mark_free x.2 (b mod BPB)) ;; log_write x.1 ;; brelse x.1.
Lemma bfree_split `{DiskDriver} b e s : bfree 1 b e s = (bfree_read b ≫= bfree_write b) e s.
Proof.
  unfold bfree, bfree_read, bfree_write, mbind, M_bind. destruct (readsb 1 e s) as [sb s1 e1| | | | |]; try done.
  destruct (bread 1 _ e1 s1) as [bp s2 e2| | | | |]; try done. by destruct (get_data bp e2 s2).
Qed.

(** bfree, called in a transaction: freeing a block that is marked clears its
    mark and no other, logs the bitmap block, changes no other block and holds no
    buffer afterwards; freeing a block that is not marked panics. *)
Theorem bfree_frees {dd : DiskDriver} {ddok : DiskDriverOk} L lsz D0 W e s B sz nin b secs :
  fs L lsz D0 W s B secs ∅ ∅ -> formatted L B sz nin -> 0 <= b < sz ->
  (size ({[BBLOCK b nin]} ∪ list_to_set secs : gset Z) < NBUF)%nat ->
  Z.of_nat (size ({[BBLOCK b nin]} ∪ list_to_set secs : gset Z)) < lsz - 1 ->
  if used B nin b then
    exists s' B' secs', bfree 1 b e s = Ok tt s' e /\ fs L lsz D0 W s' B' secs' ∅ ∅ /\
      (forall x, 0 <= x < sz -> used B' nin x = negb (x =? b) && used B nin x) /\
      (forall m, m <> BBLOCK b nin -> B' m = B m) /\
      (forall x, x ∈ secs' <-> x = BBLOCK b nin \/ x ∈ secs) /\ kept_but_log s s'
  else exists s', bfree 1 b e s = Panic "freeing free block" s'.
Proof.
  intros Hf Hfm Hb HSn HSl. set (S := {[BBLOCK b nin]} ∪ list_to_set secs) in *.
  assert (within S secs ∅) as Hw.
  { split; [|done]. intros x Hx. apply elem_of_union_r. by apply elem_of_list_to_set. }
  assert (BBLOCK b nin ∈ S) as HbS by (apply elem_of_union_l; by apply elem_of_singleton).
  assert (cap lsz secs ∅) as Hc by (by eapply within_cap, Hw; [..|eapply fs_nodup]).
  destruct (balloc_bitmap L B sz nin Hfm b Hb) as [Hb1 Hb2]. destruct (fm_pos _ _ _ _ Hfm) as (_ & _ & HL1).
  pose proof (fs_len _ _ _ _ _ _ _ _ _ _ Hf Hb2) as Hlen. rewrite bfree_split.
  destruct (wp_ok_inv (bfree_read b) (fun x s1 e1 => e1 = e /\ x.2 = B (BBLOCK b nin) /\
    fs L lsz D0 W s1 B secs (<[BBLOCK b nin := x.1]> ∅) ∅ /\ kept s s1) e s)
    as ([bp d] & s1 & e1 & Hrun & -> & Hd & Hf1 & Hk1).
  { unfold bfree_read. apply wp_bind. eapply fs_readsb; [exact Hf|done|apply not_elem_of_empty|done|].
    intros s1 Hf1 Hk1. rewrite (fm_nin _ _ _ _ Hfm).
    apply wp_bind. eapply fs_bread; [exact Hf1|lia|apply not_elem_of_empty|done|]. intros j s2 Hf2 Hk2.
    apply wp_bind. eapply (fs_get_data L lsz D0 W (BBLOCK b nin)); [exact Hf2|apply lookup_insert_eq|done|].
    apply wp_ret. split_and!; try done. by eapply kept_trans. }
  rewrite (bind_ok _ _ _ _ _ _ _ Hrun). unfold bfree_write. cbn [fst snd] in *. subst d.
  change (bit_set (B (BBLOCK b nin)) (b mod BPB)) with (used B nin b).
  destruct (used B nin b) eqn:Eu; cbn [negb]; [|by exists s1].
  set (B' := fupd (BBLOCK b nin) (mark_free (B (BBLOCK b nin)) (b mod BPB)) B).
  destruct (wp_ok_inv (set_data bp (mark_free (B (BBLOCK b nin)) (b mod BPB)) ;; log_write bp ;; brelse bp)
    (fun _ s2 e2 => e2 = e /\ fs L lsz D0 W s2 B' (log_add (BBLOCK b nin) secs) ∅ ∅ /\ kept_but_log s s2) e s1)
    as ([] & s2 & e2 & Hrun2 & -> & Hf2 & Hk2).
  { apply wp_bind. eapply (fs_set_data L lsz D0 W (BBLOCK b nin)); [exact Hf1|apply lookup_insert_eq|done|by rewrite length_mark_free|].
    intros s2 Hf2 Hk2. eapply (wp_log_release L lsz D0 W S HSn HSl); [exact Hf2|done|done|lia|apply not_elem_of_empty|].
    intros s3 Hf3 Hk3. split_and!; [done|done|eauto using kept_but_log_trans, kept_log]. }
  exists s2, B', (log_add (BBLOCK b nin) secs). split_and!; try done.
  - intros x _. by apply used_free.
  - intros m Hm. unfold B'. by rewrite fupd_ne.
  - intros x. by rewrite elem_of_log_add.
Qed.

(** ** Witnesses *)

#[local] Existing Instance memdrv.
#[local] Existing Instance memdrv_ok.

Lemma forall_seqZ (P : Z -> bool) m n : forallb P (seqZ m n) = true -> forall x, m <= x < m + n -> P x = true.
Proof. intros Hf x Hx. apply (proj1 (forallb_forall _ _) Hf), list_elem_of_In, elem_of_seqZ. lia. Qed.

Lemma blocks_ex_meta : forallb (used blocks_ex 200) (seqZ 0 29) = true.
Proof. vm_compute. reflexivity. Qed.
Lemma blocks_ex_formatted : formatted 980 blocks_ex 1000 200.
Proof.
  split; [by vm_compute|by vm_compute|lia|by vm_compute|]. intros x Hx Hle. change (BBLOCK (1000 - 1) 200) with 28 in Hle.
  apply (forall_seqZ _ _ _ blocks_ex_meta). lia.
Qed.
Lemma blocks_ex_free : first_free 980 blocks_ex 1000 200 29.
Proof.
  split; [lia|lia|by vm_compute|]. intros x Hx. apply (forall_seqZ _ _ _ blocks_ex_meta). lia.
Qed.

Lemma balloc_allocates_witness :
  exists s s' B', balloc 1 [] s = Ok 29 s' [] /\ used B' 200 29 = true.
Proof.
  destruct fs_ex as (s & Hf).
  destruct (balloc_allocates 980 20 blocks_ex [] [] s blocks_ex 1000 200 29 [] Hf blocks_ex_formatted blocks_ex_free)
    as (s' & B' & secs' & Hrun & _ & Hu & _).
  - vm_compute. lia.
  - vm_compute. reflexivity.
  - exists s, s', B'. split; [exact Hrun|]. rewrite (Hu 29 ltac:(lia)). reflexivity.
Defined.

Lemma bfree_frees_witness :
  exists s s', bfree 1 30 [] s = Panic "freeing free block" s'.
Proof.
  destruct fs_ex as (s & Hf).
  assert (used blocks_ex 200 30 = false) as Hu by (vm_compute; reflexivity).
  pose proof (bfree_frees 980 20 blocks_ex [] [] s blocks_ex 1000 200 30 [] Hf blocks_ex_formatted) as Hb.
  rewrite Hu in Hb. destruct Hb as (s' & Hrun); [lia|vm_compute; lia|vm_compute; reflexivity|].
  exists s, s'. exact Hrun.
Defined.

(** ** The log is not marked *)

(** The same disk with every block before the log in use. *)
Definition full_disk : gmap (Z * Z) (list Z) :=
  <[ (1, 28) := replicate 122 255 ++ [15] ++ replicate 389 0 ]> disk_ex.
Definition full_ex : kstate := (boot full_disk) <| klog := log_ex |>.

