(* ===== verification/Console.v ===== *)
(** * Console: the input half of console.c, kbd.c and uart.c's interrupt

    The line discipline of [consoleintr] over a ring of INPUT_BUF characters, the
    device functions [consoleread] and [consolewrite], and the keyboard decoder.
    What the ports return at the successive calls of [getc] in one interrupt is
    an argument. *)
From S2P Require Import Prelude Memory State Spinlock Consout Vm Sched Bio Log Inode.

(** Where the kernel copies bytes to and from: a local of the caller, or a
    virtual address. *)
Inductive dest := D_local | D_virt (va : Z).
Inductive source := S_local (l : list Z) | S_virt (va : Z).
Definition put (dst : dest) (k : Z) (l : list Z) : M unit :=
  match dst with D_local => mret tt | D_virt va => vstbytes (u32 (va + k)) l end.
Definition fetch (src : source) (k n : Z) : M (list Z) :=
  match src with
  | S_local l =>
      must (if k + n <=? Z.of_nat (length l)
            then Some (take (Z.to_nat n) (drop (Z.to_nat k) l)) else None)
  | S_virt va => vldbytes (u32 (va + k)) (Z.to_nat n)
  end.

(** ** procdump of proc.c *)

Definition state_name (st : procstate) : string :=
  match st with
  | UNUSED => "unused" | EMBRYO => "embryo" | SLEEPING => "sleep " | RUNNABLE => "runble"
  | RUNNING => "run   " | ZOMBIE => "zombie"
  end.
(** The characters of an array up to its NUL. *)
Fixpoint cstr (l : list Z) : list Z :=
  match l with
  | [] => []
  | c :: l' => if c =? 0 then [] else c :: cstr l'
  end.
(** [pcs i]: what getcallerpcs finds on the kernel stack of process [i]. *)
Definition procdump_one (pcs : nat -> list Z) (i : nat) : M unit :=
  p ← getp i;
  if decide (p_state p = UNUSED) then mret tt
  else
    cprintf "%d %s %s"
      [A_int (p_pid p); A_str (Some (bytes_of_string (state_name (p_state p))));
       A_str (Some (cstr (p_name p)))] ;;
    when (bool_decide (p_state p = SLEEPING))
      (mforeach (cstr (take 10 (pcs i))) (fun pc => cprintf " %p" [A_int pc])) ;;
    cprintf nl [].
Definition procdump (pcs : nat -> list Z) : M unit := mforeach (seq 0 NPROC) (procdump_one pcs).

(** ** consoleintr *)

Definition INPUT_BUF : Z := 128.
Definition ctrl (c : Z) : Z := c - 64.
Definition CTRL_P : Z := ctrl 80.
Definition CTRL_U : Z := ctrl 85.
Definition CTRL_H : Z := ctrl 72.
Definition CTRL_D : Z := ctrl 68.
Definition DEL : Z := 0x7f.
Definition CR : Z := 13.

(** [input.buf[k % INPUT_BUF]] *)
Definition input_at (k : console) (i : Z) : Z := cn_buf k !!! Z.to_nat (u32 i mod INPUT_BUF).

Definition backspace : M unit :=
  set_cons (fun k => k <| cn_e := u32 (cn_e k - 1) |>) ;; consputc BACKSPACE.

(** The loop of ^U; [input.e] counts down to [input.w]. *)
Fixpoint kill_line (fuel : nat) : M unit :=
  k ← gets kcons;
  if negb (cn_e k =? cn_w k) && negb (input_at k (cn_e k - 1) =? NL) then
    match fuel with
    | O => diverge
    | S n => backspace ;; kill_line n
    end
  else mret tt.

Definition console_char (c : Z) : M unit :=
  k ← gets kcons;
  when (negb (c =? 0) && (u32 (cn_e k - cn_r k) <? INPUT_BUF))
    (let c := if c =? CR then NL else c in
     set_cons (fun k => k <| cn_buf ::= <[Z.to_nat (cn_e k mod INPUT_BUF) := s8 c]> |>
                          <| cn_e := u32 (cn_e k + 1) |>) ;;
     consputc c ;;
     k ← gets kcons;
     when ((c =? NL) || (c =? CTRL_D) || (cn_e k =? u32 (cn_r k + INPUT_BUF)))
       (set_cons (fun k => k <| cn_w := cn_e k |>) ;; wakeup Ch_input)).

(** The body of the [while] for a character [c >= 0]. *)
Definition console_key (pcs : nat -> list Z) (c : Z) : M unit :=
  if c =? CTRL_P then procdump pcs
  else if c =? CTRL_U then
    k ← gets kcons; kill_line (Z.to_nat (u32 (cn_e k - cn_w k)))
  else if (c =? CTRL_H) || (c =? DEL) then
    k ← gets kcons; when (negb (cn_e k =? cn_w k)) backspace
  else console_char c.

(** [getc] applied to the readings [ins] of its ports, until it returns a
    negative number. *)
Fixpoint consoleintr_loop {A} (pcs : nat -> list Z) (getc : A -> M Z) (ins : list A) : M unit :=
  match ins with
  | [] => diverge
  | x :: ins' =>
      c ← getc x;
      if 0 <=? c then console_key pcs c ;; consoleintr_loop pcs getc ins' else mret tt
  end.
Definition consoleintr {A} (pcs : nat -> list Z) (getc : A -> M Z) (ins : list A) : M unit :=
  acquire L_input ;;
  consoleintr_loop pcs getc ins ;;
  release L_input.

Definition uartintr (pcs : nat -> list Z) (ins : list (Z * Z)) : M unit :=
  consoleintr pcs (fun x => uartgetc (fst x) (snd x)) ins.

(** ** The device functions *)

Section Device.
Context `{DiskDriver}.

(** [while(input.r == input.w)]: whether the process was killed. *)
Definition wait_input : M bool :=
  mloop_sleep
    (k ← gets kcons;
     if cn_r k =? cn_w k then
       p ← curproc;
       if truth (p_killed p) then mret (Some true)
       else sleep Ch_input L_input ;; mret None
     else mret (Some false)).

(** [while(n > 0)], from [n] characters still wanted: how many are left when
    the loop ends, or [None] when killed, and the characters read. *)
Fixpoint consoleread_loop (fuel : nat) (dst : dest) (n target : Z) (acc : list Z) :
    M (option Z * list Z) :=
  match fuel with
  | O => mret (Some n, acc)
  | S f =>
      killed ← wait_input;
      if killed : bool then mret (None, acc)
      else
        k ← gets kcons;
        let c := input_at k (cn_r k) in
        set_cons (fun k => k <| cn_r := u32 (cn_r k + 1) |>) ;;
        if c =? CTRL_D then
          when (n <? target) (set_cons (fun k => k <| cn_r := u32 (cn_r k - 1) |>)) ;;
          mret (Some n, acc)
        else
          put dst (target - n) [u8 c] ;;
          if c =? NL then mret (Some (n - 1), acc ++ [u8 c])
          else consoleread_loop f dst (n - 1) target (acc ++ [u8 c])
  end.
(** The result and the characters stored at [dst]. *)
Definition consoleread (i : nat) (dst : dest) (n : Z) : M (Z * list Z) :=
  iunlock i ;;
  acquire L_input ;;
  '(r, l) ← consoleread_loop (Z.to_nat n) dst n n [];
  release L_input ;;
  ilock i ;;
  mret (match r with None => -1 | Some rest => n - rest end, l).

Definition consolewrite (i : nat) (src : source) (n : Z) : M Z :=
  iunlock i ;;
  acquire L_cons ;;
  mforeach (seqZ 0 n) (fun k => l ← fetch src k 1; mforeach l (fun c => consputc (u8 c))) ;;
  release L_cons ;;
  ilock i ;;
  mret n.

End Device.

(** ** kbd.c *)

Module Kbd.
Definition SHIFT : Z := 1.
Definition CTL : Z := 2.
Definition ALT : Z := 4.
Definition CAPSLOCK : Z := 8.
Definition NUMLOCK : Z := 16.
Definition SCROLLLOCK : Z := 32.
Definition E0ESC : Z := 64.
Definition KBS_DIB : Z := 1.

(** The arrays of kbd.h: a prefix, and the designated entries after it. *)
Definition table (prefix : list Z) (special : list (Z * Z)) (k : Z) : Z :=
  match prefix !! Z.to_nat k with
  | Some c => c
  | None => default 0 ((list_to_map special : gmap Z Z) !! k)
  end.
Definition shiftcode : Z -> Z :=
  table [] [(0x1D, CTL); (0x2A, SHIFT); (0x36, SHIFT); (0x38, ALT); (0x9D, CTL); (0xB8, ALT)].
Definition togglecode : Z -> Z :=
  table [] [(0x3A, CAPSLOCK); (0x45, NUMLOCK); (0x46, SCROLLLOCK)].
(** The cursor block: KEY_UP, KEY_DN, KEY_PGUP, KEY_PGDN, KEY_LF, KEY_RT,
    KEY_HOME, KEY_END, KEY_INS and KEY_DEL. *)
Definition key_block : list (Z * Z) :=
  [(0xC8, 0xE2); (0xD0, 0xE3); (0xC9, 0xE6); (0xD1, 0xE7); (0xCB, 0xE4); (0xCD, 0xE5);
   (0x97, 0xE0); (0xCF, 0xE1); (0xD2, 0xE8); (0xD3, 0xE9)].
Definition str : string -> list Z := bytes_of_string.
Definition keypad : list Z := str "789-456+1230." ++ [0; 0; 0; 0].
Definition normalmap : Z -> Z :=
  table ([0; 0x1B] ++ str "1234567890-=" ++ [8; 9] ++ str "qwertyuiop[]" ++ [10; 0]
    ++ str "asdfghjkl;'`" ++ [0] ++ str "\zxcvbnm,./" ++ [0] ++ str "*" ++ [0] ++ str " "
    ++ replicate 13 0 ++ keypad)
    ([(0x9C, 10); (0xB5, 47)] ++ key_block).
Definition shiftmap : Z -> Z :=
  table ([0; 27] ++ str "!@#$%^&*()_+" ++ [8; 9] ++ str "QWERTYUIOP{}" ++ [10; 0]
    ++ str "ASDFGHJKL:" ++ [34] ++ str "~" ++ [0] ++ str "|ZXCVBNM<>?" ++ [0] ++ str "*" ++ [0] ++ str " "
    ++ replicate 13 0 ++ keypad)
    ([(0x9C, 10); (0xB5, 47)] ++ key_block).
Definition ctl (s : string) : list Z := map (fun c => u8 (c - 64)) (str s).
Definition ctlmap : Z -> Z :=
  table (replicate 16 0 ++ ctl "QWERTYUIOP" ++ [0; 0; 13; 0] ++ ctl "ASDFGHJKL" ++ [0; 0; 0; 0]
    ++ ctl "\ZXCVBNM" ++ [0; 0] ++ ctl "/" ++ [0; 0])
    ([(0x9C, 13); (0xB5, u8 (47 - 64))] ++ key_block).
Definition charcode (k : Z) : Z -> Z :=
  if k =? 0 then normalmap else if k =? 1 then shiftmap else ctlmap.

(** A scan code [data] in shift state [shift]: the new state and the character. *)
Definition decode (shift data : Z) : Z * Z :=
  if data =? 0xE0 then (Z.lor shift E0ESC, 0)
  else if truth (Z.land data 0x80) then
    let data := if truth (Z.land shift E0ESC) then data else Z.land data 0x7F in
    (Z.land shift (u32 (Z.lnot (Z.lor (shiftcode data) E0ESC))), 0)
  else
    let '(data, shift) :=
      if truth (Z.land shift E0ESC)
      then (Z.lor data 0x80, Z.land shift (u32 (Z.lnot E0ESC))) else (data, shift) in
    let shift := Z.lor shift (shiftcode data) in
    let shift := Z.lxor shift (togglecode data) in
    let c := charcode (Z.land shift (Z.lor CTL SHIFT)) data in
    let c :=
      if truth (Z.land shift CAPSLOCK) then
        if (97 <=? c) && (c <=? 122) then c - 32
        else if (65 <=? c) && (c <=? 90) then c + 32 else c
      else c in
    (shift, c).

(** [kbdgetc], given what the status and data ports read. *)
Definition kbdgetc (st data : Z) : M Z :=
  if Z.land st KBS_DIB =? 0 then mret (-1)
  else
    k ← gets kcons;
    let '(shift, c) := decode (cn_shift k) data in
    set_cons (fun k => k <| cn_shift := shift |>) ;;
    mret c.
Definition kbdintr (pcs : nat -> list Z) (ins : list (Z * Z)) : M unit :=
  consoleintr pcs (fun x => kbdgetc (fst x) (snd x)) ins.
End Kbd.
