(* ===== verification/Line.v ===== *)
(** * Line: the line discipline of the console

    The characters of the input ring between [input.r] and [input.w] are the lines
    that processes can read; those up to [input.e] are being edited. *)
From S2P Require Import Prelude Memory State Spinlock Consout Vm Sched Bio Log Inode Console.

(** ** The ring *)

(** The ring holds the characters [l]. *)
Record ring (k : console) (l : list Z) : Prop := {
  rg_buf : length (cn_buf k) = 128%nat;
  rg_r : 0 <= cn_r k < W32;
  rg_e : cn_e k = u32 (cn_r k + Z.of_nat (length l));
  rg_room : (length l <= 128)%nat;
  rg_at j c : l !! j = Some c -> input_at k (cn_r k + Z.of_nat j) = c;
}.
(** It holds [com], which can be read, and then [ed], which is being edited. *)
Record lines (k : console) (com ed : list Z) : Prop := {
  ln_ring : ring k (com ++ ed);
  ln_w : cn_w k = u32 (cn_r k + Z.of_nat (length com));
  ln_ed : NL ∉ ed;
}.

(** What a key does to the two lists. *)
Definition edit (c : Z) (x : list Z * list Z) : list Z * list Z :=
  let '(com, ed) := x in
  if c =? CTRL_U then (com, [])
  else if (c =? CTRL_H) || (c =? DEL) then (com, take (length ed - 1) ed)
  else if (c =? 0) || (128 <=? length (com ++ ed))%nat then (com, ed)
  else
    let c := if c =? CR then NL else c in
    let ed := ed ++ [s8 c] in
    if (c =? NL) || (c =? CTRL_D) || (length (com ++ ed) =? 128)%nat then (com ++ ed, []) else (com, ed).

(** The parts of the console that output changes. *)
Record same_input (k k' : console) : Prop := {
  si_buf : cn_buf k' = cn_buf k;
  si_r : cn_r k' = cn_r k;
  si_w : cn_w k' = cn_w k;
  si_e : cn_e k' = cn_e k;
  si_panicked : cn_panicked k' = cn_panicked k;
  si_uart : cn_hasuart k' = cn_hasuart k;
}.
Lemma same_input_trans a b c : same_input a b -> same_input b c -> same_input a c.
Proof. intros [] []. split; congruence. Qed.
Lemma ring_same k k' l : same_input k k' -> ring k l -> ring k' l.
Proof.
  intros [E1 E2 E3 E4 _ _] [H1 H2 H4 H5 H6]. split; rewrite ?E1, ?E2, ?E3, ?E4; try done.
  intros j c Hj. unfold input_at. rewrite E1. by apply H6.
Qed.
Lemma lines_same k k' com ed : same_input k k' -> lines k com ed -> lines k' com ed.
Proof. intros Hs [Hr H3 H7]. split; [by eapply ring_same| |done]. by rewrite (si_w _ _ Hs), (si_r _ _ Hs). Qed.

(** A step of the console: only its own state and, by a wakeup, the states of
    processes change. *)
Definition cons_step (s s' : kstate) : Prop :=
  s' = s <| kcons := kcons s' |> <| ptable := ptable s' |> /\
  (ptable s' = ptable s \/ ptable s' = map (wake (Some Ch_input)) (ptable s)).
Lemma cons_step_kcons s k : cons_step s (s <| kcons := k |>).
Proof. split; [by destruct s|by left]. Qed.
Lemma wake_wake ch p : wake ch (wake ch p) = wake ch p.
Proof.
  unfold wake at 2 3. destruct (decide (p_state p = SLEEPING /\ p_chan p = ch)) as [H|H]; unfold wake.
  - by rewrite decide_False by (intros [? _]; done).
  - by rewrite decide_False.
Qed.
Lemma cons_step_trans a b c : cons_step a b -> cons_step b c -> cons_step a c.
Proof.
  intros [E1 H1] [E2 H2]. split.
  - rewrite E2, E1. by destruct a.
  - destruct H1 as [H1|H1], H2 as [H2|H2]; rewrite ?H2, ?H1; auto. right. rewrite map_map. apply map_ext. intros. apply wake_wake.
Qed.
Lemma cons_step_cpu s s' : cons_step s s' -> kcpu s' = kcpu s /\ locks s' = locks s.
Proof. intros [E _]. rewrite E. by split. Qed.

(** ** Output leaves the input alone *)

Lemma wp_set_cons f (Q : unit -> kstate -> env -> Prop) e s : Q tt (s <| kcons ::= f |>) e -> wp (set_cons f) Q e s.
Proof. done. Qed.

Lemma wp_uartputc c (Q : unit -> kstate -> env -> Prop) e s :
  (forall s', cons_step s s' -> same_input (kcons s) (kcons s') -> Q tt s' e) -> wp (uartputc c) Q e s.
Proof.
  intros HQ. unfold uartputc. apply wp_bind, wp_gets. unfold when. destruct (truth _).
  - apply wp_set_cons, HQ; [apply cons_step_kcons|by split].
  - apply wp_ret, HQ; [split; [by destruct s|by left]|by split].
Qed.
Lemma wp_consputc c (Q : unit -> kstate -> env -> Prop) e s : cn_panicked (kcons s) = 0 ->
  (forall s', cons_step s s' -> same_input (kcons s) (kcons s') -> Q tt s' e) -> wp (consputc c) Q e s.
Proof.
  intros Hp HQ. unfold consputc. apply wp_bind, wp_gets. rewrite Hp. cbv [truth]. cbn [Z.eqb negb].
  assert (forall s1, cons_step s s1 -> same_input (kcons s) (kcons s1) -> wp (cgaputc c) Q e s1) as Hcga.
  { intros s1 Hs1 Hi1. apply wp_set_cons, HQ.
    - eapply cons_step_trans; [exact Hs1|apply cons_step_kcons].
    - eapply same_input_trans; [exact Hi1|]. rsimpl. destruct (cga_step _ _ c) as [pos crt]. by split. }
  apply wp_bind. destruct (c =? BACKSPACE).
  - apply wp_bind, wp_uartputc. intros s1 Hs1 Hi1. apply wp_bind, wp_uartputc. intros s2 Hs2 Hi2. apply wp_uartputc. intros s3 Hs3 Hi3.
    apply Hcga; [by do 2 (eapply cons_step_trans; [eassumption|])|by do 2 (eapply same_input_trans; [eassumption|])].
  - apply wp_uartputc. intros s1 Hs1 Hi1. by apply Hcga.
Qed.

(** ** Editing *)

Lemma u32_add a b : u32 (u32 a + b) = u32 (a + b).
Proof. mlia. Qed.
Lemma u32_eq_iff r m n : 0 <= m <= 128 -> 0 <= n <= 128 -> u32 (r + m) = u32 (r + n) -> m = n.
Proof. mlia. Qed.
Lemma index_shift r m : (u32 (u32 (r + m))) mod 128 = u32 (r + m) mod 128.
Proof. mlia. Qed.

(** Removing the last character. *)
Lemma lines_back k com ed : lines k com ed -> ed <> [] ->
  lines (k <| cn_e := u32 (cn_e k - 1) |>) com (take (length ed - 1) ed) /\ cn_e k <> cn_w k /\ input_at k (cn_e k - 1) <> NL.
Proof.
  intros [[H1 H2 H4 H5 H6] H3 H7] Hne. destruct ed as [|c ed _] using rev_ind; [done|]. rewrite length_app, length_app in *. cbn [length] in *.
  replace (length ed + 1 - 1)%nat with (length ed) by lia. rewrite take_app_length.
  split; [split; [split; rsimpl; try done|done|]|split].
  - rewrite H4, length_app. mlia.
  - rewrite length_app. lia.
  - intros j x Hj. unfold input_at. rsimpl. apply H6. rewrite app_assoc. by apply lookup_app_l_Some.
  - intros Hin. apply H7, elem_of_app. by left.
  - rewrite H3, H4. intros E. apply u32_eq_iff in E; lia.
  - intros E. apply H7, elem_of_app. right. apply list_elem_of_singleton. rewrite <- E.
    rewrite <- (H6 (length com + length ed)%nat c); [|by rewrite app_assoc, lookup_app_r, length_app, Nat.sub_diag by (rewrite length_app; lia)].
    unfold input_at. do 2 f_equal. rewrite H4. f_equal. mlia.
Qed.

Lemma wp_backspace com ed (Q : unit -> kstate -> env -> Prop) e s :
  lines (kcons s) com ed -> ed <> [] -> cn_panicked (kcons s) = 0 ->
  (forall s', cons_step s s' -> lines (kcons s') com (take (length ed - 1) ed) -> cn_panicked (kcons s') = 0 ->
     cn_hasuart (kcons s') = cn_hasuart (kcons s) -> Q tt s' e) ->
  wp backspace Q e s.
Proof.
  intros Hl Hne Hp HQ. unfold backspace. apply wp_bind, wp_set_cons, wp_consputc; [done|]. intros s' Hs' Hi'.
  destruct (lines_back _ _ _ Hl Hne) as [Hl' _]. apply HQ.
  - eapply cons_step_trans; [apply (cons_step_kcons s)|exact Hs'].
  - eapply lines_same; [exact Hi'|exact Hl'].
  - rewrite (si_panicked _ _ Hi'). done.
  - rewrite (si_uart _ _ Hi'). done.
Qed.

Lemma wp_kill_line com (Q : unit -> kstate -> env -> Prop) e : forall fuel ed s,
  lines (kcons s) com ed -> cn_panicked (kcons s) = 0 -> (length ed <= fuel)%nat ->
  (forall s', cons_step s s' -> lines (kcons s') com [] -> cn_panicked (kcons s') = 0 ->
     cn_hasuart (kcons s') = cn_hasuart (kcons s) -> Q tt s' e) ->
  wp (kill_line fuel) Q e s.
Proof.
  induction fuel as [|fuel IH]; intros ed s Hl Hp Hf HQ; cbn [kill_line]; apply wp_bind, wp_gets; (destruct (decide (ed = [])) as [->|Hne]; [|]).
  1,3: replace (cn_e (kcons s) =? cn_w (kcons s)) with true by (rewrite (rg_e _ _ (ln_ring _ _ _ Hl)), (ln_w _ _ _ Hl), app_nil_r; by rewrite Z.eqb_refl);
    apply wp_ret, HQ; try done; split; [by destruct s|by left].
  - destruct ed; [done|cbn in Hf; lia].
  - destruct (lines_back _ _ _ Hl Hne) as (_ & H1 & H2). rewrite (proj2 (Z.eqb_neq _ _) H1), (proj2 (Z.eqb_neq _ _) H2). cbn [negb andb].
    apply wp_bind. eapply wp_backspace; [exact Hl|done|done|]. intros s' Hs' Hl' Hp' Hu'. eapply IH; [exact Hl'|done| |].
    + rewrite length_take. destruct ed; [done|]. cbn in *. lia.
    + intros s2 Hs2 Hl2 Hp2 Hu2. apply HQ; [by eapply cons_step_trans|done|done|by rewrite Hu2].
Qed.

(** Adding a character at the end. *)
Lemma ring_add k l c : ring k l -> (length l < 128)%nat ->
  ring (k <| cn_buf ::= <[Z.to_nat (cn_e k mod INPUT_BUF) := c]> |> <| cn_e := u32 (cn_e k + 1) |>) (l ++ [c]).
Proof.
  intros [H1 H2 H4 H5 H6] Hlt. split; rsimpl; rewrite ?length_app; try done.
  - by rewrite length_insert.
  - rewrite H4, u32_add. f_equal. cbn. lia.
  - cbn. lia.
  - intros j x Hj. unfold input_at, INPUT_BUF. rsimpl. rewrite H4. unfold INPUT_BUF in *.
    destruct (decide (j = length l)) as [->|Hne].
    + rewrite lookup_app_r, Nat.sub_diag in Hj by lia. injection Hj as <-. apply list_lookup_total_insert_eq. rewrite H1. mlia.
    + apply lookup_app_Some in Hj as [Hj|[Hge Hj]]; [|apply list_lookup_singleton_Some in Hj as [? _]; lia]. apply lookup_lt_Some in Hj as Hlj.
      rewrite list_lookup_total_insert_ne by mlia. by apply H6.
Qed.

Lemma wp_wakeup (Q : unit -> kstate -> env -> Prop) ch e s c0 : kcpu s = pushed c0 -> cpu_ok c0 -> lock_free s L_ptable ->
  Q tt (s <| ptable ::= map (wake (Some ch)) |>) e -> wp (wakeup ch) Q e s.
Proof.
  intros Ec Hok Hl HQ. assert (cpu_ok (kcpu s)) as Hok' by (rewrite Ec; destruct Hok; split; cbn; [lia|done]).
  apply (wp_ok _ _ _ _ _ _ _ (wakeup_run ch e s Hok' Hl)). replace (refresh s) with s; [done|]. unfold refresh. rewrite Ec, refreshed_pushed, <- Ec by done.
  by destruct s.
Qed.

(** The processor is in a critical section and the process table is free. *)
Record at_work (s : kstate) : Prop := {
  aw_cpu : exists c0, kcpu s = pushed c0 /\ cpu_ok c0;
  aw_ptable : lock_free s L_ptable;
  aw_panicked : cn_panicked (kcons s) = 0;
}.
Lemma at_work_step s s' : cons_step s s' -> cn_panicked (kcons s') = 0 -> at_work s -> at_work s'.
Proof.
  intros Hs Hp [Hc [n Hl] _]. destruct (cons_step_cpu _ _ Hs) as [Ec El]. split; [by rewrite Ec|exists n; by rewrite El|done].
Qed.

Lemma s8_nl c : 0 <= c < 256 -> s8 c = NL -> c = NL.
Proof. unfold NL. intros Hc E. mlia. Qed.

Lemma wp_console_char c com ed (Q : unit -> kstate -> env -> Prop) e s :
  at_work s -> lines (kcons s) com ed -> 0 <= c < 256 -> c <> CTRL_U -> c <> CTRL_H -> c <> DEL ->
  (forall s', cons_step s s' -> at_work s' -> lines (kcons s') (edit c (com, ed)).1 (edit c (com, ed)).2 ->
     cn_hasuart (kcons s') = cn_hasuart (kcons s) -> Q tt s' e) ->
  wp (console_char c) Q e s.
Proof.
  intros Haw Hl Hc N1 N2 N3 HQ. unfold console_char. apply wp_bind, wp_gets. unfold edit in HQ.
  rewrite (proj2 (Z.eqb_neq _ _) N1), (proj2 (Z.eqb_neq _ _) N2), (proj2 (Z.eqb_neq _ _) N3) in HQ. cbn [orb] in HQ.
  pose proof (ln_ring _ _ _ Hl) as Hr. pose proof (rg_room _ _ Hr) as Hroom.
  assert ((u32 (cn_e (kcons s) - cn_r (kcons s)) <? INPUT_BUF) = negb (128 <=? length (com ++ ed))%nat) as Er.
  { rewrite (rg_e _ _ Hr). unfold INPUT_BUF. pose proof (rg_r _ _ Hr).
    replace (u32 (u32 (cn_r (kcons s) + Z.of_nat (length (com ++ ed))) - cn_r (kcons s))) with (Z.of_nat (length (com ++ ed))) by mlia.
    destruct (Nat.leb_spec 128 (length (com ++ ed))), (Z.ltb_spec (Z.of_nat (length (com ++ ed))) 128); cbn; lia. }
  rewrite Er, <- negb_orb. destruct ((c =? 0) || (128 <=? length (com ++ ed))%nat) eqn:Ecase; cbn [negb when].
  { apply wp_ret, HQ; try done. split; [by destruct s|by left]. }
  apply orb_false_iff in Ecase as [_ Elt]. apply Nat.leb_gt in Elt. cbv zeta in HQ. set (c1 := if c =? CR then NL else c) in *.
  assert (0 <= c1 < 256) as Hc1 by (unfold c1, NL; destruct (c =? CR); lia).
  apply wp_bind, wp_set_cons. apply wp_bind. apply wp_consputc; [apply (aw_panicked _ Haw)|]. intros s1 Hs1 Hi1.
  pose proof (ring_add _ _ (s8 c1) Hr Elt) as Hr1.
  assert (cons_step s s1) as Hs01 by (eapply cons_step_trans; [apply (cons_step_kcons s)|exact Hs1]).
  apply wp_bind, wp_gets. pose proof (ring_same _ _ _ Hi1 Hr1) as Hr2. rewrite <- app_assoc in Hr2.
  assert (cn_panicked (kcons s1) = 0) as Hp1 by (rewrite (si_panicked _ _ Hi1); apply (aw_panicked _ Haw)).
  pose proof (at_work_step _ _ Hs01 Hp1 Haw) as Haw1. pose proof (si_uart _ _ Hi1) as Hu1. rsimpl in Hu1.
  assert ((cn_e (kcons s1) =? u32 (cn_r (kcons s1) + INPUT_BUF)) = (length (com ++ ed ++ [s8 c1]) =? 128)%nat) as Efull.
  { pose proof (rg_room _ _ Hr2) as Hlen. rewrite (rg_e _ _ Hr2). unfold INPUT_BUF. destruct (Nat.eqb_spec (length (com ++ ed ++ [s8 c1])) 128) as [->|Hne].
    - apply Z.eqb_refl.
    - apply Z.eqb_neq. intros E. apply u32_eq_iff in E; lia. }
  rewrite Efull. set (full := (c1 =? NL) || (c1 =? CTRL_D) || _) in *. destruct full eqn:Ef; cbn [when fst snd] in *.
  - apply wp_bind, wp_set_cons. destruct (aw_cpu _ Haw1) as (c0 & Ec & Hok). apply (wp_wakeup _ _ _ _ c0); [exact Ec|done|exact (aw_ptable _ Haw1)|].
    apply HQ.
    + eapply cons_step_trans; [exact Hs01|]. split; [by destruct s1|by right].
    + destruct Haw1 as [? [n ?] ?]. by split; [|exists n|].
    + destruct Hr2 as [R1 R2 R4 R5 R6]. split; rsimpl; rewrite ?app_nil_r; [by split|done|by intros ?%not_elem_of_nil].
    + exact Hu1.
  - apply wp_ret, HQ; [done|done| |exact Hu1]. split; [done| |].
    + rewrite (si_w _ _ Hi1), (si_r _ _ Hi1). exact (ln_w _ _ _ Hl).
    + intros [?|E%list_elem_of_singleton]%elem_of_app; [by apply (ln_ed _ _ _ Hl)|]. symmetry in E. apply s8_nl in E; [|done].
      unfold full in Ef. by rewrite E in Ef.
Qed.

Lemma wp_console_key pcs c com ed (Q : unit -> kstate -> env -> Prop) e s :
  at_work s -> lines (kcons s) com ed -> 0 <= c < 256 -> c <> CTRL_P ->
  (forall s', cons_step s s' -> at_work s' -> lines (kcons s') (edit c (com, ed)).1 (edit c (com, ed)).2 ->
     cn_hasuart (kcons s') = cn_hasuart (kcons s) -> Q tt s' e) ->
  wp (console_key pcs c) Q e s.
Proof.
  intros Haw Hl Hc Hp HQ. unfold console_key. rewrite (proj2 (Z.eqb_neq _ _) Hp). pose proof (aw_panicked _ Haw) as Hpan.
  destruct (Z.eqb_spec c CTRL_U) as [->|N1].
  { apply wp_bind, wp_gets. eapply wp_kill_line; [exact Hl|done| |].
    - rewrite (rg_e _ _ (ln_ring _ _ _ Hl)), (ln_w _ _ _ Hl). pose proof (rg_room _ _ (ln_ring _ _ _ Hl)) as Hr. rewrite length_app in *. mlia.
    - intros s' Hs' Hl' Hp' Hu'. apply HQ; try done. by eapply at_work_step. }
  destruct ((c =? CTRL_H) || (c =? DEL)) eqn:Eb.
  { assert (edit c (com, ed) = (com, take (length ed - 1) ed)) as Ee by (unfold edit; by rewrite (proj2 (Z.eqb_neq _ _) N1), Eb). rewrite Ee in HQ.
    apply wp_bind, wp_gets. destruct (decide (ed = [])) as [->|Hne].
    - replace (cn_e (kcons s) =? cn_w (kcons s)) with true by (rewrite (rg_e _ _ (ln_ring _ _ _ Hl)), (ln_w _ _ _ Hl), app_nil_r; by rewrite Z.eqb_refl).
      apply wp_ret, HQ; try done. split; [by destruct s|by left].
    - destruct (lines_back _ _ _ Hl Hne) as (_ & H1 & _). rewrite (proj2 (Z.eqb_neq _ _) H1). cbn [negb when].
      eapply wp_backspace; [exact Hl|done|done|]. intros s' Hs' Hl' Hp' Hu'. apply HQ; try done. by eapply at_work_step. }
  apply orb_false_iff in Eb as [E2 E3]. apply Z.eqb_neq in E2, E3. by eapply wp_console_char.
Qed.

(** ** The interrupt *)

Definition edits (keys : list Z) (x : list Z * list Z) : list Z * list Z := fold_left (fun x c => edit c x) keys x.
Lemma wp_uart_loop pcs x (Q : unit -> kstate -> env -> Prop) e : forall keys com ed s,
  at_work s -> lines (kcons s) com ed -> cn_hasuart (kcons s) <> 0 -> Forall (fun c => 0 <= c < 256 /\ c <> CTRL_P) keys ->
  Z.land x.1 1 = 0 ->
  (forall s', cons_step s s' -> lines (kcons s') (edits keys (com, ed)).1 (edits keys (com, ed)).2 -> Q tt s' e) ->
  wp (consoleintr_loop pcs (fun x => uartgetc x.1 x.2) (map (pair 1) keys ++ [x])) Q e s.
Proof.
  induction keys as [|c keys IH]; intros com ed s Haw Hl Hu Hk Hx HQ; cbn [map app consoleintr_loop].
  - apply wp_bind. unfold uartgetc. apply wp_bind, wp_gets. cbv [truth]. rewrite (proj2 (Z.eqb_neq _ _) Hu), Hx. cbn [negb Z.eqb].
    apply wp_ret. cbn. apply wp_ret, HQ; [split; [by destruct s|by left]|done].
  - apply Forall_cons in Hk as [[Hc Hp] Hk]. apply wp_bind. unfold uartgetc at 1. apply wp_bind, wp_gets. cbv [truth].
    rewrite (proj2 (Z.eqb_neq _ _) Hu). cbn [negb fst snd Z.land Pos.land Z.eqb]. apply wp_ret. rewrite (proj2 (Z.leb_le 0 c)) by lia.
    apply wp_bind. eapply wp_console_key; [done|exact Hl|done|done|]. intros s1 Hs1 Haw1 Hl1 Hu1.
    destruct (edit c (com, ed)) as [com1 ed1] eqn:Ee. eapply IH; [done|exact Hl1|by rewrite Hu1|done|done|].
    intros s2 Hs2 Hl2. apply HQ; [by eapply cons_step_trans|]. cbn [edits fold_left]. by rewrite Ee.
Qed.

(** C30. The line discipline: an interrupt of the serial line that delivers any keys
    (other than ^P) edits the current line as the keys say. Backspace and ^U never
    reach into a finished line, a character that does not fit into the ring of 128
    is dropped, and a line is released to readers by a newline, by ^D or when the
    ring is full. Only the console changes, and processes waiting for input become
    runnable. The counters may have wrapped around. *)
Theorem uartintr_edits pcs keys x name com ed e s :
  cpu_ok (kcpu s) -> locks s !! L_input = Some (Spinlock 0 name None) -> lock_free s L_ptable ->
  cn_panicked (kcons s) = 0 -> cn_hasuart (kcons s) <> 0 -> lines (kcons s) com ed ->
  Forall (fun c => 0 <= c < 256 /\ c <> CTRL_P) keys -> Z.land x.1 1 = 0 ->
  exists s', uartintr pcs (map (pair 1) keys ++ [x]) e s = Ok tt s' e /\
    lines (kcons s') (edits keys (com, ed)).1 (edits keys (com, ed)).2 /\
    s' = refresh s <| kcons := kcons s' |> <| ptable := ptable s' |> /\
    (ptable s' = ptable s \/ ptable s' = map (wake (Some Ch_input)) (ptable s)).
Proof.
  intros Hok Hl Hpt Hp Hu Hln Hk Hx. unfold uartintr, consoleintr. rewrite (acquire_bind _ name) by done.
  set (s1 := locked_state L_input name s).
  destruct (wp_ok_inv (consoleintr_loop pcs (fun x => uartgetc x.1 x.2) (map (pair 1) keys ++ [x]))
    (fun _ s2 e2 => e2 = e /\ cons_step s1 s2 /\ lines (kcons s2) (edits keys (com, ed)).1 (edits keys (com, ed)).2) e s1)
    as ([] & s2 & e2 & Hrun & -> & Hst & Hln2).
  { eapply (wp_uart_loop pcs x _ e keys com ed); [|done..|by intros]. split; [by exists (kcpu s)| |done].
    destruct Hpt as [n Hn]. exists n. unfold s1, locked_state. rsimpl. by rewrite lookup_insert_ne. }
  rewrite (bind_ok _ _ _ _ _ _ _ Hrun). destruct (cons_step_cpu _ _ Hst) as [Ec El].
  rewrite (release_locked L_input name e s s2 Hok Hl Ec El). eexists. split; [done|]. rsimpl. split; [done|].
  destruct Hst as [E Hw]. split; [|exact Hw]. rewrite E. unfold s1, refresh, locked_state. kext.
Qed.

(** A console of a machine with a serial port, with counters about to wrap around. *)
Definition cons_ex : console := Console (replicate 128 0) (W32 - 2) (W32 - 2) (W32 - 2) 0 0 0 ∅ 1 [] 0.
Definition line_ex : kstate := kzero_locks <| kcons := cons_ex |>.
Lemma cons_ex_lines : lines cons_ex [] [].
Proof.
  split; [split|done|by intros ?%not_elem_of_nil]; [done| |done|cbn; lia|done]. cbn. unfold W32. lia.
Qed.
Lemma line_ex_locks : exists name, locks line_ex !! L_input = Some (Spinlock 0 name None).
Proof. eexists. vm_compute. reflexivity. Qed.
Lemma line_ex_ptable : lock_free line_ex L_ptable.
Proof. eexists. vm_compute. reflexivity. Qed.
Lemma line_ex_cpu : cpu_ok (kcpu line_ex).
Proof. split; vm_compute; congruence. Qed.
(** The keys [a], [x], backspace, [b] and a carriage return make the line [ab]. *)
Lemma uartintr_edits_witness : exists s',
  uartintr (fun _ => []) (map (pair 1) [97; 120; 8; 98; 13] ++ [(0, 0)]) [] line_ex = Ok tt s' [] /\ lines (kcons s') [97; 98; 10] [].
Proof.
  destruct line_ex_locks as [name Hl].
  destruct (uartintr_edits (fun _ => []) [97; 120; 8; 98; 13] (0, 0) name [] [] [] line_ex line_ex_cpu Hl line_ex_ptable eq_refl
    ltac:(vm_compute; congruence) cons_ex_lines) as (s' & Hr & Hln & _).
  - repeat constructor; vm_compute; congruence.
  - reflexivity.
  - exists s'. exact (conj Hr Hln).
Defined.

(** ** Reading *)

Lemma lines_take k c com ed : lines k (c :: com) ed ->
  lines (k <| cn_r := u32 (cn_r k + 1) |>) com ed /\ input_at k (cn_r k) = c /\ cn_r k <> cn_w k.
Proof.
  intros [[H1 H2 H4 H5 H6] H3 H7]. cbn [app length] in *. split; [split; [split|..]; rsimpl; try done|split].
  - apply u32_range.
  - rewrite H4, u32_add. f_equal. lia.
  - lia.
  - intros j x Hj. rewrite <- (H6 (S j) x Hj). unfold input_at. rsimpl. do 2 f_equal. f_equal. mlia.
  - rewrite H3, u32_add. f_equal. lia.
  - rewrite <- (H6 0%nat c eq_refl). by rewrite Z.add_0_r.
  - rewrite H3. rewrite length_app in H5. mlia.
Qed.
(** [input.r--]: a ^D that ends a line is left for the next read. *)
Lemma lines_untake k c com ed : lines k (c :: com) ed -> lines (k <| cn_r := u32 (cn_r k + 1) |> <| cn_r := u32 (u32 (cn_r k + 1) - 1) |>) (c :: com) ed.
Proof.
  intros Hl. pose proof (rg_r _ _ (ln_ring _ _ _ Hl)) as Hr. replace (u32 (u32 (cn_r k + 1) - 1)) with (cn_r k) by mlia.
  eapply lines_same; [|exact Hl]. by split.
Qed.

(** What a read of [n] characters takes from the readable ones: up to a newline, or
    to a ^D, which is taken away only when it comes first. *)
Fixpoint serve (n : nat) (first : bool) (com : list Z) : list Z * list Z :=
  match n, com with
  | S n, c :: com' =>
      if c =? CTRL_D then ([], if first then com' else com)
      else if c =? NL then ([c], com')
      else let '(l, rest) := serve n false com' in (c :: l, rest)
  | _, _ => ([], com)
  end.
(** The read does not have to wait. *)
Fixpoint ready (n : nat) (com : list Z) : bool :=
  match n, com with
  | O, _ => true
  | S n, c :: com' => (c =? CTRL_D) || (c =? NL) || ready n com'
  | S _, [] => false
  end.

Lemma consoleread_loop_serves e target : forall n com ed acc s,
  lines (kcons s) com ed -> ready n com = true -> Z.of_nat n <= target ->
  let '(l, rest) := serve n (Z.of_nat n =? target) com in
  exists s', consoleread_loop n D_local (Z.of_nat n) target acc e s = Ok (Some (Z.of_nat n - Z.of_nat (length l)), acc ++ map u8 l) s' e /\
    cons_step s s' /\ lines (kcons s') rest ed.
Proof.
  induction n as [|n IH]; intros com ed acc s Hl Hrd Ht.
  { exists s. cbn. rewrite app_nil_r. split_and!; [done|split; [by destruct s|by left]|done]. }
  destruct com as [|c com]; [done|]. destruct (lines_take _ _ _ _ Hl) as (Hl' & Hc & Hw). cbn [serve ready consoleread_loop] in *.
  assert (wait_input e s = Ok false s e) as Hwait.
  { unfold wait_input, mloop_sleep. cbn [mloop]. rewrite bind_assoc_M. mrun. by rewrite (proj2 (Z.eqb_neq _ _) Hw). }
  rewrite (bind_ok _ _ _ _ _ _ _ Hwait). mrun. rewrite Hc. unfold set_cons. mrun.
  destruct (c =? CTRL_D); cbn [orb] in Hrd.
  - destruct (Z.eqb_spec (Z.of_nat (S n)) target) as [Et|Hne].
    + rewrite (proj2 (Z.ltb_ge _ _)) by lia. cbn [when]. mrun. eexists. cbn [length map]. rewrite app_nil_r, Z.sub_0_r.
      split_and!; [done|apply cons_step_kcons|exact Hl'].
    + rewrite (proj2 (Z.ltb_lt _ _)) by lia. cbn [when]. mrun. eexists. cbn [length map]. rewrite app_nil_r, Z.sub_0_r.
      split_and!; [done| |exact (lines_untake _ _ _ _ Hl)]. eapply cons_step_trans; apply cons_step_kcons.
  - unfold put. mrun. destruct (c =? NL); cbn [orb] in Hrd.
    + eexists. cbn [length map]. split_and!; [|apply cons_step_kcons|exact Hl']. done.
    + specialize (IH com ed (acc ++ [u8 c]) (s <| kcons ::= fun k => k <| cn_r := u32 (cn_r k + 1) |> |>) Hl' Hrd ltac:(lia)).
      replace (Z.of_nat n =? target) with false in IH by lia. destruct (serve n false com) as [l rest].
      destruct IH as (s' & Hr & Hs' & Hl2). exists s'. replace (Z.of_nat (S n) - 1) with (Z.of_nat n) by lia. rewrite Hr. cbn [length map].
      split_and!; [|eapply cons_step_trans; [apply (cons_step_kcons s)|exact Hs']|done]. rewrite <- app_assoc. f_equal. f_equal. f_equal. lia.
Qed.
