(* ===== verification/Dir.v ===== *)
(** * Dir: file contents, directories and path names of fs.c

    [readi] and [writei] over the block map, directories as files of 16 byte
    entries, and the resolution of path names. A path is the list of its
    characters up to the NUL; [name], an array of DIRSIZ characters, is the list
    of the characters before its NUL, or all DIRSIZ. *)
From S2P Require Import Prelude Memory CString State Spinlock Consout Vm Sched Bio Log Inode Console.

Definition DIRSIZ : nat := 14.
Definition SLASH : Z := 47.

(** struct dirent of fs.h. *)
Record dirent := Dirent { de_inum : Z; de_name : list Z }.
Definition dirent_size : Z := 16.
Definition load_dirent (l : list Z) : dirent := Dirent (le16 l 0) (take DIRSIZ (drop 2 l)).
Definition dirent_bytes (de : dirent) : list Z := bytes16 (de_inum de) ++ de_name de.

(** Whether [devsw[major]] has functions. *)
Definition has_dev (sw : list bool) (major : Z) : bool :=
  (0 <=? major) && (major <? NDEV) && default false (sw !! Z.to_nat major).

Section Dir.
Context `{DiskDriver}.

(** ** Contents *)

(** The loop of [readi]; each iteration copies at least one byte. *)
Fixpoint readi_loop (fuel : nat) (i : nat) (dst : dest) (tot off n : Z) (acc : list Z) : M (list Z) :=
  if tot <? n then
    match fuel with
    | O => diverge
    | S k =>
        a ← bmap i (off / BSIZE);
        ip ← geti i;
        bp ← bread (ip_dev ip) a;
        let m := Z.min (n - tot) (BSIZE - off mod BSIZE) in
        d ← get_data bp;
        let c := take (Z.to_nat m) (drop (Z.to_nat (off mod BSIZE)) d) in
        put dst tot c ;;
        brelse bp ;;
        readi_loop k i dst (tot + m) (off + m) n (acc ++ c)
    end
  else mret acc.
(** The result, and the bytes copied to [dst]. *)
Definition readi (i : nat) (dst : dest) (off n : Z) : M (Z * list Z) :=
  ip ← geti i;
  if ip_type ip =? T_DEV then
    sw ← gets kdevsw;
    if has_dev sw (ip_major ip) then consoleread i dst (s32 n) else mret (-1, [])
  else if (ip_size ip <? off) || (u32 (off + n) <? off) then mret (-1, [])
  else
    let n := if ip_size ip <? u32 (off + n) then u32 (ip_size ip - off) else n in
    l ← readi_loop (Z.to_nat n) i dst 0 off n [];
    mret (s32 n, l).

(** The loop of [writei]; it ends with [off] past the bytes written. *)
Fixpoint writei_loop (fuel : nat) (i : nat) (src : source) (tot off n : Z) : M Z :=
  if tot <? n then
    match fuel with
    | O => diverge
    | S k =>
        a ← bmap i (off / BSIZE);
        ip ← geti i;
        bp ← bread (ip_dev ip) a;
        let m := Z.min (n - tot) (BSIZE - off mod BSIZE) in
        c ← fetch src tot m;
        d ← get_data bp;
        set_data bp (splice d (Z.to_nat (off mod BSIZE)) c) ;;
        log_write bp ;;
        brelse bp ;;
        writei_loop k i src (tot + m) (off + m) n
    end
  else mret off.
Definition writei (i : nat) (src : source) (off n : Z) : M Z :=
  ip ← geti i;
  if ip_type ip =? T_DEV then
    sw ← gets kdevsw;
    if has_dev sw (ip_major ip) then consolewrite i src (s32 n) else mret (-1)
  else if (ip_size ip <? off) || (u32 (off + n) <? off) then mret (-1)
  else if MAXFILE * BSIZE <? u32 (off + n) then mret (-1)
  else
    off ← writei_loop (Z.to_nat n) i src 0 off n;
    ip ← geti i;
    when ((0 <? n) && (ip_size ip <? off))
      (seti i (fun ip => ip <| ip_size := off |>) ;; iupdate i) ;;
    mret (s32 n).

(** ** Directories *)

Definition namecmp (s t : list Z) : Z := strncmp s t DIRSIZ.

(** [readi(dp, (char* )&de, off, sizeof(de))] *)
Definition read_dirent (dp : nat) (off : Z) : M dirent :=
  '(r, l) ← readi dp D_local off dirent_size;
  if negb (r =? dirent_size) then panic "dirlink read" else mret (load_dirent l).

(** The loop of [dirlookup] from [off]: the entry found and its offset. *)
Fixpoint dirlookup_loop (fuel : nat) (dp : nat) (name : list Z) (off : Z) : M (option (Z * Z)) :=
  ip ← geti dp;
  if off <? ip_size ip then
    match fuel with
    | O => diverge
    | S k =>
        de ← read_dirent dp off;
        if de_inum de =? 0 then dirlookup_loop k dp name (off + dirent_size)
        else if namecmp name (de_name de) =? 0 then mret (Some (de_inum de, off))
        else dirlookup_loop k dp name (off + dirent_size)
    end
  else mret None.
(** The inode and the value stored at [poff]. *)
Definition dirlookup (dp : nat) (name : list Z) : M (option (nat * Z)) :=
  ip ← geti dp;
  if negb (ip_type ip =? T_DIR) then panic "dirlookup not DIR"
  else
    r ← dirlookup_loop (S (Z.to_nat (ip_size ip / dirent_size))) dp name 0;
    match r with
    | Some (inum, off) =>
        ip ← geti dp;
        i ← iget (ip_dev ip) inum;
        mret (Some (i, off))
    | None => mret None
    end.

(** The offset of the first free entry, or of the end. *)
Fixpoint dirlink_loop (fuel : nat) (dp : nat) (off : Z) : M Z :=
  ip ← geti dp;
  if off <? ip_size ip then
    match fuel with
    | O => diverge
    | S k =>
        de ← read_dirent dp off;
        if de_inum de =? 0 then mret off else dirlink_loop k dp (off + dirent_size)
    end
  else mret off.
Definition dirlink (dp : nat) (name : list Z) (inum : Z) : M Z :=
  r ← dirlookup dp name;
  match r with
  | Some (i, _) => iput i ;; mret (-1)
  | None =>
      ip ← geti dp;
      off ← dirlink_loop (S (Z.to_nat (ip_size ip / dirent_size))) dp 0;
      let de := Dirent (u16 inum) (strncpy name DIRSIZ) in
      r ← writei dp (S_local (dirent_bytes de)) off dirent_size;
      if negb (r =? dirent_size) then panic "dirlink" else mret 0
  end.

End Dir.

(** ** Paths *)

Fixpoint skip_slashes (path : list Z) : list Z :=
  match path with
  | c :: path' => if c =? SLASH then skip_slashes path' else path
  | [] => []
  end.
(** The characters before the next slash, and the rest. *)
Fixpoint span_elem (path : list Z) : list Z * list Z :=
  match path with
  | [] => ([], [])
  | c :: path' =>
      if c =? SLASH then ([], path)
      else let '(s, rest) := span_elem path' in (c :: s, rest)
  end.
(** The remaining path and [name]. *)
Definition skipelem (path : list Z) : option (list Z * list Z) :=
  match skip_slashes path with
  | [] => None
  | path =>
      let '(s, rest) := span_elem path in
      let name := if Z.of_nat DIRSIZ <=? Z.of_nat (length s) then take DIRSIZ s else s in
      Some (skip_slashes rest, name)
  end.

Section Namex.
Context `{DiskDriver}.

(** The loop of [namex] from inode [ip]; each element has a character. The
    result is the inode and, for [nameiparent], the last element. *)
Fixpoint namex_loop (fuel : nat) (ip : nat) (path : list Z) (parent : bool) (name : list Z) :
    M (option (nat * list Z)) :=
  match skipelem path with
  | None =>
      if parent then iput ip ;; mret None else mret (Some (ip, name))
  | Some (path, name) =>
      match fuel with
      | O => diverge
      | S k =>
          ilock ip ;;
          x ← geti ip;
          if negb (ip_type x =? T_DIR) then iunlockput ip ;; mret None
          else if parent && bool_decide (path = []) then iunlock ip ;; mret (Some (ip, name))
          else
            next ← dirlookup ip name;
            match next with
            | None => iunlockput ip ;; mret None
            | Some (next, _) => iunlockput ip ;; namex_loop k next path parent name
            end
      end
  end.
Definition namex (path : list Z) (parent : bool) : M (option (nat * list Z)) :=
  ip ← (if ch path =? SLASH then iget ROOTDEV ROOTINO
        else p ← curproc; c ← must (p_cwd p); idup c);
  namex_loop (length path) ip path parent [].
Definition namei (path : list Z) : M (option nat) :=
  r ← namex path false; mret (fst <$> r).
Definition nameiparent (path : list Z) : M (option (nat * list Z)) := namex path true.

End Namex.
