(* ===== verification/Files.v ===== *)
(** * Files: reading and writing the contents of files

    An inode's block map makes the blocks of the disk into a file: [readi] returns
    its bytes and [writei] replaces them. *)
From S2P Require Import Prelude Memory State Spinlock Vm Sched Bio Buffers Log Blocks Recovery Transaction Atomic Inode Bitmap Console Dir.

(** ** The block map *)

(** The address of block [k] of a file, and the byte at [p]. *)
Definition faddr (B : Z -> list Z) (ip : inode) (k : Z) : Z :=
  if k <? 12 then ip_addrs ip !!! Z.to_nat k
  else le32 (B (ip_addrs ip !!! 12%nat)) (Z.to_nat (4 * (k - 12))).
Definition fbyte (B : Z -> list Z) (ip : inode) (p : Z) : Z :=
  B (faddr B ip (p / 512)) !!! Z.to_nat (p mod 512).
Definition fbytes (B : Z -> list Z) (ip : inode) (off n : Z) : list Z := map (fbyte B ip) (seqZ off n).

(** The first [nb] blocks of the file are there. *)
Record has_blocks (L : Z) (B : Z -> list Z) (ip : inode) (nb : Z) : Prop := {
  hb_dev : ip_dev ip = 1;
  hb_addrs : length (ip_addrs ip) = 13%nat;
  hb_max : nb <= 140;
  hb_block k : 0 <= k < nb -> 0 < faddr B ip k < L;
  hb_indirect : 12 < nb -> 0 < ip_addrs ip !!! 12%nat < L;
}.

Lemma div_mod_512 off m : 0 <= m -> off mod 512 + m < 512 -> (off + m) / 512 = off / 512 /\ (off + m) mod 512 = off mod 512 + m.
Proof.
  intros Hm Hlt. pose proof (Z.mod_pos_bound off 512 ltac:(lia)).
  assert (off + m = 512 * (off / 512) + (off mod 512 + m)) as E by (rewrite (Z.div_mod off 512) at 1 by lia; lia).
  split; symmetry.
  - apply (Z.div_unique _ _ _ (off mod 512 + m)); lia.
  - apply (Z.mod_unique _ _ (off / 512)); lia.
Qed.

(** A piece of one block. *)
Lemma fbytes_chunk B ip off m :
  length (B (faddr B ip (off / 512))) = 512%nat -> 0 <= m <= 512 - off mod 512 ->
  take (Z.to_nat m) (drop (Z.to_nat (off mod 512)) (B (faddr B ip (off / 512)))) = fbytes B ip off m.
Proof.
  intros Hl Hm. pose proof (Z.mod_pos_bound off 512 ltac:(lia)). unfold fbytes. apply list_eq. intros k.
  rewrite list_lookup_fmap. destruct (decide (k < Z.to_nat m)%nat) as [Hk|Hk].
  - rewrite lookup_take_lt, lookup_drop, lookup_seqZ_lt by lia. cbn. unfold fbyte.
    destruct (div_mod_512 off (Z.of_nat k)) as [E1 E2]; [lia|lia|]. rewrite E1, E2.
    replace (Z.to_nat (off mod 512 + Z.of_nat k)) with (Z.to_nat (off mod 512) + k)%nat by lia.
    apply list_lookup_lookup_total_lt. lia.
  - rewrite lookup_take_ge, lookup_seqZ_ge by lia. done.
Qed.
Lemma fbytes_app B ip off m n : 0 <= m -> 0 <= n -> fbytes B ip off (m + n) = fbytes B ip off m ++ fbytes B ip (off + m) n.
Proof. intros Hm Hn. unfold fbytes. by rewrite seqZ_app, map_app by lia. Qed.

Lemma fbytes_ext B B' ip ip' off n : (forall p, off <= p < off + n -> fbyte B' ip' p = fbyte B ip p) -> fbytes B' ip' off n = fbytes B ip off n.
Proof. intros E. unfold fbytes. apply map_ext_in. intros p Hp%list_elem_of_In%elem_of_seqZ. auto. Qed.

(** ** Writing *)

(** No two of the first [nb] blocks of the file are the same block. *)
Record distinct (B : Z -> list Z) (ip : inode) (nb : Z) : Prop := {
  ds_block j k : 0 <= j < nb -> 0 <= k < nb -> faddr B ip j = faddr B ip k -> j = k;
  ds_indirect k : 12 < nb -> 0 <= k < nb -> faddr B ip k <> ip_addrs ip !!! 12%nat;
}.

(** The blocks [B'] differ from [B] only in the bytes of the file from [off] on,
    which are those of [data]. *)
Record wrote_file (ip : inode) (nb off : Z) (data : list Z) (B B' : Z -> list Z) : Prop := {
  wf_addr k : 0 <= k < nb -> faddr B' ip k = faddr B ip k;
  wf_byte p : 0 <= p < 512 * nb ->
    fbyte B' ip p = if decide (off <= p < off + Z.of_nat (length data)) then data !!! Z.to_nat (p - off) else fbyte B ip p;
  wf_other m : (forall k, 0 <= k < nb -> m <> faddr B ip k) -> B' m = B m;
}.

Lemma wrote_nothing ip nb off B : wrote_file ip nb off [] B B.
Proof. split; try done. intros p Hp. rewrite decide_False; [done|cbn; lia]. Qed.

Lemma wrote_app ip nb off c d B B1 B2 :
  wrote_file ip nb off c B B1 -> wrote_file ip nb (off + Z.of_nat (length c)) d B1 B2 ->
  wrote_file ip nb off (c ++ d) B B2.
Proof.
  intros [A1 A2 A3] [C1 C2 C3]. split.
  - intros k Hk. by rewrite C1, A1.
  - intros p Hp. rewrite C2, A2, length_app by done. repeat case_decide; try lia.
    + rewrite lookup_total_app_r by lia. f_equal. lia.
    + by rewrite lookup_total_app_l by lia.
  - intros m Hm. rewrite C3, A3; [done|done|]. intros k Hk. rewrite A1 by done. by apply Hm.
Qed.

Lemma faddr_ext B B' ip k :
  (12 <= k -> B' (ip_addrs ip !!! 12%nat) = B (ip_addrs ip !!! 12%nat)) -> faddr B' ip k = faddr B ip k.
Proof. intros E. unfold faddr. destruct (Z.ltb_spec k 12); [done|]. by rewrite E. Qed.

(** Writing a piece of one block. *)
Lemma wrote_chunk L ip nb off c B :
  has_blocks L B ip nb -> distinct B ip nb -> 0 <= off -> off / 512 < nb ->
  off mod 512 + Z.of_nat (length c) <= 512 ->
  let a := faddr B ip (off / 512) in
  length (B a) = 512%nat ->
  wrote_file ip nb off c B (fupd a (splice (B a) (Z.to_nat (off mod 512)) c) B).
Proof.
  intros Hb [Hd1 Hd2] Ho Hk Hc a Hl. set (k := off / 512) in *. set (o := off mod 512) in *.
  pose proof (Z.mod_pos_bound off 512 ltac:(lia)) as Hob. fold o in Hob.
  assert (off = 512 * k + o) as Eoff by (apply Z.div_mod; lia). assert (0 <= k < nb) as Hk' by lia.
  set (B' := fupd a _ B). assert (forall j, 0 <= j < nb -> faddr B' ip j = faddr B ip j) as Ea.
  { intros j Hj. apply faddr_ext. intros Hge. unfold B'. rewrite fupd_ne; [done|]. symmetry. apply Hd2; lia. }
  split; [done| |].
  - intros p Hp. unfold fbyte. set (kp := p / 512). set (op := p mod 512).
    pose proof (Z.mod_pos_bound p 512 ltac:(lia)) as Hop. fold op in Hop.
    assert (p = 512 * kp + op) as Ep by (apply Z.div_mod; lia). rewrite Ea by lia.
    destruct (decide (kp = k)) as [->|Hne].
    + unfold B'. fold a. rewrite fupd_eq, !list_lookup_total_alt. case_decide.
      * rewrite lookup_splice_in by lia. do 2 f_equal. lia.
      * by rewrite lookup_splice_out by lia.
    + rewrite decide_False by lia. unfold B'. rewrite fupd_ne; [done|]. intros E. apply Hne, Hd1; [lia|lia|done].
  - intros m Hm. unfold B'. rewrite fupd_ne; [done|]. by apply Hm.
Qed.

Lemma wrote_keeps L ip nb off c B B' :
  wrote_file ip nb off c B B' -> has_blocks L B ip nb -> distinct B ip nb ->
  has_blocks L B' ip nb /\ distinct B' ip nb.
Proof.
  intros [Ha _ _] [H1 H2 H3 H4 H5] [Hd1 Hd2]. split; split; try done.
  - intros k Hk. rewrite Ha by done. by apply H4.
  - intros j k Hj Hk. rewrite !Ha by done. by apply Hd1.
  - intros k Hnb Hk. rewrite Ha by done. by apply Hd2.
Qed.

(** What was written is what is read. *)
Lemma wrote_read ip nb off c B B' :
  wrote_file ip nb off c B B' -> 0 <= off -> off + Z.of_nat (length c) <= 512 * nb ->
  fbytes B' ip off (Z.of_nat (length c)) = c.
Proof.
  intros Hw Ho Hend. unfold fbytes. apply list_eq. intros k. rewrite list_lookup_fmap.
  destruct (decide (k < length c)%nat) as [Hk|Hk].
  - rewrite lookup_seqZ_lt by lia. cbn. rewrite (wf_byte _ _ _ _ _ _ Hw), decide_True by lia.
    replace (Z.to_nat (off + Z.of_nat k - off)) with k by lia. symmetry. by apply list_lookup_lookup_total_lt.
  - rewrite lookup_seqZ_ge, lookup_ge_None_2 by lia. done.
Qed.

(** ** Running *)

Lemma geti_run i ip e s : icache s !! i = Some ip -> geti i e s = Ok ip s e.
Proof. intros Hi. unfold geti. mrun. by rewrite Hi. Qed.
Lemma wp_geti i ip Q e s : icache s !! i = Some ip -> Q ip s e -> wp (geti i) Q e s.
Proof. intros Hi HQ. by apply (wp_ok _ _ _ _ _ _ _ (geti_run i ip e s Hi)). Qed.

Section Files.
Context {dd : DiskDriver} {ddok : DiskDriverOk}.

(** ** Reading, from the view of the disk *)

Section Read.
Context (v : view) (L : Z) (HL : L <= drv_sectors).
Context (Hheld : v_held v = ∅) (Hpin : (size (v_pin v) < NBUF)%nat).

Lemma read_clean s n : views s v -> n ∈ v_pin v \/ v_blk v n = v_disk v n.
Proof.
  intros Hv. destruct (decide (n ∈ v_pin v)); [by left|right]. apply (views_clean s v Hv); [by rewrite Hheld|done].
Qed.

Lemma wp_bmap_there i ip nb k Q e s :
  views s v -> icache s !! i = Some ip -> has_blocks L (v_blk v) ip nb -> 0 <= k < nb ->
  (forall s', views s' v -> kept s s' -> Q (faddr (v_blk v) ip k) s' e) ->
  wp (bmap i k) Q e s.
Proof.
  intros Hv Hi [Hdev Hlen Hmax Hblk Hind] Hk HQ. unfold bmap. pose proof (Hblk k Hk) as Ha.
  unfold faddr in Ha, HQ. change (Z.of_nat NDIRECT) with 12.
  assert (forall c, (c < 13)%nat -> forall Q, 0 < ip_addrs ip !!! c -> Q (ip_addrs ip !!! c) s e -> wp (bmap_direct i c) Q e s) as Hdir.
  { intros c Hc Q' Hpos HQ'. unfold bmap_direct, get_addr. apply wp_bind, wp_bind, (wp_geti i ip); [done|].
    rewrite (list_lookup_lookup_total_lt _ c) by lia. apply wp_ret.
    rewrite (proj2 (Z.eqb_neq _ _)) by lia. by apply wp_ret. }
  destruct (Z.ltb_spec k 12) as [Hlt|Hge].
  { apply Hdir; [lia|lia|]. by apply HQ. }
  change (Z.of_nat NINDIRECT) with 128. rewrite (proj2 (Z.ltb_lt _ _)) by lia.
  pose proof (Hind ltac:(lia)) as Hi12. set (ia := ip_addrs ip !!! 12%nat) in *.
  apply wp_bind, (Hdir 12%nat); [lia|lia|]. fold ia. apply wp_bind, (wp_geti i ip); [done|]. rewrite Hdev.
  apply wp_bind. eapply wp_bread; [exact Hv|lia|by apply room_log|]. intros j s1 Hv1 Hk1.
  apply wp_bind. eapply wp_get_data; [exact Hv1|rsimpl; apply lookup_insert_eq|]. rsimpl.
  rewrite (proj2 (Z.eqb_neq _ _)) by lia. apply wp_bind, wp_ret.
  apply wp_bind. eapply wp_brelse; [exact Hv1|rsimpl; apply lookup_insert_eq|by apply (read_clean s)|].
  intros s2 Hv2 Hk2. apply wp_ret, HQ; [|by eapply kept_trans]. eapply held_restore; [|exact Hv2]. by rewrite Hheld.
Qed.

Lemma readi_loop_run fuel i ip nb tot off n acc Q e s :
  views s v -> icache s !! i = Some ip -> has_blocks L (v_blk v) ip nb ->
  0 <= tot <= n -> 0 <= off -> off + (n - tot) <= 512 * nb -> (Z.to_nat (n - tot) <= fuel)%nat ->
  (forall s', views s' v -> kept s s' -> Q (acc ++ fbytes (v_blk v) ip off (n - tot)) s' e) ->
  wp (readi_loop fuel i D_local tot off n acc) Q e s.
Proof.
  intros Hv Hi Hb. revert tot off acc s Hv Hi. induction fuel as [|fuel IH]; intros tot off acc s Hv Hi Ht Ho Hend Hfuel HQ; cbn [readi_loop].
  { assert (tot = n) as -> by lia. rewrite Z.ltb_irrefl. apply wp_ret. specialize (HQ s Hv ltac:(done)).
    rewrite Z.sub_diag in HQ. unfold fbytes in HQ. by rewrite seqZ_nil, app_nil_r in HQ by lia. }
  destruct (Z.ltb_spec tot n) as [Hlt|Hge].
  2: { assert (tot = n) as -> by lia. apply wp_ret. specialize (HQ s Hv ltac:(done)).
    rewrite Z.sub_diag in HQ. unfold fbytes in HQ. by rewrite seqZ_nil, app_nil_r in HQ by lia. }
  change BSIZE with 512. set (k := off / 512). set (o := off mod 512).
  pose proof (Z.mod_pos_bound off 512 ltac:(lia)) as Hob. fold o in Hob.
  assert (off = 512 * k + o) as Eoff by (apply Z.div_mod; lia). assert (0 <= k < nb) as Hk by lia.
  pose proof (hb_block _ _ _ _ Hb k Hk) as Ha.
  apply wp_bind. eapply wp_bmap_there; [exact Hv|exact Hi|exact Hb|exact Hk|]. intros s1 Hv1 Hk1.
  apply wp_bind, (wp_geti i ip); [by rewrite (kp_icache _ _ Hk1)|]. rewrite (hb_dev _ _ _ _ Hb).
  apply wp_bind. eapply wp_bread; [exact Hv1|lia|by apply room_log|]. intros j s2 Hv2 Hk2.
  apply wp_bind. eapply wp_get_data; [exact Hv2|rsimpl; apply lookup_insert_eq|]. rsimpl.
  apply wp_bind, wp_ret. apply wp_bind.
  eapply wp_brelse; [exact Hv2|rsimpl; apply lookup_insert_eq|by apply (read_clean s)|]. intros s3 Hv3 Hk3.
  apply held_restore in Hv3; [|by rewrite Hheld]. set (m := Z.min (n - tot) (512 - o)).
  assert (kept s s3) as Hk03 by eauto using kept_trans.
  pose proof (fbytes_chunk (v_blk v) ip off m (views_len s v Hv _) ltac:(fold o; lia)) as Ech. fold k o in Ech. rewrite Ech.
  apply IH; [exact Hv3|by rewrite (kp_icache _ _ Hk03)|lia|lia|lia|lia|]. intros s4 Hv4 Hk4.
  rewrite <- app_assoc, <- fbytes_app by lia. replace (m + (n - (tot + m))) with (n - tot) by lia.
  apply HQ; [done|by eapply kept_trans].
Qed.

Lemma wp_readi i ip nb off n Q e s :
  views s v -> icache s !! i = Some ip -> has_blocks L (v_blk v) ip nb -> ip_type ip <> T_DEV ->
  0 <= ip_size ip <= 512 * nb -> 0 <= off <= ip_size ip -> 0 <= n -> off + n < 4294967296 ->
  (forall s', views s' v -> kept s s' ->
     Q (let n' := Z.min n (ip_size ip - off) in (n', fbytes (v_blk v) ip off n')) s' e) ->
  wp (readi i D_local off n) Q e s.
Proof.
  intros Hv Hi Hb Ht Hsz Ho Hn Hov HQ. unfold readi. pose proof (hb_max _ _ _ _ Hb).
  apply wp_bind, (wp_geti i ip); [done|]. rewrite (proj2 (Z.eqb_neq _ _) Ht).
  rewrite u32_small by lia. rewrite (proj2 (Z.ltb_ge _ _)), (proj2 (Z.ltb_ge _ _)) by lia. cbn [orb]. cbv zeta.
  assert ((if ip_size ip <? off + n then u32 (ip_size ip - off) else n) = Z.min n (ip_size ip - off)) as ->.
  { destruct (Z.ltb_spec (ip_size ip) (off + n)); [rewrite u32_small by lia; lia|lia]. }
  set (n' := Z.min n (ip_size ip - off)) in *. assert (0 <= n' < 2147483648) by lia. apply wp_bind.
  eapply readi_loop_run; [exact Hv|exact Hi|exact Hb|lia|lia|lia|lia|]. intros s' Hv' Hk'.
  apply wp_ret. rewrite Z.sub_0_r, app_nil_l. replace (s32 n') with n' by mlia. by apply HQ.
Qed.
End Read.

(** readi of a file whose blocks are allocated terminates and returns the bytes
    of the file from [off], [n] of them or as many as there are up to the end of
    the file, through the direct blocks and the indirect block alike; the disk and
    everything else are unchanged and no buffer stays held. *)
Theorem readi_reads e s v L i ip nb off n :
  views s v -> v_held v = ∅ -> (size (v_pin v) < NBUF)%nat -> L <= drv_sectors ->
  icache s !! i = Some ip -> has_blocks L (v_blk v) ip nb -> ip_type ip <> T_DEV ->
  0 <= ip_size ip <= 512 * nb -> 0 <= off <= ip_size ip -> 0 <= n -> off + n < 2 ^ 32 ->
  let n' := Z.min n (ip_size ip - off) in
  exists s', readi i D_local off n e s = Ok (n', fbytes (v_blk v) ip off n') s' e /\ views s' v /\ kept s s'.
Proof.
  intros Hv Hh Hp HL Hi Hb Ht Hsz Ho Hn Hov n'. change (2 ^ 32) with 4294967296 in Hov.
  destruct (wp_ok_inv (readi i D_local off n) (fun r s' e' => r = (n', fbytes (v_blk v) ip off n') /\ e' = e /\
    views s' v /\ kept s s') e s) as (r & s' & e' & Hrun & -> & -> & Hv' & Hk); [|by exists s'].
  eapply (wp_readi v L HL Hh Hp); [exact Hv|exact Hi|exact Hb|done|done|done|done|done|]. by intros.
Qed.

(** ** Writing, in a transaction *)

Lemma has_blocks_ext L B B' ip nb :
  (forall m, m < L -> B m = B' m) -> has_blocks L B' ip nb -> has_blocks L B ip nb /\ forall k, 0 <= k < nb -> faddr B ip k = faddr B' ip k.
Proof.
  intros E [H1 H2 H3 H4 H5].
  assert (forall k, 0 <= k < nb -> faddr B ip k = faddr B' ip k) as Ea.
  { intros k Hk. apply faddr_ext. intros Hge. apply E. apply H5. lia. }
  split; [|done]. split; try done. intros k Hk. rewrite Ea by done. by apply H4.
Qed.

Section Write.
Context (L lsz : Z) (D0 : Z -> list Z) (W : list ((Z * Z) * list Z)).
Context (S : gset Z) (HSn : (size S < NBUF)%nat) (HSl : Z.of_nat (size S) < lsz - 1).
#[local] Abbreviation fs := (fs L lsz D0 W).

Lemma fsv_kept s s' B secs H U v w :
  fsv L lsz D0 W s B secs H U v w -> views s' v -> kept s s' -> fsv L lsz D0 W s' B secs H U v w.
Proof.
  intros [[G1 G2 G3 G4 G5 G6 G7 G8 G9] F2 F3 F4 F5 F6 F7 F8 F9 F10 F11] Hv Hk.
  split; rewrite ?(kp_klog _ _ Hk); try done.
  - split; rewrite ?(kp_klog _ _ Hk); done.
  - apply (lock_free_locks s); [apply (kp_locks _ _ Hk)|done].
Qed.

Lemma fs_bmap_there i ip nb k Q e s B secs :
  fs s B secs ∅ ∅ -> within S secs ∅ -> icache s !! i = Some ip -> has_blocks L B ip nb -> 0 <= k < nb ->
  (forall s', fs s' B secs ∅ ∅ -> kept s s' -> Q (faddr B ip k) s' e) ->
  wp (bmap i k) Q e s.
Proof.
  intros (v & w & Hf) Hw Hi Hb Hk HQ. pose proof (fv_log _ _ _ _ _ _ _ _ _ _ _ Hf) as Hlo.
  destruct (lo_geom _ _ _ _ Hlo) as (? & ? & ?).
  destruct (has_blocks_ext L (v_blk v) B ip nb (fv_blk _ _ _ _ _ _ _ _ _ _ _ Hf) Hb) as [Hb' Ea].
  assert (size (v_pin v) < NBUF)%nat as Hpin.
  { pose proof (cap_pin _ _ _ _ _ _ _ _ _ _ _ Hf (within_cap _ S HSn HSl secs ∅ (lo_nodup _ _ _ _ Hlo) Hw)) as Hc.
    eapply Nat.le_lt_trans; [|exact Hc]. apply subseteq_size, union_subseteq_r. }
  eapply (wp_bmap_there v L ltac:(lia) (fv_held _ _ _ _ _ _ _ _ _ _ _ Hf) Hpin);
    [apply (lo_views _ _ _ _ Hlo)|exact Hi|exact Hb'|done|].
  intros s' Hv' Hk'. rewrite Ea by done. apply HQ; [|done]. exists v, w. by eapply fsv_kept.
Qed.

Lemma writei_loop_run fuel i ip nb tot off data Q e s B secs :
  fs s B secs ∅ ∅ -> within S secs ∅ -> icache s !! i = Some ip -> has_blocks L B ip nb -> distinct B ip nb ->
  (forall k, off / 512 <= k < nb -> 512 * k < off + (Z.of_nat (length data) - tot) -> faddr B ip k ∈ S) ->
  0 <= tot <= Z.of_nat (length data) -> 0 <= off -> off + (Z.of_nat (length data) - tot) <= 512 * nb ->
  (Z.to_nat (Z.of_nat (length data) - tot) <= fuel)%nat ->
  (forall s' B' secs', fs s' B' secs' ∅ ∅ -> wrote_file ip nb off (drop (Z.to_nat tot) data) B B' ->
     within S secs' ∅ -> kept_but_log s s' -> Q (off + (Z.of_nat (length data) - tot)) s' e) ->
  wp (writei_loop fuel i (S_local data) tot off (Z.of_nat (length data))) Q e s.
Proof.
  set (n := Z.of_nat (length data)).
  revert tot off s B secs Q. induction fuel as [|fuel IH]; intros tot off s B secs Q Hf Hw Hi Hb Hd HS Ht Ho Hend Hfuel HQ; cbn [writei_loop].
  all: assert (tot = n -> Q off s e) as Hdone.
  1, 3: intros ->; specialize (HQ s B secs Hf); rewrite Z.sub_diag, Z.add_0_r in HQ; unfold n in HQ;
    rewrite Nat2Z.id, drop_all in HQ; apply HQ; [apply wrote_nothing|done|by apply kept_log].
  { assert (tot = n) as -> by lia. rewrite Z.ltb_irrefl. by apply wp_ret, Hdone. }
  destruct (Z.ltb_spec tot n) as [Hlt|Hge]; [|apply wp_ret, Hdone; lia].
  change BSIZE with 512. set (k := off / 512) in *. set (o := off mod 512).
  pose proof (Z.mod_pos_bound off 512 ltac:(lia)) as Hob. fold o in Hob.
  assert (off = 512 * k + o) as Eoff by (apply Z.div_mod; lia). assert (0 <= k < nb) as Hk by lia.
  pose proof (hb_block _ _ _ _ Hb k Hk) as Ha. set (a := faddr B ip k) in *.
  assert (a ∈ S) as HaS by (apply HS; lia).
  pose proof (fs_len _ _ _ _ _ _ _ _ _ a Hf ltac:(lia)) as Hlen.
  apply wp_bind. eapply fs_bmap_there; [exact Hf|done|done|exact Hb|exact Hk|]. intros s1 Hf1 Hk1. fold a.
  apply wp_bind, (wp_geti i ip); [by rewrite (kp_icache _ _ Hk1)|]. rewrite (hb_dev _ _ _ _ Hb).
  apply wp_bind. eapply fs_bread; [exact Hf1|lia|apply not_elem_of_empty| |].
  { apply (within_cap _ S HSn HSl); [apply (fs_nodup _ _ _ _ _ _ _ _ _ Hf1)|done]. }
  intros j s2 Hf2 Hk2. set (m := Z.min (n - tot) (512 - o)).
  set (c := take (Z.to_nat m) (drop (Z.to_nat tot) data)).
  assert (Z.of_nat (length c) = m) as Elc by (unfold c; rewrite length_take, length_drop; unfold n in *; lia).
  apply wp_bind. unfold fetch. rewrite (proj2 (Z.leb_le _ _)) by lia. apply wp_ret. fold c.
  apply wp_bind. eapply (fs_get_data L lsz D0 W a); [exact Hf2|apply lookup_insert_eq|lia|].
  apply wp_bind. eapply (fs_set_data L lsz D0 W a); [exact Hf2|apply lookup_insert_eq|lia|by rewrite length_splice by lia|].
  intros s3 Hf3 Hk3. eapply (wp_log_release_then L lsz D0 W S HSn HSl); [exact Hf3|done|done|lia|apply not_elem_of_empty|].
  intros s4 Hf4 Hk4.
  assert (kept_but_log s s4) as Hk04 by eauto 9 using kept_but_log_trans, kept_log.
  pose proof (wrote_chunk L ip nb off c B Hb Hd Ho ltac:(fold k; lia) ltac:(fold o; lia) Hlen) as Hwr.
  fold k o a in Hwr. set (B1 := fupd a _ B) in *. destruct (wrote_keeps L _ _ _ _ _ _ Hwr Hb Hd) as [Hb1 Hd1].
  apply (IH (tot + m) (off + m) s4 B1 (log_add a secs)); [done|by apply within_log| |done|done| |lia|lia|lia|lia|].
  - rewrite (kp_icache _ _ Hk04). by rsimpl.
  - intros k' Hk' Hlt'. pose proof (Z.div_le_mono off (off + m) 512 ltac:(lia) ltac:(lia)).
    rewrite (wf_addr _ _ _ _ _ _ Hwr) by lia. apply HS; lia.
  - intros s5 B2 secs2 Hf5 Hw5 Hws5 Hk5. replace (off + m + (n - (tot + m))) with (off + (n - tot)) by lia.
    apply (HQ s5 B2 secs2); [done| |done|by eapply kept_but_log_trans].
    rewrite <- (take_drop (Z.to_nat m) (drop (Z.to_nat tot) data)), drop_drop. fold c.
    eapply wrote_app; [exact Hwr|]. rewrite Elc.
    replace (Z.to_nat tot + Z.to_nat m)%nat with (Z.to_nat (tot + m)) by lia. done.
Qed.

Lemma wp_writei i ip nb off data Q e s B secs :
  fs s B secs ∅ ∅ -> within S secs ∅ -> icache s !! i = Some ip -> has_blocks L B ip nb -> distinct B ip nb ->
  ip_type ip <> T_DEV -> 0 <= off -> off + Z.of_nat (length data) <= ip_size ip -> ip_size ip <= 512 * nb ->
  (forall k, off / 512 <= k < nb -> 512 * k < off + Z.of_nat (length data) -> faddr B ip k ∈ S) ->
  (forall s' B' secs', fs s' B' secs' ∅ ∅ -> wrote_file ip nb off data B B' -> within S secs' ∅ ->
     kept_but_log s s' -> Q (Z.of_nat (length data)) s' e) ->
  wp (writei i (S_local data) off (Z.of_nat (length data))) Q e s.
Proof.
  intros Hf Hw Hi Hb Hd Ht Ho Hend Hsz HS HQ. unfold writei. pose proof (hb_max _ _ _ _ Hb).
  set (n := Z.of_nat (length data)) in *. assert (0 <= n) by lia.
  apply wp_bind, (wp_geti i ip); [done|]. rewrite (proj2 (Z.eqb_neq _ _) Ht).
  rewrite u32_small by lia. rewrite (proj2 (Z.ltb_ge (ip_size ip) off)), (proj2 (Z.ltb_ge (off + n) off)) by lia.
  cbn [orb]. change (MAXFILE * BSIZE) with 71680. rewrite (proj2 (Z.ltb_ge 71680 (off + n))) by lia.
  apply wp_bind. eapply (writei_loop_run _ i ip nb 0 off data); [exact Hf|done|done|exact Hb|done| |lia|lia|lia|lia|].
  { intros k Hk Hlt. apply HS; lia. }
  intros s1 B1 secs1 Hf1 Hw1 Hws1 Hk1. rewrite Z.sub_0_r. cbn [Z.to_nat] in Hw1. rewrite drop_0 in Hw1.
  apply wp_bind, (wp_geti i ip). { rewrite (kp_icache _ _ Hk1). by rsimpl. }
  fold n. rewrite (proj2 (Z.ltb_ge (ip_size ip) (off + n))) by lia. rewrite andb_false_r. apply wp_bind, wp_ret, wp_ret.
  replace (s32 n) with n by mlia. by eapply HQ.
Qed.
End Write.

End Files.

(** ** Witnesses *)

#[local] Existing Instance memdrv.
#[local] Existing Instance memdrv_ok.

(** A file of 600 bytes in the blocks 40 and 41. *)
Definition ip_ex : inode :=
  inode0 <| ip_dev := 1 |> <| ip_type := 2 |> <| ip_size := 600 |> <| ip_addrs := [40; 41] ++ replicate 11 0 |>.
Lemma ip_ex_addr B k : 0 <= k < 2 -> faddr B ip_ex k = 40 + k.
Proof. intros Hk. assert (k = 0 \/ k = 1) as [->| ->] by lia; reflexivity. Qed.
Lemma ip_ex_blocks B : has_blocks 980 B ip_ex 2.
Proof. split; [done|done|lia| |lia]. intros k Hk. rewrite ip_ex_addr by done. lia. Qed.
Lemma ip_ex_distinct B : distinct B ip_ex 2.
Proof. split; [|lia]. intros j k Hj Hk. rewrite !ip_ex_addr by done. lia. Qed.

Lemma views_icache s v ic : views s v -> views (s <| icache := ic |>) v.
Proof. intros Hv. apply (views_other s); try done. apply (vw_cpu _ _ Hv). Qed.
Lemma fs_icache s B secs H U ic : fs 980 20 blocks_ex [] s B secs H U -> fs 980 20 blocks_ex [] (s <| icache := ic |>) B secs H U.
Proof. intros Hf. eapply (fs_other 980 20 blocks_ex [] s); [exact Hf|exact (fs_cpu _ _ _ _ _ _ _ _ _ Hf)|done..]. Qed.

Lemma readi_reads_witness :
  exists s s', readi 0 D_local 500 1000 [] s = Ok (100, fbytes blocks_ex ip_ex 500 100) s' [].
Proof.
  pose proof (views_icache _ _ [ip_ex] (rb_views _ _ (boot_rebooted disk_ex disk_ex_len))) as Hv.
  set (s := _ <| icache := _ |>) in Hv. assert (icache s !! 0%nat = Some ip_ex) as Hi by reflexivity.
  destruct (readi_reads [] s (boot_view disk_ex) 980 0 ip_ex 2 500 1000 Hv eq_refl) as (s' & Hr & _).
  - change (v_pin _) with (∅ : gset Z). rewrite size_empty. unfold NBUF. lia.
  - vm_compute. discriminate.
  - exact Hi.
  - apply ip_ex_blocks.
  - discriminate.
  - change (ip_size ip_ex) with 600. lia.
  - change (ip_size ip_ex) with 600. lia.
  - lia.
  - by vm_compute.
  - exists s, s'. exact Hr.
Defined.

