(* ===== verification/Inodes.v ===== *)
(** * Inodes: inodes on disk

    iupdate writes an inode to its slot of the inode table and ilock reads it
    back. *)
From S2P Require Import Prelude Memory State Spinlock Vm Sched Bio Buffers Log Blocks Recovery Transaction Atomic Inode Bitmap Console Dir Files.

(** ** The slots *)

(** The values the fields of a struct dinode can have. *)
Record dinode_ok (x : dinode) : Prop := {
  dk_type : -32768 <= d_type x < 32768;
  dk_major : -32768 <= d_major x < 32768;
  dk_minor : -32768 <= d_minor x < 32768;
  dk_nlink : -32768 <= d_nlink x < 32768;
  dk_size : 0 <= d_size x < 4294967296;
  dk_addrs : length (d_addrs x) = 13%nat;
  dk_addr a : a ∈ d_addrs x -> 0 <= a < 4294967296;
}.

Lemma length_words ws : length (concat (map bytes32 ws)) = (4 * length ws)%nat.
Proof. induction ws as [|a ws IH]; [done|]. cbn [map concat]. rewrite length_app, IH. cbn [length bytes32]. lia. Qed.
Lemma length_dinode_bytes x : length (d_addrs x) = 13%nat -> length (dinode_bytes x) = 64%nat.
Proof. intros Hl. unfold dinode_bytes. rewrite !length_app, length_words, Hl. reflexivity. Qed.

(** Bytes at an offset of a list. *)
Definition at_off (l : list Z) (off : nat) (b : list Z) : Prop := forall k c, b !! k = Some c -> l !! (off + k)%nat = Some c.
Lemma at_app l off b c : at_off l off (b ++ c) <-> at_off l off b /\ at_off l (off + length b) c.
Proof.
  split.
  - intros Ha. split; intros k x Hk.
    + apply Ha. by apply lookup_app_l_Some.
    + rewrite <- Nat.add_assoc. apply Ha. rewrite lookup_app_r by lia. by replace (length b + k - length b)%nat with k by lia.
  - intros [Hb Hc] k x [Hk|[Hge Hk]]%lookup_app_Some; [by apply Hb|].
    apply Hc in Hk. by replace (off + length b + (k - length b))%nat with (off + k)%nat in Hk by lia.
Qed.
Lemma at_splice l off b : (off <= length l)%nat -> at_off (splice l off b) off b.
Proof.
  intros Hl k c Hk. pose proof (lookup_lt_Some _ _ _ Hk). rewrite lookup_splice_in by lia.
  by replace (off + k - off)%nat with k by lia.
Qed.
Lemma at_le32 l off v : at_off l off (bytes32 v) -> le32 l off = u32 v.
Proof.
  intros Ha. rewrite <- le32_bytes32. unfold le32. rewrite !list_lookup_total_alt.
  pose proof (Ha 0%nat _ eq_refl) as E0. pose proof (Ha 1%nat _ eq_refl) as E1.
  pose proof (Ha 2%nat _ eq_refl) as E2. pose proof (Ha 3%nat _ eq_refl) as E3.
  rewrite Nat.add_0_r in E0. by rewrite E0, E1, E2, E3.
Qed.
Lemma at_le16 l off v : at_off l off (bytes16 v) -> le16 l off = u16 v.
Proof.
  intros Ha. rewrite <- le16_bytes16. unfold le16. rewrite !list_lookup_total_alt.
  pose proof (Ha 0%nat _ eq_refl) as E0. pose proof (Ha 1%nat _ eq_refl) as E1.
  rewrite Nat.add_0_r in E0. rewrite Nat.add_1_r in E1. by rewrite E0, E1.
Qed.
Lemma at_words l off ws k w : at_off l off (concat (map bytes32 ws)) -> ws !! k = Some w -> le32 l (off + 4 * k) = u32 w.
Proof.
  revert off k. induction ws as [|x ws IH]; intros off k Ha Hk; [done|].
  cbn [map concat] in Ha. apply at_app in Ha as [Hx Ha]. destruct k as [|k].
  - injection Hk as <-. rewrite Nat.mul_0_r, Nat.add_0_r. by apply at_le32.
  - change (length (bytes32 x)) with 4%nat in Ha. replace (off + 4 * S k)%nat with (off + 4 + 4 * k)%nat by lia. by apply IH.
Qed.

Lemma load_at d off x : dinode_ok x -> at_off d off (dinode_bytes x) -> load_dinode d off = x.
Proof.
  intros [H1 H2 H3 H4 H5 H6 H7] Ha. unfold dinode_bytes in Ha.
  apply at_app in Ha as [A1 Ha]. apply at_app in Ha as [A2 Ha]. apply at_app in Ha as [A3 Ha].
  apply at_app in Ha as [A4 Ha]. apply at_app in Ha as [A5 Ha].
  change (length (bytes16 _)) with 2%nat in *. change (length (bytes32 _)) with 4%nat in *.
  unfold load_dinode. destruct x as [ty ma mi nl sz ad]. cbn [d_type d_major d_minor d_nlink d_size d_addrs] in *.
  rewrite (at_le16 _ _ _ A1), (at_le16 _ _ _ A2).
  replace (off + 4)%nat with (off + 2 + 2)%nat by lia. rewrite (at_le16 _ _ _ A3).
  replace (off + 6)%nat with (off + 2 + 2 + 2)%nat by lia. rewrite (at_le16 _ _ _ A4).
  replace (off + 8)%nat with (off + 2 + 2 + 2 + 2)%nat by lia. rewrite (at_le32 _ _ _ A5).
  f_equal; [mlia|mlia|mlia|mlia|mlia|]. change (S NDIRECT) with 13%nat.
  apply list_eq. intros k. rewrite list_lookup_fmap. destruct (decide (k < 13)%nat) as [Hk|Hk].
  - destruct (lookup_lt_is_Some_2 ad k) as [a Hka]; [lia|]. rewrite Hka, lookup_seq_lt by done. cbn [fmap option_fmap option_map]. f_equal. rewrite Nat.add_0_l.
    replace (off + 12 + 4 * k)%nat with (off + 2 + 2 + 2 + 2 + 4 + 4 * k)%nat by lia.
    rewrite (at_words _ _ _ _ _ Ha Hka). specialize (H7 a (list_elem_of_lookup_2 _ _ _ Hka)). mlia.
  - rewrite lookup_seq_ge, lookup_ge_None_2 by lia. done.
Qed.

Lemma load_ext d d' off : (forall k, (off <= k < off + 64)%nat -> d' !!! k = d !!! k) -> load_dinode d' off = load_dinode d off.
Proof.
  intros E. unfold load_dinode, le16, le32. f_equal; try (rewrite !E by lia; done).
  apply map_ext_in. intros k Hk%in_seq. unfold NDIRECT in Hk. rewrite !E by lia. done.
Qed.

(** The inode table: storing a dinode in its slot, loading it gives it back, and
    the other slots keep theirs. *)
Lemma load_store d off x : dinode_ok x -> (off + 64 <= length d)%nat -> load_dinode (store_dinode d off x) off = x.
Proof. intros Hx Hl. apply load_at; [done|]. apply at_splice. lia. Qed.
Lemma load_store_ne d off off' x :
  dinode_ok x -> (off + 64 <= length d)%nat -> (off' + 64 <= off \/ off + 64 <= off')%nat ->
  load_dinode (store_dinode d off x) off' = load_dinode d off'.
Proof.
  intros Hx Hl Hd. pose proof (length_dinode_bytes x (dk_addrs _ Hx)) as Hb. apply load_ext. intros k Hk.
  unfold store_dinode. rewrite !list_lookup_total_alt, lookup_splice_out by lia. done.
Qed.
Lemma length_store d off x : dinode_ok x -> (off + 64 <= length d)%nat -> length (store_dinode d off x) = length d.
Proof. intros Hx Hl. unfold store_dinode. apply length_splice. rewrite length_dinode_bytes by apply (dk_addrs _ Hx). lia. Qed.
Lemma slot_in n : (dinode_off n + 64 <= 512)%nat.
Proof. unfold dinode_off, IPB. pose proof (Z.mod_pos_bound n 8 ltac:(lia)). lia. Qed.

(** ** [iupdate] and [ilock] *)

Lemma seti_run i ip f e s : icache s !! i = Some ip -> seti i f e s = Ok tt (s <| icache ::= <[i := f ip]> |>) e.
Proof.
  intros Hi. unfold seti. rewrite (bind_ok _ _ _ _ _ _ _ (geti_run i ip e s Hi)). apply ok_eq. kext.
  apply list_eq. intros j. destruct (decide (j = i)) as [->|Hne].
  - rewrite list_lookup_alter_eq, Hi, list_lookup_insert_eq; [done|]. by eapply lookup_lt_Some.
  - by rewrite list_lookup_alter_ne, list_lookup_insert_ne by done.
Qed.
Lemma lookup_seti {A} (l : list A) i x y : l !! i = Some x -> <[i := y]> l !! i = Some y.
Proof. intros Hi. apply list_lookup_insert_eq. by eapply lookup_lt_Some. Qed.

Section Inodes.
Context {dd : DiskDriver} {ddok : DiskDriverOk}.
Context (L lsz : Z) (D0 : Z -> list Z) (W : list ((Z * Z) * list Z)).
Context (S : gset Z) (HSn : (size S < NBUF)%nat) (HSl : Z.of_nat (size S) < lsz - 1).
#[local] Abbreviation fs := (fs L lsz D0 W).

Lemma wp_iupdate i ip Q e s B secs :
  fs s B secs ∅ ∅ -> within S secs ∅ -> icache s !! i = Some ip -> ip_dev ip = 1 -> dinode_ok (to_dinode ip) ->
  let n := IBLOCK (ip_inum ip) in
  0 <= n < L -> n ∈ S ->
  (forall s', fs s' (fupd n (store_dinode (B n) (dinode_off (ip_inum ip)) (to_dinode ip)) B) (log_add n secs) ∅ ∅ ->
     kept_but_log s s' -> Q tt s' e) ->
  wp (iupdate i) Q e s.
Proof.
  intros Hf Hw Hi Hdev Hok n Hn HnS HQ. unfold iupdate. pose proof (slot_in (ip_inum ip)) as Hsl.
  pose proof (fs_len _ _ _ _ _ _ _ _ _ n Hf ltac:(lia)) as Hlen.
  apply wp_bind, (wp_geti i ip); [done|]. rewrite Hdev. fold n.
  apply wp_bind. eapply fs_bread; [exact Hf|done|apply not_elem_of_empty| |].
  { apply (within_cap _ S HSn HSl); [apply (fs_nodup _ _ _ _ _ _ _ _ _ Hf)|done]. }
  intros j s1 Hf1 Hk1. apply wp_bind, (wp_geti i ip); [by rewrite (kp_icache _ _ Hk1)|].
  apply wp_bind. eapply (fs_get_data L lsz D0 W n); [exact Hf1|apply lookup_insert_eq|lia|].
  apply wp_bind. eapply (fs_set_data L lsz D0 W n); [exact Hf1|apply lookup_insert_eq|lia|rewrite length_store; [done|done|lia]|].
  intros s2 Hf2 Hk2. eapply (wp_log_release L lsz D0 W S HSn HSl); [exact Hf2|done|done|done|apply not_elem_of_empty|].
  intros s3 Hf3 Hk3. apply HQ; [done|eauto 9 using kept_but_log_trans, kept_log].
Qed.

(** The inode that [ilock] leaves. *)
Definition ilocked (x : dinode) (jp : inode) : inode :=
  from_dinode x jp <| ip_flags := Z.lor (Z.lor (ip_flags jp) I_BUSY) I_VALID |>.

Lemma wp_ilock_acquire {A} (K : M A) Q e s j jp :
  cpu_ok (kcpu s) -> lock_free s L_icache -> icache s !! j = Some jp -> i_flag jp I_BUSY = false ->
  wp K Q e ((refresh s) <| icache ::= <[j := jp <| ip_flags := Z.lor (ip_flags jp) I_BUSY |>]> |>) ->
  wp (acquire L_icache ;;
      mwhile_sleep (ip ← geti j; mret (i_flag ip I_BUSY)) (sleep (Ch_inode j) L_icache) ;;
      seti j (fun ip => ip <| ip_flags := Z.lor (ip_flags ip) I_BUSY |>) ;;
      release L_icache ;; K) Q e s.
Proof.
  intros Hok [name Hl] Hj Hnb HK. apply wp_bind, (wp_ok _ _ _ _ _ _ _ (acquire_run _ _ e s Hl)).
  set (s1 := locked_state L_icache name s). assert (icache s1 !! j = Some jp) as Hj1 by done.
  apply wp_bind. eapply (wp_ok _ _ _ _ tt s1 e).
  { unfold mwhile_sleep. cbn [mwhile]. rewrite bind_assoc_M, (bind_ok _ _ _ _ _ _ _ (geti_run j jp e s1 Hj1)).
    mrun. by rewrite Hnb. }
  apply wp_bind. eapply wp_ok; [apply (seti_run j jp _ e s1 Hj1)|].
  apply wp_bind. eapply wp_ok; [apply (release_locked L_icache name e s); try done|]. exact HK.
Qed.

Lemma wp_ilock_load j jp Q e s B secs :
  fs s B secs ∅ ∅ -> within S secs ∅ -> lock_free s L_icache -> icache s !! j = Some jp -> ip_dev jp = 1 ->
  1 <= ip_ref jp -> ip_flags jp = 0 ->
  let n := IBLOCK (ip_inum jp) in let x := load_dinode (B n) (dinode_off (ip_inum jp)) in
  0 <= n < L -> d_type x <> 0 ->
  (forall s', fs s' B secs ∅ ∅ -> icache s' !! j = Some (ilocked x jp) -> locks s' = locks s -> Q tt s' e) ->
  wp (ilock j) Q e s.
Proof.
  intros Hf Hw Hl Hj Hdev Href Hfl n x Hn Hx HQ. unfold ilock. apply wp_bind, (wp_geti j jp); [done|].
  rewrite (proj2 (Z.ltb_ge _ _)) by lia. pose proof (fs_cpu _ _ _ _ _ _ _ _ _ Hf) as Hok.
  apply (wp_ilock_acquire _ _ _ _ j jp); [done|done|done|unfold i_flag; by rewrite Hfl|].
  set (jp1 := jp <| ip_flags := _ |>). set (s1 := _ <| icache ::= _ |>).
  assert (icache s1 !! j = Some jp1) as Hj1 by (unfold s1; rsimpl; by eapply lookup_seti).
  assert (fs s1 B secs ∅ ∅) as Hf1.
  { eapply (fs_other L lsz D0 W s); [exact Hf|by apply cpu_ok_refreshed|done..]. }
  apply wp_bind, (wp_geti j jp1); [done|]. assert (i_flag jp1 I_VALID = false) as Env by (unfold i_flag, jp1; rsimpl; by rewrite Hfl).
  rewrite Env. cbv iota. change (ip_dev jp1) with (ip_dev jp). rewrite Hdev. change (IBLOCK (ip_inum jp1)) with n.
  apply wp_bind. eapply fs_bread; [exact Hf1|done|apply not_elem_of_empty| |].
  { apply (within_cap _ S HSn HSl); [apply (fs_nodup _ _ _ _ _ _ _ _ _ Hf1)|done]. }
  intros b s2 Hf2 Hk2. apply wp_bind. eapply (fs_get_data L lsz D0 W n); [exact Hf2|apply lookup_insert_eq|lia|].
  change (dinode_off (ip_inum jp1)) with (dinode_off (ip_inum jp)). fold x.
  assert (icache s2 !! j = Some jp1) as Hj2 by (by rewrite (kp_icache _ _ Hk2)).
  apply wp_bind. eapply wp_ok; [apply (seti_run j jp1 _ e s2 Hj2)|]. set (s3 := s2 <| icache ::= _ |>).
  assert (fs s3 B secs (<[n := b]> ∅) ∅) as Hf3.
  { eapply (fs_other L lsz D0 W s2); [exact Hf2|exact (fs_cpu _ _ _ _ _ _ _ _ _ Hf2)|done..]. }
  assert (icache s3 !! j = Some (from_dinode x jp1)) as Hj3 by (unfold s3; rsimpl; by eapply lookup_seti).
  apply wp_bind. eapply (fs_brelse L lsz D0 W n); [exact Hf3|apply lookup_insert_eq|apply not_elem_of_empty|].
  intros s4 Hf4 Hk4. rewrite delete_held in Hf4 by apply not_elem_of_empty.
  assert (icache s4 !! j = Some (from_dinode x jp1)) as Hj4 by (by rewrite (kp_icache _ _ Hk4)).
  apply wp_bind. eapply wp_ok; [apply (seti_run j _ _ e s4 Hj4)|]. set (s5 := s4 <| icache ::= _ |>).
  assert (icache s5 !! j = Some (ilocked x jp)) as Hj5 by (unfold s5; rsimpl; by eapply lookup_seti).
  apply wp_bind, (wp_geti j _ _ _ _ Hj5). rewrite (proj2 (Z.eqb_neq _ _)) by done. apply wp_ret, HQ; [|done|].
  - eapply (fs_other L lsz D0 W s4); [exact Hf4|exact (fs_cpu _ _ _ _ _ _ _ _ _ Hf4)|done..].
  - change (locks s5) with (locks s4). rewrite (kp_locks _ _ Hk4). change (locks s3) with (locks s2). by rewrite (kp_locks _ _ Hk2).
Qed.
End Inodes.

(** C26. An inode survives on disk. In a transaction, iupdate of a cached inode
    logs its block, with the other inodes in the block as they were; and ilock of
    an entry for the same inode that has not been read yet, in any later state
    with the blocks iupdate left, locks the entry and gives it the fields the
    inode had. *)
Theorem iupdate_ilock {dd : DiskDriver} {ddok : DiskDriverOk} L lsz D0 W (S : gset Z) e s B secs i ip :
  fs L lsz D0 W s B secs ∅ ∅ -> (size S < NBUF)%nat -> Z.of_nat (size S) < lsz - 1 -> (forall x, x ∈ secs -> x ∈ S) ->
  icache s !! i = Some ip -> ip_dev ip = 1 -> dinode_ok (to_dinode ip) -> ip_type ip <> 0 ->
  let n := IBLOCK (ip_inum ip) in
  0 <= n < L -> n ∈ S ->
  exists s1 B' secs', iupdate i e s = Ok tt s1 e /\ fs L lsz D0 W s1 B' secs' ∅ ∅ /\
    (forall m, m <> n -> B' m = B m) /\
    (forall k, 0 <= k < 8 -> k <> ip_inum ip mod 8 -> load_dinode (B' n) (Z.to_nat (64 * k)) = load_dinode (B n) (Z.to_nat (64 * k))) /\
    forall s2 secs2 j jp, fs L lsz D0 W s2 B' secs2 ∅ ∅ -> (forall x, x ∈ secs2 -> x ∈ S) -> lock_free s2 L_icache ->
      icache s2 !! j = Some jp -> ip_dev jp = 1 -> ip_inum jp = ip_inum ip -> 1 <= ip_ref jp -> ip_flags jp = 0 ->
      exists s3, ilock j e s2 = Ok tt s3 e /\
        icache s3 !! j = Some (from_dinode (to_dinode ip) jp <| ip_flags := Z.lor I_BUSY I_VALID |>).
Proof.
  intros Hf HSn HSl Hsec Hi Hdev Hok Hty n Hn HnS. pose proof (slot_in (ip_inum ip)) as Hsl.
  pose proof (fs_len _ _ _ _ _ _ _ _ _ n Hf ltac:(lia)) as Hlen.
  set (B' := fupd n (store_dinode (B n) (dinode_off (ip_inum ip)) (to_dinode ip)) B).
  destruct (wp_ok_inv (iupdate i) (fun _ s1 e1 => e1 = e /\ fs L lsz D0 W s1 B' (log_add n secs) ∅ ∅) e s)
    as ([] & s1 & e1 & Hrun & -> & Hf1).
  { eapply (wp_iupdate L lsz D0 W S HSn HSl); [exact Hf|by split|exact Hi|done|done|done|done|]. by intros. }
  exists s1, B', (log_add n secs). split_and!; [done|done| | |].
  - intros m Hm. unfold B'. by rewrite fupd_ne.
  - intros k Hk Hne. unfold B'. rewrite fupd_eq. pose proof (Z.mod_pos_bound (ip_inum ip) 8 ltac:(lia)).
    apply load_store_ne; [done|lia|]. unfold dinode_off, IPB. lia.
  - intros s2 secs2 j jp Hf2 Hsec2 Hl Hj Hjd Hji Hjr Hjf.
    assert (load_dinode (B' n) (dinode_off (ip_inum jp)) = to_dinode ip) as El.
    { unfold B'. rewrite fupd_eq, Hji. apply load_store; [done|lia]. }
    destruct (wp_ok_inv (ilock j) (fun _ s3 e3 => e3 = e /\ icache s3 !! j = Some (ilocked (to_dinode ip) jp)) e s2)
      as ([] & s3 & e3 & Hrun3 & -> & Hj3).
    { eapply (wp_ilock_load L lsz D0 W S HSn HSl); [exact Hf2|by split|done|exact Hj|done|done|done|..]; rewrite ?Hji; fold n;
        [done|rewrite <- Hji, El; done|]. intros s3 _ Hj3 _. split; [done|]. rewrite <- Hji, El in Hj3. done. }
    exists s3. split; [done|]. rewrite Hj3. unfold ilocked. by rewrite Hjf.
Qed.

(** ** Witness *)

#[local] Existing Instance memdrv.
#[local] Existing Instance memdrv_ok.

(** Inode 17, in the entry 0 and about to be read into the entry 1. *)
Definition ino_ex : inode :=
  inode0 <| ip_dev := 1 |> <| ip_inum := 17 |> <| ip_ref := 1 |> <| ip_flags := 2 |> <| ip_type := 2 |> <| ip_size := 600 |>.
Definition ino_new : inode := inode0 <| ip_dev := 1 |> <| ip_inum := 17 |> <| ip_ref := 1 |>.
Lemma ino_ex_ok : dinode_ok (to_dinode ino_ex).
Proof.
  split; [by vm_compute..|]. intros a Ha. assert (Forall (fun a => 0 <= a < 4294967296) (ip_addrs ino_ex)) as Hf by vm_decide.
  exact (proj1 (Forall_forall _ _) Hf a Ha).
Qed.

Lemma iupdate_ilock_witness :
  exists s s1, iupdate 0 [] s = Ok tt s1 [].
Proof.
  destruct fs_ex as (s0 & Hf0). pose proof (fs_icache _ _ _ _ _ [ino_ex; ino_new] Hf0) as Hf. set (s := _ <| icache := _ |>) in Hf.
  assert (icache s !! 0%nat = Some ino_ex) as Hi by reflexivity.
  destruct (iupdate_ilock 980 20 blocks_ex [] {[4]} [] s blocks_ex [] 0 ino_ex Hf) as (s1 & B' & secs' & Hr & _).
  - vm_compute. lia.
  - vm_compute. reflexivity.
  - intros x Hx. by apply not_elem_of_nil in Hx.
  - exact Hi.
  - reflexivity.
  - exact ino_ex_ok.
  - discriminate.
  - change (IBLOCK (ip_inum ino_ex)) with 4. lia.
  - by apply elem_of_singleton.
  - exists s, s1. exact Hr.
Defined.
