(* ===== verification/Directory.v ===== *)
(** * Directory: directories as tables of names

    The contents of a directory are a list of entries. [dirlookup] returns the first
    entry in use with the name and the inode cache's slot for it; [dirlink] puts a new
    name into the first free entry. *)
From S2P Require Import Prelude Memory State Spinlock CString Vm Sched Bio Buffers Log Blocks Recovery Transaction Atomic Inode Bitmap Console Dir Files Inodes.

(** ** The table of a directory *)

(** Entry [k] of the directory, and all of them. *)
Definition dent (B : Z -> list Z) (ip : inode) (k : Z) : dirent := load_dirent (fbytes B ip (16 * k) 16).
Definition dents (B : Z -> list Z) (ip : inode) : list dirent := map (dent B ip) (seqZ 0 (ip_size ip / 16)).
Definition de_is (name : list Z) (de : dirent) : bool := negb (de_inum de =? 0) && (namecmp name (de_name de) =? 0).
(** The first entry for the name, counting from [k]: its inode and its offset. *)
Fixpoint dfind (name : list Z) (des : list dirent) (k : Z) : option (Z * Z) :=
  match des with
  | [] => None
  | de :: des => if de_is name de then Some (de_inum de, 16 * k) else dfind name des (k + 1)
  end.
(** The first free entry, or the end. *)
Fixpoint dfree (des : list dirent) (k : Z) : Z :=
  match des with
  | [] => 16 * k
  | de :: des => if de_inum de =? 0 then 16 * k else dfree des (k + 1)
  end.
Definition dlookup (B : Z -> list Z) (ip : inode) (name : list Z) : option (Z * Z) := dfind name (dents B ip) 0.

Lemma dents_from B ip k : 0 <= k < ip_size ip / 16 ->
  map (dent B ip) (seqZ k (ip_size ip / 16 - k)) = dent B ip k :: map (dent B ip) (seqZ (k + 1) (ip_size ip / 16 - (k + 1))).
Proof. intros Hk. rewrite (seqZ_cons k) by lia. cbn [map]. do 2 f_equal. f_equal; lia. Qed.

(** Entries compare by what their names are up to a NUL and to 14 characters. *)
Definition same_name (n n' : list Z) : Prop := cprefix n DIRSIZ = cprefix n' DIRSIZ.
#[export] Instance same_name_dec n n' : Decision (same_name n n') := decide (cprefix n DIRSIZ = cprefix n' DIRSIZ).
Lemma de_is_spec name de : is_bytes name -> is_bytes (de_name de) -> de_is name de = true <-> de_inum de <> 0 /\ same_name name (de_name de).
Proof.
  intros Hn Hd. unfold de_is, namecmp, same_name. rewrite andb_true_iff, negb_true_iff, Z.eqb_neq, Z.eqb_eq. by rewrite strncmp_zero.
Qed.
Lemma de_is_same n n' de : is_bytes n -> is_bytes n' -> is_bytes (de_name de) -> same_name n n' -> de_is n de = de_is n' de.
Proof. intros Hn Hn' Hd Hs. apply eq_bool_prop_intro. rewrite !Is_true_true, !de_is_spec by done. unfold same_name in *. by rewrite Hs. Qed.
Lemma dfind_same n n' des k : is_bytes n -> is_bytes n' -> Forall (fun de => is_bytes (de_name de)) des -> same_name n n' -> dfind n des k = dfind n' des k.
Proof.
  intros Hn Hn' Hd Hs. revert k. induction Hd as [|de des Hde _ IH]; intros k; [done|]. cbn [dfind]. rewrite (de_is_same n n') by done. by rewrite IH.
Qed.
(** What a new entry in place of a free one does to the names. *)
Lemma dfind_insert name des j d0 de k : des !! j = Some d0 -> de_inum d0 = 0 -> de_is name de = false -> dfind name (<[j := de]> des) k = dfind name des k.
Proof.
  revert j k. induction des as [|d des IH]; intros [|j] k Hj H0 Hde; try done; cbn [dfind insert list_insert].
  - injection Hj as ->. rewrite Hde. unfold de_is at 1. by rewrite H0.
  - fold (<[j := de]> des). by rewrite (IH j) by done.
Qed.
Lemma dfind_new name des j de k : (j < length des)%nat -> dfind name des k = None -> de_is name de = true ->
  dfind name (<[j := de]> des) k = Some (de_inum de, 16 * (k + Z.of_nat j)).
Proof.
  revert j k. induction des as [|d des IH]; intros [|j] k Hj Hn Hde; cbn [length] in Hj; try lia; cbn [dfind insert list_insert] in *.
  - rewrite Hde. do 2 f_equal. lia.
  - destruct (de_is name d); [done|]. fold (<[j := de]> des). rewrite (IH j) by (done || lia). do 2 f_equal. lia.
Qed.
Lemma dfree_spec des k : (exists j d, dfree des k = 16 * (k + Z.of_nat j) /\ des !! j = Some d /\ de_inum d = 0) \/ dfree des k = 16 * (k + Z.of_nat (length des)).
Proof.
  revert k. induction des as [|d des IH]; intros k; cbn [dfree length]; [right; lia|]. destruct (Z.eqb_spec (de_inum d) 0) as [E|E].
  - left. exists 0%nat, d. split; [lia|done].
  - destruct (IH (k + 1)) as [(j & d' & -> & Hj & H0)| ->]; [left; exists (S j), d'; split; [lia|done]|right; lia].
Qed.
Lemma load_dirent_bytes inum name : 0 <= inum < 65536 -> length name = DIRSIZ -> load_dirent (dirent_bytes (Dirent inum name)) = Dirent inum name.
Proof.
  intros Hi Hl. unfold load_dirent, dirent_bytes. cbn [de_inum de_name]. f_equal; [change (le16 (bytes16 inum ++ name) 0) with (le16 (bytes16 inum) 0); rewrite le16_bytes16; mlia|]. change (drop 2 (bytes16 inum ++ name)) with name.
  by rewrite firstn_all2 by lia.
Qed.

(** ** The inode cache *)

(** The slot is in use for the inode. *)
Definition caches (dev inum : Z) (x : inode) : Prop := 0 < ip_ref x /\ ip_dev x = dev /\ ip_inum x = inum.
(** No inode is in two slots. *)
Record icache_ok (ips : list inode) : Prop := {
  ic_ref i x : ips !! i = Some x -> 0 <= ip_ref x;
  ic_once dev inum i j x y : ips !! i = Some x -> ips !! j = Some y -> caches dev inum x -> caches dev inum y -> i = j;
}.
Definition fresh_inode (dev inum : Z) (x : inode) : inode :=
  x <| ip_dev := dev |> <| ip_inum := inum |> <| ip_ref := 1 |> <| ip_flags := 0 |>.

Lemma caches_spec dev inum x : (0 <? ip_ref x) && (ip_dev x =? dev) && (ip_inum x =? inum) = true <-> caches dev inum x.
Proof. unfold caches. rewrite !andb_true_iff, Z.ltb_lt, !Z.eqb_eq. tauto. Qed.
Lemma iget_scan_spec ips n dev inum empty :
  match iget_scan ips n dev inum empty with
  | inl i => exists k x, i = (n + k)%nat /\ ips !! k = Some x /\ caches dev inum x
  | inr r => (forall k x, ips !! k = Some x -> ~ caches dev inum x) /\
      match empty with
      | Some i => r = Some i
      | None => match r with
                | Some i => exists k x, i = (n + k)%nat /\ ips !! k = Some x /\ ip_ref x = 0
                | None => forall k x, ips !! k = Some x -> ip_ref x <> 0
                end
      end
  end.
Proof.
  revert n empty. induction ips as [|x ips IH]; intros n empty; cbn [iget_scan].
  - split; [done|]. by destruct empty.
  - destruct ((0 <? ip_ref x) && (ip_dev x =? dev) && (ip_inum x =? inum)) eqn:E.
    + apply caches_spec in E. exists 0%nat, x. by rewrite Nat.add_0_r.
    + assert (~ caches dev inum x) as Hx by (rewrite <- caches_spec, E; done). set (empty' := if _ : bool then _ else _).
      specialize (IH (S n) empty'). destruct (iget_scan ips (S n) dev inum empty') as [i|r].
      * destruct IH as (k & y & -> & Hk & Hy). exists (S k), y. split; [lia|done].
      * destruct IH as [Hno Hr]. split; [intros [|k] y Hy; [by injection Hy as <-|by eapply Hno]|]. subst empty'.
        destruct empty as [i|]; cbn [andb] in *; [by rewrite bool_decide_eq_false_2 in Hr by done|].
        rewrite bool_decide_eq_true_2 in Hr by done. cbn [andb] in Hr. destruct (Z.eqb_spec (ip_ref x) 0) as [E0|E0].
        -- subst r. exists 0%nat, x. by rewrite Nat.add_0_r.
        -- destruct r as [i|]; [destruct Hr as (k & y & -> & Hk & Hy); exists (S k), y; split; [lia|done]|].
           intros [|k] y Hy; [by injection Hy as <-|by eapply Hr].
Qed.

(** [iget] finds the slot of the inode, or takes over a free one. *)
Lemma iget_run dev inum name e s :
  cpu_ok (kcpu s) -> locks s !! L_icache = Some (Spinlock 0 name None) ->
  (exists k x, icache s !! k = Some x /\ (ip_ref x = 0 \/ caches dev inum x)) ->
  exists i x y, icache s !! i = Some x /\ iget dev inum e s = Ok i (refresh s <| icache := <[i := y]> (icache s) |>) e /\
    (caches dev inum x /\ y = x <| ip_ref := ip_ref x + 1 |> \/
     ip_ref x = 0 /\ (forall k z, icache s !! k = Some z -> ~ caches dev inum z) /\ y = fresh_inode dev inum x).
Proof.
  intros Hok Hl (k0 & x0 & Hk0 & Hx0). unfold iget. rewrite (acquire_bind _ name) by done. rewrite gets_bind.
  set (s1 := locked_state L_icache name s). change (icache s1) with (icache s).
  pose proof (iget_scan_spec (icache s) 0 dev inum None) as Hs. destruct (iget_scan (icache s) 0 dev inum None) as [i|[i|]].
  - destruct Hs as (k & x & -> & Hk & Hx). cbn [Nat.add]. exists k, x, (x <| ip_ref := ip_ref x + 1 |>). split; [done|]. split; [|by left].
    rewrite (bind_ok _ _ _ _ _ _ _ (seti_run k x _ e s1 Hk)). rewrite (release_bind _ name _ e s) by done. apply ok_eq. unfold s1, refresh. kext.
  - destruct Hs as [Hno (k & x & -> & Hk & Hx)]. cbn [Nat.add]. exists k, x, (fresh_inode dev inum x). split; [done|]. split; [|by right].
    apply lookup_lt_Some in Hk as Hlt.
    rewrite (bind_ok _ _ _ _ _ _ _ (seti_run k x _ e s1 Hk)).
    erewrite bind_ok; [|apply seti_run; rsimpl; by rewrite list_lookup_insert_eq].
    erewrite bind_ok; [|apply seti_run; rsimpl; rewrite list_lookup_insert_eq; [done|by rewrite length_insert]].
    erewrite bind_ok; [|apply seti_run; rsimpl; rewrite list_lookup_insert_eq; [done|by rewrite !length_insert]].
    rewrite (release_bind _ name _ e s) by done. apply ok_eq. unfold s1, refresh. kext. by rewrite !list_insert_insert_eq.
  - destruct Hs as [Hno Hfull]. destruct Hx0 as [H0|H0]; [by destruct (Hfull k0 x0 Hk0)|by destruct (Hno k0 x0 Hk0)].
Qed.

Lemma iget_inv dev inum name e s :
  cpu_ok (kcpu s) -> locks s !! L_icache = Some (Spinlock 0 name None) -> icache_ok (icache s) ->
  (exists k x, icache s !! k = Some x /\ (ip_ref x = 0 \/ caches dev inum x)) ->
  exists i s', iget dev inum e s = Ok i s' e /\ icache_ok (icache s') /\
    (exists y, icache s' !! i = Some y /\ caches dev inum y) /\
    (forall j, j <> i -> icache s' !! j = icache s !! j) /\ s' = refresh s <| icache := icache s' |>.
Proof.
  intros Hok Hl [H1 H2] Hx0. destruct (iget_run dev inum name e s Hok Hl Hx0) as (i & x & y & Hi & -> & Hy). eexists i, _. split; [done|].
  apply lookup_lt_Some in Hi as Hlt. rsimpl.
  assert (caches dev inum y) as Hcy by (destruct Hy as [[(?&?&?) ->]|(_ & _ & ->)]; unfold caches, fresh_inode; rsimpl; split_and!; done || lia).
  split; [|split; [exists y; split; [by apply list_lookup_insert_eq|done]|split; [intros j Hj; by apply list_lookup_insert_ne|done]]].
  assert (forall d n j z, j <> i -> icache s !! j = Some z -> caches d n y -> caches d n z -> False) as Hcl.
  { intros d n j z Hne Hj Hcd Hcz. assert (d = dev /\ n = inum) as [-> ->] by (destruct Hcd as (_&<-&<-), Hcy as (_&<-&<-); done).
    destruct Hy as [[Hcx _]|(_ & Hno & _)]; [by apply Hne; eapply H2|by eapply Hno]. }
  split.
  - intros j z [(<- & <- & _)|[_ Hj]]%list_lookup_insert_Some; [destruct Hcy; lia|by eapply H1].
  - intros d n j k z w [(<- & <- & _)|[Hnj Hj]]%list_lookup_insert_Some [(<- & <- & _)|[Hnk Hk]]%list_lookup_insert_Some Hz Hw; [done| | |by eapply H2].
    + exfalso. by eapply (Hcl d n k w).
    + exfalso. by eapply (Hcl d n j z).
Qed.
(** C27. The inode cache holds an inode at most once: iget, when the inode is cached or a
    slot is free, returns a slot that is in use for the inode; no inode gets into two
    slots, no reference count becomes negative, and the other slots are as before. *)
Theorem iget_once dev inum name e s :
  cpu_ok (kcpu s) -> locks s !! L_icache = Some (Spinlock 0 name None) -> icache_ok (icache s) ->
  (exists k x, icache s !! k = Some x /\ (ip_ref x = 0 \/ caches dev inum x)) ->
  exists i s', iget dev inum e s = Ok i s' e /\ icache_ok (icache s') /\
    (exists y, icache s' !! i = Some y /\ caches dev inum y) /\
    (forall j, j <> i -> icache s' !! j = icache s !! j) /\ s' = refresh s <| icache := icache s' |>.
Proof. apply iget_inv. Qed.
Definition cache_ex : kstate := kzero_locks <| icache := [inode0 <| ip_ref := 1 |>; inode0] |>.
Lemma iget_once_witness : exists i s', iget 1 5 [] cache_ex = Ok i s' [] /\ icache_ok (icache s').
Proof.
  destruct (iget_once 1 5 "icache" [] cache_ex) as (i & s' & E & Hic & _).
  - vm_compute. split_and!; done || lia.
  - reflexivity.
  - split.
    + intros [|[|i]] x [= <-]; vm_compute; discriminate.
    + intros d n [|[|i]] [|[|j]] x y [= <-] [= <-] (Hx & _) (Hy & _); try reflexivity; vm_compute in Hx, Hy; discriminate.
  - exists 1%nat, inode0. split; [reflexivity|left; reflexivity].
  - exists i, s'. split; [exact E|exact Hic].
Defined.

Section Directory.
Context {dd : DiskDriver} {ddok : DiskDriverOk}.

(** ** Searching *)

Section Search.
Context (v : view) (L : Z) (HL : L <= drv_sectors) (Hheld : v_held v = ∅) (Hpin : (size (v_pin v) < NBUF)%nat).
Context (i : nat) (ip : inode) (nb : Z) (Hb : has_blocks L (v_blk v) ip nb) (Ht : ip_type ip = T_DIR).
Context (Hsz : 0 <= ip_size ip <= 512 * nb) (H16 : ip_size ip mod 16 = 0).

Lemma wp_read_dirent k Q e s :
  views s v -> icache s !! i = Some ip -> 0 <= k < ip_size ip / 16 ->
  (forall s', views s' v -> kept s s' -> Q (dent (v_blk v) ip k) s' e) -> wp (read_dirent i (16 * k)) Q e s.
Proof using All.
  intros Hv Hi Hk HQ. pose proof (hb_max _ _ _ _ Hb). unfold read_dirent, dirent_size. apply wp_bind.
  eapply (wp_readi v L HL Hheld Hpin); [exact Hv|exact Hi|exact Hb|by rewrite Ht|exact Hsz|mlia|lia|mlia|].
  intros s' Hv' Hk'. cbv zeta. rewrite Z.min_l by mlia. cbn [Z.eqb Pos.eqb negb]. by apply wp_ret, HQ.
Qed.

Lemma dirlookup_loop_run fuel name k Q e s :
  views s v -> icache s !! i = Some ip -> 0 <= k <= ip_size ip / 16 -> (Z.to_nat (ip_size ip / 16 - k) <= fuel)%nat ->
  (forall s', views s' v -> kept s s' -> Q (dfind name (map (dent (v_blk v) ip) (seqZ k (ip_size ip / 16 - k))) k) s' e) ->
  wp (dirlookup_loop fuel i name (16 * k)) Q e s.
Proof using All.
  revert k s. induction fuel as [|fuel IH]; intros k s Hv Hi Hk Hf HQ; cbn [dirlookup_loop]; (apply wp_bind, (wp_geti i ip); [done|]);
    (destruct (decide (k = ip_size ip / 16)) as [Ek|Hne];
     [rewrite (proj2 (Z.ltb_ge _ _)) by mlia; specialize (HQ s Hv (kept_refl s)); rewrite seqZ_nil in HQ by lia; by apply wp_ret|]); [lia|].
  rewrite (proj2 (Z.ltb_lt _ _)) by mlia. rewrite dents_from in HQ by lia. cbn [dfind] in HQ.
  apply wp_bind, wp_read_dirent; [done|done|lia|]. intros s1 Hv1 Hk1. unfold de_is in HQ. set (de := dent (v_blk v) ip k) in *.
  assert ((forall s', views s' v -> kept s s' -> Q (dfind name (map (dent (v_blk v) ip) (seqZ (k + 1) (ip_size ip / 16 - (k + 1)))) (k + 1)) s' e) ->
    wp (dirlookup_loop fuel i name (16 * k + dirent_size)) Q e s1) as Hnext.
  { intros HQ'. replace (16 * k + dirent_size) with (16 * (k + 1)) by (unfold dirent_size; lia).
    apply IH; [done|by rewrite (kp_icache _ _ Hk1)|lia|lia|]. intros s2 Hv2 Hk2. apply HQ'; [done|by eapply kept_trans]. }
  destruct (de_inum de =? 0); cbn [negb andb] in HQ; [by apply Hnext|].
  destruct (namecmp name (de_name de) =? 0); [by apply wp_ret, HQ|by apply Hnext].
Qed.
Lemma dirlink_loop_run fuel k Q e s :
  views s v -> icache s !! i = Some ip -> 0 <= k <= ip_size ip / 16 -> (Z.to_nat (ip_size ip / 16 - k) <= fuel)%nat ->
  (forall s', views s' v -> kept s s' -> Q (dfree (map (dent (v_blk v) ip) (seqZ k (ip_size ip / 16 - k))) k) s' e) ->
  wp (dirlink_loop fuel i (16 * k)) Q e s.
Proof using All.
  revert k s. induction fuel as [|fuel IH]; intros k s Hv Hi Hk Hf HQ; cbn [dirlink_loop]; (apply wp_bind, (wp_geti i ip); [done|]);
    (destruct (decide (k = ip_size ip / 16)) as [Ek|Hne];
     [rewrite (proj2 (Z.ltb_ge _ _)) by mlia; specialize (HQ s Hv (kept_refl s)); rewrite seqZ_nil in HQ by lia; by apply wp_ret|]); [lia|].
  rewrite (proj2 (Z.ltb_lt _ _)) by mlia. rewrite dents_from in HQ by lia. cbn [dfree] in HQ.
  apply wp_bind, wp_read_dirent; [done|done|lia|]. intros s1 Hv1 Hk1. set (de := dent (v_blk v) ip k) in *.
  destruct (de_inum de =? 0); [by apply wp_ret, HQ|]. replace (16 * k + dirent_size) with (16 * (k + 1)) by (unfold dirent_size; lia).
  apply IH; [done|by rewrite (kp_icache _ _ Hk1)|lia|lia|]. intros s2 Hv2 Hk2. apply HQ; [done|by eapply kept_trans].
Qed.
End Search.

(** C9. dirlookup of a name in a directory terminates. It gives nothing when no entry in
    use has the name; otherwise the slot of the inode cache for the inode of the first
    such entry, and the offset of that entry. The disk is as before and no inode is
    cached twice. *)
Theorem dirlookup_finds e s v L i ip nb name lname :
  views s v -> v_held v = ∅ -> (size (v_pin v) < NBUF)%nat -> L <= drv_sectors ->
  icache s !! i = Some ip -> has_blocks L (v_blk v) ip nb -> ip_type ip = T_DIR ->
  0 <= ip_size ip <= 512 * nb -> ip_size ip mod 16 = 0 ->
  locks s !! L_icache = Some (Spinlock 0 lname None) -> icache_ok (icache s) -> (exists k x, icache s !! k = Some x /\ ip_ref x = 0) ->
  match dlookup (v_blk v) ip name with
  | None => exists s', dirlookup i name e s = Ok None s' e /\ views s' v /\ icache s' = icache s
  | Some (inum, off) => exists j s' y, dirlookup i name e s = Ok (Some (j, off)) s' e /\ views s' v /\
      icache_ok (icache s') /\ icache s' !! j = Some y /\ caches (ip_dev ip) inum y
  end.
Proof.
  intros Hv Hh Hp HL Hi Hb Ht Hsz H16 Hl Hic (k0 & x0 & Hk0 & Hx0). unfold dirlookup.
  rewrite (bind_ok _ _ _ _ _ _ _ (geti_run i ip e s Hi)), Ht. cbn [Z.eqb T_DIR negb Pos.eqb].
  destruct (wp_ok_inv (dirlookup_loop (S (Z.to_nat (ip_size ip / dirent_size))) i name 0)
    (fun r s1 e1 => e1 = e /\ r = dlookup (v_blk v) ip name /\ views s1 v /\ kept s s1) e s) as (r & s1 & e1 & Hr & -> & -> & Hv1 & Hk1).
  { change 0 with (16 * 0) at 1. eapply (dirlookup_loop_run v L HL Hh Hp i ip nb Hb Ht Hsz H16); [done|done|mlia|unfold dirent_size; lia|].
    intros s' Hv' Hk'. by rewrite Z.sub_0_r. }
  rewrite (bind_ok _ _ _ _ _ _ _ Hr). destruct (dlookup (v_blk v) ip name) as [[inum off]|]; [|exists s1; by rewrite (kp_icache _ _ Hk1)].
  rewrite (bind_ok _ _ _ _ _ _ _ (geti_run i ip e s1 ltac:(by rewrite (kp_icache _ _ Hk1)))).
  destruct (iget_inv (ip_dev ip) inum lname e s1) as (j & s2 & E & Hic2 & (y & Hj & Hy) & _ & Es2).
  - apply (vw_cpu _ _ Hv1).
  - by rewrite (kp_locks _ _ Hk1).
  - by rewrite (kp_icache _ _ Hk1).
  - rewrite (kp_icache _ _ Hk1). eauto.
  - exists j, s2, y. rewrite (bind_ok _ _ _ _ _ _ _ E). split; [done|]. split; [|done].
    rewrite Es2. apply (views_other s1); try done. rsimpl. apply cpu_ok_refreshed, (vw_cpu _ _ Hv1).
Qed.

(** The entries after a write over one of them. *)
Lemma dents_wrote ip nb k de B B' :
  wrote_file ip nb (16 * k) (dirent_bytes de) B B' -> 0 <= k < ip_size ip / 16 -> ip_size ip <= 512 * nb ->
  0 <= de_inum de < 65536 -> length (de_name de) = DIRSIZ -> dents B' ip = <[Z.to_nat k := de]> (dents B ip).
Proof.
  intros Hw Hk Hsz Hin Hl. assert (Z.of_nat (length (dirent_bytes de)) = 16) as El by (unfold dirent_bytes; rewrite length_app, Hl; done).
  apply list_eq. intros j. unfold dents at 1. rewrite list_lookup_fmap. destruct (decide (Z.of_nat j < ip_size ip / 16)) as [Hj|Hj].
  - rewrite lookup_seqZ_lt by lia. cbn [fmap option_fmap option_map]. destruct (decide (j = Z.to_nat k)) as [->|Hne].
    + rewrite list_lookup_insert_eq by (unfold dents; rewrite length_map, length_seqZ; lia). f_equal. unfold dent.
      replace (16 * (0 + Z.of_nat (Z.to_nat k))) with (16 * k) by lia. pose proof (wrote_read _ _ _ _ _ _ Hw ltac:(lia) ltac:(mlia)) as E. rewrite El in E. rewrite E.
      destruct de. by apply load_dirent_bytes.
    + rewrite list_lookup_insert_ne by done. unfold dents. rewrite list_lookup_fmap, lookup_seqZ_lt by lia. cbn [fmap option_fmap option_map]. f_equal.
      unfold dent. f_equal. apply fbytes_ext. intros p Hp. rewrite (wf_byte _ _ _ _ _ _ Hw), decide_False by mlia. done.
  - rewrite lookup_seqZ_ge by lia. rewrite list_lookup_insert_ne by lia. unfold dents. by rewrite list_lookup_fmap, lookup_seqZ_ge by lia.
Qed.

Section Link.
Context (L lsz : Z) (D0 : Z -> list Z) (W : list ((Z * Z) * list Z)).
Context (S : gset Z) (HSn : (size S < NBUF)%nat) (HSl : Z.of_nat (size S) < lsz - 1).

(** A search of the directory in a transaction. *)
Lemma fs_search {A} (f : M A) (r : (Z -> list Z) -> A) s B secs e :
  fs L lsz D0 W s B secs ∅ ∅ -> within S secs ∅ ->
  (forall v Q, L <= drv_sectors -> v_held v = ∅ -> (size (v_pin v) < NBUF)%nat -> views s v -> (forall m, m < L -> v_blk v m = B m) ->
    (forall s', views s' v -> kept s s' -> Q (r (v_blk v)) s' e) -> wp f Q e s) ->
  exists v s', (forall m, m < L -> v_blk v m = B m) /\ f e s = Ok (r (v_blk v)) s' e /\ fs L lsz D0 W s' B secs ∅ ∅ /\ kept s s'.
Proof using HSn HSl ddok.
  intros (v & w & Hf) Hw Hrun. pose proof (fv_log _ _ _ _ _ _ _ _ _ _ _ Hf) as Hlo. destruct (lo_geom _ _ _ _ Hlo) as (? & ? & ?).
  destruct (wp_ok_inv f (fun a s' e' => e' = e /\ a = r (v_blk v) /\ views s' v /\ kept s s') e s) as (a & s' & e' & E & -> & -> & Hv' & Hk').
  { apply (Hrun v); [lia|apply (fv_held _ _ _ _ _ _ _ _ _ _ _ Hf)| |apply (lo_views _ _ _ _ Hlo)|apply (fv_blk _ _ _ _ _ _ _ _ _ _ _ Hf)|done].
    pose proof (cap_pin _ _ _ _ _ _ _ _ _ _ _ Hf (within_cap _ S HSn HSl secs ∅ (lo_nodup _ _ _ _ Hlo) Hw)) as Hc.
    eapply Nat.le_lt_trans; [|exact Hc]. apply subseteq_size, union_subseteq_r. }
  exists v, s'. split; [apply (fv_blk _ _ _ _ _ _ _ _ _ _ _ Hf)|]. split; [done|]. split; [|done]. exists v, w. by eapply fsv_kept.
Qed.

Lemma dents_low v B ip nb : (forall m, m < L -> v m = B m) -> has_blocks L B ip nb -> ip_size ip <= 512 * nb -> dents v ip = dents B ip.
Proof.
  intros E Hb Hsz. destruct (has_blocks_ext L v B ip nb E Hb) as [_ Ea]. unfold dents. apply map_ext_in. intros k Hk%list_elem_of_In%elem_of_seqZ.
  unfold dent. f_equal. apply fbytes_ext. intros p Hp. unfold fbyte. assert (0 <= p / 512 < nb) as Hn by mlia. rewrite Ea by done.
  by rewrite E by apply (hb_block _ _ _ _ Hb _ Hn).
Qed.
Lemma dirlink_run e s B secs i ip nb name inum j :
  fs L lsz D0 W s B secs ∅ ∅ -> within S secs ∅ -> icache s !! i = Some ip -> ip_type ip = T_DIR -> has_blocks L B ip nb -> distinct B ip nb ->
  0 <= ip_size ip <= 512 * nb -> ip_size ip mod 16 = 0 -> dlookup B ip name = None ->
  dfree (dents B ip) 0 = 16 * j -> 0 <= j < ip_size ip / 16 -> faddr B ip (16 * j / 512) ∈ S ->
  exists s' B' secs', dirlink i name inum e s = Ok 0 s' e /\ fs L lsz D0 W s' B' secs' ∅ ∅ /\
    wrote_file ip nb (16 * j) (dirent_bytes (Dirent (u16 inum) (strncpy name DIRSIZ))) B B'.
Proof using HSn HSl ddok.
  intros Hf Hw Hi Ht Hb Hd Hsz H16 Hno Hfree Hj HS. unfold dirlink.
  assert (forall v, (forall m, m < L -> v_blk v m = B m) -> has_blocks L (v_blk v) ip nb) as Hbv by (intros v Ev; by apply (has_blocks_ext L (v_blk v) B)).
  destruct (fs_search (dirlookup_loop (Datatypes.S (Z.to_nat (ip_size ip / dirent_size))) i name 0) (fun v => dfind name (dents v ip) 0) s B secs e Hf Hw) as (v & s1 & Ev & E1 & Hf1 & Hk1).
  { intros v Q HL Hh Hp Hv Ev HQ. change 0 with (16 * 0) at 1. eapply (dirlookup_loop_run v L HL Hh Hp i ip nb (Hbv v Ev) Ht Hsz H16); [done|done|mlia|unfold dirent_size; lia|].
    intros s' Hv' Hk'. rewrite Z.sub_0_r. by apply HQ. }
  rewrite (dents_low _ B ip nb Ev Hb) in E1 by lia. fold (dlookup B ip name) in E1. rewrite Hno in E1.
  assert (dirlookup i name e s = Ok None s1 e) as E.
  { unfold dirlookup. rewrite (bind_ok _ _ _ _ _ _ _ (geti_run i ip e s Hi)), Ht. cbn [Z.eqb T_DIR negb Pos.eqb]. by rewrite (bind_ok _ _ _ _ _ _ _ E1). }
  rewrite (bind_ok _ _ _ _ _ _ _ E). assert (icache s1 !! i = Some ip) as Hi1 by (by rewrite (kp_icache _ _ Hk1)).
  rewrite (bind_ok _ _ _ _ _ _ _ (geti_run i ip e s1 Hi1)). clear E E1 v Ev.
  destruct (fs_search (dirlink_loop (Datatypes.S (Z.to_nat (ip_size ip / dirent_size))) i 0) (fun v => dfree (dents v ip) 0) s1 B secs e Hf1 Hw) as (v & s2 & Ev & E2 & Hf2 & Hk2).
  { intros v Q HL Hh Hp Hv Ev HQ. change 0 with (16 * 0) at 1. eapply (dirlink_loop_run v L HL Hh Hp i ip nb (Hbv v Ev) Ht Hsz H16); [done|done|mlia|unfold dirent_size; lia|].
    intros s' Hv' Hk'. rewrite Z.sub_0_r. by apply HQ. }
  rewrite (dents_low _ B ip nb Ev Hb), Hfree in E2 by lia. rewrite (bind_ok _ _ _ _ _ _ _ E2).
  set (de := Dirent _ _). assert (Z.of_nat (length (dirent_bytes de)) = dirent_size) as El by (unfold dirent_bytes, de; rewrite length_app; cbn [de_name]; rewrite length_strncpy; done).
  destruct (wp_ok_inv (writei i (S_local (dirent_bytes de)) (16 * j) dirent_size) (fun r s' e' => r = dirent_size /\ e' = e /\ exists B' secs',
    fs L lsz D0 W s' B' secs' ∅ ∅ /\ wrote_file ip nb (16 * j) (dirent_bytes de) B B') e s2) as (r & s3 & e3 & E3 & -> & -> & B' & secs' & Hf3 & Hwr).
  { rewrite <- El. eapply (wp_writei L lsz D0 W S HSn HSl i ip nb (16 * j) (dirent_bytes de)); [exact Hf2|done|by rewrite (kp_icache _ _ Hk2)|exact Hb|done|by rewrite Ht|lia| |lia| |].
    - rewrite El. unfold dirent_size. mlia.
    - rewrite El. unfold dirent_size. intros k Hk Hk'. replace k with (16 * j / 512) by mlia. done.
    - intros s' B' secs' Hf' Hwr _ _. split_and!; [done|done|]. by exists B', secs'. }
  rewrite (bind_ok _ _ _ _ _ _ _ E3). exists s3, B', secs'. done.
Qed.
End Link.

End Directory.

(** ** Witnesses *)

#[local] Existing Instance memdrv.
#[local] Existing Instance memdrv_ok.

(** A directory of 3 entries in block 40, the second of them free. *)
Definition dir_data : list Z :=
  dirent_bytes (Dirent 1 (strncpy [46] 14)) ++ replicate 16 0 ++ dirent_bytes (Dirent 7 (strncpy [97; 98] 14)) ++ replicate 464 0.
Definition dir_disk : gmap (Z * Z) (list Z) := <[ (1, 40) := dir_data ]> disk_ex.
Definition dir_ip : inode :=
  inode0 <| ip_dev := 1 |> <| ip_inum := 1 |> <| ip_ref := 1 |> <| ip_type := 1 |> <| ip_size := 48 |> <| ip_addrs := 40 :: replicate 12 0 |>.
Definition dir_cache : list inode := [dir_ip; inode0].
Lemma dir_disk_len : map_Forall (fun _ x => length x = 512%nat) dir_disk.
Proof. apply map_Forall_insert_2; [vm_compute; reflexivity|exact disk_ex_len]. Qed.
Lemma dir_blocks B : has_blocks 980 B dir_ip 1.
Proof. split; [done|done|lia| |lia]. intros k Hk. assert (k = 0) as -> by lia. change (faddr B dir_ip 0) with 40. lia. Qed.
Lemma dir_distinct B : distinct B dir_ip 1.
Proof. split; lia. Qed.
Lemma dir_cache_ok : icache_ok dir_cache.
Proof.
  split.
  - intros [|[|k]] x [= <-]; vm_compute; discriminate.
  - intros d n [|[|k]] [|[|l]] x y [= <-] [= <-] (Hx & _) (Hy & _); try reflexivity; vm_compute in Hx, Hy; discriminate.
Qed.
Lemma dirlookup_finds_witness : exists s j s', dirlookup 0 [97; 98] [] s = Ok (Some (j, 32)) s' [].
Proof.
  pose proof (views_icache _ _ dir_cache (rb_views _ _ (boot_rebooted dir_disk dir_disk_len))) as Hv. set (s := _ <| icache := _ |>) in Hv.
  pose proof (dirlookup_finds [] s (boot_view dir_disk) 980 0 dir_ip 1 [97; 98] "icache" Hv eq_refl) as H.
  assert (dlookup (v_blk (boot_view dir_disk)) dir_ip [97; 98] = Some (7, 32)) as E by (vm_compute; reflexivity). rewrite E in H.
  destruct H as (j & s' & y & Hr & _).
  - change (v_pin _) with (∅ : gset Z). rewrite size_empty. unfold NBUF. lia.
  - vm_compute. discriminate.
  - reflexivity.
  - apply dir_blocks.
  - reflexivity.
  - change (ip_size dir_ip) with 48. lia.
  - reflexivity.
  - vm_compute. reflexivity.
  - exact dir_cache_ok.
  - exists 1%nat, inode0. split; reflexivity.
  - exists s, j, s'. exact Hr.
Defined.

