(* ===== verification/Mkfs.v ===== *)
(** * Mkfs: the program that builds the disk image (mkfs.c)

    The image is a function from sector numbers to their 512 bytes, and the number
    of sectors of the file. An assertion that fails, or a read behind the end of the
    image, ends the program without a result. Numbers are written in little endian
    order, as [xint] and [xshort] arrange. *)
From S2P Require Import Prelude Memory State Spinlock Vm Sched Bio Buffers Log Blocks Recovery Transaction Atomic Inode Bitmap Console Dir Files Inodes.

(** ** The code *)

Definition nblocks : Z := 985.
Definition nlog : Z := LOGSIZE.
Definition ninodes : Z := 200.
Definition size : Z := 1024.

Record mk := Mk {
  m_img : Z -> list Z;
  m_secs : Z;
  m_freeblock : Z;
  m_usedblocks : Z;
  m_freeinode : Z;
}.
#[export] Instance eta_mk : Eta mk := {| eta m := Mk (m_img m) (m_secs m) (m_freeblock m) (m_usedblocks m) (m_freeinode m) |}.
#[export] Instance upd_m_img : Upd m_img := ltac:(field_update m_img).
#[export] Instance upd_m_secs : Upd m_secs := ltac:(field_update m_secs).
#[export] Instance upd_m_freeblock : Upd m_freeblock := ltac:(field_update m_freeblock).
#[export] Instance upd_m_usedblocks : Upd m_usedblocks := ltac:(field_update m_usedblocks).
#[export] Instance upd_m_freeinode : Upd m_freeinode := ltac:(field_update m_freeinode).

Definition assert (b : bool) : option unit := if b then Some tt else None.
Definition wsect (sec : Z) (buf : list Z) (m : mk) : mk :=
  m <| m_img ::= fupd sec buf |> <| m_secs := Z.max (m_secs m) (sec + 1) |>.
Definition rsect (sec : Z) (m : mk) : option (list Z) :=
  if sec <? m_secs m then Some (m_img m sec) else None.
Definition i2b (inum : Z) : Z := inum / IPB + 2.
Definition winode (inum : Z) (din : dinode) (m : mk) : option mk :=
  buf ← rsect (i2b inum) m;
  Some (wsect (i2b inum) (store_dinode buf (dinode_off inum) din) m).
Definition rinode (inum : Z) (m : mk) : option dinode :=
  buf ← rsect (i2b inum) m;
  Some (load_dinode buf (dinode_off inum)).
Definition ialloc (type : Z) (m : mk) : option (Z * mk) :=
  let inum := m_freeinode m in
  let m := m <| m_freeinode := u32 (inum + 1) |> in
  m ← winode inum (Dinode type 0 0 1 0 (replicate 13 0)) m;
  Some (inum, m).

(** [freeblock++; usedblocks++] *)
Definition new_block (m : mk) : Z * mk :=
  (m_freeblock m, m <| m_freeblock := u32 (m_freeblock m + 1) |> <| m_usedblocks := u32 (m_usedblocks m + 1) |>).
Definition set_addr (k : nat) (a : Z) (din : dinode) : dinode :=
  Dinode (d_type din) (d_major din) (d_minor din) (d_nlink din) (d_size din) (<[k := a]> (d_addrs din)).
(** A direct address, allocated when it is 0. *)
Definition direct (k : nat) (din : dinode) (m : mk) : Z * dinode * mk :=
  if d_addrs din !!! k =? 0 then let '(b, m) := new_block m in (b, set_addr k b din, m)
  else (d_addrs din !!! k, din, m).
(** An address in the indirect block [ind], allocated when it is 0. *)
Definition entry (ind fbn : Z) (m : mk) : option (Z * mk) :=
  indirect ← rsect ind m;
  let k := Z.to_nat (4 * (fbn - 12)) in
  if le32 indirect k =? 0 then
    let '(b, m) := new_block m in Some (b, wsect ind (splice indirect k (bytes32 b)) m)
  else Some (le32 indirect k, m).
(** The sector of block [fbn] of the file. *)
Definition file_block (din : dinode) (fbn : Z) (m : mk) : option (Z * dinode * mk) :=
  if fbn <? 12 then Some (direct (Z.to_nat fbn) din m)
  else
    let '(ind, din, m) := direct 12 din m in
    '(x, m) ← entry ind fbn m;
    Some (x, din, m).
(** The [while] of [iappend] over the bytes [p]; each iteration writes at least one. *)
Fixpoint iappend_loop (fuel : nat) (p : list Z) (off : Z) (din : dinode) (m : mk) : option (Z * dinode * mk) :=
  match p with
  | [] => Some (off, din, m)
  | _ =>
      match fuel with
      | O => None
      | S n =>
          let fbn := off / 512 in
          _ ← assert (fbn <? MAXFILE);
          '(x, din, m) ← file_block din fbn m;
          let n1 := Z.to_nat (Z.min (Z.of_nat (length p)) ((fbn + 1) * 512 - off)) in
          buf ← rsect x m;
          let m := wsect x (splice buf (Z.to_nat (off - fbn * 512)) (take n1 p)) m in
          iappend_loop n (drop n1 p) (u32 (off + Z.of_nat n1)) din m
      end
  end.
Definition iappend (inum : Z) (p : list Z) (m : mk) : option mk :=
  din ← rinode inum m;
  '(off, din, m) ← iappend_loop (length p) p (d_size din) din m;
  winode inum (Dinode (d_type din) (d_major din) (d_minor din) (d_nlink din) off (d_addrs din)) m.

(** A directory entry; [strncpy(de.name, name, DIRSIZ)] into zeroes. *)
Definition dirent_for (inum : Z) (name : list Z) : list Z :=
  bytes16 inum ++ take DIRSIZ (name ++ replicate DIRSIZ 0).
(** [if(argv[i][0] == '_') ++argv[i];] *)
Definition strip (name : list Z) : list Z := match name with 95 :: name' => name' | _ => name end.
(** [while((cc = read(fd, buf, sizeof(buf))) > 0) iappend(inum, buf, cc);] *)
Fixpoint append_all (inum : Z) (chunks : list (list Z)) (m : mk) : option mk :=
  match chunks with
  | [] => Some m
  | c :: chunks => m ← iappend inum c m; append_all inum chunks m
  end.
Definition has_slash (name : list Z) : bool := existsb (Z.eqb 47) name.
(** The loop over the files: the name, and what the reads of the file return,
    [None] for a file that does not open. *)
Fixpoint add_files (files : list (list Z * option (list (list Z)))) (m : mk) : option mk :=
  match files with
  | [] => Some m
  | (name, fd) :: files =>
      _ ← assert (negb (has_slash name));
      chunks ← fd;
      '(inum, m) ← ialloc T_FILE m;
      m ← iappend ROOTINO (dirent_for inum (strip name)) m;
      m ← append_all inum chunks m;
      add_files files m
  end.
(** [balloc]: the bitmap with the first [used] bits set. *)
Definition bitmap (used : Z) : list Z := fold_left mark_used (seqZ 0 used) (replicate 512 0).
Definition balloc (used : Z) (m : mk) : option mk :=
  _ ← assert (used <? 512 * 8);
  Some (wsect (ninodes / IPB + 3) (bitmap used) m).

Definition bitblocks : Z := size / (512 * 8) + 1.
Definition usedblocks0 : Z := ninodes / IPB + 3 + bitblocks.
Definition sb_bytes : list Z :=
  bytes32 size ++ bytes32 nblocks ++ bytes32 ninodes ++ bytes32 nlog ++ replicate 496 0.
(** The image before the first inode: zeroes and the super block. *)
Definition blank : mk :=
  wsect 1 sb_bytes
    (fold_left (fun m i => wsect i (replicate 512 0) m) (seqZ 0 (nblocks + usedblocks0 + nlog))
       (Mk (fun _ => replicate 512 0) 0 usedblocks0 usedblocks0 1)).
(** [off = ((off/BSIZE) + 1) * BSIZE]: the root directory ends at a block. *)
Definition fix_root (m : mk) : option mk :=
  din ← rinode ROOTINO m;
  winode ROOTINO (Dinode (d_type din) (d_major din) (d_minor din) (d_nlink din)
    (u32 ((d_size din / BSIZE + 1) * BSIZE)) (d_addrs din)) m.
Definition main (files : list (list Z * option (list (list Z)))) : option mk :=
  _ ← assert (nblocks + usedblocks0 + nlog =? size);
  '(rootino, m) ← ialloc T_DIR blank;
  _ ← assert (rootino =? ROOTINO);
  m ← iappend rootino (dirent_for rootino [46]) m;
  m ← iappend rootino (dirent_for rootino [46; 46]) m;
  m ← add_files files m;
  m ← fix_root m;
  balloc (m_usedblocks m) m.

(** ** What the image holds *)

Abbreviation len l := (Z.of_nat (length l)).
Definition mkip (a : list Z) : inode := Inode 1 0 0 0 0 0 0 0 0 a.
Definition blocks_of (n : Z) : Z := (n + 511) / 512.

(** The allocated part of the image; [own] says which inode has which block. *)
Record arena (m : mk) (own : gmap Z Z) : Prop := {
  ar_secs : m_secs m = 1024;
  ar_fb : 29 <= m_freeblock m <= 1024;
  ar_used : m_usedblocks m = m_freeblock m;
  ar_len b : length (m_img m b) = 512%nat;
  ar_fresh b : m_freeblock m <= b -> m_img m b = replicate 512 0;
  ar_own b i : own !! b = Some i -> 29 <= b < m_freeblock m;
}.

(** The indirect block [b] of a file of [nb] blocks. *)
Record indirect_ok (B : Z -> list Z) (own : gmap Z Z) (i : Z) (a : list Z) (nb : Z) : Prop := {
  in_own : own !! (a !!! 12%nat) = Some i;
  in_free k : nb <= k < 140 -> faddr B (mkip a) k = 0;
  in_apart k : 0 <= k < nb -> faddr B (mkip a) k <> a !!! 12%nat;
}.
(** The addresses [a] are those of a file of inode [i] with [nb] blocks. *)
Record shape (B : Z -> list Z) (own : gmap Z Z) (i : Z) (a : list Z) (nb : Z) : Prop := {
  sh_len : length a = 13%nat;
  sh_nb : 0 <= nb <= 140;
  sh_block k : 0 <= k < nb -> own !! faddr B (mkip a) k = Some i;
  sh_free k : nb <= k < 12 -> a !!! Z.to_nat k = 0;
  sh_inj j k : 0 <= j < nb -> 0 <= k < nb -> faddr B (mkip a) j = faddr B (mkip a) k -> j = k;
  sh_ind : nb <= 12 /\ a !!! 12%nat = 0 \/ 12 <= nb /\ indirect_ok B own i a nb;
}.

(** From [m] to [m'] only inode [i] got blocks, and only its blocks changed. *)
Record grown (i : Z) (m : mk) (own : gmap Z Z) (m' : mk) (own' : gmap Z Z) : Prop := {
  gr_sub : own ⊆ own';
  gr_new b j : own' !! b = Some j -> own !! b = Some j \/ j = i /\ m_freeblock m <= b;
  gr_fb : m_freeblock m <= m_freeblock m';
  gr_img b : b < m_freeblock m -> own !! b <> Some i -> m_img m' b = m_img m b;
  gr_inode : m_freeinode m' = m_freeinode m;
}.
Lemma grown_refl i m own : grown i m own m own.
Proof. split; [done|auto|lia|done|done]. Qed.
Lemma grown_trans i m own m1 own1 m2 own2 : grown i m own m1 own1 -> grown i m1 own1 m2 own2 -> grown i m own m2 own2.
Proof.
  intros [A1 A2 A3 A4 A5] [C1 C2 C3 C4 C5]. split; [by etrans| |lia| |congruence].
  - intros b j [Hb|[-> Hb]]%C2; [auto|right; split; [done|lia]].
  - intros b Hb Hn. rewrite C4, A4; [done|done|done|lia|]. intros [?|[_ ?]]%A2; [done|lia].
Qed.

(** ** Allocation *)

Lemma arena_new m own i :
  arena m own -> m_freeblock m < 1024 ->
  own !! m_freeblock m = None /\ arena (new_block m).2 (<[m_freeblock m := i]> own) /\
  grown i m own (new_block m).2 (<[m_freeblock m := i]> own) /\
  m_freeblock (new_block m).2 = m_freeblock m + 1 /\ m_img (new_block m).2 = m_img m.
Proof.
  intros [A1 A2 A3 A4 A5 A6] Hlt. assert (own !! m_freeblock m = None) as Hno.
  { destruct (own !! m_freeblock m) eqn:E; [|done]. apply A6 in E. lia. }
  assert (u32 (m_freeblock m + 1) = m_freeblock m + 1) as Eu by (apply u32_small; lia).
  unfold new_block. cbn [snd]. split; [done|]. rsimpl. rewrite Eu. split; [|split; [|done]].
  - split; rsimpl; rewrite ?A3, ?Eu; try done; [lia|intros b Hb; apply A5; lia|].
    intros b j [[<- _]|[_ Hb]]%lookup_insert_Some; [lia|]. apply A6 in Hb. lia.
  - split; rsimpl; rewrite ?Eu; try done; [by apply insert_subseteq| |lia].
    intros b j [[<- <-]|[_ Hb]]%lookup_insert_Some; [right; split; [done|lia]|auto].
Qed.

Lemma faddr_direct B a k : 0 <= k < 12 -> faddr B (mkip a) k = a !!! Z.to_nat k.
Proof. intros Hk. unfold faddr. by rewrite (proj2 (Z.ltb_lt k 12)) by lia. Qed.
Lemma faddr_indirect B a k : 12 <= k -> faddr B (mkip a) k = le32 (B (a !!! 12%nat)) (Z.to_nat (4 * (k - 12))).
Proof. intros Hk. unfold faddr. by rewrite (proj2 (Z.ltb_ge k 12)) by lia. Qed.
(** The bytes of the file stay when its addresses and its data blocks do. *)
Lemma fbyte_same B B' a a' nb p :
  (forall k, 0 <= k < nb -> faddr B' (mkip a') k = faddr B (mkip a) k /\ B' (faddr B (mkip a) k) = B (faddr B (mkip a) k)) ->
  0 <= p < 512 * nb -> fbyte B' (mkip a') p = fbyte B (mkip a) p.
Proof. intros Hs Hp. unfold fbyte. destruct (Hs (p / 512)) as [-> ->]; [mlia|done]. Qed.

Lemma shape_own B own own' i a nb : own ⊆ own' -> shape B own i a nb -> shape B own' i a nb.
Proof.
  intros Hs [H1 H2 H3 H4 H5 H6]. split; try done.
  - intros k Hk. eapply lookup_weaken; [by apply H3|done].
  - destruct H6 as [?|[? [Hi1 Hi2 Hi3]]]; [by left|right]. split; [done|]. split; try done. by eapply lookup_weaken.
Qed.
(** A file is what its indirect block says. *)
Lemma shape_ext B B' own i a nb :
  (own !! (a !!! 12%nat) = Some i -> B' (a !!! 12%nat) = B (a !!! 12%nat)) -> shape B own i a nb ->
  shape B' own i a nb /\ forall k, 0 <= k < nb -> faddr B' (mkip a) k = faddr B (mkip a) k.
Proof.
  intros He [H1 H2 H3 H4 H5 H6].
  assert (forall k, 0 <= k < nb -> faddr B' (mkip a) k = faddr B (mkip a) k) as Ea.
  { intros k Hk. apply faddr_ext. cbn. intros Hge. destruct H6 as [[? _]|[_ Hi]]; [lia|by apply He, Hi]. }
  split; [|done]. split; try done.
  - intros k Hk. rewrite Ea by done. auto.
  - intros j k Hj Hk. rewrite !Ea by done. auto.
  - destruct H6 as [?|[? [Hi1 Hi2 Hi3]]]; [by left|right]. split; [done|]. split; [done| |].
    + intros k Hk. rewrite <- (Hi2 k Hk). apply faddr_ext. intros _. by apply He.
    + intros k Hk. rewrite Ea by done. auto.
Qed.

(** The next block of a file: a direct one, *)
Lemma shape_direct B own i a nb b :
  shape B own i a nb -> nb < 12 -> own !! b = None ->
  shape B (<[b := i]> own) i (<[Z.to_nat nb := b]> a) (nb + 1) /\
  (forall k, 0 <= k < nb -> faddr B (mkip (<[Z.to_nat nb := b]> a)) k = faddr B (mkip a) k) /\
  faddr B (mkip (<[Z.to_nat nb := b]> a)) nb = b.
Proof.
  intros [H1 H2 H3 H4 H5 H6] Hnb Hb.
  assert (forall k, 0 <= k < nb -> faddr B (mkip (<[Z.to_nat nb := b]> a)) k = faddr B (mkip a) k) as Ea.
  { intros k Hk. rewrite !faddr_direct by lia. apply list_lookup_total_insert_ne. lia. }
  assert (faddr B (mkip (<[Z.to_nat nb := b]> a)) nb = b) as Eb.
  { rewrite faddr_direct by lia. apply list_lookup_total_insert_eq. lia. }
  assert (forall k, 0 <= k < nb -> faddr B (mkip a) k <> b) as Hne by (intros k Hk E; specialize (H3 k Hk); congruence).
  split; [|done]. split; [by rewrite length_insert|lia| | | |].
  - intros k Hk. destruct (decide (k = nb)) as [->|]; [by rewrite Eb, lookup_insert_eq|].
    rewrite Ea, lookup_insert_ne by (lia || (symmetry; apply Hne; lia)). apply H3. lia.
  - intros k Hk. rewrite list_lookup_total_insert_ne by lia. apply H4. lia.
  - intros j k Hj Hk. destruct (decide (j = nb)) as [->|], (decide (k = nb)) as [->|]; rewrite ?Eb, ?Ea by lia; [done|..].
    + intros E. by destruct (Hne k ltac:(lia)).
    + intros E. by destruct (Hne j ltac:(lia)).
    + apply H5; lia.
  - left. split; [lia|]. rewrite list_lookup_total_insert_ne by lia. destruct H6 as [[_ ?]|[? _]]; [done|lia].
Qed.
(** the indirect block itself, *)
Lemma le32_zeroes k : (k + 4 <= 512)%nat -> le32 (replicate 512 0) k = 0.
Proof. intros Hk. unfold le32. by rewrite !lookup_total_replicate_2 by lia. Qed.
Lemma shape_indirect B own i a b :
  shape B own i a 12 -> a !!! 12%nat = 0 -> own !! b = None -> B b = replicate 512 0 ->
  shape B (<[b := i]> own) i (<[12%nat := b]> a) 12 /\
  (forall k, 0 <= k < 12 -> faddr B (mkip (<[12%nat := b]> a)) k = faddr B (mkip a) k).
Proof.
  intros [H1 H2 H3 H4 H5 H6] Ha Hb Hz.
  assert (forall k, 0 <= k < 12 -> faddr B (mkip (<[12%nat := b]> a)) k = faddr B (mkip a) k) as Ea.
  { intros k Hk. rewrite !faddr_direct by lia. apply list_lookup_total_insert_ne. lia. }
  assert (<[12%nat := b]> a !!! 12%nat = b) as Eb by (apply list_lookup_total_insert_eq; lia).
  assert (forall k, 0 <= k < 12 -> faddr B (mkip a) k <> b) as Hne by (intros k Hk E; specialize (H3 k Hk); congruence).
  split; [|done]. split; [by rewrite length_insert|lia| |lia| |].
  - intros k Hk. rewrite Ea, lookup_insert_ne by (lia || (symmetry; by apply Hne)). by apply H3.
  - intros j k Hj Hk. rewrite !Ea by done. by apply H5.
  - right. split; [lia|]. split; rewrite ?Eb.
    + by rewrite lookup_insert_eq.
    + intros k Hk. rewrite faddr_indirect, Eb, Hz by lia. apply le32_zeroes. lia.
    + intros k Hk. rewrite Ea by done. by apply Hne.
Qed.
(** or one whose address is in the indirect block. *)
Lemma shape_entry B own i a nb b :
  shape B own i a nb -> 12 <= nb < 140 -> indirect_ok B own i a nb -> length (B (a !!! 12%nat)) = 512%nat ->
  own !! b = None -> 0 <= b < 4294967296 ->
  let ind := a !!! 12%nat in
  let B' := fupd ind (splice (B ind) (Z.to_nat (4 * (nb - 12))) (bytes32 b)) B in
  shape B' (<[b := i]> own) i a (nb + 1) /\
  (forall k, 0 <= k < nb -> faddr B' (mkip a) k = faddr B (mkip a) k) /\ faddr B' (mkip a) nb = b.
Proof.
  intros [H1 H2 H3 H4 H5 H6] Hnb [Hi1 Hi2 Hi3] Hl Hb Hr ind B'. fold ind in Hl.
  assert (forall k, 0 <= k < 140 -> k <> nb -> faddr B' (mkip a) k = faddr B (mkip a) k) as Ea.
  { intros k Hk Hne. destruct (decide (k < 12)); [by rewrite !faddr_direct by lia|]. rewrite !faddr_indirect by lia.
    unfold B'. rewrite fupd_eq. apply le32_splice_ne; change (length (bytes32 b)) with 4%nat; fold ind; lia. }
  assert (faddr B' (mkip a) nb = b) as Eb.
  { rewrite faddr_indirect by lia. unfold B'. fold ind. rewrite fupd_eq, le32_splice by lia. apply u32_small. lia. }
  assert (forall k, 0 <= k < nb -> faddr B (mkip a) k <> b) as Hne by (intros k Hk E; specialize (H3 k Hk); congruence).
  assert (ind <> b) as Hni by (intros E; fold ind in Hi1; congruence).
  split; [|split; [intros k Hk; apply Ea; lia|done]]. split; [done|lia| | | |].
  - intros k Hk. destruct (decide (k = nb)) as [->|]; [by rewrite Eb, lookup_insert_eq|].
    rewrite Ea, lookup_insert_ne by (lia || (symmetry; apply Hne; lia)). apply H3. lia.
  - intros k Hk. lia.
  - intros j k Hj Hk. destruct (decide (j = nb)) as [->|], (decide (k = nb)) as [->|]; rewrite ?Eb, ?Ea by lia; [done|..].
    + intros E. by destruct (Hne k ltac:(lia)).
    + intros E. by destruct (Hne j ltac:(lia)).
    + apply H5; lia.
  - right. split; [lia|]. split.
    + by rewrite lookup_insert_ne by done.
    + intros k Hk. rewrite Ea by lia. apply Hi2. lia.
    + intros k Hk. destruct (decide (k = nb)) as [->|]; [by rewrite Eb|]. rewrite Ea by lia. apply Hi3. lia.
Qed.

(** ** Sectors *)

Lemma rsect_ok m own b : arena m own -> b < 1024 -> rsect b m = Some (m_img m b).
Proof. intros Ha Hb. unfold rsect. rewrite (ar_secs _ _ Ha). by rewrite (proj2 (Z.ltb_lt _ _)). Qed.
Lemma wsect_ok m own i b buf :
  arena m own -> own !! b = Some i -> length buf = 512%nat ->
  arena (wsect b buf m) own /\ grown i m own (wsect b buf m) own.
Proof.
  intros [A1 A2 A3 A4 A5 A6] Hb Hl. pose proof (A6 _ _ Hb). unfold wsect. split; split; rsimpl; try done; try lia; try (by auto).
  - intros c. unfold fupd. by case_decide.
  - intros c Hc. rewrite fupd_ne by lia. by apply A5.
  - intros c Hc Hn. rewrite fupd_ne by congruence. done.
Qed.

(** ** The block of a file *)

Definition with_addrs (x : dinode) (a : list Z) : dinode :=
  Dinode (d_type x) (d_major x) (d_minor x) (d_nlink x) (d_size x) a.
(** Sectors for indirect blocks *)
Definition indirects (a : list Z) : Z := if a !!! 12%nat =? 0 then 0 else 1.
(** From [m] to [m'] the file of inode [i] went from [nb] blocks at [a] to [nb'] at [a']. *)
Record got (i : Z) (m : mk) (own : gmap Z Z) (a : list Z) (nb : Z) (m' : mk) (own' : gmap Z Z) (a' : list Z) (nb' : Z) : Prop := {
  go_arena : arena m' own';
  go_shape : shape (m_img m') own' i a' nb';
  go_grown : grown i m own m' own';
  go_fb : m_freeblock m' - m_freeblock m = nb' - nb + (indirects a' - indirects a);
  go_byte p : 0 <= p < 512 * nb -> fbyte (m_img m') (mkip a') p = fbyte (m_img m) (mkip a) p;
}.
Lemma got_refl i m own a nb : arena m own -> shape (m_img m) own i a nb -> got i m own a nb m own a nb.
Proof. intros Ha Hs. split; [done|done|apply grown_refl|lia|done]. Qed.

Lemma got_direct i m own x nb :
  arena m own -> shape (m_img m) own i (d_addrs x) nb -> nb < 12 -> m_freeblock m < 1024 ->
  let a' := <[Z.to_nat nb := m_freeblock m]> (d_addrs x) in
  exists m' own', direct (Z.to_nat nb) x m = (m_freeblock m, with_addrs x a', m') /\
    got i m own (d_addrs x) nb m' own' a' (nb + 1) /\ faddr (m_img m') (mkip a') nb = m_freeblock m /\ a' !!! 12%nat = d_addrs x !!! 12%nat.
Proof.
  intros Ha Hs Hnb Hfb a'. destruct (arena_new m own i Ha Hfb) as (Hno & Ha' & Hg & Ef & Ei).
  destruct (shape_direct _ _ _ _ _ _ Hs Hnb Hno) as (Hs' & Ea & Eb). fold a' in Hs', Ea, Eb. pose proof (sh_nb _ _ _ _ _ Hs).
  assert (a' !!! 12%nat = d_addrs x !!! 12%nat) as E12 by (apply list_lookup_total_insert_ne; lia).
  exists (new_block m).2, (<[m_freeblock m := i]> own). split; [|split; [|by rewrite Ei]].
  - unfold direct. by rewrite (sh_free _ _ _ _ _ Hs) by lia.
  - split; rewrite ?Ei, ?Ef; try done.
    + unfold indirects. rewrite E12. lia.
    + intros p Hp. eapply fbyte_same; [|exact Hp]. intros k Hk. by rewrite Ea.
Qed.
Lemma got_indirect i m own x :
  arena m own -> shape (m_img m) own i (d_addrs x) 12 -> d_addrs x !!! 12%nat = 0 -> m_freeblock m < 1024 ->
  let a' := <[12%nat := m_freeblock m]> (d_addrs x) in
  exists m' own', direct 12 x m = (m_freeblock m, with_addrs x a', m') /\
    got i m own (d_addrs x) 12 m' own' a' 12 /\ a' !!! 12%nat = m_freeblock m.
Proof.
  intros Ha Hs H0 Hfb a'. destruct (arena_new m own i Ha Hfb) as (Hno & Ha' & Hg & Ef & Ei).
  destruct (shape_indirect _ _ _ _ _ Hs H0 Hno) as (Hs' & Ea); [by apply (ar_fresh _ _ Ha)|]. fold a' in Hs', Ea.
  assert (a' !!! 12%nat = m_freeblock m) as E12 by (apply list_lookup_total_insert_eq; rewrite (sh_len _ _ _ _ _ Hs); lia).
  exists (new_block m).2, (<[m_freeblock m := i]> own). split; [|split; [|done]].
  - unfold direct. by rewrite H0.
  - split; rewrite ?Ei, ?Ef; try done.
    + unfold indirects. rewrite E12, H0. pose proof (ar_fb _ _ Ha). destruct (Z.eqb_spec (m_freeblock m) 0); [lia|]. cbn. lia.
    + intros p Hp. eapply fbyte_same; [|exact Hp]. intros k Hk. by rewrite Ea.
Qed.
(** An entry of the indirect block. *)
Lemma got_entry i m own a nb :
  arena m own -> shape (m_img m) own i a nb -> 12 <= nb < 140 -> indirect_ok (m_img m) own i a nb -> m_freeblock m < 1024 ->
  exists m' own', entry (a !!! 12%nat) nb m = Some (m_freeblock m, m') /\
    got i m own a nb m' own' a (nb + 1) /\ faddr (m_img m') (mkip a) nb = m_freeblock m.
Proof.
  intros Ha Hs Hnb Hi Hfb. set (ind := a !!! 12%nat). pose proof (in_own _ _ _ _ _ Hi) as Hio. pose proof (ar_own _ _ Ha _ _ Hio) as Hir. fold ind in Hio, Hir.
  destruct (arena_new m own i Ha Hfb) as (Hno & Ha' & Hg & Ef & Ei). pose proof (ar_fb _ _ Ha).
  destruct (shape_entry _ _ _ _ _ (m_freeblock m) Hs Hnb Hi) as (Hs' & Ea & Eb); [apply (ar_len _ _ Ha)|done|lia|]. fold ind in Hs', Ea, Eb.
  set (buf := splice (m_img m ind) (Z.to_nat (4 * (nb - 12))) (bytes32 (m_freeblock m))) in *.
  destruct (wsect_ok _ (<[m_freeblock m := i]> own) i ind buf Ha') as [Ha2 Hg2].
  { rewrite lookup_insert_ne by lia. exact Hio. }
  { unfold buf. rewrite length_splice; rewrite (ar_len _ _ Ha); [done|]. change (length (bytes32 _)) with 4%nat. lia. }
  exists (wsect ind buf (new_block m).2), (<[m_freeblock m := i]> own).
  assert (m_img (wsect ind buf (new_block m).2) = fupd ind buf (m_img m)) as Ei2 by (unfold wsect; rsimpl; by rewrite Ei).
  split; [|split; [|by rewrite Ei2]].
  - unfold entry. rewrite (rsect_ok _ _ _ Ha) by lia. cbn [mbind option_bind]. pose proof (in_free _ _ _ _ _ Hi nb) as E0.
    rewrite faddr_indirect in E0 by lia. fold ind in E0. rewrite E0 by lia. done.
  - split; [done|by rewrite Ei2|by eapply grown_trans| |].
    + unfold wsect. rsimpl. rewrite Ef. lia.
    + intros p Hp. eapply fbyte_same; [|exact Hp]. intros k Hk. rewrite Ei2, Ea by done. split; [done|]. apply fupd_ne. apply (in_apart _ _ _ _ _ Hi). done.
Qed.

Lemma got_trans i m own a nb m1 own1 a1 nb1 m2 own2 a2 nb2 :
  got i m own a nb m1 own1 a1 nb1 -> got i m1 own1 a1 nb1 m2 own2 a2 nb2 -> nb <= nb1 -> got i m own a nb m2 own2 a2 nb2.
Proof.
  intros [A1 A2 A3 A4 A5] [C1 C2 C3 C4 C5] Hnb. split; [done|done|by eapply grown_trans|lia|].
  intros p Hp. rewrite C5, A5; [done|done|lia].
Qed.

(** A file with no more than 12 blocks has no indirect block. *)
Definition tight (a : list Z) (nb : Z) : Prop := nb <= 12 -> a !!! 12%nat = 0.
Definition cost (nb : Z) : Z := if 12 <? nb then nb + 1 else nb.
Lemma tight_indirects m own i a nb : arena m own -> shape (m_img m) own i a nb -> tight a nb -> nb + indirects a = cost nb.
Proof.
  intros Ha Hs Ht. unfold cost, indirects. destruct (Z.ltb_spec 12 nb) as [Hlt|Hge].
  - destruct (sh_ind _ _ _ _ _ Hs) as [[? _]|[_ Hi]]; [lia|]. pose proof (ar_own _ _ Ha _ _ (in_own _ _ _ _ _ Hi)).
    destruct (Z.eqb_spec (a !!! 12%nat) 0); lia.
  - rewrite Ht by done. cbn. lia.
Qed.

(** The last block of a file is found, *)
Lemma file_block_last i m own x nb :
  arena m own -> shape (m_img m) own i (d_addrs x) nb -> 0 < nb ->
  file_block x (nb - 1) m = Some (faddr (m_img m) (mkip (d_addrs x)) (nb - 1), x, m).
Proof.
  intros Ha Hs Hnb. pose proof (sh_block _ _ _ _ _ Hs (nb - 1) ltac:(lia)) as Ho. pose proof (ar_own _ _ Ha _ _ Ho) as Hr.
  unfold file_block. destruct (Z.ltb_spec (nb - 1) 12).
  - unfold direct. rewrite faddr_direct in * by lia. by rewrite (proj2 (Z.eqb_neq _ _)) by lia.
  - destruct (sh_ind _ _ _ _ _ Hs) as [[? _]|[_ Hi]]; [lia|]. pose proof (ar_own _ _ Ha _ _ (in_own _ _ _ _ _ Hi)). pose proof (ar_fb _ _ Ha).
    unfold direct. rewrite (proj2 (Z.eqb_neq (d_addrs x !!! 12%nat) 0)) by lia. unfold entry. rewrite (rsect_ok _ _ _ Ha) by lia. cbn [mbind option_bind].
    rewrite faddr_indirect in * by lia. by rewrite (proj2 (Z.eqb_neq _ _)) by lia.
Qed.
(** and the next one allocated. *)
Lemma file_block_next i m own x nb :
  arena m own -> shape (m_img m) own i (d_addrs x) nb -> tight (d_addrs x) nb -> nb < 140 ->
  m_freeblock m + cost (nb + 1) - cost nb <= 1024 ->
  exists b a' m' own', file_block x nb m = Some (b, with_addrs x a', m') /\
    got i m own (d_addrs x) nb m' own' a' (nb + 1) /\ tight a' (nb + 1) /\ faddr (m_img m') (mkip a') nb = b.
Proof.
  intros Ha Hs Ht Hnb Hc. unfold cost in Hc. pose proof (sh_nb _ _ _ _ _ Hs). unfold file_block. destruct (Z.ltb_spec nb 12) as [Hlt|Hge].
  - rewrite !(proj2 (Z.ltb_ge _ _)) in Hc by lia. destruct (got_direct i m own x nb Ha Hs Hlt) as (m' & own' & -> & Hg & Hb & E12); [lia|].
    do 4 eexists. split; [done|]. split; [exact Hg|]. split; [|done]. intros _. rewrite E12. apply Ht. lia.
  - rewrite (proj2 (Z.ltb_lt 12 (nb + 1))) in Hc by lia. destruct (decide (nb = 12)) as [->|Hne].
    + cbn in Hc. destruct (got_indirect i m own x Ha Hs) as (m1 & own1 & -> & Hg1 & E1); [by apply Ht|lia|].
      pose proof Hg1 as [Ha1 Hs1 _ Hf1 _]. unfold indirects in Hf1. rewrite (Ht ltac:(lia)), E1 in Hf1. cbn in Hf1.
      pose proof (ar_fb _ _ Ha). rewrite (proj2 (Z.eqb_neq (m_freeblock m) 0)) in Hf1 by lia.
      destruct (sh_ind _ _ _ _ _ Hs1) as [[_ E0]|[_ Hi]]; [lia|].
      destruct (got_entry i m1 own1 _ 12 Ha1 Hs1) as (m2 & own2 & E & Hg2 & Hb2); [lia|done|lia|].
      rewrite E1 in E. rewrite E. cbn [mbind option_bind]. do 4 eexists. split; [done|]. split; [|split; [unfold tight; lia|done]].
      by eapply got_trans; [exact Hg1|exact Hg2|lia].
    + rewrite (proj2 (Z.ltb_lt 12 nb)) in Hc by lia. destruct (sh_ind _ _ _ _ _ Hs) as [[? _]|[_ Hi]]; [lia|].
      pose proof (ar_own _ _ Ha _ _ (in_own _ _ _ _ _ Hi)). unfold direct. rewrite (proj2 (Z.eqb_neq (d_addrs x !!! 12%nat) 0)) by lia.
      destruct (got_entry i m own _ nb Ha Hs) as (m2 & own2 & -> & Hg2 & Hb2); [lia|done|lia|]. cbn [mbind option_bind].
      exists (m_freeblock m), (d_addrs x), m2, own2. destruct x. split; [done|]. split; [done|]. split; [unfold tight; lia|done].
Qed.

(** The block of [iappend_loop]: the last one when it has room, otherwise the next. *)
Lemma file_block_ok i m own x off :
  0 <= off < 71680 -> arena m own -> shape (m_img m) own i (d_addrs x) (blocks_of off) -> tight (d_addrs x) (blocks_of off) ->
  m_freeblock m + cost (off / 512 + 1) - cost (blocks_of off) <= 1024 ->
  exists b a' m' own', file_block x (off / 512) m = Some (b, with_addrs x a', m') /\
    got i m own (d_addrs x) (blocks_of off) m' own' a' (off / 512 + 1) /\ tight a' (off / 512 + 1) /\
    faddr (m_img m') (mkip a') (off / 512) = b.
Proof.
  intros Ho Ha Hs Ht Hc. destruct (decide (off mod 512 = 0)) as [H0|H0].
  - assert (blocks_of off = off / 512) as E by (unfold blocks_of; mlia). rewrite E in *. apply file_block_next; try done. mlia.
  - assert (blocks_of off = off / 512 + 1) as E by (unfold blocks_of; mlia). rewrite E in *.
    exists (faddr (m_img m) (mkip (d_addrs x)) (off / 512)), (d_addrs x), m, own.
    assert (0 <= off / 512) by (apply Z.div_pos; lia). split; [|split; [by apply got_refl|done]].
    pose proof (file_block_last i m own x _ Ha Hs ltac:(lia)) as Ef. replace (off / 512 + 1 - 1) with (off / 512) in Ef by lia.
    rewrite Ef. by destruct x.
Qed.

Lemma shape_files m own i a nb : arena m own -> shape (m_img m) own i a nb -> has_blocks 1024 (m_img m) (mkip a) nb /\ distinct (m_img m) (mkip a) nb.
Proof.
  intros Ha Hs. pose proof (ar_fb _ _ Ha). split; split; [done|apply (sh_len _ _ _ _ _ Hs)|apply (sh_nb _ _ _ _ _ Hs)| | |apply (sh_inj _ _ _ _ _ Hs)|].
  - intros k Hk. pose proof (ar_own _ _ Ha _ _ (sh_block _ _ _ _ _ Hs k Hk)). lia.
  - intros Hnb. destruct (sh_ind _ _ _ _ _ Hs) as [[? _]|[_ Hi]]; [lia|]. pose proof (ar_own _ _ Ha _ _ (in_own _ _ _ _ _ Hi)). cbn. lia.
  - intros k Hnb Hk. destruct (sh_ind _ _ _ _ _ Hs) as [[? _]|[_ Hi]]; [lia|]. by apply (in_apart _ _ _ _ _ Hi).
Qed.

(** Writing a piece of the block. *)
Lemma wsect_piece i m own a nb off c :
  arena m own -> shape (m_img m) own i a nb -> 0 <= off -> off / 512 < nb -> off mod 512 + len c <= 512 ->
  let b := faddr (m_img m) (mkip a) (off / 512) in
  let m' := wsect b (splice (m_img m b) (Z.to_nat (off - off / 512 * 512)) c) m in
  arena m' own /\ grown i m own m' own /\ shape (m_img m') own i a nb /\ wrote_file (mkip a) nb off c (m_img m) (m_img m').
Proof.
  intros Ha Hs Ho Hnb Hc b m'. destruct (shape_files _ _ _ _ _ Ha Hs) as [Hb Hd].
  assert (0 <= off / 512) by (apply Z.div_pos; lia). pose proof (sh_block _ _ _ _ _ Hs (off / 512) ltac:(lia)) as Hob. fold b in Hob.
  assert (off - off / 512 * 512 = off mod 512) as Em by mlia. unfold m'. rewrite Em in *.
  destruct (wsect_ok m own i b (splice (m_img m b) (Z.to_nat (off mod 512)) c) Ha Hob) as [Ha' Hg].
  { rewrite length_splice; rewrite (ar_len _ _ Ha); [done|]. mlia. }
  split; [done|]. split; [done|]. split.
  - unfold wsect. rsimpl. eapply shape_ext; [|exact Hs]. intros Hi. apply fupd_ne. intros E.
    destruct (sh_ind _ _ _ _ _ Hs) as [[_ E0]|[_ Hio]]; [pose proof (ar_own _ _ Ha _ _ Hi); lia|]. by apply (in_apart _ _ _ _ _ Hio (off / 512)).
  - unfold wsect. rsimpl. eapply wrote_chunk; [exact Hb|done|done|done|done|apply (ar_len _ _ Ha)].
Qed.

(** ** Appending *)

(** The addresses [a] of inode [i] lead to [data]. *)
Record stored (B : Z -> list Z) (own : gmap Z Z) (i : Z) (a : list Z) (data : list Z) : Prop := {
  st_len : len data <= 71680;
  st_shape : shape B own i a (blocks_of (len data));
  st_tight : tight a (blocks_of (len data));
  st_bytes : fbytes B (mkip a) 0 (len data) = data;
}.
Lemma stored_distinct B own i a data : stored B own i a data -> distinct B (mkip a) (blocks_of (len data)).
Proof.
  intros [_ Hs _ _]. split; [apply (sh_inj _ _ _ _ _ Hs)|]. intros k Hnb Hk.
  destruct (sh_ind _ _ _ _ _ Hs) as [[? _]|[_ Hi]]; [lia|]. by apply (in_apart _ _ _ _ _ Hi).
Qed.
Definition price (n : Z) : Z := cost (blocks_of n).
Lemma price_mono n n' : n <= n' -> price n <= price n'.
Proof.
  intros Hn. unfold price, cost. assert (blocks_of n <= blocks_of n') by (unfold blocks_of; mlia).
  destruct (Z.ltb_spec 12 (blocks_of n)), (Z.ltb_spec 12 (blocks_of n')); lia.
Qed.

(** One iteration: a piece [c] that does not cross the end of the block. *)
Lemma append_piece i m own x data c :
  arena m own -> stored (m_img m) own i (d_addrs x) data -> c <> [] -> len data + len c <= 71680 ->
  len data mod 512 + len c <= 512 -> m_freeblock m + price (len (data ++ c)) - price (len data) <= 1024 ->
  exists b a' m1 m' own', file_block x (len data / 512) m = Some (b, with_addrs x a', m1) /\
    b < 1024 /\ rsect b m1 = Some (m_img m1 b) /\
    m' = wsect b (splice (m_img m1 b) (Z.to_nat (len data - len data / 512 * 512)) c) m1 /\
    arena m' own' /\ grown i m own m' own' /\ stored (m_img m') own' i a' (data ++ c) /\
    m_freeblock m' - m_freeblock m = price (len (data ++ c)) - price (len data).
Proof.
  intros Ha [Hl Hs Ht Hf] Hc Hmax Hfit Hfb. destruct c as [|c0 c']; [done|]. set (c := c0 :: c') in *. assert (1 <= len c) as Hc1 by (cbn; lia). clearbody c. clear Hc c0 c'.
  set (off := len data) in *. assert (0 <= off) by lia. assert (0 <= off / 512) by (apply Z.div_pos; lia). rewrite length_app, Nat2Z.inj_add in *. fold off in Hfb |- *.
  assert (blocks_of (off + len c) = off / 512 + 1) as Eb by (unfold blocks_of; mlia). unfold price in *. rewrite Eb in *.
  destruct (file_block_ok i m own x off ltac:(lia) Ha Hs Ht Hfb) as (b & a' & m1 & own' & E & Hg & Ht' & Hb).
  destruct Hg as [Ha1 Hs1 Hgr Hgf Hby]. pose proof (sh_nb _ _ _ _ _ Hs1).
  destruct (wsect_piece i m1 own' a' (off / 512 + 1) off c Ha1 Hs1) as (Ha2 & Hg2 & Hs2 & Hw); [lia|lia|lia|]. rewrite Hb in *.
  set (m2 := wsect b _ m1) in *. pose proof (sh_block _ _ _ _ _ Hs1 (off / 512) ltac:(lia)) as Hob. rewrite Hb in Hob. pose proof (ar_own _ _ Ha1 _ _ Hob).
  pose proof (ar_fb _ _ Ha1). exists b, a', m1, m2, own'. split; [done|]. split; [lia|]. split; [apply (rsect_ok _ _ _ Ha1); lia|]. split; [done|]. split; [done|].
  split; [by eapply grown_trans|]. split.
  - split; rewrite ?length_app, ?Nat2Z.inj_add; fold off; rewrite ?Eb; try done. rewrite fbytes_app by lia. f_equal.
    + etrans; [|exact Hf]. apply fbytes_ext. intros p Hp. rewrite (wf_byte _ _ _ _ _ _ Hw), decide_False by mlia. apply Hby. unfold blocks_of. mlia.
    + apply (wrote_read _ _ _ _ _ _ Hw); mlia.
  - pose proof (tight_indirects _ _ _ _ _ Ha Hs Ht). pose proof (tight_indirects _ _ _ _ _ Ha1 Hs1 Ht'). unfold m2, wsect. rsimpl. lia.
Qed.

Lemma iappend_loop_ok fuel i p x m own data :
  (length p <= fuel)%nat -> arena m own -> stored (m_img m) own i (d_addrs x) data -> len data + len p <= 71680 ->
  m_freeblock m + price (len (data ++ p)) - price (len data) <= 1024 ->
  exists a' m' own', iappend_loop fuel p (len data) x m = Some (len (data ++ p), with_addrs x a', m') /\
    arena m' own' /\ grown i m own m' own' /\ stored (m_img m') own' i a' (data ++ p) /\
    m_freeblock m' - m_freeblock m = price (len (data ++ p)) - price (len data).
Proof.
  revert p x m own data. induction fuel as [|fuel IH]; intros p x m own data Hfu Ha Hst Hmax Hfb.
  - destruct p; [|cbn in Hfu; lia]. rewrite app_nil_r. exists (d_addrs x), m, own. destruct x. split; [done|].
    split; [done|]. split; [apply grown_refl|]. split; [done|lia].
  - destruct p as [|p0 p']; [rewrite app_nil_r; exists (d_addrs x), m, own; destruct x; split; [done|]; split; [done|]; split; [apply grown_refl|]; split; [done|lia]|].
    set (p := p0 :: p') in *. assert (1 <= len p) as Hp1 by (cbn; lia). set (off := len data) in *.
    assert (iappend_loop (S fuel) p off x m =
      (_ ← assert (off / 512 <? MAXFILE);
       '(b, x, m) ← file_block x (off / 512) m;
       let n1 := Z.to_nat (Z.min (len p) ((off / 512 + 1) * 512 - off)) in
       buf ← rsect b m;
       iappend_loop fuel (drop n1 p) (u32 (off + Z.of_nat n1)) x (wsect b (splice buf (Z.to_nat (off - off / 512 * 512)) (take n1 p)) m))) as -> by done.
    clearbody p. clear p0 p'. set (n1 := Z.to_nat (Z.min (len p) ((off / 512 + 1) * 512 - off))).
    assert (1 <= Z.of_nat n1 <= len p /\ off mod 512 + Z.of_nat n1 <= 512) as [Hn1 Hn2] by (unfold n1; mlia).
    assert (length (take n1 p) = n1) as El by (rewrite length_take; lia).
    unfold MAXFILE. rewrite (proj2 (Z.ltb_lt (off / 512) 140)) by mlia. cbn [assert mbind option_bind].
    assert (price (len (data ++ take n1 p)) <= price (len (data ++ p))) by (apply price_mono; rewrite !length_app; lia).
    destruct (append_piece i m own x data (take n1 p) Ha Hst) as (b & a1 & m1 & m2 & own1 & E & Hb & Er & Em & Ha1 & Hg1 & Hst1 & Hf1);
      [intros E; rewrite E in El; cbn in El; lia|fold off; rewrite ?El; lia..|].
    fold off in E, Em. rewrite E. cbn [mbind option_bind]. rewrite Er. cbn [mbind option_bind]. rewrite <- Em.
    assert (u32 (off + Z.of_nat n1) = len (data ++ take n1 p)) as -> by (rewrite length_app, El, Nat2Z.inj_add; apply u32_small; lia).
    destruct (IH (drop n1 p) (with_addrs x a1) m2 own1 (data ++ take n1 p)) as (a2 & m3 & own2 & -> & Ha2 & Hg2 & Hst2 & Hf2);
      [rewrite length_drop; lia|done|done|rewrite length_app, length_drop, El; fold off; lia|rewrite <- app_assoc, take_drop; fold off in Hf1; lia|].
    rewrite <- app_assoc, take_drop in *. exists a2, m3, own2. split; [done|]. split; [done|]. split; [by eapply grown_trans|]. split; [done|]. fold off in Hf1. lia.
Qed.

(** ** The file system *)

(** The inode as the kernel finds it. *)
Definition inode_at (B : Z -> list Z) (i : Z) : dinode := load_dinode (B (IBLOCK i)) (dinode_off i).
Record is_file (B : Z -> list Z) (own : gmap Z Z) (i t : Z) (d : list Z) : Prop := {
  fi_ok : dinode_ok (inode_at B i);
  fi_type : d_type (inode_at B i) = t;
  fi_nlink : d_nlink (inode_at B i) = 1;
  fi_size : d_size (inode_at B i) = len d;
  fi_data : stored B own i (d_addrs (inode_at B i)) d;
}.
(** A file is a type and a content. *)
Definition sectors (c : list (Z * list Z)) : Z := foldr (fun f n => price (len f.2) + n) 0 c.
Record fsok (m : mk) (own : gmap Z Z) (c : list (Z * list Z)) : Prop := {
  fk_arena : arena m own;
  fk_sb : m_img m 1 = sb_bytes;
  fk_inode : m_freeinode m = len c + 1;
  fk_max : len c <= 206;
  fk_fb : m_freeblock m = 29 + sectors c;
  fk_file i t d : c !! i = Some (t, d) -> is_file (m_img m) own (Z.of_nat i + 1) t d;
}.

Lemma iblock_range i : 0 <= i <= 207 -> 2 <= IBLOCK i <= 27.
Proof. intros Hi. unfold IBLOCK, IPB. mlia. Qed.
Lemma slots_apart i j : 0 <= i -> 0 <= j -> i <> j -> IBLOCK i = IBLOCK j -> (dinode_off j + 64 <= dinode_off i \/ dinode_off i + 64 <= dinode_off j)%nat.
Proof. unfold IBLOCK, dinode_off, IPB. intros Hi Hj Hne E. mlia. Qed.

Lemma rinode_ok m own i : arena m own -> 0 <= i <= 207 -> rinode i m = Some (inode_at (m_img m) i).
Proof. intros Ha Hi. unfold rinode. pose proof (iblock_range i Hi). by rewrite (rsect_ok _ _ _ Ha) by (change (i2b i) with (IBLOCK i); lia). Qed.
Lemma winode_ok m own i x :
  arena m own -> 0 <= i <= 207 -> dinode_ok x ->
  exists m', winode i x m = Some m' /\ arena m' own /\
    m_freeblock m' = m_freeblock m /\ m_freeinode m' = m_freeinode m /\
    (forall b, b <> IBLOCK i -> m_img m' b = m_img m b) /\ inode_at (m_img m') i = x /\
    forall j, 0 <= j -> j <> i -> inode_at (m_img m') j = inode_at (m_img m) j.
Proof.
  intros Ha Hi Hx. pose proof (iblock_range i Hi). pose proof (slot_in i). destruct Ha as [A1 A2 A3 A4 A5 A6] eqn:Ea.
  unfold winode. rewrite (rsect_ok _ _ _ Ha) by (change (i2b i) with (IBLOCK i); lia). cbn [mbind option_bind].
  change (i2b i) with (IBLOCK i). set (buf := store_dinode _ _ _). assert (length buf = 512%nat) as Hl by (unfold buf; rewrite length_store; rewrite ?A4; try done; lia).
  eexists. split; [done|]. unfold wsect. split; [|rsimpl; split; [done|]; split; [done|]; split; [intros b Hb; by rewrite fupd_ne|split]].
  - split; rsimpl; try done; [lia|intros b; unfold fupd; by case_decide|]. intros b Hb. rewrite fupd_ne by lia. by apply A5.
  - unfold inode_at. rewrite fupd_eq. unfold buf. apply load_store; [done|]. rewrite A4. lia.
  - intros j Hj Hne. unfold inode_at. destruct (decide (IBLOCK j = IBLOCK i)) as [E|E]; [|by rewrite fupd_ne].
    rewrite E, fupd_eq. unfold buf. apply load_store_ne; [done|rewrite A4; lia|]. apply slots_apart; (done || lia).
Qed.

Lemma stored_ext B B' own own' i a d :
  (forall b, own !! b = Some i -> B' b = B b) -> own ⊆ own' -> stored B own i a d -> stored B' own' i a d.
Proof.
  intros He Hs [H1 H2 H3 H4]. destruct (shape_ext B B' own i a _ (He _) H2) as [Hsh Ea]. split; try done.
  - by eapply shape_own.
  - etrans; [|exact H4]. apply fbytes_ext. intros p Hp. eapply (fbyte_same _ _ _ _ (blocks_of (len d))); [|unfold blocks_of; mlia].
    intros k Hk. split; [by apply Ea|]. apply He, H2. done.
Qed.
(** A file that a change leaves alone. *)
Lemma is_file_ext B B' own own' i t d :
  (forall b, own !! b = Some i -> B' b = B b) -> own ⊆ own' -> inode_at B' i = inode_at B i -> is_file B own i t d -> is_file B' own' i t d.
Proof. intros He Hs Ei [H1 H2 H3 H4 H5]. split; rewrite ?Ei; try done. by eapply stored_ext. Qed.

Lemma sectors_insert c i t d t' d' : c !! i = Some (t, d) -> sectors (<[i := (t', d')]> c) = sectors c + price (len d') - price (len d).
Proof.
  revert i. induction c as [|f c IH]; intros [|i] Hi; try done.
  - injection Hi as ->. cbn. lia.
  - change (price (len f.2) + sectors (<[i := (t', d')]> c) = price (len f.2) + sectors c + price (len d') - price (len d)). rewrite (IH i Hi). lia.
Qed.
Lemma sectors_app c c' : sectors (c ++ c') = sectors c + sectors c'.
Proof. induction c as [|f c IH]; [done|]. change (price (len f.2) + sectors (c ++ c') = price (len f.2) + sectors c + sectors c'). lia. Qed.

Lemma shape_range m own i a nb b : arena m own -> shape (m_img m) own i a nb -> b ∈ a -> 0 <= b < 1024.
Proof.
  intros Ha Hs [k Hk]%list_elem_of_lookup. pose proof (lookup_lt_Some _ _ _ Hk) as Hlt. rewrite (sh_len _ _ _ _ _ Hs) in Hlt.
  apply list_lookup_total_correct in Hk. pose proof (ar_fb _ _ Ha). destruct (decide (k = 12%nat)) as [->|Hne].
  - destruct (sh_ind _ _ _ _ _ Hs) as [[_ E]|[_ Hi]]; [lia|]. pose proof (ar_own _ _ Ha _ _ (in_own _ _ _ _ _ Hi)). lia.
  - destruct (decide (Z.of_nat k < nb)) as [Hnb|Hnb].
    + pose proof (sh_block _ _ _ _ _ Hs (Z.of_nat k) ltac:(lia)) as Ho. rewrite faddr_direct, Nat2Z.id, Hk in Ho by lia. apply (ar_own _ _ Ha) in Ho. lia.
    + pose proof (sh_free _ _ _ _ _ Hs (Z.of_nat k) ltac:(lia)) as E. rewrite Nat2Z.id in E. lia.
Qed.
Lemma iappend_ok m own c i t d p :
  fsok m own c -> c !! i = Some (t, d) -> len d + len p <= 71680 -> sectors (<[i := (t, d ++ p)]> c) <= 995 ->
  exists m' own', iappend (Z.of_nat i + 1) p m = Some m' /\ fsok m' own' (<[i := (t, d ++ p)]> c).
Proof.
  intros [Ha Hsb Hfi Hmax Hfb Hfile] Hi Hlen Hsec. rewrite (sectors_insert _ _ _ _ _ _ Hi) in Hsec.
  destruct (Hfile i t d Hi) as [[K1 K2 K3 K4 K5 K6 K7] F2 F3 F4 F5]. pose proof (lookup_lt_Some _ _ _ Hi). set (inum := Z.of_nat i + 1) in *.
  unfold iappend. rewrite (rinode_ok _ _ _ Ha) by lia. cbn [mbind option_bind]. set (x := inode_at (m_img m) inum) in *. rewrite F4.
  destruct (iappend_loop_ok (length p) inum p x m own d) as (a' & m1 & own' & -> & Ha1 & Hg & Hst & Hf1); [lia|done|done|done|lia|]. cbn [mbind option_bind].
  set (x' := Dinode _ _ _ _ _ _). assert (dinode_ok x') as Hx'.
  { split; cbn; try done; [rewrite length_app; lia|apply (sh_len _ _ _ _ _ (st_shape _ _ _ _ _ Hst))|]. intros b Hb. pose proof (shape_range _ _ _ _ _ _ Ha1 (st_shape _ _ _ _ _ Hst) Hb). lia. }
  destruct (winode_ok m1 own' inum x' Ha1) as (m' & -> & Ha' & Ef & Ein & Eimg & Ex & Eo); [lia|done|]. exists m', own'. split; [done|].
  pose proof (iblock_range inum ltac:(lia)). assert (forall b, b < 29 -> own !! b = None) as Hlow.
  { intros b Hb. destruct (own !! b) eqn:E; [|done]. apply (ar_own _ _ Ha) in E. lia. }
  assert (forall b, b < 29 -> m_img m1 b = m_img m b) as Hkeep.
  { intros b Hb. pose proof (ar_fb _ _ Ha). apply (gr_img _ _ _ _ _ Hg); [lia|by rewrite Hlow]. }
  split; [done|rewrite Eimg, Hkeep by lia; done|rewrite Ein, (gr_inode _ _ _ _ _ Hg), length_insert; done|by rewrite length_insert|rewrite Ef, (sectors_insert _ _ _ _ _ _ Hi); lia|].
  assert (forall b j, own' !! b = Some j -> b <> IBLOCK inum) as Hni by (intros b j Hb ->; apply (ar_own _ _ Ha1) in Hb; lia).
  intros j t' d' [(<- & [= <- <-] & _)|[Hne Hj]]%list_lookup_insert_Some.
  - fold inum. split; rewrite Ex; try done. eapply stored_ext; [|done|exact Hst]. intros b Hb. apply Eimg. by eapply Hni.
  - apply lookup_lt_Some in Hj as Hjl. assert (Z.of_nat j + 1 <> inum) as Hne' by lia.
    eapply is_file_ext; [|apply (gr_sub _ _ _ _ _ Hg)| |exact (Hfile j t' d' Hj)].
    + intros b Hb. pose proof (ar_own _ _ Ha _ _ Hb). rewrite Eimg by lia. apply (gr_img _ _ _ _ _ Hg); [lia|congruence].
    + rewrite Eo by lia. unfold inode_at. by rewrite Hkeep by (pose proof (iblock_range (Z.of_nat j + 1)); lia).
Qed.

Lemma ialloc_ok m own c t :
  fsok m own c -> len c < 206 -> -32768 <= t < 32768 ->
  exists m', ialloc t m = Some (len c + 1, m') /\ fsok m' own (c ++ [(t, [])]).
Proof.
  intros [Ha Hsb Hfi Hmax Hfb Hfile] Hlen Ht. unfold ialloc. rewrite Hfi. set (x := Dinode _ _ _ _ _ _). set (m0 := m <| m_freeinode := _ |>).
  assert (arena m0 own) as Ha0 by (by destruct Ha). assert (dinode_ok x) as Hx.
  { split; cbn; try lia. intros a Ha'. apply (elem_of_replicate 13 0 a) in Ha' as [-> _]. lia. }
  destruct (winode_ok m0 own (len c + 1) x Ha0) as (m' & -> & Ha' & Ef & Ein & Eimg & Ex & Eo); [lia|done|]. cbn [mbind option_bind].
  exists m'. split; [done|]. pose proof (iblock_range (len c + 1) ltac:(lia)).
  split; [done|by rewrite Eimg by lia| |rewrite length_app; cbn; lia| |].
  - rewrite Ein, length_app. unfold m0. rsimpl. rewrite u32_small by lia. cbn. lia.
  - rewrite Ef, sectors_app. change (sectors [(t, [])]) with 0. unfold m0. rsimpl. lia.
  - intros j t' d' [Hj|[Hge Hj]]%lookup_app_Some.
    + apply lookup_lt_Some in Hj as Hjl. eapply is_file_ext; [|done| |exact (Hfile j t' d' Hj)].
      * intros b Hb. pose proof (ar_own _ _ Ha _ _ Hb). rewrite Eimg by lia. done.
      * by rewrite Eo by lia.
    + apply list_lookup_singleton_Some in Hj as [Ej [= <- <-]]. replace (Z.of_nat j + 1) with (len c + 1) by lia. split; rewrite Ex; try done.
      split; [cbn; lia| |unfold tight; done|done]. split; change (blocks_of (len [])) with 0; [done|lia|intros k Hk; lia| |intros j0 k Hj0; lia|].
      * intros k Hk. apply lookup_total_replicate_2. lia.
      * left. split; [cbn; lia|done].
Qed.

Lemma append_all_ok m own c i t d chunks :
  fsok m own c -> c !! i = Some (t, d) -> len (d ++ concat chunks) <= 71680 -> sectors (<[i := (t, d ++ concat chunks)]> c) <= 995 ->
  exists m' own', append_all (Z.of_nat i + 1) chunks m = Some m' /\ fsok m' own' (<[i := (t, d ++ concat chunks)]> c).
Proof.
  revert m own c d. induction chunks as [|p chunks IH]; intros m own c d Hok Hi Hl Hs; cbn [append_all concat] in *.
  - rewrite app_nil_r, list_insert_id by done. by exists m, own.
  - rewrite app_assoc in *. assert (price (len (d ++ p)) <= price (len ((d ++ p) ++ concat chunks))) by (apply price_mono; rewrite (length_app (d ++ p)); lia).
    destruct (iappend_ok m own c i t d p Hok Hi) as (m1 & own1 & -> & Hok1).
    { rewrite !length_app in Hl. lia. }
    { rewrite (sectors_insert _ _ _ _ _ _ Hi) in Hs. rewrite (sectors_insert _ _ _ _ _ _ Hi). lia. }
    cbn [mbind option_bind]. pose proof (lookup_lt_Some _ _ _ Hi). rewrite <- (list_insert_insert_eq c i _ (t, d ++ p)).
    apply (IH m1 own1); [done|by apply list_lookup_insert_eq|done|by rewrite list_insert_insert_eq].
Qed.

(** ** The whole image *)

Definition content (f : list Z * option (list (list Z))) : list Z := from_option (@concat Z) [] f.2.
Definition entry_of (k : nat) (f : list Z * option (list (list Z))) : list Z := dirent_for (Z.of_nat k + 2) (strip f.1).
(** The root directory: its own two names, and the files in order, from inode 2 on. *)
Definition root_data (files : list (list Z * option (list (list Z)))) : list Z :=
  dirent_for ROOTINO [46] ++ dirent_for ROOTINO [46; 46] ++ concat (imap entry_of files).
Definition tree (files : list (list Z * option (list (list Z)))) : list (Z * list Z) :=
  (T_DIR, root_data files) :: map (fun f => (T_FILE, content f)) files.
(** The files that the program accepts. *)
Definition input_ok (f : list Z * option (list (list Z))) : Prop :=
  has_slash f.1 = false /\ is_Some f.2 /\ len (content f) <= 71680.

Lemma length_dirent_for i n : length (dirent_for i n) = 16%nat.
Proof. unfold dirent_for, DIRSIZ. rewrite length_app, length_take, length_app, length_replicate. change (length (bytes16 i)) with 2%nat. lia. Qed.
Lemma length_entries {A} (files : list A) (g : nat -> A -> list Z) : (forall k f, length (g k f) = 16%nat) -> length (concat (imap g files)) = (16 * length files)%nat.
Proof.
  revert g. induction files as [|f files IH]; intros g Hg; [done|]. rewrite imap_cons. cbn [concat]. rewrite length_app, Hg, (IH (g ∘ S)); [cbn; lia|]. intros k f'. apply Hg.
Qed.
Lemma length_root files : len (root_data files) = 32 + 16 * len files.
Proof. unfold root_data. rewrite !length_app, !length_dirent_for, length_entries; [lia|]. intros. apply length_dirent_for. Qed.
Lemma root_snoc files f : root_data (files ++ [f]) = root_data files ++ dirent_for (len files + 2) (strip f.1).
Proof.
  unfold root_data. rewrite imap_app, concat_app, !app_assoc. f_equal. cbn. rewrite app_nil_r. unfold entry_of. cbn. by rewrite Nat.add_0_r.
Qed.
Lemma tree_snoc files f : tree (files ++ [f]) = <[0%nat := (T_DIR, root_data files ++ dirent_for (len files + 2) (strip f.1))]> (tree files) ++ [(T_FILE, content f)].
Proof. unfold tree. by rewrite root_snoc, map_app. Qed.
Lemma sectors_nonneg c : 0 <= sectors c.
Proof.
  induction c as [|f c IH]; [done|]. change (0 <= price (len f.2) + sectors c). pose proof (price_mono 0 (len f.2) ltac:(lia)) as Hp. change (price 0) with 0 in Hp. lia.
Qed.
Lemma sectors_tree files : sectors (tree files) = price (len (root_data files)) + sectors (map (fun f => (T_FILE, content f)) files).
Proof. done. Qed.
Lemma sectors_prefix files fs : sectors (tree files) <= sectors (tree (files ++ fs)).
Proof.
  rewrite !sectors_tree, map_app, sectors_app, !length_root, length_app. pose proof (sectors_nonneg (map (fun f => (T_FILE, content f)) fs)).
  pose proof (price_mono (32 + 16 * len files) (32 + 16 * Z.of_nat (length files + length fs)) ltac:(lia)). lia.
Qed.

Lemma add_files_ok files : forall before m own,
  fsok m own (tree before) -> Forall input_ok files -> len (before ++ files) <= 198 -> sectors (tree (before ++ files)) <= 995 ->
  exists m' own', add_files files m = Some m' /\ fsok m' own' (tree (before ++ files)).
Proof.
  induction files as [|f files IH]; intros before m own Hok Hin Hlen Hsec; [rewrite app_nil_r; by exists m, own|].
  apply Forall_cons in Hin as [(Hsl & [chunks Ef2] & Hl) Hin]. destruct f as [name fd]. cbn [fst snd] in *. subst fd. cbn [add_files]. rewrite Hsl. cbn [negb assert mbind option_bind].
  assert (content (name, Some chunks) = concat chunks) as Ec by done. rewrite Ec in Hl. set (f := (name, Some chunks)) in *.
  rewrite (app_assoc before [f] files : before ++ f :: files = _) in *. pose proof (sectors_prefix (before ++ [f]) files) as Hpre.
  rewrite tree_snoc, sectors_app in Hpre. set (root := root_data before ++ _) in Hpre.
  assert (len (tree before) = len before + 1) as Elen by (unfold tree; cbn [length]; rewrite length_map; lia).
  rewrite !length_app in Hlen. cbn [length] in Hlen.
  destruct (ialloc_ok m own (tree before) T_FILE Hok) as (m1 & -> & Hok1); [lia|unfold T_FILE; lia|]. cbn [mbind option_bind].
  replace (len (tree before) + 1) with (len before + 2) by lia. change ROOTINO with (Z.of_nat 0 + 1).
  pose proof (sectors_nonneg [(T_FILE, content f)]) as H0.
  assert (<[0%nat := (T_DIR, root)]> (tree before ++ [(T_FILE, [])]) = <[0%nat := (T_DIR, root)]> (tree before) ++ [(T_FILE, [])]) as Eins by done.
  destruct (iappend_ok m1 own _ 0 T_DIR (root_data before) (dirent_for (len before + 2) (strip name)) Hok1) as (m2 & own2 & -> & Hok2).
  { done. }
  { rewrite length_dirent_for, length_root. lia. }
  { change (root_data before ++ dirent_for (len before + 2) (strip name)) with root. rewrite Eins, sectors_app. change (sectors [(T_FILE, [])]) with 0. lia. }
  change (root_data before ++ dirent_for (len before + 2) (strip name)) with root in Hok2. rewrite Eins in Hok2. cbn [mbind option_bind].
  set (c := <[0%nat := (T_DIR, root)]> (tree before)) in *. assert (length c = length (tree before)) as Elc by apply length_insert.
  assert (forall d d', <[length c := (T_FILE, d')]> (c ++ [(T_FILE, d)]) = c ++ [(T_FILE, d')]) as Elast.
  { intros d d'. rewrite <- (Nat.add_0_r (length c)), insert_app_r. done. }
  destruct (append_all_ok m2 own2 (c ++ [(T_FILE, [])]) (length c) T_FILE [] chunks Hok2) as (m3 & own3 & E3 & Hok3).
  { by apply list_lookup_middle. }
  { done. }
  { cbn [app]. rewrite Elast, sectors_app, <- Ec. lia. }
  replace (Z.of_nat (length c) + 1) with (len before + 2) in E3 by lia. rewrite E3. cbn [mbind option_bind].
  cbn [app] in Hok3. rewrite Elast in Hok3. apply (IH (before ++ [f]) m3 own3); [by rewrite tree_snoc|done|rewrite !length_app; cbn [length]; lia|done].
Qed.

Lemma zeroed secs m :
  (forall b, m_img m b = replicate 512 0) -> forall b, m_img (fold_left (fun m i => wsect i (replicate 512 0) m) secs m) b = replicate 512 0.
Proof.
  revert m. induction secs as [|n secs IH]; intros m Hm b; [apply Hm|]. cbn [fold_left]. apply IH. intros c. unfold wsect. rsimpl. unfold fupd. by case_decide.
Qed.
Lemma blank_img b : m_img blank b = if decide (b = 1) then sb_bytes else replicate 512 0.
Proof. unfold blank, wsect at 1. rsimpl. unfold fupd at 1. case_decide; [done|]. by apply zeroed. Qed.
Lemma blank_ok : fsok blank ∅ [].
Proof.
  assert (m_secs blank = 1024 /\ m_freeblock blank = 29 /\ m_usedblocks blank = 29 /\ m_freeinode blank = 1) as (E1 & E2 & E3 & E4) by (vm_compute; done).
  split; rewrite ?E2, ?E4; [|by rewrite blank_img|done|cbn; lia|done|done].
  split; rewrite ?E2; [done|lia|done| | |].
  - intros b. rewrite blank_img. by case_decide.
  - intros b Hb. rewrite blank_img, decide_False by lia. done.
  - intros b i Hb. by rewrite lookup_empty in Hb.
Qed.

Lemma bits_marked l d b :
  length d = 512%nat -> Forall (fun x => 0 <= x < BPB) l -> 0 <= b < BPB ->
  bit_set (fold_left mark_used l d) b = bool_decide (b ∈ l) || bit_set d b.
Proof.
  intros Hd Hl Hb. revert d Hd. induction Hl as [|x l Hx Hl IH]; intros d Hd; [done|]. cbn [fold_left].
  rewrite IH, bit_mark_used by (done || by rewrite length_mark_used). rewrite (bool_decide_ext (b ∈ x :: l) (b = x \/ b ∈ l)) by apply elem_of_cons.
  rewrite bool_decide_or. destruct (Z.eqb_spec b x) as [->|Hne].
  - by rewrite (bool_decide_eq_true_2 (x = x)), orb_true_r by done.
  - by rewrite (bool_decide_eq_false_2 (b = x)) by done.
Qed.
Lemma bitmap_bits used b : 0 <= used < BPB -> 0 <= b < BPB -> bit_set (bitmap used) b = (b <? used).
Proof.
  intros Hu Hb. unfold bitmap. rewrite bits_marked; [|done| |done].
  - assert (bit_set (replicate 512 0) b = false) as ->.
    { rewrite bit_set_testbit. unfold bit_byte. rewrite lookup_total_replicate_2; [by rewrite Z.testbit_0_l|]. unfold BPB, BSIZE in Hb. mlia. }
    rewrite orb_false_r. apply eq_bool_prop_intro. rewrite bool_decide_spec, elem_of_seqZ, Is_true_true, Z.ltb_lt. lia.
  - apply Forall_forall. intros x Hx%elem_of_seqZ. unfold BPB in *. lia.
Qed.

(** The inode of the root gets the size of whole blocks. *)
Definition final_size (i : nat) (d : list Z) : Z := match i with O => (len d / 512 + 1) * 512 | _ => len d end.
Lemma fix_root_ok m own c t d :
  fsok m own c -> c !! 0%nat = Some (t, d) ->
  exists m', fix_root m = Some m' /\ arena m' own /\ m_freeblock m' = m_freeblock m /\ m_img m' 1 = sb_bytes /\
    forall i t d, c !! i = Some (t, d) ->
      let x := inode_at (m_img m') (Z.of_nat i + 1) in
      d_type x = t /\ d_nlink x = 1 /\ d_size x = final_size i d /\ stored (m_img m') own (Z.of_nat i + 1) (d_addrs x) d.
Proof.
  intros [Ha Hsb Hfi Hmax Hfb Hfile] H0. destruct (Hfile 0%nat t d H0) as [Kx F2 F3 F4 F5]. change (Z.of_nat 0 + 1) with ROOTINO in *.
  unfold fix_root. rewrite (rinode_ok _ _ _ Ha) by (unfold ROOTINO; lia). cbn [mbind option_bind]. set (x := inode_at _ _) in *. rewrite F4.
  pose proof (st_len _ _ _ _ _ F5) as Hl. assert (u32 ((len d / BSIZE + 1) * BSIZE) = (len d / 512 + 1) * 512) as Esz by (unfold BSIZE; apply u32_small; mlia). rewrite Esz.
  set (x' := Dinode _ _ _ _ _ _). assert (dinode_ok x') as Hx' by (destruct Kx; split; cbn; try done; mlia).
  destruct (winode_ok m own ROOTINO x' Ha) as (m' & -> & Ha' & Ef & Ein & Eimg & Ex & Eo); [unfold ROOTINO; lia|done|].
  exists m'. split; [done|]. split; [done|]. split; [done|]. split; [by rewrite Eimg|]. intros i t' d' Hi.
  assert (forall j b, own !! b = Some j -> m_img m' b = m_img m b) as Hkeep.
  { intros j b Hb. apply Eimg. pose proof (ar_own _ _ Ha _ _ Hb). change (IBLOCK ROOTINO) with 2. lia. }
  destruct i as [|i].
  - rewrite H0 in Hi. injection Hi as <- <-. change (Z.of_nat 0 + 1) with ROOTINO. rewrite Ex. split; [done|]. split; [done|]. split; [done|].
    eapply stored_ext; [by apply Hkeep|done|exact F5].
  - destruct (Hfile _ _ _ Hi) as [_ G2 G3 G4 G5]. cbn zeta. rewrite Eo by (unfold ROOTINO; lia). split; [done|]. split; [done|]. split; [done|].
    eapply stored_ext; [by apply Hkeep|done|exact G5].
Qed.

Lemma balloc_ok m own :
  arena m own -> exists m', balloc (m_usedblocks m) m = Some m' /\ m_secs m' = 1024 /\
    (forall b, b <> BBLOCK 0 ninodes -> m_img m' b = m_img m b) /\ m_img m' (BBLOCK 0 ninodes) = bitmap (m_freeblock m).
Proof.
  intros Ha. pose proof (ar_fb _ _ Ha). unfold balloc. rewrite (ar_used _ _ Ha), (proj2 (Z.ltb_lt _ _)) by lia. cbn [assert mbind option_bind].
  change (ninodes / IPB + 3) with 28. change (BBLOCK 0 ninodes) with 28. eexists. split; [done|]. unfold wsect. rsimpl. rewrite (ar_secs _ _ Ha).
  split; [done|]. split; [intros b Hb; by rewrite fupd_ne|by rewrite fupd_eq].
Qed.

(** What [main] runs before the bitmap is written. *)
Lemma main_tree files :
  Forall input_ok files -> len files <= 198 -> sectors (tree files) <= 985 ->
  exists m own, fsok m own (tree files) /\ main files = (m ← fix_root m; balloc (m_usedblocks m) m).
Proof.
  intros Hin Hlen Hsec. unfold main. change (assert (nblocks + usedblocks0 + nlog =? size)) with (Some tt). cbn [mbind option_bind].
  destruct (ialloc_ok blank ∅ [] T_DIR blank_ok) as (m1 & -> & Hok1); [cbn; lia|unfold T_DIR; lia|]. cbn [mbind option_bind].
  change (Z.of_nat (length (@nil (Z * list Z))) + 1) with (Z.of_nat 0 + 1). change (assert (Z.of_nat 0 + 1 =? ROOTINO)) with (Some tt). cbn [mbind option_bind app] in *.
  destruct (iappend_ok m1 ∅ _ 0 T_DIR [] (dirent_for (Z.of_nat 0 + 1) [46]) Hok1) as (m2 & own2 & -> & Hok2); [done|cbn; lia|vm_compute; done|]. cbn [mbind option_bind].
  destruct (iappend_ok m2 own2 _ 0 T_DIR (dirent_for (Z.of_nat 0 + 1) [46]) (dirent_for (Z.of_nat 0 + 1) [46; 46]) Hok2) as (m3 & own3 & -> & Hok3); [done|cbn; lia|vm_compute; done|]. cbn [mbind option_bind].
  destruct (add_files_ok files [] m3 own3 Hok3 Hin Hlen) as (m4 & own4 & -> & Hok4); [cbn [app]; lia|]. by exists m4, own4.
Qed.

(** C6. mkfs builds a file system that the kernel reads as intended. Given files that
    open, whose names have no slash and that fit (each into the largest file, all of
    them before the log), it ends without a failed assertion, and then: the super
    block describes the image; the bitmap marks exactly the blocks before
    [m_freeblock]; inode 1 is the root directory, whose entries are [.], [..] and the
    names without a leading underscore, in order, with inodes from 2 on; each inode's
    blocks lie between the metadata and the log and hold the content of its file; and
    no block belongs to two files or is used twice in one. *)
Theorem main_builds files :
  Forall input_ok files -> len files <= 198 -> sectors (tree files) <= 985 ->
  exists m, main files = Some m /\ m_secs m = 1024 /\
    sb_of_bytes (m_img m 1) = Superblock 1024 985 200 10 /\
    (forall b, 0 <= b < BPB -> bit_set (m_img m (BBLOCK 0 200)) b = (b <? 29 + sectors (tree files))) /\
    (forall i t d, tree files !! i = Some (t, d) ->
      let x := inode_at (m_img m) (Z.of_nat i + 1) in let ip := mkip (d_addrs x) in
      d_type x = t /\ d_nlink x = 1 /\ d_size x = final_size i d /\
      fbytes (m_img m) ip 0 (len d) = d /\
      (forall k, 0 <= k < blocks_of (len d) -> 29 <= faddr (m_img m) ip k < 29 + sectors (tree files)) /\
      distinct (m_img m) ip (blocks_of (len d))) /\
    (forall i j f g k l, tree files !! i = Some f -> tree files !! j = Some g ->
      0 <= k < blocks_of (len f.2) -> 0 <= l < blocks_of (len g.2) ->
      faddr (m_img m) (mkip (d_addrs (inode_at (m_img m) (Z.of_nat i + 1)))) k =
      faddr (m_img m) (mkip (d_addrs (inode_at (m_img m) (Z.of_nat j + 1)))) l -> i = j /\ k = l).
Proof.
  intros Hin Hlen Hsec. destruct (main_tree files Hin Hlen Hsec) as (m1 & own & Hok & ->).
  destruct (fix_root_ok m1 own _ _ _ Hok eq_refl) as (m2 & -> & Ha & Ef & Esb & Hfile). cbn [mbind option_bind]. rewrite (fk_fb _ _ _ Hok) in Ef.
  destruct (balloc_ok m2 own Ha) as (m & -> & Es & Eimg & Ebm). rewrite Ef in Ebm. exists m. split; [done|]. split; [done|].
  change (BBLOCK 0 ninodes) with 28 in *. change (BBLOCK 0 200) with 28. split; [rewrite Eimg, Esb by lia; by vm_compute|].
  pose proof (sectors_nonneg (tree files)). split; [intros b Hb; rewrite Ebm; apply bitmap_bits; [unfold BPB, BSIZE; lia|done]|].
  assert (forall i t d, tree files !! i = Some (t, d) -> let x := inode_at (m_img m) (Z.of_nat i + 1) in
    d_type x = t /\ d_nlink x = 1 /\ d_size x = final_size i d /\ stored (m_img m) own (Z.of_nat i + 1) (d_addrs x) d) as Hfile'.
  { intros i t d Hi. specialize (Hfile i t d Hi). apply lookup_lt_Some in Hi. pose proof (fk_max _ _ _ Hok). cbn zeta in *. unfold inode_at in *.
    rewrite Eimg by (pose proof (iblock_range (Z.of_nat i + 1) ltac:(lia)); lia). destruct Hfile as (H1 & H2 & H3 & H4). repeat (split; [done|]).
    eapply stored_ext; [|done|exact H4]. intros b Hb. apply Eimg. apply (ar_own _ _ Ha) in Hb. lia. }
  assert (forall i t d k, tree files !! i = Some (t, d) -> 0 <= k < blocks_of (len d) ->
    own !! faddr (m_img m) (mkip (d_addrs (inode_at (m_img m) (Z.of_nat i + 1)))) k = Some (Z.of_nat i + 1)) as Hown.
  { intros i t d k Hi Hk. destruct (Hfile' i t d Hi) as (_ & _ & _ & Hst). by apply (sh_block _ _ _ _ _ (st_shape _ _ _ _ _ Hst)). }
  split.
  - intros i t d Hi. destruct (Hfile' i t d Hi) as (H1 & H2 & H3 & H4). repeat (split; [done|]). split; [apply H4|]. split.
    + intros k Hk. rewrite <- Ef. eapply (ar_own _ _ Ha). by eapply Hown.
    + by apply (stored_distinct _ own (Z.of_nat i + 1)).
  - intros i j [t d] [t' d'] k l Hi Hj Hk Hl E. pose proof (Hown i t d k Hi Hk) as Ho. rewrite E, (Hown j t' d' l Hj Hl) in Ho.
    assert (i = j) as <- by (injection Ho; lia). split; [done|]. rewrite Hi in Hj. injection Hj as -> ->. destruct (Hfile' i t' d' Hi) as (_ & _ & _ & Hst).
    by apply (sh_inj _ _ _ _ _ (st_shape _ _ _ _ _ Hst)).
Qed.
Lemma main_builds_witness : exists m,
  main [([95; 97], Some [replicate 512 7; replicate 100 8]); ([98], Some [])] = Some m /\
  fbytes (m_img m) (mkip (d_addrs (inode_at (m_img m) 2))) 0 612 = replicate 512 7 ++ replicate 100 8.
Proof.
  destruct (main_builds [([95; 97], Some [replicate 512 7; replicate 100 8]); ([98], Some [])]) as (m & E & _ & _ & _ & Hf & _).
  - repeat constructor; (reflexivity || (eexists; reflexivity) || (vm_compute; discriminate)).
  - vm_compute. discriminate.
  - vm_compute. discriminate.
  - exists m. split; [exact E|]. destruct (Hf 1%nat T_FILE _ eq_refl) as (_ & _ & _ & Hb & _). exact Hb.
Defined.

(** With 30 files the root directory fills its block, and the size of its inode covers
    a second one, which it does not have. *)
Lemma root_size_past_end :
  match main (replicate 30 ([97], Some [])) with
  | Some m => let x := inode_at (m_img m) ROOTINO in d_size x = 1024 /\ d_addrs x !!! 1%nat = 0
  | None => False
  end.
Proof. vm_compute. split; reflexivity. Qed.
