(* ===== verification/Paths.v ===== *)
(** * Paths: the elements of path names

    [skipelem], which namex calls until it returns 0, walks through the non-empty
    parts between slashes. *)
From S2P Require Import Prelude Memory CString State Dir.

(** The elements namex looks up, by the calls of [skipelem] it makes. *)
Fixpoint elems (fuel : nat) (path : list Z) : option (list (list Z)) :=
  match skipelem path with
  | None => Some []
  | Some (path', name) =>
      match fuel with
      | O => None
      | S k => (name ::.) <$> elems k path'
      end
  end.

(** The parts of a path between slashes, empty ones included. *)
Fixpoint parts (path : list Z) : list (list Z) :=
  match path with
  | [] => [[]]
  | c :: path' =>
      if c =? SLASH then [] :: parts path'
      else match parts path' with p :: ps => (c :: p) :: ps | [] => [[c]] end
  end.
Definition nonempty (p : list Z) : bool := match p with [] => false | _ => true end.
(** The names in a path, as directories store them. *)
Definition names (path : list Z) : list (list Z) := map (take DIRSIZ) (List.filter nonempty (parts path)).

Lemma parts_cons path : exists p ps, parts path = p :: ps.
Proof. destruct path as [|c path]; cbn; [by exists [], []|]. case_match; [by eexists _, _|]. destruct (parts path); eauto. Qed.

Lemma span_parts path s rest :
  span_elem path = (s, rest) ->
  parts path = s :: match rest with [] => [] | _ :: r => parts r end /\
  path = s ++ rest /\ (forall c, c ∈ s -> c <> SLASH) /\ (rest = [] \/ exists r, rest = SLASH :: r).
Proof.
  revert s rest. induction path as [|c path IH]; intros s rest; cbn.
  { intros [= <- <-]. split_and!; [done|done|by intros c ?%not_elem_of_nil|by left]. }
  destruct (Z.eqb_spec c SLASH) as [->|Hne].
  { intros [= <- <-]. split_and!; [done|done|by intros c ?%not_elem_of_nil|right; eauto]. }
  destruct (span_elem path) as [s' rest'] eqn:E. intros [= <- <-].
  destruct (IH s' rest' eq_refl) as (-> & -> & Hc & Hr). split_and!; [done|done| |done].
  intros x [->|Hx]%elem_of_cons; [done|by apply Hc].
Qed.

Lemma names_skip path : names (skip_slashes path) = names path.
Proof.
  induction path as [|c path IH]; [done|]. cbn [skip_slashes]. destruct (Z.eqb_spec c SLASH) as [->|Hne]; [|done].
  rewrite IH. unfold names. cbn. done.
Qed.
Lemma skip_head path : match skip_slashes path with [] => True | c :: _ => c <> SLASH end.
Proof. induction path as [|c path IH]; cbn; [done|]. destruct (Z.eqb_spec c SLASH); [done|cbn; done]. Qed.
Lemma skip_length path : (length (skip_slashes path) <= length path)%nat.
Proof. induction path as [|c path IH]; cbn; [done|]. destruct (c =? SLASH); cbn; lia. Qed.

(** One call. *)
Lemma skipelem_step path :
  match skipelem path with
  | None => names path = []
  | Some (path', name) => names path = name :: names path' /\ (length path' < length path)%nat
  end.
Proof.
  unfold skipelem. rewrite <- (names_skip path). pose proof (skip_head path) as Hh. pose proof (skip_length path) as Hl.
  destruct (skip_slashes path) as [|c p] eqn:E; [done|].
  destruct (span_elem (c :: p)) as [s rest] eqn:Es. destruct (span_parts _ _ _ Es) as (Ep & Eq & _ & Hr).
  destruct s as [|x s].
  { destruct Hr as [->|[r ->]]; [done|]. injection Eq as -> _. done. }
  split.
  - rewrite names_skip. unfold names. rewrite Ep. cbn [List.filter nonempty map].
    assert ((if Z.of_nat DIRSIZ <=? Z.of_nat (length (x :: s)) then take DIRSIZ (x :: s) else x :: s) = take DIRSIZ (x :: s)) as ->.
    { destruct (Z.leb_spec (Z.of_nat DIRSIZ) (Z.of_nat (length (x :: s)))); [done|]. rewrite take_ge by lia. done. }
    f_equal. by destruct Hr as [->|[r ->]].
  - pose proof (skip_length rest). rewrite Eq, length_app in Hl. cbn [length] in Hl. lia.
Qed.

Lemma elems_names path n : (length path <= n)%nat -> elems n path = Some (names path).
Proof.
  revert path. induction n as [|n IH]; intros path Hle; cbn [elems]; pose proof (skipelem_step path) as Hs;
    destruct (skipelem path) as [[path' name]|]; try (by rewrite Hs).
  - destruct Hs. lia.
  - destruct Hs as [-> Hlt]. rewrite IH by lia. done.
Qed.

(** The calls of skipelem that namex makes on a path end, after at most as many
    as the path has characters, and yield exactly its names: the non-empty parts
    between slashes, in order, each cut to DIRSIZ characters. *)
Theorem skipelem_names path : elems (length path) path = Some (names path).
Proof. by apply elems_names. Qed.

(** A path made of names is taken apart into these names: for names that are not
    empty, have no slash and at most DIRSIZ characters, the elements of the path
    that joins them with slashes are the names. *)
Theorem path_join_split ns :
  (forall n, n ∈ ns -> n <> [] /\ (length n <= DIRSIZ)%nat /\ forall c, c ∈ n -> c <> SLASH) ->
  let path := concat (map (cons SLASH) ns) in
  elems (length path) path = Some ns.
Proof.
  intros Hns path. rewrite elems_names by done. f_equal. unfold path, names. clear path.
  assert (forall n rest, (forall c, c ∈ n -> c <> SLASH) -> n <> [] ->
    (rest = [] \/ exists r, rest = SLASH :: r) -> parts (n ++ rest) = n :: match rest with [] => [] | _ :: r => parts r end) as Hp.
  { clear. intros n rest Hc _ Hr. induction n as [|c n IH]; cbn.
    - destruct Hr as [->|[r ->]]; done.
    - rewrite (proj2 (Z.eqb_neq _ _)) by (apply Hc; by left). rewrite IH; [done|]. intros x Hx. apply Hc. by right. }
  induction ns as [|n ns IH]; [done|]. cbn [map concat app].
  assert (forall l, parts (SLASH :: l) = [] :: parts l) as Esl by done. rewrite Esl.
  destruct (Hns n ltac:(by left)) as (Hne & Hlen & Hc).
  rewrite Hp; [|done|done|destruct ns; cbn; eauto].
  cbn [List.filter]. destruct n as [|x n]; [done|]. cbn [nonempty map]. rewrite take_ge by done. f_equal.
  transitivity (map (take DIRSIZ) (List.filter nonempty (parts (concat (map (cons SLASH) ns))))).
  - by destruct ns.
  - apply IH. intros n' Hn'. apply Hns. by right.
Qed.

Lemma path_join_split_witness : elems 8 [47; 117; 115; 114; 47; 98; 105; 110] = Some [[117; 115; 114]; [98; 105; 110]].
Proof.
  exact (path_join_split [[117; 115; 114]; [98; 105; 110]] ltac:(
    intros n [->|[->|[]%not_elem_of_nil]%elem_of_cons]%elem_of_cons; (split; [discriminate|split; [unfold DIRSIZ; cbn; lia|]]);
    intros c Hc; apply list_elem_of_In in Hc; cbn in Hc; unfold SLASH; intuition lia)).
Defined.
