(* ===== verification/File.v ===== *)
(** * File: file.c and pipe.c

    The table of open files with its reference counts, and pipes: rings of
    PIPESIZE bytes with the counters [nread] and [nwrite]. A pipe is named by the
    page it lives in. *)
From S2P Require Import Prelude Memory State Spinlock Kalloc Consout Vm Sched Bio Log Inode Console Dir.

Definition PIPESIZE : Z := 512.

Definition getf (i : nat) : M file := f ← gets (fun s => ftable s !! i); must f.
Definition setf (i : nat) (g : file -> file) : M unit :=
  _ ← getf i; modify (fun s => s <| ftable ::= alter g i |>).
Definition getpipe (a : Z) : M pipe := p ← gets (fun s => pipes s !! a); must p.
Definition setpipe (a : Z) (g : pipe -> pipe) : M unit :=
  _ ← getpipe a; modify (fun s => s <| pipes ::= alter g a |>).

Definition fileinit : M unit := initlock L_ftable "ftable".

(** The first entry without references. *)
Definition filealloc : M (option nat) :=
  acquire L_ftable ;;
  r ← mfind (seq 0 NFILE) (fun i =>
    f ← getf i;
    if f_ref f =? 0 then
      setf i (fun f => f <| f_ref := 1 |>) ;; release L_ftable ;; mret (Some i)
    else mret None);
  match r with
  | Some i => mret (Some i)
  | None => release L_ftable ;; mret None
  end.

Definition filedup (i : nat) : M nat :=
  acquire L_ftable ;;
  f ← getf i;
  if f_ref f <? 1 then panic "filedup"
  else
    setf i (fun f => f <| f_ref := f_ref f + 1 |>) ;;
    release L_ftable ;;
    mret i.

Section File.
Context `{Linker} `{DiskDriver}.

Definition pipeclose (a : Z) (writable : Z) : M unit :=
  acquire (L_pipe a) ;;
  (if truth writable then
     setpipe a (fun p => p <| pi_writeopen := 0 |>) ;; wakeup (Ch_nread a)
   else
     setpipe a (fun p => p <| pi_readopen := 0 |>) ;; wakeup (Ch_nwrite a)) ;;
  p ← getpipe a;
  if (pi_readopen p =? 0) && (pi_writeopen p =? 0) then
    release (L_pipe a) ;;
    modify (fun s => s <| pipes ::= delete a |>) ;;
    kfree a
  else release (L_pipe a).

Definition fileclose (i : nat) : M unit :=
  acquire L_ftable ;;
  f ← getf i;
  if f_ref f <? 1 then panic "fileclose"
  else
    setf i (fun f => f <| f_ref := f_ref f - 1 |>) ;;
    if 0 <? f_ref f - 1 then release L_ftable
    else
      ff ← getf i;
      setf i (fun f => f <| f_ref := 0 |>) ;;
      setf i (fun f => f <| f_type := FD_NONE |>) ;;
      release L_ftable ;;
      match f_type ff with
      | FD_PIPE => pipeclose (f_pipe ff) (f_writable ff)
      | FD_INODE => begin_trans ;; ip ← must (f_ip ff); iput ip ;; commit_trans
      | FD_NONE => mret tt
      end.

(** ** Pipes *)

(** [pipealloc]: the two files, or [None] for -1. The array [data] of a new
    pipe, at offset 52 of its page, is not initialised. *)
Definition pipealloc_bad (f0 f1 : option nat) : M (option (nat * nat)) :=
  match f0 with Some i => fileclose i | None => mret tt end ;;
  match f1 with Some i => fileclose i | None => mret tt end ;;
  mret None.
Definition pipe_file (i : nat) (readable writable a : Z) : M unit :=
  setf i (fun f => f <| f_type := FD_PIPE |> <| f_readable := readable |>
                     <| f_writable := writable |> <| f_pipe := a |>).
Definition pipealloc : M (option (nat * nat)) :=
  f0 ← filealloc;
  match f0 with
  | None => pipealloc_bad None None
  | Some i0 =>
      f1 ← filealloc;
      match f1 with
      | None => pipealloc_bad f0 None
      | Some i1 =>
          a ← kalloc;
          if a =? 0 then pipealloc_bad f0 f1
          else
            modify (fun s => s <| pipes ::= <[a := Pipe (ldbytes (mem s) (a + 52) 512) 0 0 1 1]> |>) ;;
            initlock (L_pipe a) "pipe" ;;
            pipe_file i0 1 0 a ;;
            pipe_file i1 0 1 a ;;
            mret (Some (i0, i1))
      end
  end.

(** The wait for room: [true] when [pipewrite] returns -1. *)
Definition pipewrite_wait (a : Z) : M bool :=
  mloop_sleep
    (p ← getpipe a;
     if pi_nwrite p =? u32 (pi_nread p + PIPESIZE) then
       cur ← curproc;
       if (pi_readopen p =? 0) || truth (p_killed cur) then mret (Some true)
       else
         wakeup (Ch_nread a) ;;
         sleep (Ch_nwrite a) (L_pipe a) ;;
         mret None
     else mret (Some false)).
Definition pipe_put (c : Z) (p : pipe) : pipe :=
  p <| pi_data ::= <[Z.to_nat (pi_nwrite p mod PIPESIZE) := c]> |>
    <| pi_nwrite := u32 (pi_nwrite p + 1) |>.
(** The [for] over the [k] bytes from [addr]; [true] when it returned -1. *)
Fixpoint pipewrite_loop (k : nat) (a addr : Z) : M bool :=
  match k with
  | O => mret false
  | S k' =>
      stop ← pipewrite_wait a;
      if stop : bool then mret true
      else
        c ← vldb addr;
        setpipe a (pipe_put c) ;;
        pipewrite_loop k' a (u32 (addr + 1))
  end.
Definition pipewrite (a addr n : Z) : M Z :=
  acquire (L_pipe a) ;;
  stopped ← pipewrite_loop (Z.to_nat n) a addr;
  if stopped : bool then release (L_pipe a) ;; mret (-1)
  else
    wakeup (Ch_nread a) ;;
    release (L_pipe a) ;;
    mret n.

Definition piperead_wait (a : Z) : M bool :=
  mloop_sleep
    (p ← getpipe a;
     if (pi_nread p =? pi_nwrite p) && truth (pi_writeopen p) then
       cur ← curproc;
       if truth (p_killed cur) then mret (Some true)
       else sleep (Ch_nread a) (L_pipe a) ;; mret None
     else mret (Some false)).
Definition pipe_next (p : pipe) : Z := pi_data p !!! Z.to_nat (pi_nread p mod PIPESIZE).
(** The [for] that copies at most [k] bytes to [addr]: their number. *)
Fixpoint piperead_loop (k : nat) (a addr : Z) : M Z :=
  match k with
  | O => mret 0
  | S k' =>
      p ← getpipe a;
      if pi_nread p =? pi_nwrite p then mret 0
      else
        setpipe a (fun p => p <| pi_nread := u32 (pi_nread p + 1) |>) ;;
        vstb addr (pipe_next p) ;;
        r ← piperead_loop k' a (u32 (addr + 1));
        mret (1 + r)
  end.
Definition piperead (a addr n : Z) : M Z :=
  acquire (L_pipe a) ;;
  killed ← piperead_wait a;
  if killed : bool then release (L_pipe a) ;; mret (-1)
  else
    i ← piperead_loop (Z.to_nat n) a addr;
    wakeup (Ch_nwrite a) ;;
    release (L_pipe a) ;;
    mret i.

(** ** Files *)

(** The stores of [stati] to the struct stat at [va]. *)
Definition put_stat (va : Z) (st : stat) : M unit :=
  vst32 (u32 (va + 4)) (st_dev st) ;;
  vst32 (u32 (va + 8)) (st_ino st) ;;
  vstbytes va (bytes16 (st_type st)) ;;
  vstbytes (u32 (va + 12)) (bytes16 (st_nlink st)) ;;
  vst32 (u32 (va + 16)) (st_size st).
Definition filestat (i : nat) (st : Z) : M Z :=
  f ← getf i;
  match f_type f with
  | FD_INODE =>
      ip ← must (f_ip f);
      ilock ip ;;
      x ← stati ip;
      put_stat st x ;;
      iunlock ip ;;
      mret 0
  | _ => mret (-1)
  end.

Definition fileread (i : nat) (addr n : Z) : M Z :=
  f ← getf i;
  if f_readable f =? 0 then mret (-1)
  else match f_type f with
  | FD_PIPE => piperead (f_pipe f) addr n
  | FD_INODE =>
      ip ← must (f_ip f);
      ilock ip ;;
      f ← getf i;
      '(r, _) ← readi ip (D_virt addr) (f_off f) (u32 n);
      when (0 <? r) (setf i (fun f => f <| f_off := u32 (f_off f + r) |>)) ;;
      iunlock ip ;;
      mret r
  | FD_NONE => panic "fileread"
  end.

(** [max]: three blocks. *)
Definition max_write : Z := Z.quot (LOGSIZE - 1 - 1 - 2) 2 * 512.
(** The loop of [filewrite] from [k] bytes written: where it stops. *)
Fixpoint filewrite_loop (fuel : nat) (i : nat) (ip : nat) (addr n k : Z) : M Z :=
  if k <? n then
    match fuel with
    | O => diverge
    | S fuel' =>
        let n1 := Z.min (n - k) max_write in
        begin_trans ;;
        ilock ip ;;
        f ← getf i;
        r ← writei ip (S_virt (u32 (addr + k))) (f_off f) (u32 n1);
        when (0 <? r) (setf i (fun f => f <| f_off := u32 (f_off f + r) |>)) ;;
        iunlock ip ;;
        commit_trans ;;
        if r <? 0 then mret k
        else if negb (r =? n1) then panic "short filewrite"
        else filewrite_loop fuel' i ip addr n (k + r)
    end
  else mret k.
Definition filewrite (i : nat) (addr n : Z) : M Z :=
  f ← getf i;
  if f_writable f =? 0 then mret (-1)
  else match f_type f with
  | FD_PIPE => pipewrite (f_pipe f) addr n
  | FD_INODE =>
      ip ← must (f_ip f);
      k ← filewrite_loop (Z.to_nat n) i ip addr n 0;
      mret (if k =? n then n else -1)
  | FD_NONE => panic "filewrite"
  end.

End File.
