(* ===== verification/Proc.v ===== *)
(** * Proc: creation and termination of processes, proc.c

    [allocproc], [userinit], [growproc], [fork], [clone], [exit], [texit], [wait]
    and [forkret], and the queue of processes of [thread_yield]. A process's
    trap frame and kernel context live on its kernel stack; they are the fields
    [p_tf] and [p_context]. The stack as [allocproc] lays it out, with the return
    address above the context, is in Swtch. *)
From S2P Require Import Prelude Memory CString State Spinlock Kalloc Consout Vm Sched Bio Log Inode Console Dir File.

(** The numbers of enum procstate. *)
Definition state_num (st : procstate) : Z :=
  match st with
  | UNUSED => 0 | EMBRYO => 1 | SLEEPING => 2 | RUNNABLE => 3 | RUNNING => 4 | ZOMBIE => 5
  end.
(** [safestrcpy(name, t, 16)] *)
Definition set_name (t : list Z) (p : proc) : proc :=
  p <| p_name ::= fun old => splice old 0 (safestrcpy t 16) |>.
(** The elements of an array that are not 0. *)
Definition truthy {A} (l : list (option A)) (k : nat) : option A := mjoin (l !! k).

(** ** The queue of processes

    struct queue2 (size, head, tail) and struct node2 (value, next) are words of
    the kernel's memory; an access through a null pointer is undefined. *)
Section Queue2.
Context `{Linker}.

(** [&ptable.proc[i]]: the table follows a lock of 52 bytes, and a struct proc
    has 132. *)
Definition proc_ptr (i : nat) : Z := kptable + 52 + 132 * Z.of_nat i.
Definition ptr_proc (v : Z) : option nat :=
  let d := v - (kptable + 52) in
  if (0 <=? d) && (d mod 132 =? 0) && (d / 132 <? Z.of_nat NPROC) then Some (Z.to_nat (d / 132))
  else None.

Definition kld (a off : Z) : M Z :=
  if a =? 0 then fault else gets (fun s => ld32 (mem s) (a + off)).
Definition kst (a off v : Z) : M unit :=
  if a =? 0 then fault else set_mem (fun m => st32 m (a + off) v).

Definition init_q2 (q : Z) : M unit := kst q 0 0 ;; kst q 4 0 ;; kst q 8 0.
Definition add_q2 (q v : Z) : M unit :=
  n ← kalloc2;
  kst n 4 0 ;;
  kst n 0 v ;;
  hd ← kld q 4;
  (if hd =? 0 then kst q 4 n else tl ← kld q 8; kst tl 4 n) ;;
  kst q 8 n ;;
  sz ← kld q 0;
  kst q 0 (sz + 1).
Definition empty_q2 (q : Z) : M bool := sz ← kld q 0; mret (sz =? 0).
Definition pop_q2 (q : Z) : M Z :=
  em ← empty_q2 q;
  if em : bool then mret 0
  else
    hd ← kld q 4;
    val ← kld hd 0;
    nx ← kld hd 4;
    kst q 4 nx ;;
    kfree2 hd ;;
    sz ← kld q 0;
    kst q 0 (sz - 1) ;;
    sz ← kld q 0;
    when (sz =? 0) (kst q 4 0 ;; kst q 8 0) ;;
    mret val.

(** The process a pointer refers to. *)
Definition deref_proc (v : Z) : M nat := must (ptr_proc v).

Definition thread_yield : M unit :=
  cur ← curproc;
  cprintf ("Curr %d%d%d" +:+ nl)
    [A_int (p_isthread cur); A_int (state_num (p_state cur)); A_int (p_pid cur)] ;;
  let pid := p_pid cur in
  ini ← gets initedQ;
  q ← gets thQ;
  when (negb (truth ini)) (init_q2 q ;; modify (fun s => s <| initedQ := u32 (initedQ s + 1) |>)) ;;
  h ← holding L_ptable;
  (if h : bool then cprintf (" DID NOT ACQUIRE" +:+ nl) []
   else acquire L_ptable ;; cprintf (" ACQUIRED" +:+ nl) []) ;;
  sz ← kld q 0;
  cprintf ("QUEUE SIZE_1 %d" +:+ nl) [A_int sz] ;;
  v ← pop_q2 q;
  i ← deref_proc v;
  p ← getp i;
  cur ← curproc;
  v ← (if p_pid p =? p_pid cur then pop_q2 q else mret v);
  i ← deref_proc v;
  p ← getp i;
  cprintf ("Before %d going to %d%d%d" +:+ nl)
    [A_int pid; A_int (p_isthread p); A_int (state_num (p_state p)); A_int (p_pid p)] ;;
  sz ← kld q 0;
  cprintf ("QUEUE SIZE_2 %d" +:+ nl) [A_int sz] ;;
  set_myproc (fun p => p <| p_state := RUNNABLE |>) ;;
  old ← myproc;
  add_q2 q (proc_ptr old) ;;
  set_cpu (fun c => c <| c_proc := Some i |>) ;;
  setp i (fun p => p <| p_state := RUNNING |>) ;;
  c ← gets kcpu;
  let intena := c_intena c in
  swtch ;;
  set_cpu (fun c => c <| c_intena := intena |>) ;;
  cprintf ("After %d" +:+ nl) [A_int pid] ;;
  h ← holding L_ptable;
  if h : bool then release L_ptable ;; cprintf ("RELEASED" +:+ nl) []
  else cprintf ("DID NOT RELEASE" +:+ nl) [].

End Queue2.

Section Proc.
Context `{Linker} `{DiskDriver}.

(** ** Creation *)

Definition allocproc : M (option nat) :=
  acquire L_ptable ;;
  r ← mfind (seq 0 NPROC) (fun i =>
    p ← getp i; mret (if decide (p_state p = UNUSED) then Some i else None));
  match r with
  | None => release L_ptable ;; mret None
  | Some i =>
      setp i (fun p => p <| p_state := EMBRYO |>) ;;
      pid ← gets nextpid;
      setp i (fun p => p <| p_pid := pid |>) ;;
      modify (fun s => s <| nextpid ::= Z.succ |>) ;;
      release L_ptable ;;
      ks ← kalloc;
      setp i (fun p => p <| p_kstack := ks |>) ;;
      if ks =? 0 then
        setp i (fun p => p <| p_state := UNUSED |>) ;; mret None
      else
        setp i (fun p => p <| p_context := Context 0 0 0 0 forkret_pc |>) ;;
        mret (Some i)
  end.

Definition SEG_user (seg : Z) : Z := Z.lor (Z.shiftl seg 3) DPL_USER.
Definition userinit : M unit :=
  r ← allocproc;
  modify (fun s => s <| initproc := r |>) ;;
  i ← must r;
  pgdir ← setupkvm;
  setp i (fun p => p <| p_pgdir := pgdir |>) ;;
  if pgdir =? 0 then panic "userinit: out of memory?"
  else
    inituvm pgdir initcode ;;
    setp i (fun p => p <| p_sz := PGSIZE |>) ;;
    setp i (fun p => p <| p_tf := tf0
      <| tf_cs := SEG_user SEG_UCODE |> <| tf_ds := SEG_user SEG_UDATA |>
      <| tf_es := SEG_user SEG_UDATA |> <| tf_ss := SEG_user SEG_UDATA |>
      <| tf_eflags := FL_IF |> <| tf_esp := PGSIZE |> <| tf_eip := 0 |> |>) ;;
    setp i (set_name (bytes_of_string "initcode")) ;;
    cwd ← namei [SLASH];
    setp i (fun p => p <| p_cwd := cwd |>) ;;
    setp i (fun p => p <| p_state := RUNNABLE |>).

Definition growproc (n : Z) : M Z :=
  i ← myproc;
  p ← getp i;
  let sz := p_sz p in
  sz ← (if 0 <? n then allocuvm (p_pgdir p) sz (u32 (sz + n))
        else if n <? 0 then deallocuvm (p_pgdir p) sz (u32 (sz + n))
        else mret sz);
  if negb (n =? 0) && (sz =? 0) then mret (-1)
  else
    setp i (fun p => p <| p_sz := sz |>) ;;
    switchuvm i ;;
    mret 0.

(** [for(i = 0; i < NOFILE; i++) if(proc->ofile[i]) np->ofile[i] = filedup(proc->ofile[i]);] *)
Definition dup_files (np : nat) : M unit :=
  mforeach (seq 0 NOFILE) (fun k =>
    cur ← curproc;
    match truthy (p_ofile cur) k with
    | Some f => g ← filedup f; setp np (fun p => p <| p_ofile ::= <[k := Some g]> |>)
    | None => mret tt
    end).

Definition fork : M Z :=
  r ← allocproc;
  match r with
  | None => mret (-1)
  | Some np =>
      me ← myproc;
      cur ← getp me;
      pgdir ← copyuvm (p_pgdir cur) (p_sz cur);
      setp np (fun p => p <| p_pgdir := pgdir |>) ;;
      if pgdir =? 0 then
        q ← getp np;
        kfree (p_kstack q) ;;
        setp np (fun p => p <| p_kstack := 0 |>) ;;
        setp np (fun p => p <| p_state := UNUSED |>) ;;
        mret (-1)
      else
        cur ← getp me;
        setp np (fun p => p <| p_sz := p_sz cur |>) ;;
        setp np (fun p => p <| p_parent := Some me |>) ;;
        setp np (fun p => p <| p_tf := p_tf cur |>) ;;
        setp np (fun p => p <| p_isthread := 0 |>) ;;
        setp np (fun p => p <| p_tf ::= fun tf => tf <| tf_eax := 0 |> |>) ;;
        dup_files np ;;
        cur ← getp me;
        c ← must (p_cwd cur);
        c ← idup c;
        setp np (fun p => p <| p_cwd := Some c |>) ;;
        q ← getp np;
        setp np (fun p => p <| p_state := RUNNABLE |>) ;;
        setp np (set_name (p_name cur)) ;;
        mret (p_pid q)
  end.

(** [while(pp->isthread == 1) pp = pp->parent;] More steps than processes
    would be a cycle. *)
Fixpoint thread_root (fuel : nat) (pp : nat) : M nat :=
  p ← getp pp;
  if p_isthread p =? 1 then
    match fuel with
    | O => diverge
    | S k => q ← must (p_parent p); thread_root k q
    end
  else mret pp.

Definition clone (stack size routine arg : Z) : M Z :=
  r ← allocproc;
  match r with
  | None => mret (-1)
  | Some np =>
      if negb (Z.rem stack PGSIZE =? 0) || (stack =? 0) || (routine =? 0) then mret (-1)
      else
        me ← myproc;
        cur ← getp me;
        setp np (fun p => p <| p_pgdir := p_pgdir cur |>) ;;
        setp np (fun p => p <| p_sz := p_sz cur |>) ;;
        setp np (fun p => p <| p_parent := Some me |>) ;;
        setp np (fun p => p <| p_tf := p_tf cur |>) ;;
        setp np (fun p => p <| p_isthread := 1 |>) ;;
        q ← getp np;
        let pid := p_pid q in
        pp ← thread_root NPROC me;
        setp np (fun p => p <| p_parent := Some pp |>) ;;
        dup_files np ;;
        setp np (fun p => p <| p_tf ::= fun tf => tf <| tf_eax := 0 |> |>) ;;
        let sp := u32 (stack + PGSIZE) in
        setp np (fun p => p <| p_tf ::= fun tf => tf <| tf_ebp := sp |> |>) ;;
        let sp := u32 (sp - 8) in
        q ← getp np;
        r ← copyout (p_pgdir q) sp (bytes32 0xffffffff ++ bytes32 arg);
        if r <? 0 then cprintf ("push arg fails" +:+ nl) [] ;; mret (-1)
        else
          setp np (fun p => p <| p_tf ::= fun tf => tf <| tf_eip := u32 routine |> |>) ;;
          setp np (fun p => p <| p_tf ::= fun tf => tf <| tf_esp := sp |> |>) ;;
          cur ← getp me;
          c ← must (p_cwd cur);
          c ← idup c;
          setp np (fun p => p <| p_cwd := Some c |>) ;;
          switchuvm np ;;
          acquire L_ptable ;;
          setp np (fun p => p <| p_state := RUNNABLE |>) ;;
          release L_ptable ;;
          cur ← getp me;
          setp np (set_name (p_name cur)) ;;
          mret pid
  end.

(** ** Termination *)

Definition close_files : M unit :=
  mforeach (seq 0 NOFILE) (fun fd =>
    cur ← curproc;
    match truthy (p_ofile cur) fd with
    | Some f => fileclose f ;; set_myproc (fun p => p <| p_ofile ::= <[fd := None]> |>)
    | None => mret tt
    end).

(** The start [exit] and [texit] share: close the files, drop the directory
    and wake the parent. *)
Definition exit_release : M unit :=
  me ← myproc;
  ini ← gets initproc;
  if decide (ini = Some me) then panic "init exiting"
  else
    close_files ;;
    cur ← curproc;
    c ← must (p_cwd cur);
    iput c ;;
    set_myproc (fun p => p <| p_cwd := None |>) ;;
    acquire L_ptable ;;
    cur ← curproc;
    wakeup1 (Ch_proc <$> p_parent cur).

Definition reparent (me : nat) (i : nat) : M unit :=
  p ← getp i;
  when (bool_decide (p_parent p = Some me))
    (ini ← gets initproc;
     setp i (fun p => p <| p_parent := ini |>) ;;
     when (bool_decide (p_state p = ZOMBIE)) (wakeup1 (Ch_proc <$> ini))).

Definition exit : M unit :=
  exit_release ;;
  me ← myproc;
  mforeach (seq 0 NPROC) (reparent me) ;;
  set_myproc (fun p => p <| p_state := ZOMBIE |>) ;;
  sched ;;
  panic "zombie exit".

Definition texit : M unit :=
  exit_release ;;
  set_myproc (fun p => p <| p_state := ZOMBIE |>) ;;
  sched ;;
  panic "zombie exit".

(** What [wait] does with the zombie child [i]. *)
Definition reap (i : nat) : M Z :=
  p ← getp i;
  kfree (p_kstack p) ;;
  setp i (fun p => p <| p_kstack := 0 |>) ;;
  when (negb (p_isthread p =? 1)) (freevm (p_pgdir p)) ;;
  setp i (fun p => p <| p_state := UNUSED |>) ;;
  setp i (fun p => p <| p_pid := 0 |>) ;;
  setp i (fun p => p <| p_parent := None |>) ;;
  setp i (fun p => p <| p_name ::= <[0%nat := 0]> |>) ;;
  setp i (fun p => p <| p_killed := 0 |>) ;;
  release L_ptable ;;
  mret (p_pid p).

(** The scan of the table: the pid of a reaped child, or [havekids]. *)
Fixpoint wait_scan (l : list nat) (me : nat) (havekids : bool) : M (Z + bool) :=
  match l with
  | [] => mret (inr havekids)
  | i :: l' =>
      p ← getp i;
      if negb (bool_decide (p_parent p = Some me)) then wait_scan l' me havekids
      else if decide (p_state p = ZOMBIE) then pid ← reap i; mret (inl pid)
      else wait_scan l' me true
  end.
Definition wait : M Z :=
  acquire L_ptable ;;
  mloop_sleep
    (me ← myproc;
     r ← wait_scan (seq 0 NPROC) me false;
     match r with
     | inl pid => mret (Some pid)
     | inr havekids =>
         cur ← curproc;
         if negb havekids || truth (p_killed cur) then
           release L_ptable ;; mret (Some (-1))
         else sleep (Ch_proc me) L_ptable ;; mret None
     end).

Definition forkret : M unit :=
  release L_ptable ;;
  f ← gets first;
  when (truth f) (modify (fun s => s <| first := 0 |>) ;; initlog).

End Proc.
