(* ===== verification/Exec.v ===== *)
(** * Exec: exec.c, and loaduvm of vm.c

    Building a process image from an ELF file: the program segments, the guard
    page and the stack with the arguments. *)
From S2P Require Import Prelude Memory CString State Spinlock Kalloc Consout Vm Sched Bio Log Inode Console Dir File Proc.

Definition ELF_MAGIC : Z := 0x464C457F.
Definition ELF_PROG_LOAD : Z := 1.
Definition elfhdr_size : Z := 52.
Definition proghdr_size : Z := 32.

(** The fields of struct elfhdr and struct proghdr that exec reads. *)
Record elfhdr := Elfhdr { e_magic : Z; e_entry : Z; e_phoff : Z; e_phnum : Z }.
Definition load_elfhdr (l : list Z) : elfhdr :=
  Elfhdr (le32 l 0) (le32 l 24) (le32 l 28) (le16 l 44).
Record proghdr := Proghdr { ph_type : Z; ph_off : Z; ph_vaddr : Z; ph_filesz : Z; ph_memsz : Z }.
Definition load_proghdr (l : list Z) : proghdr :=
  Proghdr (le32 l 0) (le32 l 4) (le32 l 8) (le32 l 16) (le32 l 20).

Section Exec.
Context `{Linker} `{DiskDriver}.

Fixpoint loaduvm_loop (fuel : nat) (pgdir addr : Z) (ip : nat) (offset sz i : Z) : M Z :=
  if i <? sz then
    match fuel with
    | O => diverge
    | S k =>
        pte ← walkpgdir pgdir (u32 (addr + i)) false;
        if pte =? 0 then panic "loaduvm: address should exist"
        else
          e ← gets (fun s => ld32 (mem s) pte);
          let pa := PTE_ADDR e in
          let n := if sz - i <? PGSIZE then sz - i else PGSIZE in
          '(r, _) ← readi ip (D_virt (p2v pa)) (u32 (offset + i)) n;
          if negb (r =? n) then mret (-1)
          else loaduvm_loop k pgdir addr ip offset sz (i + PGSIZE)
    end
  else mret 0.
Definition loaduvm (pgdir addr : Z) (ip : nat) (offset sz : Z) : M Z :=
  if negb (addr mod PGSIZE =? 0) then panic "loaduvm: addr must be page aligned"
  else loaduvm_loop (S (Z.to_nat (sz / PGSIZE))) pgdir addr ip offset sz 0.

(** [bad:] with [pgdir] 0 and [ip] [None] for null pointers. *)
Definition exec_bad (pgdir : Z) (ip : option nat) : M Z :=
  when (negb (pgdir =? 0)) (freevm pgdir) ;;
  match ip with Some i => iunlockput i | None => mret tt end ;;
  mret (-1).

(** The loop over the [k] program headers from [off]: the size of the image,
    or [None] for [goto bad]. *)
Fixpoint load_segments (k : nat) (ip : nat) (pgdir off sz : Z) : M (option Z) :=
  match k with
  | O => mret (Some sz)
  | S k' =>
      '(r, l) ← readi ip D_local (u32 off) proghdr_size;
      if negb (r =? proghdr_size) then mret None
      else
        let ph := load_proghdr l in
        if negb (ph_type ph =? ELF_PROG_LOAD) then
          load_segments k' ip pgdir (off + proghdr_size) sz
        else if ph_memsz ph <? ph_filesz ph then mret None
        else
          sz ← allocuvm pgdir sz (u32 (ph_vaddr ph + ph_memsz ph));
          if sz =? 0 then mret None
          else
            r ← loaduvm pgdir (ph_vaddr ph) ip (ph_off ph) (ph_filesz ph);
            if r <? 0 then mret None
            else load_segments k' ip pgdir (off + proghdr_size) sz
  end.

(** The loop that pushes the argument strings: the stack pointer and the
    pointers stored in [ustack], or [None]. *)
Fixpoint push_args (argv : list (list Z)) (argc : Z) (pgdir sp : Z) (acc : list Z) :
    M (option (Z * list Z)) :=
  match argv with
  | [] => mret (Some (sp, acc))
  | a :: argv' =>
      if Z.of_nat MAXARG <=? argc then mret None
      else
        let sp := Z.land (u32 (sp - (Z.of_nat (length a) + 1))) (u32 (Z.lnot 3)) in
        r ← copyout pgdir sp (a ++ [0]);
        if r <? 0 then mret None
        else push_args argv' (argc + 1) pgdir sp (acc ++ [sp])
  end.

(** The part of [path] after its last slash. *)
Fixpoint last_elem (path last : list Z) : list Z :=
  match path with
  | [] => last
  | c :: path' => last_elem path' (if c =? SLASH then path' else last)
  end.

(** From the stack on, once the file is closed. *)
Definition exec_stack (path : list Z) (argv : list (list Z)) (entry pgdir sz : Z) : M Z :=
  let sz := PGROUNDUP sz in
  sz ← allocuvm pgdir sz (u32 (sz + 2 * PGSIZE));
  if sz =? 0 then exec_bad pgdir None
  else
    set_myproc (fun p => p <| p_pstack := sz |>) ;;
    clearpteu pgdir (u32 (sz - 2 * PGSIZE)) ;;
    r ← push_args argv 0 pgdir sz [];
    match r with
    | None => exec_bad pgdir None
    | Some (sp, ptrs) =>
        let argc := Z.of_nat (length argv) in
        let ustack := [0xffffffff; argc; u32 (sp - (argc + 1) * 4)] ++ ptrs ++ [0] in
        let sp := u32 (sp - (3 + argc + 1) * 4) in
        r ← copyout pgdir sp (concat (map bytes32 ustack));
        if r <? 0 then exec_bad pgdir None
        else
          set_myproc (set_name (last_elem path path)) ;;
          me ← myproc;
          cur ← getp me;
          let oldpgdir := p_pgdir cur in
          setp me (fun p => p <| p_pgdir := pgdir |>) ;;
          setp me (fun p => p <| p_sz := sz |>) ;;
          setp me (fun p => p <| p_tf ::= fun tf => tf <| tf_eip := entry |> |>) ;;
          setp me (fun p => p <| p_tf ::= fun tf => tf <| tf_esp := sp |> |>) ;;
          switchuvm me ;;
          freevm oldpgdir ;;
          mret 0
    end.

Definition exec (path : list Z) (argv : list (list Z)) : M Z :=
  r ← namei path;
  match r with
  | None => mret (-1)
  | Some ip =>
      ilock ip ;;
      '(r, l) ← readi ip D_local 0 elfhdr_size;
      (* the comparison of exec is unsigned: -1 is not less *)
      if u32 r <? elfhdr_size then exec_bad 0 (Some ip)
      else
        let elf := load_elfhdr l in
        if negb (e_magic elf =? ELF_MAGIC) then exec_bad 0 (Some ip)
        else
          pgdir ← setupkvm;
          if pgdir =? 0 then exec_bad 0 (Some ip)
          else
            sz ← allocuvm pgdir 0 PGSIZE;
            if sz =? 0 then exec_bad pgdir (Some ip)
            else
              r ← load_segments (Z.to_nat (e_phnum elf)) ip pgdir (e_phoff elf) sz;
              match r with
              | None => exec_bad pgdir (Some ip)
              | Some sz => iunlockput ip ;; exec_stack path argv (e_entry elf) pgdir sz
              end
  end.

End Exec.
