(* ===== verification/Boot.v ===== *)
(** * Boot: the boot loader (bootmain.c)

    The registers of the drive are ports, and its status a sequence of answers. What
    the drive delivers for what its registers hold is a parameter. [None] is a loop
    that does not end: the drive never gets ready, or a pointer runs around. *)
From S2P Require Import Prelude Memory Exec.

Module Boot.
Definition SECTSIZE : Z := 512.
(** [polls] counts the times the status was read. *)
Record bst := Bst { bmem : gmap Z Z; ports : gmap Z Z; polls : nat }.
#[export] Instance eta_bst : Eta bst := {| eta s := Bst (bmem s) (ports s) (polls s) |}.
#[export] Instance upd_bmem : Upd bmem := ltac:(field_update bmem).
#[export] Instance upd_ports : Upd ports := ltac:(field_update ports).
#[export] Instance upd_polls : Upd polls := ltac:(field_update polls).

(** Bytes stored from [a] on, as the string instructions do it: the address runs around
    at the end of memory. *)
Fixpoint store (m : gmap Z Z) (a : Z) (l : list Z) : gmap Z Z :=
  match l with
  | [] => m
  | v :: l => store (stb m (u32 a) v) (u32 a + 1) l
  end.

Section Code.
(** The bytes the drive delivers on its data port, its registers being as given; the
    answers to the reads of its status; how often the status is read before a wait is
    given up. *)
Context (drive : gmap Z Z -> list Z) (answer : nat -> Z) (patience : nat).

Definition outb (port data : Z) (s : bst) : bst := s <| ports ::= <[port := u8 data]> |>.
Definition insl (dst cnt : Z) (s : bst) : bst :=
  s <| bmem ::= fun m => store m dst (take (Z.to_nat (4 * cnt)) (drive (ports s))) |>.

Fixpoint waitdisk_loop (fuel : nat) (s : bst) : option bst :=
  match fuel with
  | O => None
  | S k =>
      let v := answer (polls s) in
      let s := s <| polls ::= S |> in
      if negb (Z.land v 0xC0 =? 0x40) then waitdisk_loop k s else Some s
  end.
Definition waitdisk (s : bst) : option bst := waitdisk_loop patience s.

Definition readsect (dst offset : Z) (s : bst) : option bst :=
  s ← waitdisk s;
  let s := outb 0x1F2 1 s in
  let s := outb 0x1F3 offset s in
  let s := outb 0x1F4 (Z.shiftr offset 8) s in
  let s := outb 0x1F5 (Z.shiftr offset 16) s in
  let s := outb 0x1F6 (Z.lor (Z.shiftr offset 24) 0xE0) s in
  let s := outb 0x1F7 0x20 s in
  s ← waitdisk s;
  Some (insl dst (SECTSIZE / 4) s).

Fixpoint readseg_loop (fuel : nat) (pa epa offset : Z) (s : bst) : option bst :=
  if pa <? epa then
    match fuel with
    | O => None
    | S k => s ← readsect pa offset s; readseg_loop k (u32 (pa + SECTSIZE)) epa (u32 (offset + 1)) s
    end
  else Some s.
Definition readseg (pa count offset : Z) (s : bst) : option bst :=
  let epa := u32 (pa + count) in
  let pa := u32 (pa - offset mod SECTSIZE) in
  let offset := u32 (offset / SECTSIZE + 1) in
  readseg_loop (S (Z.to_nat (epa / SECTSIZE))) pa epa offset s.

(** The loop over the program headers in memory. *)
Fixpoint load_loop (fuel : nat) (ph eph : Z) (s : bst) : option bst :=
  if ph <? eph then
    match fuel with
    | O => None
    | S k =>
        let pa := ld32 (bmem s) (ph + 12) in
        s ← readseg pa (ld32 (bmem s) (ph + 16)) (ld32 (bmem s) (ph + 4)) s;
        let filesz := ld32 (bmem s) (ph + 16) in
        let memsz := ld32 (bmem s) (ph + 20) in
        let s := if filesz <? memsz
                 then s <| bmem ::= fun m => store m (u32 (pa + filesz)) (replicate (Z.to_nat (memsz - filesz)) 0) |>
                 else s in
        load_loop k (u32 (ph + proghdr_size)) eph s
    end
  else Some s.

(** [Some entry] is a jump to the kernel, [None] a return to bootasm.S. *)
Definition bootmain (s : bst) : option (option Z * bst) :=
  let elf := 0x10000 in
  s ← readseg elf 4096 0 s;
  if negb (ld32 (bmem s) elf =? ELF_MAGIC) then Some (None, s)
  else
    let ph := u32 (elf + ld32 (bmem s) (elf + 28)) in
    let phnum := ldb (bmem s) (elf + 44) + 256 * ldb (bmem s) (elf + 45) in
    s ← load_loop (Z.to_nat phnum) ph (u32 (ph + phnum * proghdr_size)) s;
    Some (Some (ld32 (bmem s) (elf + 24)), s).
End Code.
End Boot.
Import Boot.

(** ** What the loader does *)

(** The block address in the registers of the drive. *)
Definition lba (r : gmap Z Z) : Z :=
  default 0 (r !! 0x1F3) + 256 * default 0 (r !! 0x1F4) + 65536 * default 0 (r !! 0x1F5) + 16777216 * (default 0 (r !! 0x1F6) mod 16).
(** The registers hold a command to read one block. *)
Definition reads_one (r : gmap Z Z) : Prop :=
  r !! 0x1F2 = Some 1 /\ r !! 0x1F7 = Some 0x20 /\ default 0 (r !! 0x1F6) / 16 = 14.

Lemma ldb_store m a l b : 0 <= a -> a + Z.of_nat (length l) <= 4294967296 ->
  ldb (store m a l) b = if decide (a <= b < a + Z.of_nat (length l)) then u8 (l !!! Z.to_nat (b - a)) else ldb m b.
Proof.
  intros H0 H1. rewrite <- ldb_stbytes. f_equal. revert m a H0 H1. induction l as [|v l IH]; intros m a H0 H1; [done|].
  cbn [store stbytes length] in *. rewrite u32_small by lia. apply IH; lia.
Qed.

(** The end of what a read of the range from [lo] up to [hi] writes. *)
Definition sect_end (lo hi : Z) : Z := lo + 512 * ((hi - lo + 511) / 512).
(** A segment as a program header describes it; what loading it writes; how much of it
    counts. *)
Record seg := Seg { sg_off : Z; sg_paddr : Z; sg_filesz : Z; sg_memsz : Z }.
Definition seg_lo (g : seg) : Z := sg_paddr g - sg_off g mod 512.
Definition seg_hi (g : seg) : Z := Z.max (sect_end (seg_lo g) (sg_paddr g + sg_filesz g)) (sg_paddr g + sg_memsz g).
Definition seg_size (g : seg) : Z := Z.max (sg_filesz g) (sg_memsz g).
(** Loading the segment stays inside memory, and off the page with the headers. *)
Record seg_ok (g : seg) : Prop := {
  so_lo : 0 <= seg_lo g;
  so_hi : seg_hi g <= 4294967295;
  so_apart : seg_hi g <= 0x10000 \/ 0x11000 <= seg_lo g;
}.
(** Loading [h] leaves [g]. *)
Definition seg_before (g h : seg) : Prop := seg_hi h <= sg_paddr g \/ sg_paddr g + seg_size g <= seg_lo h.

Section Loader.
Context (drive : gmap Z Z -> list Z) (answer : nat -> Z) (patience : nat) (sector : Z -> list Z).
Hypothesis (Hdrive : forall r, reads_one r -> drive r = sector (lba r)).
Hypothesis (Hready : forall n, exists m, (n <= m < n + patience)%nat /\ Z.land (answer m) 0xC0 = 0x40).
Hypothesis (Hsector : forall n, length (sector n) = 512%nat).

(** The byte at offset [i] of the kernel, which starts at sector 1. *)
Definition kernb (i : Z) : Z := u8 (sector (i / 512 + 1) !!! Z.to_nat (i mod 512)).
Definition kern32 (i : Z) : Z := kernb i + 256 * kernb (i + 1) + 65536 * kernb (i + 2) + 16777216 * kernb (i + 3).

Lemma waitdisk_run s : exists n, waitdisk answer patience s = Some (s <| polls := n |>).
Proof.
  unfold waitdisk. destruct (Hready (polls s)) as (m & Hm & E). assert (exists d, m = (polls s + d)%nat /\ (d < patience)%nat) as (d & Em & Hd) by (exists (m - polls s)%nat; lia).
  clear Hm. revert s m Em E. generalize dependent d. clear -drive. induction patience as [|k IH]; intros d Hd s m Em E; [lia|]. cbn [waitdisk_loop].
  destruct (negb _) eqn:En; [|by exists (S (polls s))]. destruct d as [|d].
  - rewrite Nat.add_0_r in Em. subst m. by rewrite E in En.
  - destruct (IH d ltac:(lia) (s <| polls ::= S |>) m) as [n ->]; [rsimpl; lia|done|]. by exists n.
Qed.
Lemma lor_high h : 0 <= h < 16 -> Z.lor h 0xE0 = h + 0xE0.
Proof. intros H. rewrite Z.lor_comm, (lor_low 4) by done. lia. Qed.
Lemma readsect_run dst off s : 0 <= dst -> dst + 512 <= 4294967296 -> 0 <= off < 268435456 ->
  exists s', readsect drive answer patience dst off s = Some s' /\
    forall a, ldb (bmem s') a = if decide (dst <= a < dst + 512) then u8 (sector off !!! Z.to_nat (a - dst)) else ldb (bmem s) a.
Proof.
  intros H0 H1 Hoff. unfold readsect. destruct (waitdisk_run s) as [n ->]. cbn [mbind option_bind].
  match goal with |- context [waitdisk _ _ ?x] => set (s1 := x); destruct (waitdisk_run s1) as [n1 ->] end. cbn [mbind option_bind].
  eexists. split; [reflexivity|]. intros a. unfold insl. rsimpl.
  assert (0 <= Z.shiftr off 24 < 16) as Hh by (rewrite Z.shiftr_div_pow2 by lia; mlia).
  assert (ports s1 = <[0x1F7 := 0x20]> (<[0x1F6 := Z.shiftr off 24 + 0xE0]> (<[0x1F5 := u8 (Z.shiftr off 16)]> (<[0x1F4 := u8 (Z.shiftr off 8)]> (<[0x1F3 := u8 off]> (<[0x1F2 := 1]> (ports s))))))) as Ep.
  { unfold s1, outb. rsimpl. rewrite lor_high by done. rewrite (u8_small (_ + 0xE0)) by lia. done. }
  rewrite Ep. rewrite Hdrive.
  - assert (lba (<[0x1F7 := 0x20]> (<[0x1F6 := Z.shiftr off 24 + 0xE0]> (<[0x1F5 := u8 (Z.shiftr off 16)]> (<[0x1F4 := u8 (Z.shiftr off 8)]> (<[0x1F3 := u8 off]> (<[0x1F2 := 1]> (ports s))))))) = off) as ->.
    { unfold lba. simplify_map_eq. rewrite !Z.shiftr_div_pow2 by lia. mlia. }
    change (Z.to_nat (4 * (SECTSIZE / 4))) with 512%nat. rewrite take_ge by (by rewrite Hsector). rewrite ldb_store by (rewrite ?Hsector; lia). rewrite Hsector. done.
  - unfold reads_one. simplify_map_eq. split; [done|]. split; [done|]. mlia.
Qed.


Lemma readseg_loop_run fuel lo hi k s :
  0 <= lo -> 0 <= k -> sect_end lo hi <= 4294967295 -> k + (hi - lo + 511) / 512 <= 268435455 -> (hi - lo + 511) / 512 <= Z.of_nat fuel ->
  exists s', readseg_loop drive answer patience fuel lo hi (k + 1) s = Some s' /\
    forall a, ldb (bmem s') a = if decide (lo <= a < sect_end lo hi) then kernb (512 * k + (a - lo)) else ldb (bmem s) a.
Proof.
  revert lo k s. induction fuel as [|fuel IH]; intros lo k s H0 Hk He Hs Hf; cbn [readseg_loop]; destruct (Z.ltb_spec lo hi) as [Hlt|Hge].
  - exfalso. Z.to_euclidean_division_equations; lia.
  - exists s. split; [done|]. intros a. rewrite decide_False; [done|]. unfold sect_end. Z.to_euclidean_division_equations; lia.
  - assert ((hi - (lo + 512) + 511) / 512 = (hi - lo + 511) / 512 - 1) as Eq by (Z.to_euclidean_division_equations; lia).
    assert (1 <= (hi - lo + 511) / 512) as H1 by (Z.to_euclidean_division_equations; lia).
    unfold sect_end in *. destruct (readsect_run lo (k + 1) s) as (s1 & -> & E1); [lia..|]. cbn [mbind option_bind].
    unfold SECTSIZE. rewrite !u32_small by lia. destruct (IH (lo + 512) (k + 1) s1) as (s2 & E2 & Hm); [lia..|]. rewrite E2. exists s2. split; [done|].
    intros a. rewrite Hm, E1, Eq. repeat case_decide; try lia.
    + f_equal. lia.
    + unfold kernb. replace ((512 * k + (a - lo)) / 512) with k by (Z.to_euclidean_division_equations; lia).
      do 3 f_equal. Z.to_euclidean_division_equations; lia.
  - exists s. split; [done|]. intros a. rewrite decide_False; [done|]. unfold sect_end. Z.to_euclidean_division_equations; lia.
Qed.
Lemma readseg_run pa count off s :
  off mod 512 <= pa -> 0 <= count -> sect_end (pa - off mod 512) (pa + count) <= 4294967295 -> 0 <= off < 4294967296 ->
  exists s', readseg drive answer patience pa count off s = Some s' /\
    forall a, ldb (bmem s') a = if decide (pa - off mod 512 <= a < sect_end (pa - off mod 512) (pa + count)) then kernb (off + (a - pa)) else ldb (bmem s) a.
Proof.
  intros H0 Hc He Ho. assert (pa + count <= sect_end (pa - off mod 512) (pa + count)) as Hge by (unfold sect_end; Z.to_euclidean_division_equations; lia).
  assert (0 <= off mod 512 < 512) as Hr by (apply Z.mod_pos_bound; lia).
  unfold readseg, SECTSIZE. rewrite !u32_small by (Z.to_euclidean_division_equations; lia).
  destruct (readseg_loop_run (S (Z.to_nat ((pa + count) / 512))) (pa - off mod 512) (pa + count) (off / 512) s) as (s' & -> & E); [lia|Z.to_euclidean_division_equations; lia|done|unfold sect_end in He; Z.to_euclidean_division_equations; lia|Z.to_euclidean_division_equations; lia|].
  exists s'. split; [done|]. intros a. rewrite E. case_decide; [|done]. f_equal. Z.to_euclidean_division_equations; lia.
Qed.

(** The segments that [n] program headers from offset [i] of the kernel describe. *)
Fixpoint segs (i : Z) (n : nat) : list seg :=
  match n with
  | O => []
  | S n => Seg (kern32 (i + 4)) (kern32 (i + 12)) (kern32 (i + 16)) (kern32 (i + 20)) :: segs (i + 32) n
  end.
(** The segment is in memory: its bytes of the file, then zeroes. *)
Definition seg_loaded (m : gmap Z Z) (g : seg) : Prop := forall k,
  0 <= k < seg_size g -> ldb m (sg_paddr g + k) = if k <? sg_filesz g then kernb (sg_off g + k) else 0.
(** The first page of the kernel is at 0x10000. *)
Definition headers (m : gmap Z Z) : Prop := forall i, 0 <= i < 4096 -> ldb m (0x10000 + i) = kernb i.

Lemma kernb_range i : 0 <= kernb i < 256.
Proof. apply u8_range. Qed.
Lemma kern32_range i : 0 <= kern32 i < 4294967296.
Proof. unfold kern32. pose proof (kernb_range i). pose proof (kernb_range (i + 1)). pose proof (kernb_range (i + 2)). pose proof (kernb_range (i + 3)). lia. Qed.
Lemma headers_ld32 m i : headers m -> 0 <= i <= 4092 -> ld32 m (0x10000 + i) = kern32 i.
Proof. intros Hh Hi. unfold ld32, kern32. rewrite <- !Z.add_assoc, !Hh by lia. done. Qed.
Lemma headers_kept m m' : headers m -> (forall a, 0x10000 <= a < 0x11000 -> ldb m' a = ldb m a) -> headers m'.
Proof. intros Hh E i Hi. rewrite E by lia. by apply Hh. Qed.

(** The byte at [a] after loading [g], when it was [d]. *)
Definition seg_byte (g : seg) (d a : Z) : Z :=
  if decide (sg_paddr g + sg_filesz g <= a < sg_paddr g + sg_memsz g) then 0
  else if decide (seg_lo g <= a < sect_end (seg_lo g) (sg_paddr g + sg_filesz g)) then kernb (sg_off g + (a - sg_paddr g)) else d.
Lemma seg_byte_in g d k : 0 <= sg_off g -> 0 <= k < seg_size g -> seg_byte g d (sg_paddr g + k) = if k <? sg_filesz g then kernb (sg_off g + k) else 0.
Proof.
  intros Ho Hk. unfold seg_byte, seg_size in *. destruct (Z.ltb_spec k (sg_filesz g)).
  - rewrite decide_False by lia. rewrite decide_True; [f_equal; lia|]. unfold sect_end, seg_lo. Z.to_euclidean_division_equations; lia.
  - by rewrite decide_True by lia.
Qed.
Lemma seg_byte_out g d a : 0 <= sg_filesz g -> ~ seg_lo g <= a < seg_hi g -> seg_byte g d a = d.
Proof.
  intros Hf Ha. assert (seg_lo g <= sg_paddr g) as Hl by (unfold seg_lo; Z.to_euclidean_division_equations; lia).
  unfold seg_byte, seg_hi in *. by rewrite !decide_False by lia.
Qed.
(** The part of the segment that is not in the file is cleared. *)
Lemma bss_zeroed g s s1 : seg_ok g ->
  (forall a, ldb (bmem s1) a = if decide (seg_lo g <= a < sect_end (seg_lo g) (sg_paddr g + sg_filesz g)) then kernb (sg_off g + (a - sg_paddr g)) else ldb (bmem s) a) ->
  0 <= sg_paddr g < 4294967296 -> 0 <= sg_filesz g < 4294967296 -> 0 <= sg_memsz g < 4294967296 ->
  forall a, ldb (bmem (if sg_filesz g <? sg_memsz g
    then s1 <| bmem ::= fun m => store m (u32 (sg_paddr g + sg_filesz g)) (replicate (Z.to_nat (sg_memsz g - sg_filesz g)) 0) |> else s1)) a = seg_byte g (ldb (bmem s) a) a.
Proof.
  intros Hg M1 Hp Hf Hm a. unfold seg_byte. rewrite <- M1. pose proof (so_hi _ Hg) as Hhi. unfold seg_hi in Hhi. destruct (Z.ltb_spec (sg_filesz g) (sg_memsz g)).
  - rsimpl. rewrite u32_small by lia. rewrite ldb_store; rewrite ?length_replicate; [|lia..]. repeat case_decide; try lia.
    by rewrite lookup_total_replicate_2 by lia.
  - rewrite decide_False by lia. done.
Qed.

Lemma load_loop_run n i s :
  headers (bmem s) -> 0 <= i -> i + 32 * Z.of_nat n <= 4096 -> Forall seg_ok (segs i n) -> ForallOrdPairs seg_before (segs i n) ->
  exists s', load_loop drive answer patience n (0x10000 + i) (0x10000 + i + 32 * Z.of_nat n) s = Some s' /\ headers (bmem s') /\
    Forall (seg_loaded (bmem s')) (segs i n) /\
    (forall a, Forall (fun g => ~ seg_lo g <= a < seg_hi g) (segs i n) -> ldb (bmem s') a = ldb (bmem s) a).
Proof.
  revert i s. induction n as [|n IH]; intros i s Hh Hi Hn Hok Hord; cbn [load_loop].
  { rewrite (proj2 (Z.ltb_ge _ _)) by lia. exists s. split; [done|]. split; [done|]. split; [constructor|done]. }
  rewrite (proj2 (Z.ltb_lt _ _)) by lia. cbn [segs] in *. set (g := Seg _ _ _ _) in *.
  inversion_clear Hok as [|? ? Hg Hok']. inversion_clear Hord as [|? ? Hb Hord'].
  rewrite <- !Z.add_assoc, !headers_ld32 by (done || lia).
  destruct (readseg_run (sg_paddr g) (sg_filesz g) (sg_off g) s) as (s1 & E1 & M1);
    [pose proof (so_lo _ Hg); unfold seg_lo in *; lia|apply kern32_range|pose proof (so_hi _ Hg); unfold seg_hi, seg_lo in *; lia|apply kern32_range|].
  cbn [g sg_paddr sg_filesz sg_off] in E1. rewrite E1. cbn [mbind option_bind].
  assert (headers (bmem s1)) as Hh1.
  { apply (headers_kept (bmem s)); [done|]. intros a Ha. rewrite M1. rewrite decide_False; [done|]. pose proof (so_apart _ Hg). unfold seg_hi, seg_lo in *. lia. }
  rewrite !headers_ld32 by (done || lia). set (s2 := if _ <? _ then _ else s1).
  assert (forall a, ldb (bmem s2) a = seg_byte g (ldb (bmem s) a) a) as M2 by exact (bss_zeroed g s s1 Hg M1 (kern32_range _) (kern32_range _) (kern32_range _)).
  destruct (IH (i + 32) s2) as (s3 & E3 & Hh3 & Hl3 & Hk3); [|lia|lia|done|done|].
  { apply (headers_kept (bmem s)); [done|]. intros a Ha. rewrite M2. apply seg_byte_out; [apply kern32_range|]. pose proof (so_apart _ Hg). lia. }
  unfold proghdr_size. rewrite u32_small by lia.
  match goal with |- context [load_loop _ _ _ n ?x ?y _] => replace x with (0x10000 + (i + 32)) by lia; replace y with (0x10000 + (i + 32) + 32 * Z.of_nat n) by lia end.
  rewrite E3.
  exists s3. split; [done|]. split; [done|]. split; [constructor; [|done]|].
  - intros k Hk. rewrite Hk3, M2; [apply seg_byte_in; [apply kern32_range|done]|]. eapply Forall_impl; [exact Hb|]. intros h Hgh. unfold seg_before in Hgh. lia.
  - intros a Ha. rewrite Forall_cons in Ha. destruct Ha as [Ha1 Ha2]. rewrite Hk3 by done. rewrite M2. apply seg_byte_out; [apply kern32_range|done].
Qed.
Lemma header_read s : exists s1, readseg drive answer patience 0x10000 4096 0 s = Some s1 /\ headers (bmem s1) /\
  forall a, ~ 0x10000 <= a < 0x11000 -> ldb (bmem s1) a = ldb (bmem s) a.
Proof.
  destruct (readseg_run 0x10000 4096 0 s) as (s1 & E & M); [done..|]. change (sect_end _ _) with 0x11000 in M. change (0x10000 - 0 mod 512) with 0x10000 in M.
  exists s1. split; [done|]. split.
  - intros i Hi. rewrite M, decide_True by lia. f_equal. lia.
  - intros a Ha. by rewrite M, decide_False.
Qed.
Lemma bootmain_refuses s : kern32 0 <> ELF_MAGIC -> exists s', bootmain drive answer patience s = Some (None, s').
Proof.
  intros Hm. unfold bootmain. destruct (header_read s) as (s1 & -> & Hh & _). cbn [mbind option_bind].
  pose proof (headers_ld32 _ 0 Hh ltac:(lia)) as E0. change (0x10000 + 0) with 0x10000 in E0. rewrite E0, (proj2 (Z.eqb_neq _ _) Hm). by exists s1.
Qed.

(** C17. bootmain, on a drive that answers, loads an ELF kernel and jumps to its entry
    point: every byte of a segment that is in the file is at its physical address, the
    rest of the segment is zero, and no byte is changed but in the sectors read. The
    reads are of whole sectors; the segments are to be such that those of a later one
    do not reach into an earlier one, and none into the page with the headers. *)
Theorem bootmain_loads s (n := Z.to_nat (kernb 44 + 256 * kernb 45)) (l := segs (kern32 28) n)
  (Hmagic : kern32 0 = ELF_MAGIC) (Hpage : kern32 28 + 32 * Z.of_nat n <= 4096)
  (Hok : Forall seg_ok l) (Hord : ForallOrdPairs seg_before l) :
  exists s', bootmain drive answer patience s = Some (Some (kern32 24), s') /\
    Forall (seg_loaded (bmem s')) l /\
    (forall a, ~ 0x10000 <= a < 0x11000 -> Forall (fun g => ~ seg_lo g <= a < seg_hi g) l -> ldb (bmem s') a = ldb (bmem s) a).
Proof.
  unfold bootmain. destruct (header_read s) as (s1 & -> & Hh & Hk). cbn [mbind option_bind].
  pose proof (headers_ld32 _ 0 Hh ltac:(lia)) as E0. change (0x10000 + 0) with 0x10000 in E0. rewrite E0, Hmagic. cbn [negb Z.eqb ELF_MAGIC Pos.eqb].
  rewrite headers_ld32, !Hh by (done || lia). pose proof (kern32_range 28). pose proof (kernb_range 44). pose proof (kernb_range 45).
  unfold proghdr_size. rewrite !u32_small by lia.
  destruct (load_loop_run n (kern32 28) s1 Hh ltac:(lia) Hpage Hok Hord) as (s2 & E & Hh2 & Hl & Hk2).
  replace (kernb 44 + 256 * kernb 45) with (Z.of_nat n) in * by lia. rewrite Nat2Z.id, (Z.mul_comm (Z.of_nat n) 32), E. cbn [mbind option_bind].
  rewrite headers_ld32 by (done || lia). exists s2. split; [done|]. split; [done|]. intros a Ha Hf. rewrite Hk2 by done. by apply Hk.
Qed.
End Loader.

(** A kernel with two segments. *)
Definition tiny_header : list Z :=
  bytes32 ELF_MAGIC ++ replicate 20 0 ++ bytes32 0x10000C ++ bytes32 52 ++ replicate 12 0 ++ bytes16 2 ++ replicate 6 0 ++
  (bytes32 1 ++ bytes32 4096 ++ bytes32 0 ++ bytes32 0x100000 ++ bytes32 3 ++ bytes32 5 ++ replicate 8 0) ++
  (bytes32 1 ++ bytes32 4100 ++ bytes32 0 ++ bytes32 0x100804 ++ bytes32 2 ++ bytes32 2 ++ replicate 8 0).
Definition tiny_sector (n : Z) : list Z :=
  if n =? 1 then tiny_header ++ replicate 396 0 else if n =? 9 then [1; 2; 3; 4; 5; 6] ++ replicate 506 7 else replicate 512 0.
Lemma tiny_segs : segs tiny_sector (kern32 tiny_sector 28) (Z.to_nat (kernb tiny_sector 44 + 256 * kernb tiny_sector 45)) = [Seg 4096 0x100000 3 5; Seg 4100 0x100804 2 2].
Proof. vm_compute. reflexivity. Qed.
Lemma bootmain_loads_witness : exists s',
  bootmain (fun r => tiny_sector (lba r)) (fun n => if Nat.even n then 0x80 else 0x40) 2 (Bst ∅ ∅ 0) = Some (Some 0x10000C, s') /\
  ldb (bmem s') 0x100002 = 3 /\ ldb (bmem s') 0x100003 = 0 /\ ldb (bmem s') 0x100804 = 5.
Proof.
  assert (forall r, reads_one r -> (fun r => tiny_sector (lba r)) r = tiny_sector (lba r)) as H1 by reflexivity.
  assert (forall n, exists m, (n <= m < n + 2)%nat /\ Z.land (if Nat.even m then 0x80 else 0x40) 0xC0 = 0x40) as H2.
  { intros n. destruct (Nat.even n) eqn:En; [exists (S n); split; [lia|]; by rewrite Nat.even_succ, <- Nat.negb_even, En|exists n; split; [lia|by rewrite En]]. }
  assert (forall n, length (tiny_sector n) = 512%nat) as H3 by (intros n; unfold tiny_sector; by repeat case_match).
  pose proof (bootmain_loads (fun r => tiny_sector (lba r)) (fun n => if Nat.even n then 0x80 else 0x40) 2 tiny_sector H1 H2 H3 (Bst ∅ ∅ 0)) as B.
  cbv zeta in B. rewrite tiny_segs in B. destruct B as (s' & E & Hl & _).
  - vm_compute. reflexivity.
  - vm_compute. discriminate.
  - repeat constructor; vm_compute; discriminate || (right; discriminate).
  - apply FOP_cons; [apply Forall_singleton; right; vm_compute; discriminate|]. apply FOP_cons; constructor.
  - assert (kern32 tiny_sector 24 = 0x10000C) as E24 by (vm_compute; reflexivity). rewrite E24 in E.
    apply Forall_cons in Hl as [L1 Hl]. apply Forall_cons in Hl as [L2 _].
    exists s'. split; [exact E|]. pose proof (L1 2 ltac:(split; vm_compute; [discriminate|reflexivity])) as A. pose proof (L1 3 ltac:(split; vm_compute; [discriminate|reflexivity])) as B. pose proof (L2 0 ltac:(split; vm_compute; [discriminate|reflexivity])) as C.
    change (sg_paddr (Seg 4096 0x100000 3 5) + 2) with 0x100002 in A. change (sg_paddr (Seg 4096 0x100000 3 5) + 3) with 0x100003 in B.
    change (sg_paddr (Seg 4100 0x100804 2 2) + 0) with 0x100804 in C. rewrite A, B, C. split; [vm_compute; reflexivity|]. split; vm_compute; reflexivity.
Defined.
