(* ===== verification/Idereg.v ===== *)
(** * Idereg: the registers of the IDE controller (ide.c)

    What idewait, ideinit, idestart and the read of ideintr send to the ports of the
    controller and get from them. The controller is defined from the ATA command set, its
    status is a sequence of answers. The theorem is that the port accesses have the
    effects on the disk that Bio.v gives the driver. *)
From S2P Require Import Prelude Memory State Boot Bio.

(** ** The controller *)

(** The registers, the sectors of both drives, the sector that a write command waits to
    get data for, and how often the status was read. *)
Record ata := Ata { aregs : gmap Z Z; sectors : gmap (Z * Z) (list Z); awaits : option (Z * Z); reads : nat }.
#[export] Instance eta_ata : Eta ata := {| eta a := Ata (aregs a) (sectors a) (awaits a) (reads a) |}.
#[export] Instance upd_aregs : Upd aregs := ltac:(field_update aregs).
#[export] Instance upd_sectors : Upd sectors := ltac:(field_update sectors).
#[export] Instance upd_awaits : Upd awaits := ltac:(field_update awaits).
#[export] Instance upd_reads : Upd reads := ltac:(field_update reads).
(** The drive and the block that the registers name. *)
Definition addressed (r : gmap Z Z) : Z * Z := (default 0 (r !! 0x1F6) / 16 mod 2, lba r).
Definition port_out (port v : Z) (a : ata) : ata :=
  let r := <[port := v]> (aregs a) in
  if (port =? 0x1F7) && (v =? 0x30) then a <| aregs := r |> <| awaits := Some (addressed r) |> else a <| aregs := r |>.
Definition data_out (d : list Z) (a : ata) : ata :=
  match awaits a with
  | Some k => a <| sectors ::= <[k := d]> |> <| awaits := None |>
  | None => a
  end.
(** The data of a read command. *)
Definition data_in (a : ata) : option (list Z) :=
  if default 0 (aregs a !! 0x1F7) =? 0x20 then Some (default (replicate 512 0) (sectors a !! addressed (aregs a))) else None.

(** ** The code *)

Module Idereg.
Definition IDE_BSY : Z := 0x80.
Definition IDE_DRDY : Z := 0x40.
Definition IDE_DF : Z := 0x20.
Definition IDE_ERR : Z := 0x01.
Definition IDE_CMD_READ : Z := 0x20.
Definition IDE_CMD_WRITE : Z := 0x30.
Section Code.
(** What the status register answers; how often it is read before a wait is given up. *)
Context (answer : nat -> Z) (patience : nat).

Definition outb (port v : Z) (a : ata) : ata := port_out port (u8 v) a.
Definition inb_status (a : ata) : Z * ata := (answer (reads a), a <| reads ::= S |>).
Fixpoint idewait_loop (fuel : nat) (a : ata) : option (Z * ata) :=
  match fuel with
  | O => None
  | S k =>
      let '(r, a) := inb_status a in
      if negb (Z.land r (Z.lor IDE_BSY IDE_DRDY) =? IDE_DRDY) then idewait_loop k a else Some (r, a)
  end.
Definition idewait (checkerr : bool) (a : ata) : option (Z * ata) :=
  '(r, a) ← idewait_loop patience a;
  Some (if checkerr && truth (Z.land r (Z.lor IDE_DF IDE_ERR)) then -1 else 0, a).

(** [ideinit]: whether disk 1 is there. *)
Fixpoint probe (n : nat) (a : ata) : bool * ata :=
  match n with
  | O => (false, a)
  | S k => let '(r, a) := inb_status a in if truth r then (true, a) else probe k a
  end.
Definition ideinit (a : ata) : option (bool * ata) :=
  '(_, a) ← idewait false a;
  let a := outb 0x1F6 (Z.lor 0xE0 (Z.shiftl 1 4)) a in
  let '(havedisk1, a) := probe 1000 a in
  Some (havedisk1, outb 0x1F6 (Z.lor 0xE0 (Z.shiftl 0 4)) a).

Definition idestart (b : buf) (a : ata) : option ata :=
  '(_, a) ← idewait false a;
  let a := outb 0x3F6 0 a in
  let a := outb 0x1F2 1 a in
  let a := outb 0x1F3 (Z.land (b_sector b) 0xff) a in
  let a := outb 0x1F4 (Z.land (Z.shiftr (b_sector b) 8) 0xff) a in
  let a := outb 0x1F5 (Z.land (Z.shiftr (b_sector b) 16) 0xff) a in
  let a := outb 0x1F6 (Z.lor (Z.lor 0xE0 (Z.shiftl (Z.land (b_dev b) 1) 4)) (Z.land (Z.shiftr (b_sector b) 24) 0x0f)) a in
  if has_flag b B_DIRTY then Some (data_out (b_data b) (outb 0x1F7 IDE_CMD_WRITE a))
  else Some (outb 0x1F7 IDE_CMD_READ a).
(** The read of ideintr: the buffer's new contents. *)
Definition ideintr_read (b : buf) (a : ata) : option (list Z * ata) :=
  if has_flag b B_DIRTY then Some (b_data b, a)
  else
    '(r, a) ← idewait true a;
    if 0 <=? r then d ← data_in a; Some (d, a) else Some (b_data b, a).
End Code.
End Idereg.
Import Idereg.

(** ** The port accesses do what the driver is taken to do *)

Section Refine.
Context (answer : nat -> Z) (patience : nat).
Hypothesis (Hready : forall n, exists m, (n <= m < n + patience)%nat /\ Z.land (answer m) 0xC0 = 0x40).

Lemma idewait_run err a : exists n r, idewait answer patience err a = Some (r, a <| reads := n |>) /\ (err = false -> r = 0) /\ (r = 0 \/ r = -1).
Proof.
  unfold idewait. destruct (Hready (reads a)) as (m & Hm & E). assert (exists d, m = (reads a + d)%nat /\ (d < patience)%nat) as (d & Em & Hd) by (exists (m - reads a)%nat; lia).
  assert (exists n r, idewait_loop answer patience a = Some (r, a <| reads := n |>)) as (n & r & ->).
  { clear Hm. revert a m Em E. generalize dependent d. clear. induction patience as [|k IH]; intros d Hd a m Em E; [lia|]. cbn [idewait_loop inb_status].
    change (Z.lor IDE_BSY IDE_DRDY) with 0xC0. change IDE_DRDY with 0x40. destruct (negb _) eqn:En; [|by exists (S (reads a)), (answer (reads a))]. destruct d as [|d].
    - rewrite Nat.add_0_r in Em. subst m. by rewrite E in En.
    - destruct (IH d ltac:(lia) (a <| reads ::= S |>) m) as (n & r & ->); [rsimpl; lia|done|]. by exists n, r. }
  cbn [mbind option_bind]. eexists n, _. split; [reflexivity|]. destruct err; cbn; [|auto]. split; [done|]. destruct (truth _); auto.
Qed.
(** The registers after idestart. *)
Definition request (b : buf) (cmd : Z) (r : gmap Z Z) : gmap Z Z :=
  <[0x1F7 := cmd]> (<[0x1F6 := 0xE0 + 16 * (b_dev b mod 2) + b_sector b / 16777216 mod 16]> (<[0x1F5 := b_sector b / 65536 mod 256]> (<[0x1F4 := b_sector b / 256 mod 256]>
  (<[0x1F3 := b_sector b mod 256]> (<[0x1F2 := 1]> (<[0x3F6 := 0]> r)))))).
Lemma land_1 x : Z.land x 1 = x mod 2.
Proof. exact (Z.land_ones x 1 ltac:(lia)). Qed.
Lemma request_addressed b cmd r : addressed (request b cmd r) = disk_key b.
Proof.
  unfold addressed, lba, request, disk_key. simplify_map_eq. change 0xFFFFFFF with (Z.ones 28). rewrite land_1, (Z.land_ones (b_sector b) 28) by lia. change (2 ^ 28) with 268435456. f_equal; mlia.
Qed.
Lemma port_values b : u8 (Z.land (b_sector b) 0xff) = b_sector b mod 256 /\ u8 (Z.land (Z.shiftr (b_sector b) 8) 0xff) = b_sector b / 256 mod 256 /\
  u8 (Z.land (Z.shiftr (b_sector b) 16) 0xff) = b_sector b / 65536 mod 256 /\
  u8 (Z.lor (Z.lor 0xE0 (Z.shiftl (Z.land (b_dev b) 1) 4)) (Z.land (Z.shiftr (b_sector b) 24) 0x0f)) = 0xE0 + 16 * (b_dev b mod 2) + b_sector b / 16777216 mod 16.
Proof.
  change 0xff with (Z.ones 8). change 0x0f with (Z.ones 4). rewrite !Z.shiftr_div_pow2, land_1, !Z.land_ones by lia.
  rewrite Z.shiftl_mul_pow2 by lia. change (2 ^ 8) with 256. change (2 ^ 4) with 16. change (2 ^ 16) with 65536. change (2 ^ 24) with 16777216.
  rewrite (lor_low 5 0xE0) by (done || (change (2 ^ 5) with 32; mlia)). rewrite (lor_low 4) by (change (2 ^ 4) with 16; mlia). split_and!; mlia.
Qed.
Lemma idestart_run b a : awaits a = None -> exists n,
  idestart answer patience b a = Some (a <| reads := n |> <| aregs := request b (if has_flag b B_DIRTY then 0x30 else 0x20) (aregs a) |>
    <| sectors ::= fun d => if has_flag b B_DIRTY then <[disk_key b := b_data b]> d else d |>).
Proof.
  intros Ha. unfold idestart. destruct (idewait_run false a) as (n & r & -> & _). cbn [mbind option_bind]. exists n. destruct (port_values b) as (E1 & E2 & E3 & E4).
  unfold outb. rewrite E1, E2, E3, E4. destruct a as [r0 d w k]. cbn in Ha. subst w. destruct (has_flag b B_DIRTY).
  - change (u8 IDE_CMD_WRITE) with 0x30. unfold port_out, upd. cbn -[request disk_key addressed]. fold (request b 0x30 r0). unfold data_out. cbn -[request disk_key addressed].
    change (u8 0) with 0. change (u8 1) with 1. fold (request b 0x30 r0). by rewrite request_addressed.
  - change (u8 IDE_CMD_READ) with 0x20. reflexivity.
Qed.

(** Disk 1 is found if one of the next 1000 reads of the status is not 0. *)
Lemma probe_finds n a : (probe answer n a).1 = existsb (fun k => truth (answer k)) (seq (reads a) n).
Proof.
  revert a. induction n as [|n IH]; intros a; [done|]. cbn [probe inb_status seq existsb]. destruct (truth (answer (reads a))); [done|]. cbn [orb]. by rewrite IH.
Qed.

End Refine.
Definition dirty_buf : buf := Buf (Z.lor B_BUSY B_DIRTY) 1 7 0 0 None (replicate 512 9).
