(* ===== verification/Syscall.v ===== *)
(** * Syscall: syscall.c, sysproc.c and sysfile.c

    Fetching and checking the arguments of system calls, the calls themselves
    and their dispatch. [None] stands for the return value -1 of the argument
    functions. Strings are passed on as the characters the check read. *)
From S2P Require Import Prelude Memory CString State Spinlock Kalloc Consout Vm Sched Bio Log Inode Console Dir File Proc Exec.

(** ** Arguments *)

Definition fetchint (addr : Z) : M (option Z) :=
  p ← curproc;
  if (p_sz p <=? addr) || (p_sz p <? u32 (addr + 4)) || (addr =? 0) then
    when (addr =? 0) (cprintf ("fetchint NULL ptr" +:+ nl) []) ;; mret None
  else v ← vld32 addr; mret (Some (s32 v)).

(** The characters from [s] up to the NUL, looking at [n] of them. *)
Fixpoint scan_string (n : nat) (s : Z) : M (option (list Z)) :=
  match n with
  | O => mret None
  | S n' =>
      c ← vldb s;
      if c =? 0 then mret (Some [])
      else r ← scan_string n' (s + 1); mret ((c ::.) <$> r)
  end.
Definition fetchstr (addr : Z) : M (option (list Z)) :=
  p ← curproc;
  if (p_sz p <=? addr) || (addr =? 0) then
    when (addr =? 0) (cprintf ("fetchstr NULL ptr" +:+ nl) []) ;; mret None
  else scan_string (Z.to_nat (p_sz p - addr)) addr.

Definition argint (n : Z) : M (option Z) :=
  p ← curproc; fetchint (u32 (tf_esp (p_tf p) + 4 + 4 * n)).
Definition argptr (n size : Z) : M (option Z) :=
  r ← argint n;
  match r with
  | None => mret None
  | Some i =>
      p ← curproc;
      let i := u32 i in
      if (p_sz p <=? i) || (p_sz p <? u32 (i + size)) || (i =? 0) then
        when (i =? 0) (cprintf ("argptr NULL ptr" +:+ nl) []) ;; mret None
      else mret (Some i)
  end.
Definition argstr (n : Z) : M (option (list Z)) :=
  r ← argint n;
  match r with None => mret None | Some addr => fetchstr (u32 addr) end.

(** [if(... < 0) return -1;] *)
Definition arg {A} (m : M (option A)) (k : A -> M Z) : M Z :=
  r ← m; match r with None => mret (-1) | Some a => k a end.

(** ** sysproc.c *)
Section Sys.
Context `{Linker} `{DiskDriver}.

Definition sys_fork : M Z := fork.
Definition sys_clone : M Z :=
  arg (argint 1) (fun size =>
    if size <=? 0 then mret (-1)
    else arg (argint 0) (fun stack => arg (argint 2) (fun routine => arg (argint 3) (fun a =>
      clone stack size routine a)))).
Definition sys_exit : M Z := exit ;; mret 0.
Definition sys_texit : M Z := texit ;; mret 0.
Definition sys_wait : M Z := wait.
Definition sys_kill : M Z := arg (argint 0) kill.
Definition sys_getpid : M Z := p ← curproc; mret (p_pid p).
Definition sys_sbrk : M Z :=
  arg (argint 0) (fun n =>
    p ← curproc;
    let addr := s32 (p_sz p) in
    r ← growproc n;
    mret (if r <? 0 then -1 else addr)).

(** The loop of [sys_sleep]: [true] when killed. *)
Definition sleep_ticks (ticks0 n : Z) : M bool :=
  mloop_sleep
    (t ← gets ticks;
     if u32 (t - ticks0) <? u32 n then
       p ← curproc;
       if truth (p_killed p) then mret (Some true)
       else sleep Ch_ticks L_ticks ;; mret None
     else mret (Some false)).
Definition sys_sleep : M Z :=
  arg (argint 0) (fun n =>
    acquire L_ticks ;;
    ticks0 ← gets ticks;
    killed ← sleep_ticks ticks0 n;
    release L_ticks ;;
    mret (if killed : bool then -1 else 0)).
Definition sys_uptime : M Z :=
  acquire L_ticks ;;
  xticks ← gets ticks;
  release L_ticks ;;
  mret (s32 xticks).
Definition sys_tsleep : M Z := tsleep ;; mret 0.
Definition sys_twakeup : M Z := arg (argint 0) (fun tid => twakeup tid ;; mret 0).
Definition sys_thread_yield : M Z :=
  thread_yield ;; cprintf ("Yielded_2" +:+ nl) [] ;; mret 0.
Definition sys_thread_yield3 : M Z := arg (argint 0) (fun tid => thread_yield3 tid ;; mret 0).

(** ** sysfile.c *)

Definition argfd (n : Z) : M (option (Z * nat)) :=
  r ← argint n;
  match r with
  | None => mret None
  | Some fd =>
      p ← curproc;
      if (fd <? 0) || (Z.of_nat NOFILE <=? fd) then mret None
      else match truthy (p_ofile p) (Z.to_nat fd) with
      | Some f => mret (Some (fd, f))
      | None => mret None
      end
  end.

Definition fdalloc (f : nat) : M (option Z) :=
  mfind (seq 0 NOFILE) (fun fd =>
    p ← curproc;
    match truthy (p_ofile p) fd with
    | Some _ => mret None
    | None => set_myproc (fun p => p <| p_ofile ::= <[fd := Some f]> |>) ;; mret (Some (Z.of_nat fd))
    end).

Definition sys_dup : M Z :=
  arg (argfd 0) (fun '(_, f) => arg (fdalloc f) (fun fd => filedup f ;; mret fd)).
Definition sys_read : M Z :=
  arg (argfd 0) (fun '(_, f) => arg (argint 2) (fun n => arg (argptr 1 n) (fun p => fileread f p n))).
Definition sys_write : M Z :=
  arg (argfd 0) (fun '(_, f) => arg (argint 2) (fun n => arg (argptr 1 n) (fun p => filewrite f p n))).
Definition sys_close : M Z :=
  arg (argfd 0) (fun '(fd, f) =>
    set_myproc (fun p => p <| p_ofile ::= <[Z.to_nat fd := None]> |>) ;;
    fileclose f ;;
    mret 0).
(** sizeof(struct stat) is 20. *)
Definition sys_fstat : M Z :=
  arg (argfd 0) (fun '(_, f) => arg (argptr 1 20) (fun st => filestat f st)).

Definition add_nlink (i : nat) (d : Z) : M unit :=
  seti i (fun ip => ip <| ip_nlink := s16 (ip_nlink ip + d) |>) ;; iupdate i.
Definition sys_link_bad (ip : nat) : M Z :=
  ilock ip ;; add_nlink ip (-1) ;; iunlockput ip ;; commit_trans ;; mret (-1).
Definition sys_link : M Z :=
  arg (argstr 0) (fun old => arg (argstr 1) (fun new => arg (namei old) (fun ip =>
    begin_trans ;;
    ilock ip ;;
    x ← geti ip;
    if ip_type x =? T_DIR then iunlockput ip ;; commit_trans ;; mret (-1)
    else
      add_nlink ip 1 ;;
      iunlock ip ;;
      r ← nameiparent new;
      match r with
      | None => sys_link_bad ip
      | Some (dp, name) =>
          ilock dp ;;
          y ← geti dp;
          x ← geti ip;
          r ← (if negb (ip_dev y =? ip_dev x) then mret (-1) else dirlink dp name (ip_inum x));
          if r <? 0 then iunlockput dp ;; sys_link_bad ip
          else
            iunlockput dp ;;
            iput ip ;;
            commit_trans ;;
            mret 0
      end))).

Fixpoint isdirempty_loop (fuel : nat) (dp : nat) (off : Z) : M bool :=
  ip ← geti dp;
  if off <? ip_size ip then
    match fuel with
    | O => diverge
    | S k =>
        '(r, l) ← readi dp D_local off dirent_size;
        if negb (r =? dirent_size) then panic "isdirempty: readi"
        else if negb (de_inum (load_dirent l) =? 0) then mret false
        else isdirempty_loop k dp (off + dirent_size)
    end
  else mret true.
Definition isdirempty (dp : nat) : M bool :=
  ip ← geti dp;
  isdirempty_loop (S (Z.to_nat (ip_size ip / dirent_size))) dp (2 * dirent_size).

Definition dot : list Z := [46].
Definition dotdot : list Z := [46; 46].
Definition sys_unlink_bad (dp : nat) : M Z := iunlockput dp ;; commit_trans ;; mret (-1).
Definition sys_unlink : M Z :=
  arg (argstr 0) (fun path => arg (nameiparent path) (fun '(dp, name) =>
    begin_trans ;;
    ilock dp ;;
    if (namecmp name dot =? 0) || (namecmp name dotdot =? 0) then sys_unlink_bad dp
    else
      r ← dirlookup dp name;
      match r with
      | None => sys_unlink_bad dp
      | Some (ip, off) =>
          ilock ip ;;
          x ← geti ip;
          if ip_nlink x <? 1 then panic "unlink: nlink < 1"
          else
            full ← (if ip_type x =? T_DIR then b ← isdirempty ip; mret (negb b) else mret false);
            if full : bool then iunlockput ip ;; sys_unlink_bad dp
            else
              r ← writei dp (S_local (replicate 16 0)) off dirent_size;
              if negb (r =? dirent_size) then panic "unlink: writei"
              else
                x ← geti ip;
                when (ip_type x =? T_DIR) (add_nlink dp (-1)) ;;
                iunlockput dp ;;
                add_nlink ip (-1) ;;
                iunlockput ip ;;
                commit_trans ;;
                mret 0
      end)).

Definition create_new (dp : nat) (name : list Z) (type major minor : Z) : M (option nat) :=
  y ← geti dp;
  ip ← ialloc (ip_dev y) type;
  ilock ip ;;
  seti ip (fun ip => ip <| ip_major := major |> <| ip_minor := minor |> <| ip_nlink := 1 |>) ;;
  iupdate ip ;;
  when (type =? T_DIR)
    (add_nlink dp 1 ;;
     x ← geti ip;
     y ← geti dp;
     r ← dirlink ip dot (ip_inum x);
     r ← (if r <? 0 then mret r else dirlink ip dotdot (ip_inum y));
     when (r <? 0) (panic "create dots")) ;;
  x ← geti ip;
  r ← dirlink dp name (ip_inum x);
  when (r <? 0) (panic "create: dirlink") ;;
  iunlockput dp ;;
  mret (Some ip).
Definition create (path : list Z) (type major minor : Z) : M (option nat) :=
  r ← nameiparent path;
  match r with
  | None => mret None
  | Some (dp, name) =>
      ilock dp ;;
      r ← dirlookup dp name;
      match r with
      | Some (ip, _) =>
          iunlockput dp ;;
          ilock ip ;;
          x ← geti ip;
          if (type =? T_FILE) && (ip_type x =? T_FILE) then mret (Some ip)
          else iunlockput ip ;; mret None
      | None => create_new dp name type major minor
      end
  end.

Definition O_RDONLY : Z := 0x000.
Definition O_WRONLY : Z := 0x001.
Definition O_RDWR : Z := 0x002.
Definition O_CREATE : Z := 0x200.

(** The locked inode [sys_open] opens. *)
Definition open_inode (path : list Z) (omode : Z) : M (option nat) :=
  if truth (Z.land omode O_CREATE) then
    begin_trans ;; ip ← create path T_FILE 0 0; commit_trans ;; mret ip
  else
    r ← namei path;
    match r with
    | None => mret None
    | Some ip =>
        ilock ip ;;
        x ← geti ip;
        if (ip_type x =? T_DIR) && negb (omode =? O_RDONLY) then iunlockput ip ;; mret None
        else mret (Some ip)
    end.
Definition sys_open : M Z :=
  arg (argstr 0) (fun path => arg (argint 1) (fun omode => arg (open_inode path omode) (fun ip =>
    f ← filealloc;
    match f with
    | None => iunlockput ip ;; mret (-1)
    | Some f =>
        fd ← fdalloc f;
        match fd with
        | None => fileclose f ;; iunlockput ip ;; mret (-1)
        | Some fd =>
            iunlock ip ;;
            setf f (fun f => f <| f_type := FD_INODE |> <| f_ip := Some ip |> <| f_off := 0 |>
              <| f_readable := b2z (negb (truth (Z.land omode O_WRONLY))) |>
              <| f_writable := b2z (truth (Z.land omode O_WRONLY) || truth (Z.land omode O_RDWR)) |>) ;;
            mret fd
        end
    end))).

Definition sys_mkdir : M Z :=
  begin_trans ;;
  path ← argstr 0;
  r ← (match path with None => mret None | Some path => create path T_DIR 0 0 end);
  match r with
  | None => commit_trans ;; mret (-1)
  | Some ip => iunlockput ip ;; commit_trans ;; mret 0
  end.

Definition sys_mknod : M Z :=
  begin_trans ;;
  path ← argstr 0;
  r ← (match path with
       | None => mret None
       | Some path =>
           major ← argint 1;
           match major with
           | None => mret None
           | Some major =>
               minor ← argint 2;
               match minor with
               | None => mret None
               | Some minor => create path T_DEV (s16 major) (s16 minor)
               end
           end
       end);
  match r with
  | None => commit_trans ;; mret (-1)
  | Some ip => iunlockput ip ;; commit_trans ;; mret 0
  end.

Definition sys_chdir : M Z :=
  arg (argstr 0) (fun path => arg (namei path) (fun ip =>
    ilock ip ;;
    x ← geti ip;
    if negb (ip_type x =? T_DIR) then iunlockput ip ;; mret (-1)
    else
      iunlock ip ;;
      p ← curproc;
      old ← must (p_cwd p);
      iput old ;;
      set_myproc (fun p => p <| p_cwd := Some ip |>) ;;
      mret 0)).

(** The argument vector at [uargv], from element [i] on; [n] are left. *)
Fixpoint fetch_argv (n : nat) (uargv i : Z) : M (option (list (list Z))) :=
  match n with
  | O => mret None
  | S n' =>
      r ← fetchint (u32 (uargv + 4 * i));
      match r with
      | None => mret None
      | Some uarg =>
          if u32 uarg =? 0 then mret (Some [])
          else
            r ← fetchstr (u32 uarg);
            match r with
            | None => mret None
            | Some a => rest ← fetch_argv n' uargv (i + 1); mret ((a ::.) <$> rest)
            end
      end
  end.
Definition sys_exec : M Z :=
  arg (argstr 0) (fun path => arg (argint 1) (fun uargv =>
    arg (fetch_argv MAXARG (u32 uargv) 0) (fun argv => exec path argv))).

Definition sys_pipe : M Z :=
  arg (argptr 0 8) (fun fd =>
    arg pipealloc (fun '(rf, wf) =>
      fd0 ← fdalloc rf;
      match fd0 with
      | None => fileclose rf ;; fileclose wf ;; mret (-1)
      | Some fd0 =>
          fd1 ← fdalloc wf;
          match fd1 with
          | None =>
              set_myproc (fun p => p <| p_ofile ::= <[Z.to_nat fd0 := None]> |>) ;;
              fileclose rf ;; fileclose wf ;; mret (-1)
          | Some fd1 => vst32 fd fd0 ;; vst32 (u32 (fd + 4)) fd1 ;; mret 0
          end
      end)).

(** ** Dispatch *)

(** The array [syscalls]. SYS_thread_yield and SYS_thread_yield3 are both 26:
    the later initialiser of the element counts. *)
Definition syscalls (num : Z) : option (M Z) :=
  nth (Z.to_nat num)
    [None; Some sys_fork; Some sys_exit; Some sys_wait; Some sys_pipe; Some sys_read;
     Some sys_kill; Some sys_exec; Some sys_fstat; Some sys_chdir; Some sys_dup;
     Some sys_getpid; Some sys_sbrk; Some sys_sleep; Some sys_uptime; Some sys_open;
     Some sys_write; Some sys_mknod; Some sys_unlink; Some sys_link; Some sys_mkdir;
     Some sys_close; Some sys_clone; Some sys_texit; Some sys_tsleep; Some sys_twakeup;
     Some sys_thread_yield3] None.
Definition set_eax (v : Z) : M unit :=
  set_myproc (fun p => p <| p_tf ::= fun tf => tf <| tf_eax := u32 v |> |>).
Definition syscall : M unit :=
  p ← curproc;
  let num := s32 (tf_eax (p_tf p)) in
  match (if 0 <? num then syscalls num else None) with
  | Some f => r ← f; set_eax r
  | None =>
      cprintf ("%d %s: unknown sys call %d" +:+ nl)
        [A_int (p_pid p); A_str (Some (cstr (p_name p))); A_int num] ;;
      set_eax (-1)
  end.

End Sys.
