(* ===== verification/Trap.v ===== *)
(** * Trap: trap.c, vectors.S and trapasm.S

    The interrupt descriptor table, the entry and exit code that builds and
    consumes a struct trapframe on the kernel stack, and [trap]. *)
From S2P Require Import Prelude Memory State Spinlock Consout Vm Sched Bio Log Inode Console Dir File Proc Exec Syscall.

Definition T_SYSCALL : Z := 64.
Definition T_IRQ0 : Z := 32.
Definition IRQ_TIMER : Z := 0.
Definition IRQ_KBD : Z := 1.
Definition IRQ_COM1 : Z := 4.
Definition IRQ_IDE : Z := 14.
Definition IRQ_SPURIOUS : Z := 31.
Definition STS_IG32 : Z := 0xE.
Definition STS_TG32 : Z := 0xF.

(** ** The descriptor table *)

(** struct gatedesc of mmu.h. *)
Record gatedesc := Gatedesc {
  g_off_15_0 : Z; g_cs : Z; g_args : Z; g_rsv1 : Z; g_type : Z; g_s : Z; g_dpl : Z; g_p : Z;
  g_off_31_16 : Z }.
Definition SETGATE (istrap : bool) (sel off d : Z) : gatedesc := {|
  g_off_15_0 := Z.land off 0xffff;
  g_cs := sel;
  g_args := 0;
  g_rsv1 := 0;
  g_type := if istrap then STS_TG32 else STS_IG32;
  g_s := 0;
  g_dpl := d;
  g_p := 1;
  g_off_31_16 := Z.shiftr off 16;
|}.
(** The table [idt], given the addresses [vectors] of the entry points. *)
Definition idt_entries (vectors : Z -> Z) : list gatedesc :=
  <[Z.to_nat T_SYSCALL := SETGATE true (Z.shiftl SEG_KCODE 3) (vectors T_SYSCALL) DPL_USER]>
    (map (fun i => SETGATE false (Z.shiftl SEG_KCODE 3) (vectors i) 0) (seqZ 0 256)).
Definition tvinit (vectors : Z -> Z) : M (list gatedesc) :=
  initlock L_ticks "time" ;; mret (idt_entries vectors).

(** ** Entry and exit

    The stack as the list of its words, top first. [r] holds the registers at
    the interrupt. *)

(** The vectors for which the processor pushes an error code. *)
Definition has_err (i : Z) : bool :=
  (i =? 8) || ((10 <=? i) && (i <=? 14)) || (i =? 17).
(** What the processor pushes; the stack pointer only on a change of ring. *)
Definition hw_entry (user : bool) (i err : Z) (r : trapframe) (stack : list Z) : list Z :=
  let stack := if user then tf_esp r :: tf_ss r :: stack else stack in
  let stack := tf_eip r :: tf_cs r :: tf_eflags r :: stack in
  if has_err i then err :: stack else stack.
(** The entry point of vector [i]. *)
Definition vector (i : Z) (stack : list Z) : list Z :=
  i :: (if has_err i then stack else 0 :: stack).
(** [alltraps] up to the call: the segment registers and pushal. *)
Definition alltraps (r : trapframe) (stack : list Z) : list Z :=
  let stack := tf_gs r :: tf_fs r :: tf_es r :: tf_ds r :: stack in
  tf_edi r :: tf_esi r :: tf_ebp r :: tf_oesp r :: tf_ebx r :: tf_edx r :: tf_ecx r :: tf_eax r :: stack.

(** A struct trapframe at the top of the stack. *)
Definition load_trapframe (stack : list Z) : option (trapframe * list Z) :=
  match stack with
  | edi :: esi :: ebp :: oesp :: ebx :: edx :: ecx :: eax :: gs :: fs :: es :: ds ::
    trapno :: err :: eip :: cs :: eflags :: rest =>
      Some (Trapframe edi esi ebp oesp ebx edx ecx eax gs fs es ds trapno err eip cs eflags
        (nth 0 rest 0) (nth 1 rest 0), rest)
  | _ => None
  end.
(** [trapret]: popal ignores the saved %esp; iret returns to user mode and
    pops the stack pointer when the code segment is a user one. *)
Definition trapret (stack : list Z) : option (trapframe * list Z) :=
  match stack with
  | edi :: esi :: ebp :: oesp :: ebx :: edx :: ecx :: eax :: gs :: fs :: es :: ds ::
    trapno :: err :: eip :: cs :: eflags :: rest =>
      if Z.land cs 3 =? DPL_USER then
        match rest with
        | esp :: ss :: rest =>
            Some (Trapframe edi esi ebp 0 ebx edx ecx eax gs fs es ds 0 0 eip cs eflags esp ss, rest)
        | _ => None
        end
      else Some (Trapframe edi esi ebp 0 ebx edx ecx eax gs fs es ds 0 0 eip cs eflags 0 0, rest)
  | _ => None
  end.

(** ** trap *)

(** What the devices give: whether the disk reports no error, the readings of
    the keyboard's and the serial port's registers, %cr2, and the call
    stacks [procdump] prints. *)
Record devices := Devices {
  dv_ide : bool; dv_kbd : list (Z * Z); dv_uart : list (Z * Z); dv_cr2 : Z; dv_pcs : nat -> list Z }.

Section Trap.
Context `{Linker} `{DiskDriver}.

Definition myproc_opt : M (option proc) :=
  gets (fun s => c_proc (kcpu s) ≫= fun i => ptable s !! i).
(** [if(proc && proc->killed && (tf->cs&3) == DPL_USER) exit();] *)
Definition exit_if_killed (tf : trapframe) : M unit :=
  p ← myproc_opt;
  match p with
  | Some p => when (truth (p_killed p) && (Z.land (tf_cs tf) 3 =? DPL_USER)) exit
  | None => mret tt
  end.

Definition timer_tick : M unit :=
  c ← gets kcpu;
  when (c_id c =? 0)
    (acquire L_ticks ;;
     modify (fun s => s <| ticks := u32 (ticks s + 1) |>) ;;
     wakeup Ch_ticks ;;
     release L_ticks).

Definition trap_unexpected (dv : devices) (tf : trapframe) : M unit :=
  p ← myproc_opt;
  c ← gets kcpu;
  match (if Z.land (tf_cs tf) 3 =? 0 then None else p) with
  | None =>
      cprintf ("unexpected trap %d from cpu %d eip %x (cr2=0x%x)" +:+ nl)
        [A_int (tf_trapno tf); A_int (c_id c); A_int (tf_eip tf); A_int (dv_cr2 dv)] ;;
      panic "trap"
  | Some p =>
      cprintf ("pid %d %s: trap %d err %d on cpu %d eip 0x%x addr 0x%x--kill proc" +:+ nl)
        [A_int (p_pid p); A_str (Some (cstr (p_name p))); A_int (tf_trapno tf); A_int (tf_err tf);
         A_int (c_id c); A_int (tf_eip tf); A_int (dv_cr2 dv)] ;;
      set_myproc (fun p => p <| p_killed := 1 |>)
  end.

(** The [switch]; [lapiceoi] acknowledges the interrupt to the local APIC. *)
Definition trap_switch (dv : devices) (tf : trapframe) : M unit :=
  let irq := tf_trapno tf - T_IRQ0 in
  if irq =? IRQ_TIMER then timer_tick
  else if irq =? IRQ_IDE then ideintr (dv_ide dv)
  else if irq =? IRQ_IDE + 1 then mret tt
  else if irq =? IRQ_KBD then Kbd.kbdintr (dv_pcs dv) (dv_kbd dv)
  else if irq =? IRQ_COM1 then uartintr (dv_pcs dv) (dv_uart dv)
  else if (irq =? 7) || (irq =? IRQ_SPURIOUS) then
    c ← gets kcpu;
    cprintf ("cpu%d: spurious interrupt at %x:%x" +:+ nl)
      [A_int (c_id c); A_int (tf_cs tf); A_int (tf_eip tf)]
  else trap_unexpected dv tf.

Definition trap (dv : devices) (tf : trapframe) : M unit :=
  if tf_trapno tf =? T_SYSCALL then
    p ← curproc;
    when (truth (p_killed p)) exit ;;
    set_myproc (fun p => p <| p_tf := tf |>) ;;
    syscall ;;
    p ← curproc;
    when (truth (p_killed p)) exit
  else
    trap_switch dv tf ;;
    exit_if_killed tf ;;
    p ← myproc_opt;
    (match p with
     | Some p => when (bool_decide (p_state p = RUNNING) && (tf_trapno tf =? T_IRQ0 + IRQ_TIMER)) yield
     | None => mret tt
     end) ;;
    exit_if_killed tf.

End Trap.

(** ** The descriptor table *)

(** The address a gate holds: the processor joins its two halves. *)
Definition gate_off (g : gatedesc) : Z := Z.lor (Z.shiftl (g_off_31_16 g) 16) (g_off_15_0 g).

Lemma setgate_off istrap sel off d : 0 <= off -> gate_off (SETGATE istrap sel off d) = off.
Proof.
  intros Hoff. unfold gate_off, SETGATE. cbn. apply Z.bits_inj'. intros i Hi.
  change 0xffff with (Z.ones 16). rewrite Z.lor_spec, Z.shiftl_spec, Z.land_spec, Z.testbit_ones_nonneg by lia.
  destruct (Z.ltb_spec i 16).
  - rewrite (Z.testbit_neg_r _ (i - 16)) by lia. by rewrite andb_true_r.
  - rewrite Z.shiftr_spec, andb_false_r, orb_false_r by lia. f_equal. lia.
Qed.

(** C15. The interrupt descriptor table tvinit builds has 256 present gates into
    the kernel's code segment; gate [i] leads to entry point [i], whose address
    its two halves give back; and the gate of system calls is the only one that
    user code may enter with an int instruction, and the only one that leaves
    interrupts on. *)
Theorem idt_gates vectors :
  (forall i, 0 <= i < 256 -> 0 <= vectors i < 2 ^ 32) ->
  length (idt_entries vectors) = 256%nat /\
  forall i, 0 <= i < 256 -> exists g, idt_entries vectors !! Z.to_nat i = Some g /\
    gate_off g = vectors i /\ 0 <= g_off_15_0 g < 65536 /\ 0 <= g_off_31_16 g < 65536 /\
    g_p g = 1 /\ g_cs g = Z.shiftl SEG_KCODE 3 /\
    (g_dpl g = DPL_USER <-> i = T_SYSCALL) /\ (g_type g = STS_TG32 <-> i = T_SYSCALL).
Proof.
  intros Hv. unfold idt_entries. split; [by rewrite length_insert, length_map, length_seqZ|].
  intros i Hi. pose proof (Hv i Hi) as Hvi.
  assert (forall b d, 0 <= g_off_15_0 (SETGATE b (Z.shiftl SEG_KCODE 3) (vectors i) d) < 65536 /\
    0 <= g_off_31_16 (SETGATE b (Z.shiftl SEG_KCODE 3) (vectors i) d) < 65536) as Hr.
  { intros b d. cbn. change 0xffff with (Z.ones 16). rewrite Z.land_ones, Z.shiftr_div_pow2 by lia.
    change (2 ^ 16) with 65536. change (2 ^ 32) with 4294967296 in Hvi. split; [apply Z.mod_pos_bound; lia|].
    split; [apply Z.div_pos; lia|apply Z.div_lt_upper_bound; lia]. }
  destruct (decide (i = T_SYSCALL)) as [->|Hne].
  - rewrite list_lookup_insert_eq by (rewrite length_map, length_seqZ; unfold T_SYSCALL; lia).
    eexists. split; [done|]. split; [apply setgate_off; lia|]. split; [apply Hr|]. split; [apply Hr|]. done.
  - rewrite list_lookup_insert_ne by (unfold T_SYSCALL in *; lia).
    rewrite list_lookup_fmap, lookup_seqZ_lt by lia. cbn [fmap option_fmap option_map].
    rewrite Z.add_0_l, Z2Nat.id by lia.
    eexists. split; [done|]. split; [apply setgate_off; lia|]. split; [apply Hr|]. split; [apply Hr|].
    split_and!; try done.
Qed.

Lemma idt_gates_witness :
  exists g, idt_entries (fun i => 0x80105000 + 10 * i) !! 64%nat = Some g /\ g_dpl g = DPL_USER.
Proof.
  destruct (idt_gates (fun i => 0x80105000 + 10 * i) ltac:(intros i Hi; change (2 ^ 32) with 4294967296; lia))
    as [_ Hg].
  destruct (Hg 64 ltac:(lia)) as (g & H1 & _ & _ & _ & _ & _ & H2 & _).
  exists g. split; [exact H1|by apply H2].
Defined.

(** ** Entry and exit *)

(** The frame trap() sees, and the registers trapret leaves: the trap number,
    the error code and the saved stack pointer of pushal are gone, the stack
    pointer and segment are as the processor has them unless it returns to user
    mode. *)
Definition frame (user : bool) (i err : Z) (r : trapframe) (stack : list Z) : trapframe :=
  r <| tf_trapno := i |> <| tf_err := if has_err i then err else 0 |>
    <| tf_esp := if user then tf_esp r else nth 0 stack 0 |>
    <| tf_ss := if user then tf_ss r else nth 1 stack 0 |>.
Definition restored (user : bool) (r : trapframe) : trapframe :=
  r <| tf_oesp := 0 |> <| tf_trapno := 0 |> <| tf_err := 0 |>
    <| tf_esp := if user then tf_esp r else 0 |> <| tf_ss := if user then tf_ss r else 0 |>.

(** The stack on which a frame lies. *)
Definition store_trapframe (user : bool) (tf : trapframe) (stack : list Z) : list Z :=
  alltraps tf (tf_trapno tf :: tf_err tf :: tf_eip tf :: tf_cs tf :: tf_eflags tf ::
    (if user then tf_esp tf :: tf_ss tf :: stack else stack)).

(** C13. The entry code of every vector, with or without an error code pushed by
    the processor and from either ring, leaves on the stack the struct trapframe
    that trap() expects: the interrupted registers, the vector and the error
    code (0 where there is none). And whatever trap() writes into the frame,
    trapret gives exactly those registers back to the interrupted code, with
    the stack as it was before the interrupt. *)
Theorem trap_entry_exit user i err r stack :
  load_trapframe (alltraps r (vector i (hw_entry user i err r stack))) =
    Some (frame user i err r stack, if user then tf_esp r :: tf_ss r :: stack else stack) /\
  alltraps r (vector i (hw_entry user i err r stack)) = store_trapframe user (frame user i err r stack) stack /\
  forall tf, (Z.land (tf_cs tf) 3 =? DPL_USER) = user ->
    trapret (store_trapframe user tf stack) = Some (restored user tf, stack).
Proof.
  split_and!.
  - unfold vector, hw_entry, alltraps, frame. destruct r, user, (has_err i); reflexivity.
  - unfold vector, hw_entry, alltraps, frame, store_trapframe. destruct r, user, (has_err i); reflexivity.
  - intros tf Hcs. unfold trapret, store_trapframe, alltraps, restored. rewrite Hcs. by destruct tf, user.
Qed.

Lemma trap_entry_exit_witness :
  let r := Trapframe 1 2 3 4 5 6 7 8 9 10 11 12 0 0 0x40 0x1b 0x202 0x1ffc 0x23 in
  trapret (store_trapframe true (r <| tf_eax := 42 |>) [99]) = Some (restored true (r <| tf_eax := 42 |>), [99]).
Proof.
  intros r. exact (proj2 (proj2 (trap_entry_exit true 64 0 r [99])) (r <| tf_eax := 42 |>) eq_refl).
Defined.
