(* ===== verification/Irq.v ===== *)
(** * Irq: interrupt controllers and timer (picirq.c, ioapic.c, lapic.c, timer.c)

    The code talks to the devices by reads and writes of registers, which are recorded
    in order. What a read answers, after all that was read and written before, is a
    parameter. What the writes mean to the 8259A, to the I/O APIC and to a processor that
    gets an interprocessor interrupt is defined below, from the manuals the sources
    name, and the theorems are about that. *)
From S2P Require Import Prelude Memory State Trap.

(** ** The code *)

Module Irq.
Definition IRQ_ERROR : Z := 19.
(** [Out] is a write to a port; [Lapicw] and [Lapicr] are accesses to a register of the
    local APIC, [Ioreg], [Iodata] and [Ioread] to the two words of the I/O APIC; [Poke]
    is a 16-bit store to memory and [Msg] a message on the console. *)
Inductive ev :=
  | Out (port v : Z) | Lapicw (i v : Z) | Lapicr (i : Z)
  | Ioreg (v : Z) | Iodata (v : Z) | Ioread
  | Poke (a v : Z) | Msg (s : string).
Record dev := Dev { log : list ev; irqmask : Z; warned : Z }.
#[export] Instance eta_dev : Eta dev := {| eta d := Dev (log d) (irqmask d) (warned d) |}.
#[export] Instance upd_log : Upd log := ltac:(field_update log).
#[export] Instance upd_irqmask : Upd irqmask := ltac:(field_update irqmask).
#[export] Instance upd_warned : Upd warned := ltac:(field_update warned).

Definition emit (e : ev) (d : dev) : dev := d <| log ::= fun l => l ++ [e] |>.
Definition outb (port v : Z) : dev -> dev := emit (Out port (u8 v)).

(** *** picirq.c *)

Definition IO_PIC1 : Z := 0x20.
Definition IO_PIC2 : Z := 0xA0.
Definition IRQ_SLAVE : Z := 2.
Definition irqmask0 : Z := Z.land 0xFFFF (Z.lnot (Z.shiftl 1 IRQ_SLAVE)).

Definition picsetmask (mask : Z) (d : dev) : dev :=
  outb (IO_PIC2 + 1) (Z.shiftr mask 8) (outb (IO_PIC1 + 1) mask (d <| irqmask := mask |>)).
Definition picenable (irq : Z) (d : dev) : dev :=
  picsetmask (u16 (Z.land (irqmask d) (Z.lnot (Z.shiftl 1 irq)))) d.
Definition picinit (d : dev) : dev :=
  let d := outb (IO_PIC1 + 1) 0xFF d in
  let d := outb (IO_PIC2 + 1) 0xFF d in
  let d := outb IO_PIC1 0x11 d in
  let d := outb (IO_PIC1 + 1) T_IRQ0 d in
  let d := outb (IO_PIC1 + 1) (Z.shiftl 1 IRQ_SLAVE) d in
  let d := outb (IO_PIC1 + 1) 0x3 d in
  let d := outb IO_PIC2 0x11 d in
  let d := outb (IO_PIC2 + 1) (T_IRQ0 + 8) d in
  let d := outb (IO_PIC2 + 1) IRQ_SLAVE d in
  let d := outb (IO_PIC2 + 1) 0x3 d in
  let d := outb IO_PIC1 0x68 d in
  let d := outb IO_PIC1 0x0a d in
  let d := outb IO_PIC2 0x68 d in
  let d := outb IO_PIC2 0x0a d in
  if negb (irqmask d =? 0xFFFF) then picsetmask (irqmask d) d else d.

(** *** timer.c *)

Definition IO_TIMER1 : Z := 0x040.
Definition TIMER_FREQ : Z := 1193182.
Definition TIMER_DIV (x : Z) : Z := (TIMER_FREQ + x / 2) / x.
Definition TIMER_MODE : Z := IO_TIMER1 + 3.
Definition TIMER_SEL0 : Z := 0x00.
Definition TIMER_RATEGEN : Z := 0x04.
Definition TIMER_16BIT : Z := 0x30.
Definition timerinit (d : dev) : dev :=
  let d := outb TIMER_MODE (Z.lor (Z.lor TIMER_SEL0 TIMER_RATEGEN) TIMER_16BIT) d in
  let d := outb IO_TIMER1 (TIMER_DIV 100 mod 256) d in
  let d := outb IO_TIMER1 (TIMER_DIV 100 / 256) d in
  picenable IRQ_TIMER d.

(** *** ioapic.c *)

Definition REG_ID : Z := 0x00.
Definition REG_VER : Z := 0x01.
Definition REG_TABLE : Z := 0x10.
Definition INT_DISABLED : Z := 0x00010000.

Section Code.
(** What the devices answer: the data word of the I/O APIC, a register of the local
    APIC; how often a flag is read before a wait is given up. *)
Context (iodata : list ev -> Z) (lapicreg : list ev -> Z -> Z) (patience : nat).

Definition ioapicread (reg : Z) (d : dev) : Z * dev :=
  let d := emit (Ioreg (u32 reg)) d in (iodata (log d), emit Ioread d).
Definition ioapicwrite (reg data : Z) (d : dev) : dev :=
  emit (Iodata (u32 data)) (emit (Ioreg (u32 reg)) d).
(** The table from entry [i] on, [n] entries. *)
Fixpoint ioapicinit_loop (n : nat) (i : Z) (d : dev) : dev :=
  match n with
  | O => d
  | S n =>
      let d := ioapicwrite (REG_TABLE + 2 * i) (Z.lor INT_DISABLED (T_IRQ0 + i)) d in
      let d := ioapicwrite (REG_TABLE + 2 * i + 1) 0 d in
      ioapicinit_loop n (i + 1) d
  end.
Definition ioapicinit (ismp ioapicid : Z) (d : dev) : dev :=
  if ismp =? 0 then d
  else
    let '(v, d) := ioapicread REG_VER d in
    let maxintr := Z.land (Z.shiftr v 16) 0xFF in
    let '(v, d) := ioapicread REG_ID d in
    let id := Z.shiftr v 24 in
    let d := if negb (id =? ioapicid) then emit (Msg "ioapicinit: id isn't equal to ioapicid; not a MP") d else d in
    ioapicinit_loop (Z.to_nat (maxintr + 1)) 0 d.
Definition ioapicenable (ismp irq cpunum : Z) (d : dev) : dev :=
  if ismp =? 0 then d
  else ioapicwrite (REG_TABLE + 2 * irq + 1) (Z.shiftl cpunum 24) (ioapicwrite (REG_TABLE + 2 * irq) (T_IRQ0 + irq) d).

(** *** lapic.c *)

Definition ID : Z := 0x0020 / 4.
Definition VER : Z := 0x0030 / 4.
Definition TPR : Z := 0x0080 / 4.
Definition EOI : Z := 0x00B0 / 4.
Definition SVR : Z := 0x00F0 / 4.
Definition ENABLE : Z := 0x100.
Definition ESR : Z := 0x0280 / 4.
Definition ICRLO : Z := 0x0300 / 4.
Definition INIT : Z := 0x500.
Definition STARTUP : Z := 0x600.
Definition DELIVS : Z := 0x1000.
Definition ASSERT : Z := 0x4000.
Definition LEVEL : Z := 0x8000.
Definition BCAST : Z := 0x80000.
Definition ICRHI : Z := 0x0310 / 4.
Definition TIMER : Z := 0x0320 / 4.
Definition X1 : Z := 0xB.
Definition PERIODIC : Z := 0x20000.
Definition PCINT : Z := 0x0340 / 4.
Definition LINT0 : Z := 0x0350 / 4.
Definition LINT1 : Z := 0x0360 / 4.
Definition ERROR : Z := 0x0370 / 4.
Definition MASKED : Z := 0x10000.
Definition TICR : Z := 0x0380 / 4.
Definition TDCR : Z := 0x03E0 / 4.

Definition lapicw (index value : Z) (d : dev) : dev := emit (Lapicr ID) (emit (Lapicw index (u32 value)) d).
Definition lapicr (index : Z) (d : dev) : Z * dev := (lapicreg (log d) index, emit (Lapicr index) d).
(** [while(lapic[ICRLO] & DELIVS)]; [None]: the flag stays set. *)
Fixpoint wait_delivered (fuel : nat) (d : dev) : option dev :=
  match fuel with
  | O => None
  | S k => let '(v, d) := lapicr ICRLO d in if truth (Z.land v DELIVS) then wait_delivered k d else Some d
  end.
(** [lapic] is the address of the registers, 0 when there are none. *)
Definition lapicinit (lapic : Z) (d : dev) : option dev :=
  if lapic =? 0 then Some d
  else
    let d := lapicw SVR (Z.lor ENABLE (T_IRQ0 + IRQ_SPURIOUS)) d in
    let d := lapicw TDCR X1 d in
    let d := lapicw TIMER (Z.lor PERIODIC (T_IRQ0 + IRQ_TIMER)) d in
    let d := lapicw TICR 10000000 d in
    let d := lapicw LINT0 MASKED d in
    let d := lapicw LINT1 MASKED d in
    let '(v, d) := lapicr VER d in
    let d := if 4 <=? Z.land (Z.shiftr v 16) 0xFF then lapicw PCINT MASKED d else d in
    let d := lapicw ERROR (T_IRQ0 + IRQ_ERROR) d in
    let d := lapicw ESR 0 d in
    let d := lapicw ESR 0 d in
    let d := lapicw EOI 0 d in
    let d := lapicw ICRHI 0 d in
    let d := lapicw ICRLO (Z.lor (Z.lor BCAST INIT) LEVEL) d in
    d ← wait_delivered patience d;
    Some (lapicw TPR 0 d).
(** [fl_if]: interrupts are enabled, about which there is one message. *)
Definition cpunum (lapic : Z) (fl_if : bool) (d : dev) : Z * dev :=
  let d := if fl_if then
             let d' := d <| warned := s32 (warned d + 1) |> in
             if warned d =? 0 then emit (Msg "cpu called from %x with interrupts enabled") d' else d'
           else d in
  if negb (lapic =? 0) then let '(v, d) := lapicr ID d in (Z.shiftr v 24, d) else (0, d).
Definition lapiceoi (lapic : Z) (d : dev) : dev := if negb (lapic =? 0) then lapicw EOI 0 d else d.

Definition IO_RTC : Z := 0x70.
(** Warm reset vector *)
Definition wrv : Z := KERNBASE + Z.lor (Z.shiftl 0x40 4) 0x67.
Definition startup_ipi (apicid addr : Z) (d : dev) : dev :=
  lapicw ICRLO (Z.lor STARTUP (Z.shiftr addr 12)) (lapicw ICRHI (Z.shiftl apicid 24) d).
Definition lapicstartap (apicid addr : Z) (d : dev) : dev :=
  let d := outb IO_RTC 0xF d in
  let d := outb (IO_RTC + 1) 0x0A d in
  let d := emit (Poke wrv 0) d in
  let d := emit (Poke (wrv + 2) (u16 (Z.shiftr addr 4))) d in
  let d := lapicw ICRHI (Z.shiftl apicid 24) d in
  let d := lapicw ICRLO (Z.lor (Z.lor INIT LEVEL) ASSERT) d in
  let d := lapicw ICRLO (Z.lor INIT LEVEL) d in
  startup_ipi apicid addr (startup_ipi apicid addr d).
End Code.
End Irq.
Import Irq.

(** ** The 8259A pair *)

(** A controller: the initialisation word it waits for (0: none), the first of these
    words, the vector of its line 0, how the two are linked, the fourth word, the lines
    that are masked. *)
Record pic := Pic { p_step : nat; p_icw1 : Z; p_base : Z; p_link : Z; p_icw4 : Z; p_imr : Z }.
Definition pic_cmd (v : Z) (p : pic) : pic :=
  if Z.testbit v 4 then Pic 2 v (p_base p) (p_link p) (p_icw4 p) 0 else p.
Definition pic_data (v : Z) (p : pic) : pic :=
  let '(Pic k w b l w4 m) := p in
  let after3 := if Z.testbit w 0 then 4%nat else 0%nat in
  match k with
  | 0%nat => Pic 0 w b l w4 v
  | 2%nat => Pic (if Z.testbit w 1 then after3 else 3%nat) w (Z.land v 0xF8) l w4 m
  | 3%nat => Pic after3 w b v w4 m
  | _ => Pic 0 w b l v m
  end.
Definition pic_ev (ps : pic * pic) (e : ev) : pic * pic :=
  let '(m, s) := ps in
  match e with
  | Out 0x20 v => (pic_cmd v m, s)
  | Out 0x21 v => (pic_data v m, s)
  | Out 0xA0 v => (m, pic_cmd v s)
  | Out 0xA1 v => (m, pic_data v s)
  | _ => ps
  end.
Definition pics (l : list ev) (ps : pic * pic) : pic * pic := foldl pic_ev ps l.
(** The vector that line [i] of the pair raises; the second controller is behind the line
    of the first that both were told. *)
Definition raises (ps : pic * pic) (i : Z) : option Z :=
  let '(m, s) := ps in
  if i <? 8 then if Z.testbit (p_imr m) i then None else Some (p_base m + i)
  else if Z.testbit (p_imr s) (i - 8) || Z.testbit (p_imr m) (p_link s) || negb (Z.testbit (p_link m) (p_link s)) then None
  else Some (p_base s + (i - 8)).

(** The controllers are set up and have the mask of the driver. *)
Definition pics_ok (ps : pic * pic) (mask : Z) : Prop :=
  0 <= mask < 65536 /\ exists w w' f f', ps = (Pic 0 w 32 4 f (mask mod 256), Pic 0 w' 40 2 f' (mask / 256)).

Lemma log_outb port v d : log (outb port v d) = log d ++ [Out port (u8 v)].
Proof. done. Qed.
Lemma mask_set mask d ps : 0 <= mask < 65536 -> (exists mask', pics_ok (pics (log d) ps) mask') ->
  pics_ok (pics (log (picsetmask mask d)) ps) mask /\ irqmask (picsetmask mask d) = mask.
Proof.
  intros Hm (mask' & _ & w & w' & f & f' & E). split; [|done]. split; [done|]. exists w, w', f, f'. unfold picsetmask. rewrite !log_outb. rsimpl.
  unfold pics in *. rewrite !foldl_app, E. cbn. rewrite Z.shiftr_div_pow2 by lia. change (2 ^ 8) with 256. rewrite (u8_small (mask / 256)) by mlia. done.
Qed.
Lemma picinit_ok d ps : irqmask d = irqmask0 -> pics_ok (pics (log (picinit d)) ps) irqmask0 /\ irqmask (picinit d) = irqmask0.
Proof.
  intros Hm. unfold picinit. match goal with |- context [if negb (irqmask ?x =? _) then _ else _] => set (d1 := x) end.
  assert (irqmask d1 = irqmask0) as E by (unfold d1; exact Hm). rewrite E. change (negb (irqmask0 =? 0xFFFF)) with true. cbv iota.
  apply mask_set; [by vm_compute|]. exists 0. split; [done|]. unfold d1. rewrite !log_outb, <- !app_assoc. unfold pics. rewrite foldl_app.
  destruct (foldl pic_ev ps (log d)) as [[k w b l w4 m] [k' w' b' l' w4' m']]. exists 0x11, 0x11, 3, 3. destruct k as [|[|[|[]]]], k' as [|[|[|[]]]]; cbn; vm_compute; reflexivity.
Qed.
Lemma picenable_ok irq mask d ps : 0 <= irq < 16 -> pics_ok (pics (log d) ps) mask -> irqmask d = mask ->
  let mask' := Z.land mask (Z.lnot (Z.shiftl 1 irq)) in
  pics_ok (pics (log (picenable irq d)) ps) mask' /\ irqmask (picenable irq d) = mask'.
Proof.
  intros Hi Hok Hm mask'. unfold picenable. rewrite Hm. assert (0 <= mask' < 65536) as Hr.
  { destruct Hok as [Hr _]. assert (0 <= mask' <= mask); [|lia]. apply Z.ldiff_le; [lia|]. apply Z.bits_inj'. intros n Hn.
    unfold mask'. rewrite Z.ldiff_spec, Z.land_spec, Z.bits_0. by destruct (Z.testbit mask n), (Z.testbit (Z.lnot (Z.shiftl 1 irq)) n). }
  fold mask'. assert (u16 mask' = mask') as -> by (apply Z.mod_small; exact Hr). apply mask_set; [done|by exists mask].
Qed.
Lemma picenables_ok irqs mask d ps : Forall (fun i => 0 <= i < 16) irqs -> pics_ok (pics (log d) ps) mask -> irqmask d = mask ->
  exists mask', pics_ok (pics (log (foldr picenable d irqs)) ps) mask' /\ irqmask (foldr picenable d irqs) = mask' /\
    forall n, 0 <= n -> Z.testbit mask' n = Z.testbit mask n && bool_decide (n ∉ irqs).
Proof.
  intros Hi Hok Hm. induction Hi as [|i irqs Hi _ (mask' & Hok' & Hm' & Hb)].
  { exists mask. split; [done|]. split; [done|]. intros n _. rewrite bool_decide_true by set_solver. by rewrite andb_true_r. }
  cbn [foldr]. destruct (picenable_ok i mask' (foldr picenable d irqs) ps Hi Hok' Hm') as [H1 H2]. eexists. split; [exact H1|]. split; [exact H2|].
  intros n Hn. rewrite Z.land_spec, Z.lnot_spec, Hb by done. rewrite <- andb_assoc. f_equal.
  rewrite Z.shiftl_spec by done. destruct (decide (n = i)) as [->|Hne].
  - rewrite Z.sub_diag. rewrite (bool_decide_false (i ∉ i :: irqs)) by set_solver. cbn. by rewrite andb_false_r.
  - assert (Z.testbit 1 (n - i) = false) as ->.
    { destruct (Z.lt_ge_cases n i); [by apply Z.testbit_neg_r; lia|]. apply Z.bits_above_log2; [lia|]. change (Z.log2 1) with 0. lia. }
    cbn. rewrite andb_true_r. apply bool_decide_ext. set_solver.
Qed.

(** C20. After picinit and any calls of picenable, the two interrupt controllers raise
    vector [T_IRQ0 + i] for line [i] if it was enabled and nothing if it was not, the
    lines of the second one included, whatever state they were in before. *)
Theorem pic_raises (d : dev) (irqs : list Z) (ps : pic * pic) (i : Z)
  (Hd : irqmask d = irqmask0) (Hirqs : Forall (fun i => 0 <= i < 16) irqs) (Hi : 0 <= i < 16) (H2 : i <> IRQ_SLAVE) :
  raises (pics (log (foldr picenable (picinit d) irqs)) ps) i = if decide (i ∈ irqs) then Some (T_IRQ0 + i) else None.
Proof.
  destruct (picinit_ok d ps Hd) as [Hok Hm]. destruct (picenables_ok irqs irqmask0 (picinit d) ps Hirqs Hok Hm) as (mask & [Hr (w & w' & f & f' & ->)] & _ & Hb).
  assert (forall n, 0 <= n < 16 -> n <> 2 -> Z.testbit mask n = bool_decide (n ∉ irqs)) as Hb'.
  { intros n Hn Hn2. rewrite Hb by lia. assert (Z.testbit irqmask0 n = true) as ->; [|done].
    assert (n ∈ [0; 1; 3; 4; 5; 6; 7; 8; 9; 10; 11; 12; 13; 14; 15]) as Hin by (rewrite !elem_of_cons; lia).
    rewrite list_elem_of_In in Hin. cbn in Hin. repeat destruct Hin as [<-|Hin]; try reflexivity. done. }
  assert (Z.testbit mask 2 = false) as Hb2 by (by rewrite Hb by lia).
  assert (forall n, 0 <= n < 8 -> Z.testbit (mask mod 256) n = Z.testbit mask n) as Hlo by (intros n Hn; apply (Z.mod_pow2_bits_low mask 8 n); lia).
  assert (forall n, 0 <= n -> Z.testbit (mask / 256) n = Z.testbit mask (n + 8)) as Hhi by (intros n Hn; apply (Z.div_pow2_bits mask 8 n); lia).
  unfold raises. cbn [p_imr p_base p_link]. unfold T_IRQ0, IRQ_SLAVE in *. destruct (Z.ltb_spec i 8).
  - rewrite Hlo, Hb' by lia. destruct (decide (i ∈ irqs)); [by rewrite bool_decide_false by auto|by rewrite bool_decide_true].
  - rewrite Hlo, Hb2, Hhi by lia. replace (i - 8 + 8) with i by lia. rewrite Hb' by lia. change (Z.testbit 4 2) with true.
    destruct (decide (i ∈ irqs)); [rewrite bool_decide_false by auto; cbn; f_equal; lia|by rewrite bool_decide_true].
Qed.
Lemma pic_raises_witness : let ps := pics (log (foldr picenable (picinit (Dev [] irqmask0 0)) [14; 4; 1])) (Pic 3 0 0 0 0 0, Pic 0 0 0 0 0 0) in
  irqmask0 = 0xFFFB /\ raises ps 14 = Some 46 /\ raises ps 15 = None.
Proof.
  assert (Forall (fun i => 0 <= i < 16) [14; 4; 1]) as Hi by vm_decide. split; [by vm_compute|]. split.
  - exact (pic_raises (Dev [] irqmask0 0) [14; 4; 1] (Pic 3 0 0 0 0 0, Pic 0 0 0 0 0 0) 14 eq_refl Hi ltac:(lia) ltac:(vm_compute; discriminate)).
  - exact (pic_raises (Dev [] irqmask0 0) [14; 4; 1] (Pic 3 0 0 0 0 0, Pic 0 0 0 0 0 0) 15 eq_refl Hi ltac:(lia) ltac:(vm_compute; discriminate)).
Defined.

(** ** The timer chip *)

(** Counter 0: the mode word, and the bytes of the count in the order they came. *)
Definition pit_ev (c : Z * list Z) (e : ev) : Z * list Z :=
  match e with Out 0x43 v => (v, []) | Out 0x40 v => (c.1, c.2 ++ [v]) | _ => c end.
(** The timer counts down from a number that is within half a unit of what makes 100 ticks
    a second, low byte first, as a rate generator; its line is enabled. *)
Lemma timerinit_rate (d : dev) (c : Z * list Z) :
  exists lo hi, foldl pit_ev c (log (timerinit d)) = (0x34, [lo; hi]) /\ 2 * Z.abs (100 * (lo + 256 * hi) - TIMER_FREQ) <= 100 /\
    irqmask (timerinit d) = irqmask (picenable IRQ_TIMER d).
Proof.
  exists 156, 46. split; [|split; [by vm_compute|done]]. unfold timerinit, picenable, picsetmask. rewrite !log_outb. rsimpl. rewrite !log_outb, !foldl_app. reflexivity.
Qed.

(** ** The I/O APIC *)

(** The register that is selected, and the registers. *)
Definition io_ev (c : Z * gmap Z Z) (e : ev) : Z * gmap Z Z :=
  match e with Ioreg v => (v, c.2) | Iodata v => (c.1, <[c.1 := v]> c.2) | _ => c end.
Definition io_regs (l : list ev) (c : Z * gmap Z Z) : gmap Z Z := (foldl io_ev c l).2.
(** Where line [i] goes: the vector, the mode (0: fixed delivery to the APIC that has the
    id, edge triggered, active high) and the id; [None] when it is masked. *)
Definition io_route (r : gmap Z Z) (i : Z) : option (Z * Z * Z) :=
  lo ← r !! (0x10 + 2 * i); hi ← r !! (0x10 + 2 * i + 1);
  if Z.testbit lo 16 then None else Some (lo mod 256, lo / 256, hi / 16777216).

Lemma io_write reg data d c : 0 <= reg < 4294967296 ->
  io_regs (log (ioapicwrite reg data d)) c = <[reg := u32 data]> (io_regs (log d) c).
Proof. intros H. unfold io_regs, ioapicwrite, emit. rsimpl. rewrite !foldl_app. cbn. by rewrite u32_small. Qed.
Lemma masked_vector i : 0 <= i < 224 -> u32 (Z.lor INT_DISABLED (T_IRQ0 + i)) = 65536 + (T_IRQ0 + i).
Proof.
  intros H. unfold INT_DISABLED, T_IRQ0. rewrite (lor_low 16) by (done || lia). apply u32_small. lia.
Qed.
(** Entry [i] of the table is masked. *)
Definition io_masked (r : gmap Z Z) (i : Z) : Prop := r !! (0x10 + 2 * i) = Some (65536 + (T_IRQ0 + i)) /\ r !! (0x10 + 2 * i + 1) = Some 0.
Lemma ioapicinit_loop_run n i d c : 0 <= i -> i + Z.of_nat n <= 224 ->
  let r := io_regs (log (ioapicinit_loop n i d)) c in
  (forall j, i <= j < i + Z.of_nat n -> io_masked r j) /\
  (forall k, k < 0x10 + 2 * i -> r !! k = io_regs (log d) c !! k).
Proof.
  revert i d. induction n as [|n IH]; intros i d Hi Hn; cbn [ioapicinit_loop]; [split; [lia|done]|].
  destruct (IH (i + 1) (ioapicwrite (REG_TABLE + 2 * i + 1) 0 (ioapicwrite (REG_TABLE + 2 * i) (Z.lor INT_DISABLED (T_IRQ0 + i)) d)) ltac:(lia) ltac:(lia)) as [H1 H2].
  unfold REG_TABLE in *. split.
  - intros j Hj. destruct (decide (j = i)) as [->|Hne]; [|apply H1; lia]. split; rewrite H2 by lia; rewrite !io_write by lia.
    + rewrite lookup_insert_ne by lia. rewrite lookup_insert_eq. by rewrite masked_vector by lia.
    + by rewrite lookup_insert_eq.
  - intros k Hk. rewrite H2 by lia. rewrite !io_write by lia. by rewrite !lookup_insert_ne by lia.
Qed.

(** The processor of the last call of ioapicenable for line [i]. *)
Fixpoint enabled (i : Z) (l : list (Z * Z)) : option Z :=
  match l with
  | [] => None
  | (j, c) :: l => if decide (j = i) then Some c else enabled i l
  end.
Section Ioapic.
Context (iodata : list ev -> Z) (ver : Z).
Hypothesis (Hver : forall l, iodata (l ++ [Ioreg REG_VER]) = ver).

(** After ioapicinit and any calls of ioapicenable (the last one first in the list),
    line [i] of the I/O APIC goes to the processor of the last call for it, as vector
    [T_IRQ0 + i], edge triggered and active high, and is masked if there was none. *)
Theorem ioapic_routes (ismp ioapicid : Z) (d : dev) (c : Z * gmap Z Z) (l : list (Z * Z)) (i : Z) (maxintr := Z.land (Z.shiftr ver 16) 0xFF)
  (Hmp : ismp <> 0) (Hmax : maxintr < 224) (Hl : Forall (fun x => 0 <= x.1 <= maxintr /\ 0 <= x.2 < 256) l) (Hi : 0 <= i <= maxintr) :
  io_route (io_regs (log (foldr (fun x => ioapicenable ismp x.1 x.2) (ioapicinit iodata ismp ioapicid d) l)) c) i =
    (fun cpu => (T_IRQ0 + i, 0, cpu)) <$> enabled i l.
Proof.
  induction Hl as [|[j cpu] l [Hj Hcpu] Hl IH]; cbn [foldr fst snd].
  - unfold ioapicinit. rewrite (proj2 (Z.eqb_neq _ _) Hmp). unfold ioapicread. cbv beta iota zeta.
    change (iodata (log (emit (Ioreg (u32 REG_VER)) d))) with (iodata (log d ++ [Ioreg REG_VER])). rewrite Hver. fold maxintr.
    match goal with |- context [ioapicinit_loop _ _ ?x] => destruct (ioapicinit_loop_run (Z.to_nat (maxintr + 1)) 0 x c) as [H _]; [lia..|] end.
    destruct (H i) as [E1 E2]; [lia|]. unfold io_route. rewrite E1. cbn [mbind option_bind]. rewrite E2. cbn [mbind option_bind].
    assert (Z.testbit (65536 + (T_IRQ0 + i)) 16 = true) as ->; [|done]. apply Z.testbit_true; [lia|]. unfold T_IRQ0. change (2 ^ 16) with 65536. mlia.
  - unfold ioapicenable at 1. rewrite (proj2 (Z.eqb_neq _ _) Hmp). set (dl := foldr _ _ _) in *. unfold REG_TABLE, io_route in *. cbn [enabled fst snd] in *.
    rewrite !io_write by lia. destruct (decide (j = i)) as [->|Hne].
    + rewrite (lookup_insert_ne _ (0x10 + 2 * i + 1) (0x10 + 2 * i)) by lia. rewrite lookup_insert_eq. cbn [mbind option_bind]. rewrite lookup_insert_eq. cbn [mbind option_bind].
      unfold T_IRQ0. rewrite u32_small by lia. assert (Z.testbit (32 + i) 16 = false) as ->.
      { apply Z.testbit_false; [lia|]. change (2 ^ 16) with 65536. mlia. }
      rewrite Z.shiftl_mul_pow2 by lia. change (2 ^ 24) with 16777216. rewrite (u32_small (cpu * _)) by lia. cbn. f_equal. f_equal; [f_equal; mlia|by rewrite Z.div_mul].
    + rewrite !lookup_insert_ne by lia. exact IH.
Qed.
End Ioapic.
Lemma ioapic_routes_witness :
  let r := io_regs (log (foldr (fun x => ioapicenable 1 x.1 x.2) (ioapicinit (fun _ => 0x170011) 1 0 (Dev [] 0 0)) [(14, 3); (1, 0)])) (0, ∅) in
  io_route r 14 = Some (46, 0, 3) /\ io_route r 4 = None.
Proof.
  assert (Forall (fun x : Z * Z => 0 <= x.1 <= Z.land (Z.shiftr 0x170011 16) 0xFF /\ 0 <= x.2 < 256) [(14, 3); (1, 0)]) as Hl by vm_decide.
  split.
  - exact (ioapic_routes (fun _ => 0x170011) 0x170011 (fun _ => eq_refl) 1 0 (Dev [] 0 0) (0, ∅) [(14, 3); (1, 0)] 14 ltac:(lia) ltac:(by vm_compute) Hl ltac:(by vm_compute)).
  - exact (ioapic_routes (fun _ => 0x170011) 0x170011 (fun _ => eq_refl) 1 0 (Dev [] 0 0) (0, ∅) [(14, 3); (1, 0)] 4 ltac:(lia) ltac:(by vm_compute) Hl ltac:(by vm_compute)).
Defined.

(** ** Interprocessor interrupts *)

(** A processor: running, held after an INIT, or started at an address. *)
Inductive ap := Running | Held | Started (a : Z).
(** What an interrupt command does to a processor: INIT holds it, but for the
    de-assertion; a startup interrupt starts one that is held, and is ignored by others. *)
Definition ap_recv (v : Z) (p : ap) : ap :=
  match v / 256 mod 8 with
  | 5 => if Z.testbit v 14 then Held else p
  | 6 => match p with Held => Started (v mod 256 * 4096) | _ => p end
  | _ => p
  end.
(** The upper word of the command selects the processor, but for a command to all. *)
Definition ipi_ev (c : Z * (Z -> ap)) (e : ev) : Z * (Z -> ap) :=
  match e with
  | Lapicw 0xC4 v => (v, c.2)
  | Lapicw 0xC0 v => (c.1, fun b => if Z.testbit v 19 || (b =? c.1 / 16777216) then ap_recv v (c.2 b) else c.2 b)
  | _ => c
  end.
Definition ipis (l : list ev) (c : Z * (Z -> ap)) : Z -> ap := (foldl ipi_ev c l).2.
(** The shutdown code in CMOS memory and the vector at 40:67, which say where a processor
    goes that is reset. *)
Definition warm_ev (c : Z * Z * Z * Z) (e : ev) : Z * Z * Z * Z :=
  let '(i, code, off, seg) := c in
  match e with
  | Out 0x70 v => (v, code, off, seg)
  | Out 0x71 v => (i, if i =? 0xF then v else code, off, seg)
  | Poke 0x80000467 v => (i, code, v, seg)
  | Poke 0x80000469 v => (i, code, off, v)
  | _ => c
  end.

Lemma log_lapicw i v d : log (lapicw i v d) = log d ++ [Lapicw i (u32 v); Lapicr ID].
Proof. unfold lapicw, emit. rsimpl. by rewrite <- app_assoc. Qed.
Lemma log_startap apicid addr d : 0 <= apicid < 256 -> 0 <= addr < 0x100000 -> log (lapicstartap apicid addr d) = log d ++
  [Out 0x70 0xF; Out 0x71 0x0A; Poke 0x80000467 0; Poke 0x80000469 (addr / 16);
   Lapicw 0xC4 (apicid * 16777216); Lapicr ID; Lapicw 0xC0 0xC500; Lapicr ID; Lapicw 0xC0 0x8500; Lapicr ID;
   Lapicw 0xC4 (apicid * 16777216); Lapicr ID; Lapicw 0xC0 (0x600 + addr / 4096); Lapicr ID;
   Lapicw 0xC4 (apicid * 16777216); Lapicr ID; Lapicw 0xC0 (0x600 + addr / 4096); Lapicr ID].
Proof.
  intros Ha Hd. unfold lapicstartap, startup_ipi. rewrite !log_lapicw. unfold emit. rsimpl. rewrite !log_outb, <- !app_assoc. unfold STARTUP.
  rewrite Z.shiftl_mul_pow2, !Z.shiftr_div_pow2 by lia. change (2 ^ 24) with 16777216. change (2 ^ 12) with 4096. change (2 ^ 4) with 16.
  assert (0 <= addr / 4096 < 256) as H8 by mlia. rewrite (lor_low 8 0x600 (addr / 4096)) by (done || exact H8). rewrite !(u32_small (apicid * _)), !(u32_small (0x600 + _)) by mlia. assert (u16 (addr / 16) = addr / 16) as -> by mlia. reflexivity.
Qed.

(** lapicstartap starts the processor with the id at the address, which is to be the
    start of a page of the first megabyte: the processor is held, and then started there
    by the first of the two startup interrupts, the second being ignored; no other
    processor notices; and the warm reset vector leads to the address too. *)
Theorem lapicstartap_starts (apicid addr : Z) (d : dev) (c : Z * (Z -> ap)) (w : Z * Z * Z * Z)
  (Ha : 0 <= apicid < 256) (Hd : 0 <= addr < 0x100000) (Hp : addr mod 4096 = 0) :
  (forall b, ipis (log (lapicstartap apicid addr d)) c b = if decide (b = apicid) then Started addr else ipis (log d) c b) /\
  (let '(_, code, off, seg) := foldl warm_ev w (log (lapicstartap apicid addr d)) in code = 0x0A /\ seg * 16 + off = addr).
Proof.
  rewrite log_startap by done. unfold ipis. rewrite !foldl_app. split.
  - intros b. destruct (foldl ipi_ev c (log d)) as [h f]. cbn [foldl ipi_ev fst snd]. rewrite Z.div_mul by lia. change (Z.testbit 0xC500 19) with false. change (Z.testbit 0x8500 19) with false.
    assert (Z.testbit (0x600 + addr / 4096) 19 = false) as ->. { apply Z.testbit_false; [lia|]. change (2 ^ 19) with 524288. mlia. }
    cbn [orb]. destruct (Z.eqb_spec b apicid) as [->|Hne]; [rewrite decide_True by done|by rewrite decide_False].
    assert ((0x600 + addr / 4096) / 256 mod 8 = 6) as E6 by mlia. unfold ap_recv. rewrite !E6.
    change (0x8500 / 256 mod 8) with 5. change (Z.testbit 0x8500 14) with false. change (0xC500 / 256 mod 8) with 5. change (Z.testbit 0xC500 14) with true. cbv iota. f_equal. mlia.
  - destruct (foldl warm_ev w (log d)) as [[[i code] off] seg]. cbn. split; [done|]. mlia.
Qed.
Lemma lapicstartap_starts_witness : ipis (log (lapicstartap 1 0x7000 (Dev [] 0 0))) (0, fun _ => Running) 1 = Started 0x7000 /\
  ipis (log (lapicstartap 1 0x7000 (Dev [] 0 0))) (0, fun _ => Running) 0 = Running.
Proof.
  destruct (lapicstartap_starts 1 0x7000 (Dev [] 0 0) (0, fun _ => Running) (0, 0, 0, 0) ltac:(lia) ltac:(lia) eq_refl) as [H _].
  split; [exact (H 1)|exact (H 0)].
Defined.

(** ** The local APIC *)

Definition lregs (l : list ev) (r : gmap Z Z) : gmap Z Z := foldl (fun r e => match e with Lapicw i v => <[i := v]> r | _ => r end) r l.
Section Lapic.
Context (lapicreg : list ev -> Z -> Z) (patience : nat).

Lemma wait_run d : (exists n, (n < patience)%nat /\ Z.land (lapicreg (log d ++ replicate n (Lapicr ICRLO)) ICRLO) DELIVS = 0) ->
  exists n d', wait_delivered lapicreg patience d = Some d' /\ log d' = log d ++ replicate n (Lapicr ICRLO).
Proof.
  intros (n & Hn & E). revert d n Hn E. induction patience as [|k IH]; intros d n Hn E; [lia|]. cbn [wait_delivered lapicr].
  destruct (truth _) eqn:Et; [|by exists 1%nat, (emit (Lapicr ICRLO) d)]. destruct n as [|n].
  - cbn [replicate] in E. rewrite app_nil_r in E. by rewrite E in Et.
  - destruct (IH (emit (Lapicr ICRLO) d) n ltac:(lia)) as (m & d' & -> & El); [unfold emit; rsimpl; rewrite <- app_assoc; exact E|].
    exists (S m), d'. split; [done|]. rewrite El. unfold emit. rsimpl. by rewrite <- app_assoc.
Qed.
Lemma lregs_reads n i l r : lregs (l ++ replicate n (Lapicr i)) r = lregs l r.
Proof. unfold lregs. rewrite foldl_app. induction n; [done|]. cbn. done. Qed.
Lemma ipis_reads n i l c : foldl ipi_ev c (l ++ replicate n (Lapicr i)) = foldl ipi_ev c l.
Proof. rewrite foldl_app. generalize (foldl ipi_ev c l). induction n; [done|]. cbn. done. Qed.

(** lapicinit on a unit that delivers the command: the unit is on, the timer interrupts
    again and again as [IRQ_TIMER], errors as [IRQ_ERROR], the two external lines are masked,
    every priority is let through, and no processor is reset. *)
Lemma lapicinit_sets lapic d r c :
  lapic <> 0 -> (forall l, exists n, (n < patience)%nat /\ Z.land (lapicreg (l ++ replicate n (Lapicr ICRLO)) ICRLO) DELIVS = 0) ->
  exists d', lapicinit lapicreg patience lapic d = Some d' /\
    (let r' := lregs (log d') r in
     r' !! SVR = Some (0x100 + 63) /\ r' !! TIMER = Some (0x20000 + 32) /\ r' !! TICR = Some 10000000 /\
     r' !! LINT0 = Some 0x10000 /\ r' !! LINT1 = Some 0x10000 /\ r' !! ERROR = Some 51 /\ r' !! TPR = Some 0) /\
    (forall b, ipis (log d') c b = ipis (log d) c b).
Proof.
  intros Hl Hd. unfold lapicinit. rewrite (proj2 (Z.eqb_neq _ _) Hl). cbv zeta. unfold lapicr. cbv beta iota zeta.
  match goal with |- context [wait_delivered _ _ ?x] => set (d1 := x); destruct (wait_run d1 (Hd (log d1))) as (n & d2 & -> & E2) end.
  cbn [mbind option_bind]. eexists. split; [reflexivity|]. rewrite log_lapicw, E2. unfold ipis. split.
  - assert (lregs ((log d1 ++ replicate n (Lapicr ICRLO)) ++ [Lapicw TPR (u32 0); Lapicr ID]) r = <[TPR := 0]> (lregs (log d1) r)) as ->.
    { rewrite <- (lregs_reads n ICRLO (log d1)). unfold lregs. by rewrite foldl_app. }
    unfold d1. cbv zeta. destruct (4 <=? _).
    all: rewrite !log_lapicw; unfold emit; rsimpl; rewrite !log_lapicw; unfold lregs; rewrite !foldl_app; cbn [foldl]; split_and!;
      repeat (first [rewrite lookup_insert_eq; reflexivity|rewrite lookup_insert_ne by (vm_compute; discriminate)]).
  - intros b. rewrite foldl_app, ipis_reads. unfold d1. destruct (4 <=? _).
    all: rewrite !log_lapicw; unfold emit; rsimpl; rewrite !log_lapicw, !foldl_app; destruct (foldl ipi_ev c (log d)) as [h f]; reflexivity.
Qed.
End Lapic.
