(* ===== verification/Swtch.v ===== *)
(** * Swtch: the context switch (swtch.S, and the stack allocproc lays out)

    The instructions of swtch.S on the registers and the memory of the kernel. A thread
    that has called [swtch] is a context on its stack; the theorem is that whoever
    switches to that context continues the thread as if the call had returned. *)
From S2P Require Import Prelude Memory CString State.

(** ** The code *)

Module Swtch.
Inductive reg := EAX | EDX | EBX | ESI | EDI | EBP | ESP.
Definition reg_eqb (a b : reg) : bool :=
  match a, b with
  | EAX, EAX | EDX, EDX | EBX, EBX | ESI, ESI | EDI, EDI | EBP, EBP | ESP, ESP => true
  | _, _ => false
  end.
(** The instructions swtch.S uses. *)
Inductive instr :=
  | Movl_load (off : Z) (r : reg)    (* movl off(%esp), r *)
  | Pushl (r : reg) | Popl (r : reg)
  | Movl_store (r b : reg)           (* movl r, (b) *)
  | Movl (a b : reg)                 (* movl a, b *)
  | Ret.
Record cpust := Cpust { rg : reg -> Z; eip : Z; kmem : gmap Z Z }.
Definition setr (r : reg) (v : Z) (f : reg -> Z) : reg -> Z := fun q => if reg_eqb q r then v else f q.
Definition instr_step (i : instr) (s : cpust) : cpust :=
  let '(Cpust f pc m) := s in
  match i with
  | Movl_load off r => Cpust (setr r (ld32 m (u32 (f ESP + off))) f) pc m
  | Pushl r => let sp := u32 (f ESP - 4) in Cpust (setr ESP sp f) pc (st32 m sp (f r))
  | Popl r => Cpust (setr r (ld32 m (f ESP)) (setr ESP (u32 (f ESP + 4)) f)) pc m
  | Movl_store r b => Cpust f pc (st32 m (f b) (f r))
  | Movl a b => Cpust (setr b (f a) f) pc m
  | Ret => Cpust (setr ESP (u32 (f ESP + 4)) f) (ld32 m (f ESP)) m
  end.
Definition swtch_code : list instr :=
  [Movl_load 4 EAX; Movl_load 8 EDX;
   Pushl EBP; Pushl EBX; Pushl ESI; Pushl EDI;
   Movl_store ESP EAX; Movl EDX ESP;
   Popl EDI; Popl ESI; Popl EBX; Popl EBP; Ret].
Definition swtch (s : cpust) : cpust := foldl (fun s i => instr_step i s) s swtch_code.

Section Stack.
Context `{Linker}.
Definition trapframe_size : Z := 76.
Definition context_size : Z := 20.
(** The new kernel stack: room for the trap frame, the address of trapret and a context
    that starts at forkret. The addresses of the frame and of the context. *)
Definition kernel_stack (kstack : Z) (m : gmap Z Z) : Z * Z * gmap Z Z :=
  let sp := kstack + KSTACKSIZE in
  let sp := sp - trapframe_size in
  let tf := sp in
  let sp := sp - 4 in
  let m := st32 m sp trapret_pc in
  let sp := sp - context_size in
  let m := memset m sp 0 context_size in
  let m := st32 m (sp + 16) forkret_pc in
  (tf, sp, m).
End Stack.
End Swtch.
Import Swtch.

(** ** What a switch does *)

(** A struct context in memory. *)
Definition context_at (m : gmap Z Z) (a : Z) (c : context) : Prop :=
  ld32 m a = cx_edi c /\ ld32 m (a + 4) = cx_esi c /\ ld32 m (a + 8) = cx_ebx c /\ ld32 m (a + 12) = cx_ebp c /\ ld32 m (a + 16) = cx_eip c.

(** [swtch(old, new)] is called with stack pointer [sp]; the places it reads and writes
    do not overlap. *)
Record at_swtch (s : cpust) (sp old new ret : Z) : Prop := {
  as_sp : rg s ESP = sp;
  as_ret : ld32 (kmem s) sp = ret;
  as_old : ld32 (kmem s) (sp + 4) = old;
  as_new : ld32 (kmem s) (sp + 8) = new;
  as_range : 16 <= sp <= 4294967296 - 12;
  as_new_range : 0 <= new <= 4294967296 - 21;
  as_old_apart : old + 4 <= sp - 16 \/ sp + 4 <= old;
  as_new_apart : (new + 20 <= sp - 16 \/ sp <= new) /\ (new + 20 <= old \/ old + 4 <= new);
  as_regs r : 0 <= rg s r < 4294967296;
}.
(** One push and one pop, by what they do to the registers. *)
Lemma push_step r f pc m sp : f ESP = sp -> 4 <= sp < 4294967296 ->
  exists f', instr_step (Pushl r) (Cpust f pc m) = Cpust f' pc (st32 m (sp - 4) (f r)) /\ f' ESP = sp - 4 /\ forall q, q <> ESP -> f' q = f q.
Proof.
  intros E H. cbn [instr_step]. rewrite E, u32_small by lia. eexists. split; [reflexivity|]. split; [done|]. intros q Hq. unfold setr. by destruct q.
Qed.
Lemma pop_step r f pc m sp : f ESP = sp -> r <> ESP -> 0 <= sp < 4294967296 - 4 ->
  exists f', instr_step (Popl r) (Cpust f pc m) = Cpust f' pc m /\ f' r = ld32 m sp /\ f' ESP = sp + 4 /\ forall q, q <> ESP -> q <> r -> f' q = f q.
Proof.
  intros E Hr H. cbn [instr_step]. rewrite E, u32_small by lia. eexists. split; [reflexivity|]. unfold setr. split; [by destruct r|]. split; [by destruct r|]. intros q Hq Hqr. by destruct q, r.
Qed.
Lemma swtch_pushes f pc m sp : f ESP = sp -> 16 <= sp < 4294967296 ->
  exists f', foldl (fun s i => instr_step i s) (Cpust f pc m) [Pushl EBP; Pushl EBX; Pushl ESI; Pushl EDI] =
    Cpust f' pc (st32 (st32 (st32 (st32 m (sp - 4) (f EBP)) (sp - 8) (f EBX)) (sp - 12) (f ESI)) (sp - 16) (f EDI)) /\ f' ESP = sp - 16 /\ forall q, q <> ESP -> f' q = f q.
Proof.
  intros E H. cbn [foldl].
  destruct (push_step EBP f pc m sp E ltac:(lia)) as (f1 & -> & E1 & R1). destruct (push_step EBX f1 pc (st32 m (sp - 4) (f EBP)) _ E1 ltac:(lia)) as (f2 & -> & E2 & R2).
  match goal with |- context [instr_step (Pushl ESI) (Cpust _ _ ?m)] => destruct (push_step ESI f2 pc m _ E2 ltac:(lia)) as (f3 & -> & E3 & R3) end.
  match goal with |- context [instr_step (Pushl EDI) (Cpust _ _ ?m)] => destruct (push_step EDI f3 pc m _ E3 ltac:(lia)) as (f4 & -> & E4 & R4) end.
  exists f4. rewrite !R3, !R2, !R1 by done. replace (sp - 4 - 4 - 4 - 4) with (sp - 16) in * by lia. replace (sp - 4 - 4 - 4) with (sp - 12) by lia. replace (sp - 4 - 4) with (sp - 8) by lia.
  split; [done|]. split; [done|]. intros q Hq. by rewrite R4, R3, R2, R1.
Qed.
Lemma swtch_pops f pc m sp : f ESP = sp -> 0 <= sp < 4294967296 - 20 ->
  let s' := foldl (fun s i => instr_step i s) (Cpust f pc m) [Popl EDI; Popl ESI; Popl EBX; Popl EBP; Ret] in
  rg s' EDI = ld32 m sp /\ rg s' ESI = ld32 m (sp + 4) /\ rg s' EBX = ld32 m (sp + 8) /\ rg s' EBP = ld32 m (sp + 12) /\ eip s' = ld32 m (sp + 16) /\ rg s' ESP = sp + 20 /\ kmem s' = m.
Proof.
  intros E H. cbv zeta. cbn [foldl].
  destruct (pop_step EDI f pc m sp E ltac:(done) ltac:(lia)) as (f1 & -> & V1 & E1 & R1). destruct (pop_step ESI f1 pc m _ E1 ltac:(done) ltac:(lia)) as (f2 & -> & V2 & E2 & R2).
  destruct (pop_step EBX f2 pc m _ E2 ltac:(done) ltac:(lia)) as (f3 & -> & V3 & E3 & R3). destruct (pop_step EBP f3 pc m _ E3 ltac:(done) ltac:(lia)) as (f4 & -> & V4 & E4 & R4).
  cbn [instr_step rg eip kmem]. unfold setr. cbn [reg_eqb]. rewrite E4, u32_small by lia.
  rewrite (R4 EDI), (R3 EDI), (R2 EDI), V1, (R4 ESI), (R3 ESI), V2, (R4 EBX), V3, V4 by done.
  replace (sp + 4 + 4 + 4 + 4 + 4) with (sp + 20) by lia. replace (sp + 4 + 4 + 4 + 4) with (sp + 16) by lia. replace (sp + 4 + 4 + 4) with (sp + 12) by lia. replace (sp + 4 + 4) with (sp + 8) by lia.
  split_and!; done.
Qed.
(** The stores of the pushes, and of the pointer to them. *)
Lemma saved_context m sp old a b x y : 0 <= a < 4294967296 -> 0 <= b < 4294967296 -> 0 <= x < 4294967296 -> 0 <= y < 4294967296 -> 16 <= sp < 4294967296 -> old + 4 <= sp - 16 \/ sp + 4 <= old ->
  let m' := st32 (st32 (st32 (st32 (st32 m (sp - 4) a) (sp - 8) b) (sp - 12) x) (sp - 16) y) old (sp - 16) in
  ld32 m' old = sp - 16 /\ context_at m' (sp - 16) (Context y x b a (ld32 m sp)) /\ (forall k, (k < sp - 16 \/ sp <= k) -> (k < old \/ old + 4 <= k) -> ldb m' k = ldb m k).
Proof.
  intros Ha Hb Hx Hy Hs Ho. cbv zeta. split; [|split].
  - rewrite ld32_st32_eq. apply u32_small. lia.
  - unfold context_at. cbn [cx_edi cx_esi cx_ebx cx_ebp cx_eip]. replace (sp - 16 + 4) with (sp - 12) by lia. replace (sp - 16 + 8) with (sp - 8) by lia. replace (sp - 16 + 12) with (sp - 4) by lia. replace (sp - 16 + 16) with sp by lia.
    rewrite !(ld32_st32_ne _ old) by lia. split_and!; rewrite ?ld32_st32_eq, ?u32_small by done; [done|..].
    all: repeat first [rewrite ld32_st32_eq, u32_small by done; done|rewrite ld32_st32_ne by lia]. done.
  - intros k H1 H2. by rewrite !ldb_st32_ne by lia.
Qed.
Lemma swtch_run s sp old new ret c :
  at_swtch s sp old new ret -> context_at (kmem s) new c ->
  let s' := swtch s in
  rg s' EDI = cx_edi c /\ rg s' ESI = cx_esi c /\ rg s' EBX = cx_ebx c /\ rg s' EBP = cx_ebp c /\ eip s' = cx_eip c /\ rg s' ESP = new + 20 /\
  ld32 (kmem s') old = sp - 16 /\ context_at (kmem s') (sp - 16) (Context (rg s EDI) (rg s ESI) (rg s EBX) (rg s EBP) ret) /\
  (forall a, (a < sp - 16 \/ sp <= a) -> (a < old \/ old + 4 <= a) -> ldb (kmem s') a = ldb (kmem s) a).
Proof.
  intros [H1 H2 H3 H4 H5 H6 H7 H8 H9] (C1 & C2 & C3 & C4 & C5). destruct s as [f pc m]. cbn [rg kmem] in *.
  unfold swtch. change swtch_code with ([Movl_load 4 EAX; Movl_load 8 EDX] ++ [Pushl EBP; Pushl EBX; Pushl ESI; Pushl EDI] ++ [Movl_store ESP EAX; Movl EDX ESP] ++ [Popl EDI; Popl ESI; Popl EBX; Popl EBP; Ret]).
  rewrite !foldl_app. set (f0 := setr EDX new (setr EAX old f)).
  assert (foldl (fun s i => instr_step i s) (Cpust f pc m) [Movl_load 4 EAX; Movl_load 8 EDX] = Cpust f0 pc m) as ->.
  { cbn [foldl instr_step]. unfold setr at 2. cbn [reg_eqb]. by rewrite H1, (u32_small (sp + 4)), (u32_small (sp + 8)), H3, H4 by lia. }
  destruct (swtch_pushes f0 pc m sp) as (f1 & -> & R1 & Q1); [exact H1|lia|].
  change (f0 EBP) with (f EBP). change (f0 EBX) with (f EBX). change (f0 ESI) with (f ESI). change (f0 EDI) with (f EDI).
  assert (forall m1, foldl (fun s i => instr_step i s) (Cpust f1 pc m1) [Movl_store ESP EAX; Movl EDX ESP] = Cpust (setr ESP new f1) pc (st32 m1 old (sp - 16))) as ->.
  { intros m1. cbn [foldl instr_step]. by rewrite R1, (Q1 EAX), (Q1 EDX) by done. }
  destruct (saved_context m sp old (f EBP) (f EBX) (f ESI) (f EDI) (H9 EBP) (H9 EBX) (H9 ESI) (H9 EDI) ltac:(lia) H7) as (S1 & S2 & S3). rewrite H2 in S2.
  set (m' := st32 _ old _) in *. assert (forall a, new <= a <= new + 16 -> ld32 m' a = ld32 m a) as Hn by (intros a Ha; apply ld32_ext; intros b Hb; apply S3; lia).
  destruct (swtch_pops (setr ESP new f1) pc m' new eq_refl ltac:(lia)) as (P1 & P2 & P3 & P4 & P5 & P6 & P7). cbv zeta.
  rewrite P1, P2, P3, P4, P5, P6, P7, !Hn by lia. done.
Qed.

(** C14. A kernel thread that calls swtch goes on, when anyone later switches to the context
    pointer that the call stored, as if the call had returned: at its return address, with
    its stack pointer and the registers a callee keeps, provided its stack was left
    alone meanwhile; and the one who switched to it has become such a context in turn. *)
Theorem swtch_resumes (s s2 : cpust) (sp old new ret sp2 old2 ret2 : Z) (c : context) (k := ld32 (kmem (swtch s)) old)
  (Hs : at_swtch s sp old new ret) (Hc : context_at (kmem s) new c)
  (Hs2 : at_swtch s2 sp2 old2 k ret2) (Hkeep : forall a, sp - 16 <= a < sp + 4 -> ldb (kmem s2) a = ldb (kmem (swtch s)) a) :
  let s' := swtch s2 in
  eip s' = ret /\ rg s' ESP = sp + 4 /\ (forall r, r ∈ [EBX; ESI; EDI; EBP] -> rg s' r = rg s r) /\
  ld32 (kmem s') old2 = sp2 - 16 /\ context_at (kmem s') (sp2 - 16) (Context (rg s2 EDI) (rg s2 ESI) (rg s2 EBX) (rg s2 EBP) ret2).
Proof.
  destruct (swtch_run s sp old new ret c Hs Hc) as (_ & _ & _ & _ & _ & _ & Hold & Hctx & _). subst k. rewrite Hold in Hs2.
  assert (context_at (kmem s2) (sp - 16) (Context (rg s EDI) (rg s ESI) (rg s EBX) (rg s EBP) ret)) as Hctx2.
  { destruct Hctx as (C1 & C2 & C3 & C4 & C5). split_and!; (etrans; [|eassumption]); apply ld32_ext; intros b Hb; apply Hkeep; lia. }
  destruct (swtch_run s2 sp2 old2 (sp - 16) ret2 _ Hs2 Hctx2) as (R1 & R2 & R3 & R4 & R5 & R6 & R7 & R8 & _).
  split; [exact R5|]. split; [rewrite R6; lia|]. split; [|done]. intros r Hr. rewrite !elem_of_cons, elem_of_nil in Hr. by destruct Hr as [->|[->|[->|[->|[]]]]].
Qed.
(** [call swtch(old, new)] from a place that goes on at [ret]. *)
Definition call (old new ret : Z) (s : cpust) : cpust :=
  let '(Cpust f pc m) := s in
  let push v m sp := (st32 m (u32 (sp - 4)) v, u32 (sp - 4)) in
  let '(m, sp) := push new m (f ESP) in
  let '(m, sp) := push old m sp in
  let '(m, sp) := push ret m sp in
  Cpust (setr ESP sp f) pc m.

Lemma swtch_resumes_witness :
  let s := call 0x80300000 0x80202000 0x80105000 (Cpust (fun r => match r with EBX => 7 | ESP => 0x80201000 | _ => 5 end) 0 (st32 ∅ 0x80202010 0x80106000)) in
  let s2 := call 0x80300004 (ld32 (kmem (swtch s)) 0x80300000) 0x80106000 (swtch s) in
  eip (swtch s2) = 0x80105000 /\ rg (swtch s2) EBX = 7.
Proof.
  intros s s2. assert (forall r, 0 <= rg s r < 4294967296) as Hr by (intros []; vm_compute; split; congruence).
  assert (forall r, 0 <= rg s2 r < 4294967296) as Hr2 by (intros []; vm_compute; split; congruence).
  destruct (swtch_resumes s s2 (0x80201000 - 12) 0x80300000 0x80202000 0x80105000 (0x80202014 - 12) 0x80300004 0x80106000 (Context 0 0 0 0 0x80106000)) as (E & _ & R & _).
  - split; try exact Hr; vm_compute; try reflexivity; intuition congruence.
  - vm_compute. auto.
  - split; try exact Hr2; vm_compute; try reflexivity; intuition congruence.
  - intros a Ha. assert (exists j, (j < 20)%nat /\ a = 0x80200fe4 + Z.of_nat j) as (j & Hj & ->) by (exists (Z.to_nat (a - 0x80200fe4)); lia).
    do 20 (destruct j as [|j]; [by vm_compute|]). lia.
  - split; [exact E|]. rewrite R by (by left). reflexivity.
Defined.

(** A new process, when the scheduler first switches to it, starts at forkret, which finds
    the address of trapret as its return address and above it the trap frame. *)
Lemma first_switch `{Linker} kstack s sp old ret tf ctx m :
  kernel_stack kstack m = (tf, ctx, kmem s) -> 0 <= kstack <= 4294967296 - 4096 -> 0 <= forkret_pc < 4294967296 -> 0 <= trapret_pc < 4294967296 ->
  at_swtch s sp old ctx ret -> ~ kstack <= sp - 16 < kstack + 4096 -> ~ kstack <= sp < kstack + 4096 -> ~ kstack <= old < kstack + 4096 -> ~ kstack <= old + 3 < kstack + 4096 ->
  let s' := swtch s in
  eip s' = forkret_pc /\ ld32 (kmem s') (rg s' ESP) = trapret_pc /\ rg s' ESP + 4 = tf /\ tf + trapframe_size = kstack + KSTACKSIZE.
Proof.
  unfold kernel_stack, KSTACKSIZE, trapframe_size, context_size. intros [= <- <- Em] Hk Hf Ht Hs N1 N2 N3 N4. set (ctx := kstack + 4096 - 76 - 4 - 20) in *.
  assert (context_at (kmem s) ctx (Context 0 0 0 0 forkret_pc)) as Hc.
  { rewrite <- Em. unfold context_at. cbn [cx_edi cx_esi cx_ebx cx_ebp cx_eip]. rewrite ld32_st32_eq, u32_small by done. rewrite !ld32_st32_ne by lia.
    assert (forall a, ctx <= a <= ctx + 16 -> ld32 (memset (st32 m (kstack + 4096 - 76 - 4) trapret_pc) ctx 0 20) a = 0) as E.
    { intros a Ha. unfold ld32. rewrite !ldb_memset by lia. rewrite !decide_True by lia. done. }
    rewrite !E by lia. done. }
  destruct (swtch_run s sp old ctx ret _ Hs Hc) as (_ & _ & _ & _ & R5 & R6 & _ & _ & Rm).
  split; [exact R5|]. rewrite R6. split; [|unfold ctx; lia]. etrans; [apply (ld32_ext _ (kmem s)); intros b Hb; apply Rm; unfold ctx in *; lia|].
  rewrite <- Em. rewrite ld32_st32_ne by lia. etrans; [apply (ld32_ext _ (st32 m (kstack + 4096 - 76 - 4) trapret_pc)); intros b Hb; rewrite ldb_memset by lia; by rewrite decide_False by lia|].
  replace (ctx + 20) with (kstack + 4096 - 76 - 4) by (unfold ctx; lia). rewrite ld32_st32_eq. by apply u32_small.
Qed.
