(* ===== verification/Segments.v ===== *)
(** * Segments: descriptors and the task state (mmu.h, seginit and switchuvm of vm.c)

    Descriptors are records of bit fields that lie in memory as two words. The
    processor's part (reading a descriptor, loading %gs and the task register, the stack
    it takes on an interrupt from user mode) is defined from its manual; the theorems say
    what it makes of the descriptors the code writes. *)
From S2P Require Import Prelude Memory State.

(** ** The code *)

Module Segments.
Record segdesc := Segdesc {
  lim_15_0 : Z; base_15_0 : Z; base_23_16 : Z; sd_type : Z; sd_s : Z; sd_dpl : Z; sd_p : Z;
  lim_19_16 : Z; avl : Z; rsv1 : Z; db : Z; sd_g : Z; base_31_24 : Z
}.
Definition SEG (ty base lim d : Z) : segdesc :=
  Segdesc (Z.land (Z.shiftr lim 12) 0xffff) (Z.land (u32 base) 0xffff) (Z.land (Z.shiftr (u32 base) 16) 0xff)
    ty 1 d 1 (Z.shiftr (u32 lim) 28) 0 0 1 1 (Z.shiftr (u32 base) 24).
Definition SEG16 (ty base lim d : Z) : segdesc :=
  Segdesc (Z.land lim 0xffff) (Z.land (u32 base) 0xffff) (Z.land (Z.shiftr (u32 base) 16) 0xff)
    ty 1 d 1 (Z.shiftr (u32 lim) 16) 0 0 1 0 (Z.shiftr (u32 base) 24).
(** The two words of a descriptor: the fields from the lowest bit on, each cut to its
    width. *)
Definition word0 (d : segdesc) : Z := lim_15_0 d mod 65536 + 65536 * (base_15_0 d mod 65536).
Definition word1 (d : segdesc) : Z :=
  base_23_16 d mod 256 + 256 * (sd_type d mod 16) + 4096 * (sd_s d mod 2) + 8192 * (sd_dpl d mod 4) + 32768 * (sd_p d mod 2) +
  65536 * (lim_19_16 d mod 16) + 1048576 * (avl d mod 2) + 2097152 * (rsv1 d mod 2) + 4194304 * (db d mod 2) + 8388608 * (sd_g d mod 2) +
  16777216 * (base_31_24 d mod 256).

Definition STA_X : Z := 0x8.
Definition STA_W : Z := 0x2.
Definition STA_R : Z := 0x2.
Definition STS_T32A : Z := 0x9.
Definition SEG_KCPU : Z := 3.
Definition NSEGS : Z := 7.

(** struct cpu: id, scheduler, ts, gdt, started, ncli, intena, cpu, proc. *)
Definition off_ts : Z := 8.
Definition sizeof_ts : Z := 104.
Definition off_gdt : Z := off_ts + sizeof_ts.
Definition off_cpu : Z := off_gdt + 8 * NSEGS + 12.
Definition off_proc : Z := off_cpu + 4.
(** struct taskstate *)
Definition ts_esp0 : Z := 4.
Definition ts_ss0 : Z := 8.

(** What a segment is to the processor. *)
Record segment := Segment { sg_base : Z; sg_limit : Z; sg_type : Z; sg_sys : bool; sg_dpl : Z; sg_present : bool }.
Definition decode (w0 w1 : Z) : segment :=
  let l := w0 mod 65536 + 65536 * (w1 / 65536 mod 16) in
  Segment (w0 / 65536 + 65536 * (w1 mod 256) + 16777216 * (w1 / 16777216))
    (if w1 / 8388608 mod 2 =? 1 then l * 4096 + 4095 else l) (w1 / 256 mod 16) (w1 / 4096 mod 2 =? 0) (w1 / 8192 mod 4) (w1 / 32768 mod 2 =? 1).

(** Memory, the register of the descriptor table (base and limit), the segments that %gs
    and the task register hold. *)
Record sst := Sst { smem : gmap Z Z; gdtr : Z * Z; gs : option segment; task : option segment }.
#[export] Instance eta_sst : Eta sst := {| eta s := Sst (smem s) (gdtr s) (gs s) (task s) |}.
#[export] Instance upd_smem : Upd smem := ltac:(field_update smem).
#[export] Instance upd_gdtr : Upd gdtr := ltac:(field_update gdtr).
#[export] Instance upd_gs : Upd gs := ltac:(field_update gs).
#[export] Instance upd_task : Upd task := ltac:(field_update task).

(** The descriptor a selector names. *)
Definition select (sel : Z) (s : sst) : option segment :=
  let '(b, l) := gdtr s in
  let i := sel / 8 in
  if 8 * i + 7 <=? l then Some (decode (ld32 (smem s) (b + 8 * i)) (ld32 (smem s) (b + 8 * i + 4))) else None.

Definition put_desc (gdt i : Z) (d : segdesc) (s : sst) : sst :=
  s <| smem ::= fun m => st32 (st32 m (gdt + 8 * i) (word0 d)) (gdt + 8 * i + 4) (word1 d) |>.
Definition lgdt (a size : Z) (s : sst) : sst :=
  let pd0 := u16 (size - 1) in let pd1 := u16 (u32 a) in let pd2 := u16 (Z.shiftr (u32 a) 16) in
  s <| gdtr := (pd1 + 65536 * pd2, pd0) |>.
(** [None] is a fault: the descriptor is not present or not of a data segment. *)
Definition loadgs (sel : Z) (s : sst) : option sst :=
  d ← select sel s;
  if negb (sg_present d) || sg_sys d || Z.testbit (sg_type d) 3 then None else Some (s <| gs := Some d |>).
(** A store to %gs:off. *)
Definition gs_store (off v : Z) (s : sst) : option sst :=
  d ← gs s;
  if off + 3 <=? sg_limit d then Some (s <| smem ::= fun m => st32 m (u32 (sg_base d + off)) v |>) else None.
(** A fault unless the descriptor is of a task that is not busy; it becomes busy. *)
Definition ltr (sel : Z) (s : sst) : option sst :=
  d ← select sel s;
  if negb (sg_present d) || negb (sg_sys d) || negb (sg_type d =? STS_T32A) then None
  else
    let a := (gdtr s).1 + 8 * (sel / 8) + 4 in
    Some (s <| smem ::= fun m => st32 m a (Z.lor (ld32 m a) 0x200) |> <| task := Some d |>).

(** [c] is [&cpus[cpunum()]]. *)
Definition seginit (c : Z) (s : sst) : option sst :=
  let gdt := c + off_gdt in
  let s := put_desc gdt SEG_KCODE (SEG (Z.lor STA_X STA_R) 0 0xffffffff 0) s in
  let s := put_desc gdt SEG_KDATA (SEG STA_W 0 0xffffffff 0) s in
  let s := put_desc gdt SEG_UCODE (SEG (Z.lor STA_X STA_R) 0 0xffffffff DPL_USER) s in
  let s := put_desc gdt SEG_UDATA (SEG STA_W 0 0xffffffff DPL_USER) s in
  let s := put_desc gdt SEG_KCPU (SEG STA_W (c + off_cpu) 8 0) s in
  let s := lgdt gdt (8 * NSEGS) s in
  s ← loadgs (Z.shiftl SEG_KCPU 3) s;
  s ← gs_store 0 c s;
  gs_store 4 0 s.
(** The task state of switchuvm: [c] is [cpu], [kstack] that of the process. *)
Definition tss_desc (base : Z) : segdesc :=
  let d := SEG16 STS_T32A base (sizeof_ts - 1) 0 in
  Segdesc (lim_15_0 d) (base_15_0 d) (base_23_16 d) (sd_type d) 0 (sd_dpl d) (sd_p d) (lim_19_16 d) (avl d) (rsv1 d) (db d) (sd_g d) (base_31_24 d).
Definition set_tss (c kstack : Z) (s : sst) : sst :=
  let s := put_desc (c + off_gdt) SEG_TSS (tss_desc (c + off_ts)) s in
  let s := s <| smem ::= fun m => stbytes m (c + off_ts + ts_ss0) (bytes16 (Z.shiftl SEG_KDATA 3)) |> in
  s <| smem ::= fun m => st32 m (c + off_ts + ts_esp0) (u32 (kstack + KSTACKSIZE)) |>.
Definition switch_tss (c kstack : Z) (s : sst) : option sst := ltr (Z.shiftl SEG_TSS 3) (set_tss c kstack s).
(** The stack the processor takes on an interrupt from user mode: segment selector and
    pointer, from the task state. *)
Definition kernel_entry_stack (s : sst) : option (Z * Z) :=
  d ← task s;
  Some (ldb (smem s) (sg_base d + ts_ss0) + 256 * ldb (smem s) (sg_base d + ts_ss0 + 1), ld32 (smem s) (sg_base d + ts_esp0)).
End Segments.
Import Segments.

(** ** What the processor makes of the descriptors *)

Ltac field_bits := rewrite ?Z.shiftr_div_pow2 by lia;
  change 0xffff with (Z.ones 16); change 0xff with (Z.ones 8); rewrite ?Z.land_ones by lia;
  change (2 ^ 16) with 65536; change (2 ^ 8) with 256; change (2 ^ 12) with 4096; change (2 ^ 24) with 16777216; change (2 ^ 28) with 268435456.

Lemma decode_words l0 b0 b1 ty sb d l1 gb b2 :
  0 <= l0 < 65536 -> 0 <= b0 < 65536 -> 0 <= b1 < 256 -> 0 <= ty < 16 -> 0 <= sb < 2 -> 0 <= d < 4 -> 0 <= l1 < 16 -> 0 <= gb < 2 -> 0 <= b2 < 256 ->
  decode (l0 + 65536 * b0) (b1 + 256 * ty + 4096 * sb + 8192 * d + 32768 * 1 + 65536 * l1 + 1048576 * 0 + 2097152 * 0 + 4194304 * 1 + 8388608 * gb + 16777216 * b2) =
    Segment (b0 + 65536 * b1 + 16777216 * b2) (if gb =? 1 then (l0 + 65536 * l1) * 4096 + 4095 else l0 + 65536 * l1) ty (sb =? 0) d true.
Proof.
  intros. match goal with |- decode ?x ?y = _ => set (w0 := x); set (w1 := y) end.
  assert (w0 mod 65536 = l0 /\ w0 / 65536 = b0) as [E9 E10] by (unfold w0; mlia).
  assert (w1 mod 256 = b1 /\ w1 / 256 mod 16 = ty) as [E1 E2] by (unfold w1; mlia).
  assert (w1 / 4096 mod 2 = sb /\ w1 / 8192 mod 4 = d) as [E3 E4] by (unfold w1; mlia).
  assert (w1 / 32768 mod 2 = 1 /\ w1 / 65536 mod 16 = l1) as [E5 E6] by (unfold w1; mlia).
  assert (w1 / 8388608 mod 2 = gb /\ w1 / 16777216 = b2) as [E7 E8] by (unfold w1; mlia).
  unfold decode. by rewrite E1, E2, E3, E4, E5, E6, E7, E8, E9, E10.
Qed.
(** The base in its three parts. *)
Lemma base_parts base : 0 <= base < 4294967296 -> base mod 65536 + 65536 * (base / 65536 mod 256) + 16777216 * (base / 16777216) = base.
Proof. mlia. Qed.
(** The processor reads back what SEG was given: the base exactly, the limit up to whole
    pages. *)
Lemma SEG_decode ty base lim d :
  0 <= ty < 16 -> 0 <= base < 4294967296 -> 0 <= lim < 4294967296 -> 0 <= d < 4 ->
  decode (word0 (SEG ty base lim d)) (word1 (SEG ty base lim d)) = Segment base (lim / 4096 * 4096 + 4095) ty false d true.
Proof.
  intros Ht Hb Hl Hd. unfold SEG, word0, word1. cbn [lim_15_0 base_15_0 base_23_16 sd_type sd_s sd_dpl sd_p lim_19_16 avl rsv1 db sd_g base_31_24].
  rewrite !(u32_small base), !(u32_small lim) by done. field_bits. rewrite !Zmod_mod.
  rewrite (Z.mod_small (base / 16777216) 256), (Z.mod_small (lim / 268435456) 16), (Z.mod_small ty 16), (Z.mod_small d 4) by mlia.
  change (1 mod 2) with 1. change (0 mod 2) with 0. rewrite decode_words by mlia. rewrite base_parts by done.
  change (1 =? 1) with true. cbv iota. f_equal. mlia.
Qed.
Lemma tss_decode base : 0 <= base < 4294967296 ->
  decode (word0 (tss_desc base)) (word1 (tss_desc base)) = Segment base 103 STS_T32A true 0 true.
Proof.
  intros Hb. unfold tss_desc, SEG16, word0, word1. cbn [lim_15_0 base_15_0 base_23_16 sd_type sd_s sd_dpl sd_p lim_19_16 avl rsv1 db sd_g base_31_24].
  rewrite !(u32_small base) by done. field_bits. rewrite !Zmod_mod. rewrite (Z.mod_small (base / 16777216)) by mlia.
  change ((sizeof_ts - 1) mod 65536) with 103. change (u32 (sizeof_ts - 1) / 65536 mod 16) with 0. change (STS_T32A mod 16) with 9. change (1 mod 2) with 1. change (0 mod 2) with 0. change (0 mod 4) with 0.
  rewrite decode_words by mlia. by rewrite base_parts by done.
Qed.
Lemma word_range d : 0 <= word0 d < 4294967296 /\ 0 <= word1 d < 4294967296.
Proof. unfold word0, word1. mlia. Qed.

(** The segments of the kernel and of user programs: all of memory. *)
Definition flat (i : Z) : option segment :=
  match i with
  | 1 => Some (Segment 0 0xffffffff (STA_X + STA_R) false 0 true)
  | 2 => Some (Segment 0 0xffffffff STA_W false 0 true)
  | 4 => Some (Segment 0 0xffffffff (STA_X + STA_R) false DPL_USER true)
  | 5 => Some (Segment 0 0xffffffff STA_W false DPL_USER true)
  | _ => None
  end.
(** The processor at [c] has its segments, and %gs leads to its struct cpu. *)
Record segments_ok (c : Z) (s : sst) : Prop := {
  sok_gdtr : gdtr s = (c + off_gdt, 55);
  sok_flat i d : flat i = Some d -> select (Z.shiftl i 3) s = Some d;
  sok_gs : gs s = Some (Segment (c + off_cpu) 4095 STA_W false 0 true);
  sok_cpu : ld32 (smem s) (c + off_cpu) = c /\ ld32 (smem s) (c + off_proc) = 0;
}.
Definition desc_at (m : gmap Z Z) (b i : Z) : segment := decode (ld32 m (b + 8 * i)) (ld32 m (b + 8 * i + 4)).
Lemma select_at i s b : gdtr s = (b, 55) -> 0 <= i < 7 -> select (Z.shiftl i 3) s = Some (desc_at (smem s) b i).
Proof.
  intros E Hi. unfold select. rewrite E. rewrite Z.shiftl_mul_pow2 by lia. change (2 ^ 3) with 8. rewrite Z.div_mul by lia. by rewrite (proj2 (Z.leb_le _ _)) by lia.
Qed.
Lemma desc_put_eq b i d s : desc_at (smem (put_desc b i d s)) b i = decode (word0 d) (word1 d).
Proof.
  destruct (word_range d). unfold desc_at, put_desc. rsimpl. rewrite ld32_st32_eq, ld32_st32_ne, ld32_st32_eq by lia. by rewrite !u32_small.
Qed.
Lemma desc_put_ne b i j d s : i <> j -> desc_at (smem (put_desc b j d s)) b i = desc_at (smem s) b i.
Proof. intros Ha. unfold desc_at, put_desc. rsimpl. by rewrite !ld32_st32_ne by lia. Qed.
Lemma desc_ext m m' b i : (forall a, b + 8 * i <= a < b + 8 * i + 8 -> ldb m a = ldb m' a) -> desc_at m b i = desc_at m' b i.
Proof. intros E. unfold desc_at. f_equal; apply ld32_ext; intros; apply E; lia. Qed.
(** A store elsewhere. *)
Lemma desc_st32 m a v b i : a + 4 <= b + 8 * i \/ b + 8 * i + 8 <= a -> desc_at (st32 m a v) b i = desc_at m b i.
Proof. intros Ha. unfold desc_at. by rewrite !ld32_st32_ne by lia. Qed.
Lemma lgdt_at a size s : 0 <= a < 4294967296 -> 1 <= size <= 65536 -> gdtr (lgdt a size s) = (a, size - 1) /\ smem (lgdt a size s) = smem s.
Proof.
  intros Ha Hs. split; [|done]. unfold lgdt. rsimpl. rewrite u32_small by done. rewrite Z.shiftr_div_pow2 by lia. change (2 ^ 16) with 65536. f_equal; mlia.
Qed.

(** The table seginit writes. *)
Lemma table_desc c s : 0 <= c -> c + off_proc + 4 <= 4294967296 ->
  let gdt := c + off_gdt in
  let s' := put_desc gdt SEG_KCPU (SEG STA_W (c + off_cpu) 8 0)
    (put_desc gdt SEG_UDATA (SEG STA_W 0 0xffffffff DPL_USER) (put_desc gdt SEG_UCODE (SEG (Z.lor STA_X STA_R) 0 0xffffffff DPL_USER)
    (put_desc gdt SEG_KDATA (SEG STA_W 0 0xffffffff 0) (put_desc gdt SEG_KCODE (SEG (Z.lor STA_X STA_R) 0 0xffffffff 0) s)))) in
  desc_at (smem s') gdt SEG_KCPU = Segment (c + off_cpu) 4095 STA_W false 0 true /\
  (forall i d, flat i = Some d -> desc_at (smem s') gdt i = d).
Proof.
  intros H0 H1 gdt s'. unfold off_proc, off_cpu, off_gdt, off_ts, sizeof_ts, NSEGS in *. split.
  - unfold s'. rewrite desc_put_eq, SEG_decode by (done || lia). done.
  - intros i d Hi. assert (i = 1 \/ i = 2 \/ i = 4 \/ i = 5) as Hc by (destruct i as [|[[[]|[[]| |]|]|[[[]|[]|]|[[]|[]|]|]|]|]; cbn in Hi; try discriminate Hi; lia).
    unfold s'. destruct Hc as [->|[->|[->| ->]]]; injection Hi as <-.
    + rewrite !(desc_put_ne gdt 1) by done. rewrite (desc_put_eq gdt 1). reflexivity.
    + rewrite !(desc_put_ne gdt 2) by done. rewrite (desc_put_eq gdt 2). reflexivity.
    + rewrite !(desc_put_ne gdt 4) by done. rewrite (desc_put_eq gdt 4). reflexivity.
    + rewrite !(desc_put_ne gdt 5) by done. rewrite (desc_put_eq gdt 5). reflexivity.
Qed.
Lemma flat_index i d : flat i = Some d -> 0 <= i < 6.
Proof. destruct i as [|[[[]|[[]| |]|]|[[[]|[]|]|[[]|[]|]|]|]|]; cbn; intros; try discriminate; lia. Qed.
Lemma gs_store_at b off v s : gs s = Some (Segment b 4095 STA_W false 0 true) -> 0 <= off <= 4092 -> 0 <= b + off < 4294967296 ->
  gs_store off v s = Some (s <| smem ::= fun m => st32 m (b + off) v |>).
Proof. intros E Ho Hb. unfold gs_store. rewrite E. cbn [mbind option_bind sg_limit sg_base]. rewrite (proj2 (Z.leb_le _ _)) by lia. by rewrite u32_small. Qed.
(** The end of seginit, once the table [s] is there. *)
Lemma seginit_load c s : 0 <= c -> c + off_proc + 4 <= 4294967296 ->
  desc_at (smem s) (c + off_gdt) SEG_KCPU = Segment (c + off_cpu) 4095 STA_W false 0 true -> (forall i d, flat i = Some d -> desc_at (smem s) (c + off_gdt) i = d) ->
  exists s', (s ← loadgs (Z.shiftl SEG_KCPU 3) (lgdt (c + off_gdt) (8 * NSEGS) s); s ← gs_store 0 c s; gs_store 4 0 s) = Some s' /\ segments_ok c s'.
Proof.
  intros H0 H1 Tk Tf. assert (off_gdt = 112 /\ off_cpu = 180 /\ off_proc = 184 /\ 8 * NSEGS = 56) as (E1 & E2 & E3 & E4) by (by vm_compute). rewrite E3 in H1. rewrite E1, E2 in *. rewrite E4.
  destruct (lgdt_at (c + 112) 56 s ltac:(lia) ltac:(lia)) as [Eg Em]. revert Eg Em. generalize (lgdt (c + 112) 56 s). intros s6 Eg Em. change (56 - 1) with 55 in Eg.
  unfold loadgs. rewrite (select_at SEG_KCPU s6 _ Eg), Em, Tk by done. cbn [mbind option_bind sg_present sg_sys sg_type negb orb]. change (Z.testbit STA_W 3) with false. cbv iota. cbn [mbind option_bind].
  rewrite (gs_store_at (c + 180) 0) by (done || lia). cbn [mbind option_bind]. rewrite (gs_store_at (c + 180) 4) by (done || lia). eexists. split; [reflexivity|].
  split; rewrite ?E1, ?E2, ?E3; rsimpl.
  - exact Eg.
  - intros i d Hi. pose proof (flat_index i d Hi) as Hr. rewrite (select_at i _ (c + 112)); [|by rsimpl|lia]. rsimpl. rewrite !desc_st32 by lia. rewrite Em. by rewrite (Tf i d Hi).
  - done.
  - rewrite Z.add_0_r. split; [rewrite ld32_st32_ne, ld32_st32_eq by lia; apply u32_small; lia|]. replace (c + 180 + 4) with (c + 184) by lia. by rewrite ld32_st32_eq.
Qed.
Lemma seginit_run c s : 0 <= c -> c + off_proc + 4 <= 4294967296 -> exists s', seginit c s = Some s' /\ segments_ok c s'.
Proof. intros H0 H1. destruct (table_desc c s H0 H1) as [Tk Tf]. unfold seginit. cbv zeta. by apply seginit_load. Qed.
(** The stores of switchuvm. *)
Lemma set_tss_run c kstack s : 0 <= c -> c + off_proc + 4 <= 4294967296 -> let s1 := set_tss c kstack s in
  gdtr s1 = gdtr s /\ gs s1 = gs s /\ desc_at (smem s1) (c + 112) SEG_TSS = Segment (c + 8) 103 STS_T32A true 0 true /\
  (forall a, ~ c + 12 <= a < c + 18 -> ~ c + 160 <= a < c + 168 -> ldb (smem s1) a = ldb (smem s) a) /\
  ld32 (smem s1) (c + 12) = u32 (kstack + KSTACKSIZE) /\ ldb (smem s1) (c + 16) = 16 /\ ldb (smem s1) (c + 17) = 0.
Proof.
  unfold off_proc, off_cpu, off_gdt, off_ts, sizeof_ts, NSEGS. intros H0 H1. unfold set_tss. set (s0 := put_desc _ _ _ _). split; [done|]. split; [done|]. rsimpl.
  unfold off_ts, ts_ss0, ts_esp0. change (bytes16 (Z.shiftl SEG_KDATA 3)) with [16; 0]. set (v := u32 (kstack + KSTACKSIZE)).
  replace (c + 8 + 4) with (c + 12) by lia. replace (c + 8 + 8) with (c + 16) by lia. set (m1 := st32 _ (c + 12) v).
  assert (forall a, ~ c + 12 <= a < c + 18 -> ldb m1 a = ldb (smem s0) a) as E1.
  { intros a Ha. unfold m1. rewrite ldb_st32_ne by lia. cbn [stbytes]. by rewrite !ldb_stb_ne by lia. }
  split; [|split; [|split; [|split]]].
  - rewrite (desc_ext _ (smem s0)); [|intros a Ha; apply E1; unfold SEG_TSS in Ha; lia].
    unfold s0, off_gdt, off_ts, sizeof_ts. replace (c + 112) with (c + (8 + 104)) by lia. rewrite desc_put_eq. apply tss_decode. lia.
  - intros a Ha Hb. rewrite E1 by done. unfold s0, put_desc, SEG_TSS, off_gdt, off_ts, sizeof_ts. rsimpl. by rewrite !ldb_st32_ne by lia.
  - unfold m1. rewrite ld32_st32_eq. apply u32_small, u32_range.
  - unfold m1. rewrite ldb_st32_ne by lia. cbn [stbytes]. rewrite ldb_stb_ne by lia. by rewrite ldb_stb_eq.
  - unfold m1. rewrite ldb_st32_ne by lia. cbn [stbytes]. replace (c + 17) with (c + 16 + 1) by lia. by rewrite ldb_stb_eq.
Qed.
Lemma ltr_run s b d : gdtr s = (b, 55) -> desc_at (smem s) b SEG_TSS = d -> sg_present d = true -> sg_sys d = true -> sg_type d = STS_T32A ->
  exists v, ltr (Z.shiftl SEG_TSS 3) s = Some (s <| smem ::= fun m => st32 m (b + 52) v |> <| task := Some d |>).
Proof.
  intros Eg Ed H1 H2 H3. unfold ltr. rewrite (select_at SEG_TSS s b Eg), Ed by done. cbn [mbind option_bind]. rewrite H1, H2, H3, Eg. change (STS_T32A =? STS_T32A) with true. cbn [negb orb fst].
  change (Z.shiftl SEG_TSS 3 / 8) with 6. replace (b + 8 * 6 + 4) with (b + 52) by lia. by eexists.
Qed.
(** switchuvm after seginit: the task register can be loaded, also when the task is busy. *)
Lemma switch_tss_run c kstack s : 0 <= c -> c + off_proc + 4 <= 4294967296 -> segments_ok c s ->
  exists s', switch_tss c kstack s = Some s' /\ segments_ok c s' /\ kernel_entry_stack s' = Some (Z.shiftl SEG_KDATA 3, u32 (kstack + KSTACKSIZE)).
Proof.
  intros H0 H1 [Sg Sf Ss [Sc Sp]]. unfold switch_tss. destruct (set_tss_run c kstack s H0 H1) as (Eg & Es & Ed & E1 & E2 & E3 & E4). revert Eg Es Ed E1 E2 E3 E4.
  generalize (set_tss c kstack s). intros s1 Eg Es Ed E1 E2 E3 E4. change (c + off_gdt) with (c + 112) in Sg. rewrite Sg in Eg. unfold off_proc, off_cpu, off_gdt, off_ts, sizeof_ts, NSEGS in H1.
  destruct (ltr_run s1 (c + 112) _ Eg Ed eq_refl eq_refl eq_refl) as [v ->].
  assert (forall a, ~ c + 12 <= a < c + 18 -> ~ c + 160 <= a < c + 168 -> ldb (st32 (smem s1) (c + 112 + 52) v) a = ldb (smem s) a) as E5.
  { intros a Ha Hb. rewrite ldb_st32_ne by lia. by apply E1. }
  eexists. split; [reflexivity|]. split; [split; rsimpl|].
  - exact Eg.
  - intros i d Hi. pose proof (flat_index i d Hi) as Hr. rewrite <- (Sf i d Hi). rewrite (select_at i s _ Sg) by lia. rewrite (select_at i _ (c + 112)); [|by rsimpl|lia]. rsimpl.
    f_equal. apply desc_ext. intros a Ha. apply E5; lia.
  - by rewrite Es.
  - unfold off_proc, off_cpu, off_gdt, off_ts, sizeof_ts, NSEGS in *. split; [etrans; [|exact Sc]|etrans; [|exact Sp]]; apply ld32_ext; intros a Ha; apply E5; lia.
  - unfold kernel_entry_stack. rsimpl. cbn [mbind option_bind sg_base]. unfold ts_ss0, ts_esp0. replace (c + 8 + 8 + 1) with (c + 17) by lia. replace (c + 8 + 8) with (c + 16) by lia. replace (c + 8 + 4) with (c + 12) by lia.
    rewrite ld32_st32_ne, !ldb_st32_ne, E2, E3, E4 by lia. reflexivity.
Qed.

(** C16. On a processor whose struct cpu is at [c], seginit sets up segments that the
    processor reads as meant (kernel and user segments over all of memory, with the
    right privilege), %gs leads to its own [cpu] and [proc], and from then on every
    switchuvm can load the task register, also a busy one, so that an interrupt from
    user mode takes the top of the kernel stack of the process switched to last. *)
Theorem segments_switch (c : Z) (s : sst) (ks : list Z) (k : Z) (H0 : 0 <= c) (H1 : c + off_proc + 4 <= 4294967296) :
  exists s', foldr (fun k o => o ≫= switch_tss c k) (seginit c s) (k :: ks) = Some s' /\ segments_ok c s' /\
    kernel_entry_stack s' = Some (Z.shiftl SEG_KDATA 3, u32 (k + KSTACKSIZE)).
Proof.
  assert (exists s', foldr (fun k o => o ≫= switch_tss c k) (seginit c s) ks = Some s' /\ segments_ok c s') as (s1 & E1 & Hok).
  { induction ks as [|k' ks (s1 & E1 & Hok)]; [by apply seginit_run|]. cbn [foldr]. rewrite E1. cbn [mbind option_bind].
    destruct (switch_tss_run c k' s1 H0 H1 Hok) as (s2 & E2 & Hok2 & _). by exists s2. }
  cbn [foldr]. rewrite E1. cbn [mbind option_bind]. by apply switch_tss_run.
Qed.
Lemma segments_switch_witness : exists s',
  foldr (fun k o => o ≫= switch_tss 0x80112000 k) (seginit 0x80112000 (Sst ∅ (0, 0) None None)) [0x8dfff000; 0x8dffe000] = Some s' /\
  kernel_entry_stack s' = Some (16, 0x8e000000).
Proof.
  destruct (segments_switch 0x80112000 (Sst ∅ (0, 0) None None) [0x8dffe000] 0x8dfff000 ltac:(lia) ltac:(vm_compute; discriminate)) as (s' & E & _ & Ek).
  exists s'. split; [exact E|exact Ek].
Defined.
