(* ===== verification/Startup.v ===== *)
(** * Startup: starting the other processors (main.c, entryother.S)

    [startothers] and the processors it starts share three words below the entry code
    and the flags [started]. Every access to them is a step; lapicstartap is the step that
    lets a processor run (Irq.v). Also the page table everyone begins with. *)
From S2P Require Import Prelude State.

(** ** The code *)

Module Startup.
(** [startothers]: about to look at a processor; after [kalloc], before each of the three
    stores; before lapicstartap; in the waiting loop; at the end. *)
Inductive bpc := Next | Store4 (stack : Z) | Store8 | Store12 | Start | Await | Finished.
(** A processor: in entryother.S, about to load (start-12), (start-4), (start-8); about to
    set [started] in mpmain; in the scheduler. With its %cr3, %esp and where it called. *)
Inductive apc :=
  | A0 | A1 (cr3 : Z) | A2 (cr3 esp : Z) | A3 (cr3 esp entry : Z) | Up (cr3 esp entry : Z).
Record st := St {
  code4 : Z; code8 : Z; code12 : Z;
  pc : bpc; c : nat;
  pages : list Z;              (* what kalloc will return; then 0 *)
  started : gset nat; aps : gmap nat apc;
  stacks : gmap nat Z          (* the page that was allocated for a processor *)
}.
#[export] Instance eta_sust : Eta st := {| eta s := St (code4 s) (code8 s) (code12 s) (pc s) (c s) (pages s) (started s) (aps s) (stacks s) |}.
#[export] Instance upd_code4 : Upd code4 := ltac:(field_update code4).
#[export] Instance upd_code8 : Upd code8 := ltac:(field_update code8).
#[export] Instance upd_code12 : Upd code12 := ltac:(field_update code12).
#[export] Instance upd_pc : Upd pc := ltac:(field_update pc).
#[export] Instance upd_c : Upd c := ltac:(field_update c).
#[export] Instance upd_pages : Upd pages := ltac:(field_update pages).
#[export] Instance upd_started : Upd started := ltac:(field_update started).
#[export] Instance upd_aps : Upd aps := ltac:(field_update aps).
#[export] Instance upd_stacks : Upd stacks := ltac:(field_update stacks).

Section Code.
(** How many processors there are, which one is running, [mpenter] and the physical
    address of [entrypgdir]. *)
Context (ncpu me : nat) (mpenter pgdir : Z).

Definition startothers (s : st) : st :=
  match pc s with
  | Next =>
      if (c s <? ncpu)%nat then
        if (c s =? me)%nat then s <| c ::= S |>
        else
          let p := hd 0 (pages s) in
          s <| pages ::= tail |> <| pc := Store4 p |> <| stacks ::= <[c s := p]> |>
      else s <| pc := Finished |>
  | Store4 p => s <| code4 := u32 (p + KSTACKSIZE) |> <| pc := Store8 |>
  | Store8 => s <| code8 := mpenter |> <| pc := Store12 |>
  | Store12 => s <| code12 := pgdir |> <| pc := Start |>
  | Start => s <| aps ::= <[c s := A0]> |> <| pc := Await |>
  | Await => if decide (c s ∈ started s) then s <| c ::= S |> <| pc := Next |> else s
  | Finished => s
  end.
Definition entryother (i : nat) (a : apc) (s : st) : st :=
  match a with
  | A0 => s <| aps ::= <[i := A1 (code12 s)]> |>
  | A1 cr3 => s <| aps ::= <[i := A2 cr3 (code4 s)]> |>
  | A2 cr3 esp => s <| aps ::= <[i := A3 cr3 esp (code8 s)]> |>
  | A3 cr3 esp e => s <| aps ::= <[i := Up cr3 esp e]> |> <| started ::= fun x => {[ i ]} ∪ x |>
  | Up _ _ _ => s
  end.
Inductive step : st -> st -> Prop :=
  | Step_boot s : step s (startothers s)
  | Step_ap i a s : aps s !! i = Some a -> step s (entryother i a s).
Definition begin (pages : list Z) : st := St 0 0 0 Next 0 pages ∅ ∅ ∅.
End Code.

(** *** The first page table: 4 MB pages *)
Definition PTE_PS : Z := 0x080.
Definition entrypgdir (i : Z) : Z :=
  if i =? 0 then Z.lor (Z.lor (Z.lor 0 PTE_P) PTE_W) PTE_PS
  else if i =? Z.shiftr KERNBASE 22 then Z.lor (Z.lor (Z.lor 0 PTE_P) PTE_W) PTE_PS
  else 0.
End Startup.
Import Startup.

(** ** Every processor gets its own stack *)

(** Past the allocation for processor [c]. *)
Definition busy (p : bpc) : bool := match p with Next | Finished => false | _ => true end.
Section Inv.
Context (ncpu me : nat) (mpenter pgdir : Z).
(** A processor with stack [p] has what was meant for it. *)
Definition good (p : Z) (a : apc) : Prop :=
  match a with
  | A0 => True
  | A1 x => x = pgdir
  | A2 x y => x = pgdir /\ y = u32 (p + KSTACKSIZE)
  | A3 x y z | Up x y z => x = pgdir /\ y = u32 (p + KSTACKSIZE) /\ z = mpenter
  end.
Definition is_up (a : apc) : bool := match a with Up _ _ _ => true | _ => false end.
(** The words as far as they were written for processor [c]. *)
Definition words_ok (s : st) : Prop :=
  match pc s with
  | Store4 p => stacks s !! c s = Some p
  | Store8 => exists p, stacks s !! c s = Some p /\ code4 s = u32 (p + KSTACKSIZE)
  | Store12 => exists p, stacks s !! c s = Some p /\ code4 s = u32 (p + KSTACKSIZE) /\ code8 s = mpenter
  | Start | Await => exists p, stacks s !! c s = Some p /\ code4 s = u32 (p + KSTACKSIZE) /\ code8 s = mpenter /\ code12 s = pgdir
  | _ => True
  end.
Record inv (all : list Z) (s : st) : Prop := {
  i_words : words_ok s;
  i_c : (c s <= ncpu)%nat /\ (busy (pc s) = true -> (c s < ncpu)%nat /\ c s <> me) /\ (pc s = Finished -> c s = ncpu);
  i_aps i a : aps s !! i = Some a -> i <> me /\ (exists p, stacks s !! i = Some p /\ good p a) /\ ((i < c s)%nat \/ i = c s /\ pc s = Await);
  i_up i : (i < c s)%nat -> i <> me -> exists a, aps s !! i = Some a /\ is_up a = true;
  i_started i : i ∈ started s -> exists a, aps s !! i = Some a /\ is_up a = true;
  i_room : (ncpu <= c s + length (pages s) + (if busy (pc s) then 1 else 0))%nat;
  i_pages : NoDup (pages s) /\ (forall p, p ∈ pages s -> p ∈ all);
  i_stacks i p : stacks s !! i = Some p -> p ∈ all /\ p ∉ pages s /\ (i < c s \/ i = c s /\ busy (pc s) = true)%nat;
  i_distinct i j p : stacks s !! i = Some p -> stacks s !! j = Some p -> i = j;
}.

(** A processor that is not up yet is the one that startothers waits for. *)
Lemma ap_awaited all s i a : inv all s -> aps s !! i = Some a -> is_up a = false -> i = c s /\ pc s = Await.
Proof.
  intros Hi Ha Hu. destruct (i_aps _ _ Hi i a Ha) as (Hme & _ & [Hlt|]); [|done]. destruct (i_up _ _ Hi i Hlt Hme) as (a' & Ha' & Hu'). congruence.
Qed.
(** It goes on from [a] to [a']. *)
Lemma inv_ap all s i a a' up :
  inv all s -> aps s !! i = Some a -> (forall p, stacks s !! i = Some p -> good p a -> good p a') -> (is_up a = true -> is_up a' = true) ->
  (up = started s \/ up = {[ i ]} ∪ started s /\ is_up a' = true) ->
  inv all (s <| aps ::= <[i := a']> |> <| started := up |>).
Proof.
  intros Hi Ha Hg Hm Hup. destruct (i_aps _ _ Hi i a Ha) as (Hme & (p & Hp & Hpg) & Hpos).
  assert (forall j x, aps s !! j = Some x -> is_up x = true -> exists y, <[i := a']> (aps s) !! j = Some y /\ is_up y = true) as Hstay.
  { intros j x Hx Hux. destruct (decide (j = i)) as [->|Hne]; [exists a'; split; [by rewrite lookup_insert_eq|]; apply Hm; congruence|].
    exists x. by rewrite lookup_insert_ne by done. }
  destruct Hi as [H1 H2 H3 H4 H5 H6 H7 H8 H9]. split; rsimpl; try done.
  - intros j x [[<- <-]|[Hne Hj]]%lookup_insert_Some; [|by eapply H3]. split; [done|]. split; [|done]. exists p. split; [done|by apply Hg].
  - intros j Hj Hne. destruct (H4 j Hj Hne) as (x & Hx & Hux). by eapply Hstay.
  - intros j Hj. assert (j ∈ started s \/ j = i /\ is_up a' = true) as [Hs|[-> Hu]] by (destruct Hup as [->|[-> ?]]; set_solver).
    + destruct (H5 j Hs) as (x & Hx & Hux). by eapply Hstay.
    + exists a'. by rewrite lookup_insert_eq.
Qed.
(** startothers goes on to the next processor. *)
Lemma inv_advance all s : inv all s -> (c s < ncpu)%nat -> (pc s = Next /\ c s = me) \/ (pc s = Await /\ c s ∈ started s) ->
  inv all (s <| c ::= S |> <| pc := Next |>).
Proof.
  intros [H1 H2 H3 H4 H5 H6 H7 H8 H9] Hlt Hor. split; rsimpl.
  - done.
  - split; [lia|done].
  - intros i a Ha. destruct (H3 i a Ha) as (? & ? & ?). split; [done|]. split; [done|left; lia].
  - intros i Hc Hne. destruct (decide (i = c s)) as [->|]; [|apply H4; [lia|done]]. destruct Hor as [[_ ?]|[_ ?]]; [done|by apply H5].
  - done.
  - cbn [busy]. destruct (busy (pc s)); lia.
  - done.
  - intros i p Hp. destruct (H8 i p Hp) as (? & ? & ?). split; [done|]. split; [done|left; lia].
  - done.
Qed.
(** It allocates a stack. *)
Lemma inv_alloc all s p rest : inv all s -> pc s = Next -> (c s < ncpu)%nat -> c s <> me -> pages s = p :: rest ->
  inv all (s <| pages := rest |> <| pc := Store4 p |> <| stacks ::= <[c s := p]> |>).
Proof.
  intros [H1 H2 H3 H4 H5 H6 [Hnd Hall] H8 H9] Epc Hlt Hne Ep. rewrite Ep in *. rewrite Epc in *. apply NoDup_cons in Hnd as [Hpn Hnd].
  split; rsimpl.
  - unfold words_ok. rsimpl. by rewrite lookup_insert_eq.
  - split; [lia|done].
  - intros i a Ha. destruct (H3 i a Ha) as (Hm & (q & Hq & Hg) & [Hc|[_ ?]]); [|done]. split; [done|]. split; [|by left]. exists q. split; [|done]. by rewrite lookup_insert_ne by lia.
  - done.
  - done.
  - cbn [busy length] in *. lia.
  - split; [done|]. intros q Hq. apply Hall. by right.
  - intros i q [[<- <-]|[Hn Hq]]%lookup_insert_Some; [split; [apply Hall; by left|]; split; [done|by right]|].
    destruct (H8 i q Hq) as (? & Hnq & [?|[_ ?]]); [|done]. split; [done|]. split; [set_solver|by left].
  - intros i j q [[<- <-]|[Hn Hq]]%lookup_insert_Some [[<- Hq']|[Hn' Hq']]%lookup_insert_Some; try done.
    + destruct (H8 j p Hq') as (_ & Hx & _). set_solver.
    + subst q. destruct (H8 i p Hq) as (_ & Hx & _). set_solver.
    + by eapply H9.
Qed.
(** It stores a word, or is done. *)
Lemma inv_word all s s' : inv all s -> (pc s <> Await) ->
  c s' = c s -> pages s' = pages s -> started s' = started s -> aps s' = aps s -> stacks s' = stacks s -> busy (pc s') = busy (pc s) -> words_ok s' -> (pc s' = Finished -> c s = ncpu) ->
  inv all s'.
Proof.
  intros [H1 H2 H3 H4 H5 H6 H7 H8 H9] Hna E1 E2 E3 E4 E5 E6 Hw Hf. split; rewrite ?E1, ?E2, ?E3, ?E4, ?E5, ?E6; try done.
  - split; [apply H2|]. split; [apply H2|done].
  - intros i a Ha. destruct (H3 i a Ha) as (? & ? & [?|[_ ?]]); [|done]. split; [done|]. split; [done|by left].
Qed.
(** It starts the processor. *)
Lemma inv_start all s : inv all s -> pc s = Start -> inv all (s <| aps ::= <[c s := A0]> |> <| pc := Await |>).
Proof.
  intros Hi Epc. pose proof Hi as [H1 H2 H3 H4 H5 H6 H7 H8 H9]. unfold words_ok in *. rewrite Epc in *. destruct H1 as (p & Hp & Hw).
  assert (aps s !! c s = None) as Hno.
  { destruct (aps s !! c s) as [a|] eqn:E; [|done]. destruct (H3 _ _ E) as (_ & _ & [?|[_ ?]]); [lia|done]. }
  split; rsimpl; try done.
  - unfold words_ok. rsimpl. by exists p.
  - split; [apply H2|]. split; [|done]. intros _. by apply H2.
  - intros i a [[<- <-]|[Hn Ha]]%lookup_insert_Some; [split; [by apply H2|]; split; [by exists p|by right]|].
    destruct (H3 i a Ha) as (? & ? & [?|[_ ?]]); [|done]. split; [done|]. split; [done|by left].
  - intros i Hc Hne. rewrite lookup_insert_ne by lia. by apply H4.
  - intros i Hs. destruct (H5 i Hs) as (a & Ha & Hu). exists a. rewrite lookup_insert_ne; [done|]. intros <-. congruence.
Qed.
Lemma boot_inv all s : inv all s -> inv all (startothers ncpu me mpenter pgdir s).
Proof.
  intros Hi. pose proof (i_c _ _ Hi) as (Hc1 & Hc2 & Hc3). pose proof (i_words _ _ Hi) as Hw. pose proof (i_room _ _ Hi) as Hr. unfold startothers, words_ok in *.
  destruct (pc s) eqn:Epc; cbn [busy] in *.
  - destruct (Nat.ltb_spec (c s) ncpu) as [Hlt|Hge].
    + destruct (Nat.eqb_spec (c s) me) as [He|Hne].
      * assert (s <| c ::= S |> = s <| c ::= S |> <| pc := Next |>) as -> by (rewrite <- Epc; by destruct s). apply inv_advance; [done|done|by left].
      * destruct (pages s) as [|p rest] eqn:Ep; [cbn in Hr; lia|]. cbn [hd].
        assert (s <| pages ::= tail |> = s <| pages := rest |>) as -> by (destruct s; unfold upd; cbn in *; by rewrite Ep). by apply inv_alloc.
    + eapply inv_word; [exact Hi|by rewrite Epc|by rsimpl..|rsimpl; by rewrite Epc|done|intros _; lia].
  - eapply inv_word; [exact Hi|by rewrite Epc|by rsimpl..|rsimpl; by rewrite Epc| |done]. unfold words_ok. rsimpl. by exists stack.
  - destruct Hw as (p & Hp & Hw). eapply inv_word; [exact Hi|by rewrite Epc|by rsimpl..|rsimpl; by rewrite Epc| |done]. unfold words_ok. rsimpl. by exists p.
  - destruct Hw as (p & Hp & Hw1 & Hw2). eapply inv_word; [exact Hi|by rewrite Epc|by rsimpl..|rsimpl; by rewrite Epc| |done]. unfold words_ok. rsimpl. by exists p.
  - by apply inv_start.
  - case_decide; [|done]. apply inv_advance; [done|by apply Hc2|by right].
  - done.
Qed.
Lemma ap_inv all s i a : inv all s -> aps s !! i = Some a -> inv all (entryother i a s).
Proof.
  intros Hi Ha. assert (forall a', s <| aps ::= <[i := a']> |> = s <| aps ::= <[i := a']> |> <| started := started s |>) as E by (intros; by destruct s).
  destruct (is_up a) eqn:Hu; [by destruct a|]. destruct (ap_awaited _ _ _ _ Hi Ha Hu) as [-> Epc]. pose proof (i_words _ _ Hi) as Hw. unfold words_ok in Hw. rewrite Epc in Hw. destruct Hw as (p & Hp & W4 & W8 & W12).
  destruct a; cbn [entryother]; try done.
  - rewrite E. apply (inv_ap _ _ _ A0); [done|done| |done|by left]. intros q _ _. exact W12.
  - rewrite E. eapply inv_ap; [done|exact Ha| |done|by left]. intros q Hq Hg. simplify_eq. cbn in *. by split.
  - rewrite E. eapply inv_ap; [done|exact Ha| |done|by left]. intros q Hq Hg. cbn in *. tauto.
  - assert (s <| aps ::= <[c s := Up cr3 esp entry]> |> <| started ::= fun x => {[ c s ]} ∪ x |> = s <| aps ::= <[c s := Up cr3 esp entry]> |> <| started := {[ c s ]} ∪ started s |>) as -> by (by destruct s).
    eapply inv_ap; [done|exact Ha| |done|by right]. intros q Hq Hg. exact Hg.
Qed.
Lemma begin_inv all : NoDup all -> (ncpu <= length all)%nat -> inv all (begin all).
Proof.
  intros Hnd Hl. split; cbn [begin code4 code8 code12 pc c pages started aps stacks busy words_ok]; try done; try lia.
  - split; [lia|done].
Qed.
Lemma reach_inv all s : NoDup all -> (ncpu <= length all)%nat -> rtc (step ncpu me mpenter pgdir) (begin all) s -> inv all s.
Proof.
  intros Hnd Hl Hs. pose proof (begin_inv all Hnd Hl) as Hi. induction Hs as [|a b d Hab _ IH]; [done|]. apply IH. destruct Hab; [by apply boot_inv|by apply ap_inv].
Qed.
End Inv.

(** C19. However slow the processors are, startothers starts each one but its own, each on a
    stack of its own: a processor that is in the kernel runs on the page table
    [entrypgdir] and entered at mpenter with the top of a page that kalloc gave for it
    alone; and when startothers is done all of them are up. *)
Theorem startothers_stacks (ncpu me : nat) (mpenter pgdir : Z) (all : list Z) (s : st)
  (Hnd : NoDup all) (Hl : (ncpu <= length all)%nat) (Hs : rtc (step ncpu me mpenter pgdir) (begin all) s) :
  (forall i x y z, aps s !! i = Some (Up x y z) -> i <> me /\ x = pgdir /\ z = mpenter /\ exists p, p ∈ all /\ stacks s !! i = Some p /\ y = u32 (p + KSTACKSIZE)) /\
  (forall i j p, stacks s !! i = Some p -> stacks s !! j = Some p -> i = j) /\
  (pc s = Finished -> forall i, (i < ncpu)%nat -> i <> me -> exists x y z, aps s !! i = Some (Up x y z)).
Proof.
  pose proof (reach_inv _ _ _ _ _ _ Hnd Hl Hs) as Hi. split; [|split].
  - intros i x y z Ha. destruct (i_aps _ _ _ _ _ _ Hi i _ Ha) as (Hme & (p & Hp & Hg1 & Hg2 & Hg3) & _). split; [done|]. split; [done|]. split; [done|].
    exists p. split; [by eapply (i_stacks _ _ _ _ _ _ Hi)|done].
  - exact (i_distinct _ _ _ _ _ _ Hi).
  - intros Hf i Hi' Hne. destruct (i_c _ _ _ _ _ _ Hi) as (_ & _ & Hc). destruct (i_up _ _ _ _ _ _ Hi i) as (a & Ha & Hu); [rewrite (Hc Hf); done|done|]. destruct a; try done. by eexists _, _, _.
Qed.
(** A run: [true] is a step of startothers, [false] one of processor [c]. *)
Fixpoint play (l : list (option nat)) (s : st) : st :=
  match l with
  | [] => s
  | None :: l => play l (startothers 3 1 0x80103000 0x10a000 s)
  | Some i :: l => play l (match aps s !! i with Some a => entryother i a s | None => s end)
  end.
Lemma started_steps l s : rtc (step 3 1 0x80103000 0x10a000) s (play l s).
Proof.
  revert s. induction l as [|[i|] l IH]; intros s; cbn [play]; [apply rtc_refl| |eapply rtc_l; [apply Step_boot|apply IH]].
  destruct (aps s !! i) eqn:E; [|apply IH]. eapply rtc_l; [by apply Step_ap|apply IH].
Qed.
Lemma startothers_stacks_witness :
  let s := (play (replicate 6 None ++ replicate 4 (Some 0%nat) ++ replicate 7 None ++ replicate 4 (Some 2%nat) ++ replicate 2 None) (begin [0x1000; 0x2000; 0x3000])) in
  pc s = Finished /\ exists x y z, aps s !! 2%nat = Some (Up x y z).
Proof.
  assert (NoDup [0x1000; 0x2000; 0x3000] /\ (3 <= length [0x1000; 0x2000; 0x3000])%nat) as [H1 H2] by vm_decide.
  match goal with |- let s := play ?l _ in _ => pose proof (startothers_stacks 3 1 0x80103000 0x10a000 [0x1000; 0x2000; 0x3000] _ H1 H2 (started_steps l _)) as (_ & _ & H) end.
  intros s. assert (pc s = Finished) as E by (vm_compute; reflexivity). split; [exact E|]. apply (H E); lia.
Defined.

(** ** The first page table *)

(** The processor's translation with 4 MB pages. *)
Definition walk4m (dir : Z -> Z) (va : Z) : option Z :=
  let e := dir (va / 4194304) in
  if Z.testbit e 0 && Z.testbit e 7 then Some (e / 4194304 * 4194304 + va mod 4194304) else None.
(** The first 4 MB of memory are mapped at 0, where the entry code runs, and at [KERNBASE],
    where it jumps to; nothing else is. *)
Lemma entrypgdir_maps va : 0 <= va < 4294967296 ->
  walk4m entrypgdir va =
    if decide (va < 4194304) then Some va else if decide (KERNBASE <= va < KERNBASE + 4194304) then Some (v2p va) else None.
Proof.
  intros Hva. unfold walk4m, entrypgdir. change (Z.shiftr KERNBASE 22) with 512. change (Z.lor (Z.lor (Z.lor 0 PTE_P) PTE_W) PTE_PS) with 131.
  assert (KERNBASE = 2147483648) as EK by reflexivity. unfold v2p. rewrite EK.
  destruct (Z.eqb_spec (va / 4194304) 0); [|destruct (Z.eqb_spec (va / 4194304) 512)].
  - rewrite decide_True by mlia. change (Z.testbit 131 0 && Z.testbit 131 7) with true. cbv iota. f_equal. mlia.
  - rewrite decide_False, decide_True by mlia. change (Z.testbit 131 0 && Z.testbit 131 7) with true. cbv iota. f_equal. mlia.
  - rewrite !decide_False by mlia. done.
Qed.
