(* ===== verification/Sh.v ===== *)
(** * Sh: the shell

    The command parser of sh.c, the commands it builds, [nulterminate] and
    [runcmd]. The parser works on the characters of a line; a pointer into the line
    is the suffix of the line it points to, so [[]] is the end of the line, where
    the NUL is. *)
From S2P Require Import Prelude.

(** ** Commands *)

(** struct cmd and its variants. A word is kept as the pointers to its first
    character and past its last. *)
Inductive cmd (W : Type) :=
  | EXEC (argv : list W)
  | REDIR (c : cmd W) (file : W) (mode fd : Z)
  | PIPE (left right : cmd W)
  | LIST (left right : cmd W)
  | BACK (c : cmd W).
Arguments EXEC {W} argv.
Arguments REDIR {W} c file mode fd.
Arguments PIPE {W} left right.
Arguments LIST {W} left right.
Arguments BACK {W} c.

Definition word : Type := list Z * list Z.
(** A redirection before it is wrapped around a command. *)
Record redir := Redir { r_file : word; r_mode : Z; r_fd : Z }.
Definition redircmd (c : cmd word) (r : redir) : cmd word := REDIR c (r_file r) (r_mode r) (r_fd r).

Definition MAXARGS : nat := 10.
Definition SH_RDONLY : Z := 0x000.
Definition SH_WRONLY : Z := 0x001.
Definition SH_CREATE : Z := 0x200.

(** ** Characters *)

Definition whitespace : list Z := [32; 9; 13; 10; 11].
Definition symbols : list Z := [60; 124; 62; 38; 59; 40; 41].
(** [strchr(l, c) != 0] *)
Definition strchr (l : list Z) (c : Z) : bool := existsb (Z.eqb c) l.
(** [*s]; [s < es] when [s] is not [[]]. *)
Definition deref (s : list Z) : Z := match s with [] => 0 | c :: _ => c end.
(** [while(s < es && f( *s )) s++;] *)
Fixpoint skip (f : Z -> bool) (s : list Z) : list Z :=
  match s with
  | c :: s' => if f c then skip f s' else s
  | [] => []
  end.
Definition skip_ws : list Z -> list Z := skip (strchr whitespace).
Definition word_char (c : Z) : bool := negb (strchr whitespace c) && negb (strchr symbols c).

(** ** The parser

    A state monad over the pointer [ps]; [panic] prints and exits. *)
Inductive pres (A : Type) := POk (a : A) (s : list Z) | PPanic (msg : string) | PFuel.
Arguments POk {A} a s.
Arguments PPanic {A} msg.
Arguments PFuel {A}.
Definition P (A : Type) : Type := list Z -> pres A.
#[export] Instance P_ret : MRet P := fun A a s => POk a s.
#[export] Instance P_bind : MBind P := fun A B k m s =>
  match m s with POk a s' => k a s' | PPanic msg => PPanic msg | PFuel => PFuel end.
Definition ppanic {A} (msg : string) : P A := fun _ => PPanic msg.
Definition pfuel {A} : P A := fun _ => PFuel.
(** The loops that follow are given the characters left as fuel. *)
Definition with_length {A} (m : nat -> P A) : P A := fun s => m (S (length s)) s.

(** The token's kind, with 97 for a word and 43 for >>, and its text. *)
Definition gettoken : P (Z * word) := fun s =>
  let q := skip_ws s in
  let c := deref q in
  let '(ret, eq) :=
    if c =? 0 then (c, q)
    else if strchr [124; 40; 41; 59; 38; 60] c then (c, tail q)
    else if c =? 62 then
      if deref (tail q) =? 62 then (43, tail (tail q)) else (c, tail q)
    else (97, skip word_char q) in
  POk (ret, (q, eq)) (skip_ws eq).

Definition peek (toks : list Z) : P bool := fun s =>
  let s := skip_ws s in
  POk (negb (deref s =? 0) && strchr toks (deref s)) s.

Fixpoint parseredirs_loop (fuel : nat) : P (list redir) :=
  match fuel with
  | O => pfuel
  | S k =>
      b ← peek [60; 62];
      if b : bool then
        '(tok, _) ← gettoken;
        '(tok2, w) ← gettoken;
        if negb (tok2 =? 97) then ppanic "missing file for redirection"
        else
          let r := if tok =? 60 then Redir w SH_RDONLY 0 else Redir w (Z.lor SH_WRONLY SH_CREATE) 1 in
          rs ← parseredirs_loop k;
          mret (r :: rs)
      else mret []
  end.
(** The redirections, in order; the caller wraps them around its command. *)
Definition parseredirs : P (list redir) := with_length parseredirs_loop.

(** The [while] of [parseexec]: the arguments and redirections. The command that
    [cmd] points to is the innermost one, whatever [ret] has been wrapped in. *)
Fixpoint parseargs (fuel : nat) (argv : list word) (rs : list redir) : P (list word * list redir) :=
  match fuel with
  | O => pfuel
  | S k =>
      b ← peek [124; 41; 38; 59];
      if b : bool then mret (argv, rs)
      else
        '(tok, w) ← gettoken;
        if tok =? 0 then mret (argv, rs)
        else if negb (tok =? 97) then ppanic "syntax"
        else
          let argv := argv ++ [w] in
          if (MAXARGS <=? length argv)%nat then ppanic "too many args"
          else rs' ← parseredirs; parseargs k argv (rs ++ rs')
  end.

(** [while(peek(ps, es, "&")) ... backcmd(cmd)] *)
Fixpoint parsebacks (fuel : nat) (c : cmd word) : P (cmd word) :=
  match fuel with
  | O => pfuel
  | S k =>
      b ← peek [38];
      if b : bool then _ ← gettoken; parsebacks k (BACK c) else mret c
  end.

Fixpoint parseline (n : nat) : P (cmd word) :=
  match n with
  | O => pfuel
  | S k =>
      c ← parsepipe k;
      c ← with_length (fun m => parsebacks m c);
      b ← peek [59];
      if b : bool then _ ← gettoken; r ← parseline k; mret (LIST c r) else mret c
  end
with parsepipe (n : nat) : P (cmd word) :=
  match n with
  | O => pfuel
  | S k =>
      c ← parseexec k;
      b ← peek [124];
      if b : bool then _ ← gettoken; r ← parsepipe k; mret (PIPE c r) else mret c
  end
with parseblock (n : nat) : P (cmd word) :=
  match n with
  | O => pfuel
  | S k =>
      b ← peek [40];
      if negb b then ppanic "parseblock"
      else
        _ ← gettoken;
        c ← parseline k;
        b ← peek [41];
        if negb b then ppanic "syntax - missing )"
        else
          _ ← gettoken;
          rs ← parseredirs;
          mret (fold_left redircmd rs c)
  end
with parseexec (n : nat) : P (cmd word) :=
  match n with
  | O => pfuel
  | S k =>
      b ← peek [40];
      if b : bool then parseblock k
      else
        rs ← parseredirs;
        '(argv, rs) ← with_length (fun m => parseargs m [] rs);
        mret (fold_left redircmd rs (EXEC argv))
  end.

(** The calls that are open for one character are at most four: a block is
    entered through parseline, parsepipe and parseexec. *)
Definition parse_fuel (s : list Z) : nat := 4 * length s + 4.

(** [if(s != es) ... panic("syntax");] *)
Definition at_end {A} (a : A) : P A := fun s =>
  match s with [] => POk a s | _ => PPanic "syntax" end.
(** [parsecmd] before it calls [nulterminate]. *)
Definition parse : P (cmd word) := fun s =>
  (c ← parseline (parse_fuel s); _ ← peek []; at_end c) s.

(** ** [nulterminate]

    The line in memory, with its NUL. [n] is the length of the line: the pointer
    [p] is the address [n - length p]. *)
Definition addr (n : nat) (p : list Z) : nat := n - length p.
Fixpoint nulterminate (n : nat) (c : cmd word) (buf : list Z) : list Z :=
  match c with
  | EXEC argv => fold_left (fun buf w => <[addr n w.2 := 0]> buf) argv buf
  | REDIR c w _ _ => <[addr n w.2 := 0]> (nulterminate n c buf)
  | PIPE l r | LIST l r => nulterminate n r (nulterminate n l buf)
  | BACK c => nulterminate n c buf
  end.
(** [parsecmd]: the command and the line. *)
Definition parsecmd (s : list Z) : pres (cmd word * list Z) :=
  match parse s with
  | POk c _ => POk (c, nulterminate (length s) c (s ++ [0])) []
  | PPanic msg => PPanic msg
  | PFuel => PFuel
  end.
(** The string at an address. *)
Fixpoint string_from (buf : list Z) : list Z :=
  match buf with
  | c :: buf' => if c =? 0 then [] else c :: string_from buf'
  | [] => []
  end.
Definition text (w : word) : list Z := take (length w.1 - length w.2) w.1.
