(* ===== verification/Shparse.v ===== *)
(** * Shparse: correctness of the shell's parser

    The parser of sh.c ends on every line; the words it finds are words of the
    line, and [nulterminate] makes each of them a string; and a command that is
    written out is parsed back. *)
From S2P Require Import Prelude Sh.

(** ** Running the parser *)

(** [m] at [s] does not run out of fuel, and if it returns, [R]. *)
Definition pspec {A} (m : P A) (s : list Z) (R : A -> list Z -> Prop) : Prop :=
  match m s with POk a s' => R a s' | PPanic _ => True | PFuel => False end.
Lemma pspec_ret {A} (a : A) s (R : A -> list Z -> Prop) : R a s -> pspec (mret a) s R.
Proof. done. Qed.
Lemma pspec_bind {A B} (m : P A) (k : A -> P B) s R :
  pspec m s (fun a s' => pspec (k a) s' R) -> pspec (m ≫= k) s R.
Proof. unfold pspec, mbind, P_bind. by destruct (m s). Qed.
Lemma pspec_mono {A} (m : P A) s (R R' : A -> list Z -> Prop) :
  pspec m s R -> (forall a s', R a s' -> R' a s') -> pspec m s R'.
Proof. unfold pspec. destruct (m s); auto. Qed.

(** ** Tokens *)

Lemma skip_spec f s :
  exists u, s = u ++ skip f s /\ Forall (fun c => f c = true) u /\
    match skip f s with [] => True | c :: _ => f c = false end.
Proof.
  induction s as [|c s (u & Es & Hu & Hh)]; cbn; [by exists []|]. destruct (f c) eqn:Ec.
  - exists (c :: u). split; [by rewrite Es at 1|]. split; [by constructor|done].
  - by exists [].
Qed.
Lemma skip_suffix f s : skip f s `suffix_of` s.
Proof. destruct (skip_spec f s) as (u & E & _). by exists u. Qed.
Lemma skip_skip f s : skip f (skip f s) = skip f s.
Proof. induction s as [|c s IH]; [done|]. cbn. destruct (f c) eqn:E; [done|]. cbn. by rewrite E. Qed.
Lemma tail_suffix (s : list Z) : tail s `suffix_of` s.
Proof. destruct s as [|c s]; [done|]. by exists [c]. Qed.
Lemma suffix_len (s s' : list Z) : s' `suffix_of` s -> (length s' <= length s)%nat.
Proof. intros [k ->]. rewrite length_app. lia. Qed.
Lemma tail_len (s : list Z) : deref s <> 0 -> (length (tail s) < length s)%nat.
Proof. by destruct s; cbn; [|lia]. Qed.

(** A word of the line [s0]: as long as it can be. *)
Record wf_word (s0 : list Z) (w : word) : Prop := {
  ww_start : w.1 `suffix_of` s0;
  ww_text : w.1 = text w ++ w.2;
  ww_nonempty : text w <> [];
  ww_chars : Forall (fun c => word_char c = true) (text w);
  ww_end : match w.2 with [] => True | c :: _ => word_char c = false end;
}.

Lemma text_app u v : text (u ++ v, v) = u.
Proof. unfold text. cbn. rewrite length_app. replace (length u + length v - length v)%nat with (length u) by lia. apply take_app_length. Qed.

Lemma strchr_app l l' c : strchr (l ++ l') c = strchr l c || strchr l' c.
Proof. apply existsb_app. Qed.

Section Tokens.
Context (s0 : list Z).

Lemma gettoken_spec s :
  s `suffix_of` s0 ->
  pspec gettoken s (fun '(tok, w) s' => s' `suffix_of` s /\ (deref (skip_ws s) <> 0 -> (length s' < length s)%nat) /\
    (tok = 97 -> wf_word s0 w) /\ (tok <> 0 -> deref (skip_ws s) <> 0)).
Proof.
  intros Hs. unfold pspec, gettoken. destruct (skip_spec (strchr whitespace) s) as (u & Es & _ & Hq).
  fold skip_ws in *. set (q := skip_ws s) in *. assert (q `suffix_of` s) as Hqs by (by exists u).
  assert (forall e : list Z, e `suffix_of` q -> (deref q <> 0 -> (length e < length q)%nat) ->
    skip_ws e `suffix_of` s /\ (deref q <> 0 -> (length (skip_ws e) < length s)%nat)) as Hend.
  { intros e He Hl. pose proof (skip_suffix (strchr whitespace) e) as Hse. split; [by do 2 (etrans; [eassumption|])|].
    intros H0. specialize (Hl H0). apply suffix_len in Hse, Hqs. unfold skip_ws. lia. }
  destruct (Z.eqb_spec (deref q) 0) as [E0|E0].
  { destruct (Hend q ltac:(done) ltac:(done)) as [? ?]. split_and!; [done|done| |done]. intros E. rewrite E0 in E. done. }
  destruct (strchr [124; 40; 41; 59; 38; 60] (deref q)) eqn:Esym.
  { destruct (Hend (tail q) (tail_suffix q) (tail_len q)). split_and!; [done|done| |done].
    intros E. by rewrite E in Esym. }
  destruct (Z.eqb_spec (deref q) 62) as [E62|E62].
  { destruct (deref (tail q) =? 62) eqn:Et.
    - destruct (Hend (tail (tail q))); [by etrans; [apply tail_suffix|apply tail_suffix]| |by split_and!].
      intros H0. pose proof (tail_len q H0). pose proof (suffix_len _ _ (tail_suffix (tail q))). lia.
    - destruct (Hend (tail q) (tail_suffix q) (tail_len q)). split_and!; [done|done| |done]. intros E. rewrite E in E62. done. }
  destruct (skip_spec word_char q) as (x & Ex & Hx & He).
  assert (x <> []) as Hne.
  { intros ->. rewrite app_nil_l in Ex. rewrite <- Ex in He. destruct q as [|c q']; [done|].
    cbn [deref] in *. unfold word_char in He. rewrite Hq in He. cbn [negb andb] in He. apply negb_false_iff in He.
    unfold strchr, symbols in *. cbn [existsb] in *. lia. }
  destruct (Hend (skip word_char q)); [apply skip_suffix| |].
  { intros _. rewrite Ex at 2. rewrite length_app. destruct x; [done|]. cbn. lia. }
  split_and!; [done|done| |done]. intros _. assert (text (q, skip word_char q) = x) as Et by (rewrite Ex at 1; apply text_app).
  split; cbn [fst snd]; rewrite ?Et; try done. by etrans.
Qed.

Lemma peek_spec toks s (R : bool -> list Z -> Prop) :
  (forall b, (b = true -> deref (skip_ws s) <> 0 /\ strchr toks (deref (skip_ws s)) = true) -> R b (skip_ws s)) ->
  pspec (peek toks) s R.
Proof.
  intros HR. unfold pspec, peek. apply HR. intros [H0 Ht]%andb_true_iff. split; [|done].
  apply negb_true_iff, Z.eqb_neq in H0. done.
Qed.

(** After a peek that saw something, a token is consumed. *)
Lemma gettoken_after s (R : Z * word -> list Z -> Prop) :
  s `suffix_of` s0 -> deref (skip_ws s) <> 0 ->
  (forall tok w s', s' `suffix_of` s -> (length s' < length s)%nat -> (tok = 97 -> wf_word s0 w) -> R (tok, w) s') ->
  pspec gettoken (skip_ws s) R.
Proof.
  intros Hs H0 HR. eapply pspec_mono.
  - apply gettoken_spec. etrans; [apply skip_suffix|done].
  - intros [tok w] s' (H1 & H2 & H3 & _). unfold skip_ws in H2. rewrite skip_skip in H2.
    pose proof (skip_suffix (strchr whitespace) s) as Hk. pose proof (suffix_len _ _ Hk).
    apply HR; [by etrans|specialize (H2 H0); lia|done].
Qed.
End Tokens.

(** ** Commands *)

(** The two redirections of the grammar. *)
Definition src_redir (m fd : Z) : Prop :=
  (fd = 0 /\ m = SH_RDONLY) \/ (fd = 1 /\ m = Z.lor SH_WRONLY SH_CREATE).
(** All words of a command, and that its redirections are of the two kinds. *)
Fixpoint all_words {W} (Q : W -> Prop) (c : cmd W) : Prop :=
  match c with
  | EXEC argv => Forall Q argv
  | REDIR c w m fd => all_words Q c /\ Q w /\ src_redir m fd
  | PIPE l r | LIST l r => all_words Q l /\ all_words Q r
  | BACK c => all_words Q c
  end.

Section Parser.
Context (s0 : list Z).
#[local] Abbreviation wf := (all_words (wf_word s0)).
#[local] Abbreviation wfr := (Forall (fun r => wf_word s0 (r_file r) /\ src_redir (r_mode r) (r_fd r))).

Lemma parseredirs_spec s :
  s `suffix_of` s0 -> pspec parseredirs s (fun rs s' => s' `suffix_of` s /\ wfr rs).
Proof.
  unfold parseredirs, with_length, pspec. intros Hs. assert (length s < S (length s))%nat as Hn by lia.
  revert Hn. generalize (S (length s)) as n. intros n. revert s Hs.
  induction n as [|n IH]; intros s Hs Hn; [lia|]. cbn [parseredirs_loop]. apply pspec_bind, peek_spec. intros b Hb.
  destruct b; [|apply pspec_ret; split; [apply skip_suffix|constructor]]. destruct (Hb eq_refl) as [H0 _].
  apply pspec_bind, (gettoken_after s0); [done|done|]. intros tok w s1 H1 Hl1 _.
  apply pspec_bind. eapply pspec_mono; [apply (gettoken_spec s0); by etrans|].
  intros [tok2 w2] s2 (H2 & _ & Hw & _). destruct (Z.eqb_spec tok2 97) as [E|]; [|done]. cbn [negb].
  assert (s2 `suffix_of` s) as H2s by (by etrans). apply suffix_len in H2 as Hl2.
  apply pspec_bind. eapply pspec_mono; [apply (IH s2); [by etrans|lia]|].
  intros rs s3 [H3 Hrs]. apply pspec_ret. split; [by etrans|]. constructor; [|done].
  destruct (tok =? 60); (split; [by apply Hw|]); [by left|by right].
Qed.

Lemma parseargs_spec n argv rs s :
  s `suffix_of` s0 -> (length s < n)%nat -> Forall (wf_word s0) argv -> wfr rs ->
  pspec (parseargs n argv rs) s (fun '(a, r) s' => s' `suffix_of` s /\ Forall (wf_word s0) a /\ wfr r).
Proof.
  revert argv rs s. induction n as [|n IH]; intros argv rs s Hs Hn Ha Hr; [lia|]. cbn [parseargs].
  apply pspec_bind, peek_spec. intros b _. pose proof (skip_suffix (strchr whitespace) s) as Hk. fold skip_ws in Hk.
  destruct b; [by apply pspec_ret|]. apply pspec_bind. eapply pspec_mono.
  { apply (gettoken_spec s0). by etrans. }
  intros [tok w] s1 (H1 & Hl1 & Hw & Ht0). destruct (Z.eqb_spec tok 0) as [E0|E0].
  { apply pspec_ret. split_and!; [by etrans|done|done]. }
  destruct (Z.eqb_spec tok 97) as [E|]; [|done]. cbn [negb].
  destruct (MAXARGS <=? length (argv ++ [w]))%nat; [done|]. specialize (Hl1 (Ht0 E0)). apply suffix_len in Hk as Hkl.
  assert (s1 `suffix_of` s) as H1s by (by etrans).
  apply pspec_bind. eapply pspec_mono; [apply parseredirs_spec; by etrans|].
  intros rs' s2 [H2 Hr']. pose proof (suffix_len _ _ H2) as Lb. eapply pspec_mono; [apply IH|].
  - by do 2 (etrans; [eassumption|]).
  - lia.
  - apply Forall_app. split; [done|]. constructor; [auto|done].
  - by apply Forall_app.
  - intros [a r] s3 (? & ? & ?). split_and!; [|done|done]. by do 2 (etrans; [eassumption|]).
Qed.

Lemma parsebacks_spec n c s :
  s `suffix_of` s0 -> (length s < n)%nat -> wf c ->
  pspec (parsebacks n c) s (fun c s' => s' `suffix_of` s /\ wf c).
Proof.
  revert c s. induction n as [|n IH]; intros c s Hs Hn Hc; [lia|]. cbn [parsebacks].
  apply pspec_bind, peek_spec. intros b Hb. destruct b; [|apply pspec_ret; split; [apply skip_suffix|done]].
  destruct (Hb eq_refl) as [H0 _]. apply pspec_bind, (gettoken_after s0); [done|done|]. intros tok w s1 H1 Hl1 _.
  eapply pspec_mono; [apply IH; [by etrans|lia|done]|]. intros c' s' [? ?]. split; [by etrans|done].
Qed.

Lemma fold_redirs_wf rs c : wf c -> wfr rs -> wf (fold_left redircmd rs c).
Proof.
  intros Hc Hr. revert c Hc. induction Hr as [|r rs Hr _ IH]; intros c Hc; [done|]. apply IH. by split.
Qed.

(** What is said of all four functions. *)
Definition parses (f : P (cmd word)) (s : list Z) : Prop := pspec f s (fun c s' => s' `suffix_of` s /\ wf c).

Lemma parser_spec n :
  (forall s, s `suffix_of` s0 -> (4 * length s + 4 <= n)%nat -> parses (parseline n) s) /\
  (forall s, s `suffix_of` s0 -> (4 * length s + 3 <= n)%nat -> parses (parsepipe n) s) /\
  (forall s, s `suffix_of` s0 -> (4 * length s + 1 <= n)%nat -> parses (parseblock n) s) /\
  (forall s, s `suffix_of` s0 -> (4 * length s + 2 <= n)%nat -> parses (parseexec n) s).
Proof.
  unfold parses. induction n as [|n (IHl & IHp & IHb & IHe)]; [split_and!; intros; lia|]. split_and!; intros s Hs Hn.
  - cbn [parseline]. apply pspec_bind. eapply pspec_mono; [apply IHp; [done|lia]|]. intros c s1 [H1 Hc].
    pose proof (suffix_len _ _ H1) as La. assert (s1 `suffix_of` s0) as H10 by (by etrans).
    apply pspec_bind. eapply pspec_mono; [apply parsebacks_spec; [done|lia|done]|]. intros c' s2 [H2 Hc'].
    apply pspec_bind, peek_spec. intros b Hb. pose proof (suffix_len _ _ H2) as Lb. assert (s2 `suffix_of` s) as H2s by (by etrans).
    destruct b; [|apply pspec_ret; split; [etrans; [apply skip_suffix|done]|done]]. destruct (Hb eq_refl) as [H0 _].
    apply pspec_bind, (gettoken_after s0); [by etrans|done|]. intros tok w s3 H3 Hl3 _.
    apply pspec_bind. eapply pspec_mono; [apply IHl; [by do 2 (etrans; [eassumption|])|lia]|].
    intros r s4 [H4 Hr]. apply pspec_ret. split; [by do 2 (etrans; [eassumption|])|by split].
  - cbn [parsepipe]. apply pspec_bind. eapply pspec_mono; [apply IHe; [done|lia]|]. intros c s1 [H1 Hc].
    pose proof (suffix_len _ _ H1) as La. assert (s1 `suffix_of` s0) as H10 by (by etrans).
    apply pspec_bind, peek_spec. intros b Hb.
    destruct b; [|apply pspec_ret; split; [etrans; [apply skip_suffix|done]|done]]. destruct (Hb eq_refl) as [H0 _].
    apply pspec_bind, (gettoken_after s0); [done|done|]. intros tok w s3 H3 Hl3 _.
    apply pspec_bind. eapply pspec_mono; [apply IHp; [by etrans|lia]|].
    intros r s4 [H4 Hr]. apply pspec_ret. split; [by do 2 (etrans; [eassumption|])|by split].
  - cbn [parseblock]. apply pspec_bind, peek_spec. intros b Hb. destruct b; [|done]. destruct (Hb eq_refl) as [H0 _].
    apply pspec_bind, (gettoken_after s0); [done|done|]. intros tok w s1 H1 Hl1 _.
    assert (s1 `suffix_of` s0) as H10 by (by etrans).
    apply pspec_bind. eapply pspec_mono; [apply IHl; [done|lia]|]. intros c s2 [H2 Hc].
    apply pspec_bind, peek_spec. intros b2 Hb2. destruct b2; [|done]. destruct (Hb2 eq_refl) as [H02 _].
    assert (s2 `suffix_of` s) as H2s by (by etrans).
    apply pspec_bind, (gettoken_after s0); [by etrans|done|]. intros tok2 w2 s3 H3 Hl3 _.
    assert (s3 `suffix_of` s) as H3s by (by etrans).
    apply pspec_bind. eapply pspec_mono; [apply parseredirs_spec; by etrans|]. intros rs s4 [H4 Hr].
    apply pspec_ret. split; [by etrans|by apply fold_redirs_wf].
  - cbn [parseexec]. apply pspec_bind, peek_spec. intros b _. pose proof (skip_suffix (strchr whitespace) s) as Hk. fold skip_ws in Hk.
    pose proof (suffix_len _ _ Hk) as La. assert (skip_ws s `suffix_of` s0) as Hk0 by (by etrans).
    destruct b. { eapply pspec_mono; [apply IHb; [done|lia]|]. intros c s' [? ?]. split; [by etrans|done]. }
    apply pspec_bind. eapply pspec_mono; [by apply parseredirs_spec|]. intros rs s1 [H1 Hr].
    apply pspec_bind. eapply pspec_mono; [apply parseargs_spec; [by etrans|lia|constructor|done]|].
    intros [a r] s2 (H2 & Ha & Hr2). apply pspec_ret. split; [by do 2 (etrans; [eassumption|])|by apply fold_redirs_wf].
Qed.
End Parser.

Lemma parse_spec s : pspec parse s (fun c s' => s' = [] /\ all_words (wf_word s) c).
Proof.
  unfold parse. destruct (parser_spec s (parse_fuel s)) as (Hl & _).
  apply pspec_bind. eapply pspec_mono; [by apply Hl|]. intros c s1 [H1 Hc].
  apply pspec_bind, peek_spec. intros b _. unfold pspec, at_end. by destruct (skip_ws s1).
Qed.

(** C34. The parser of the shell ends on every line: it returns a command or reports
    an error, with fuel proportional to the length of the line. *)
Theorem parsecmd_terminates s : parsecmd s <> PFuel.
Proof. unfold parsecmd. pose proof (parse_spec s) as Hp. unfold pspec in Hp. by destruct (parse s). Qed.

(** ** [nulterminate] *)

Lemma all_words_impl {W} (Q Q' : W -> Prop) c : all_words Q c -> (forall w, Q w -> Q' w) -> all_words Q' c.
Proof.
  intros Hc HQ. induction c as [argv|c IH f m fd|l IHl r IHr|l IHl r IHr|c IH]; cbn in *; try tauto.
  - by eapply Forall_impl.
  - destruct Hc as (? & ? & ?). auto.
Qed.
Lemma all_words_and {W} (Q Q' : W -> Prop) c : all_words Q c -> all_words Q' c -> all_words (fun w => Q w /\ Q' w) c.
Proof.
  induction c as [argv|c IH f m fd|l IHl r IHr|l IHl r IHr|c IH]; cbn; try tauto.
  intros H1 H2. apply Forall_and. by split.
Qed.

Section Nulterminate.
Context (s : list Z).
#[local] Abbreviation n := (length s).
#[local] Abbreviation line := (s ++ [0]).

(** The line with NULs only where no word has a character. *)
Record cut (buf : list Z) : Prop := {
  cut_len : length buf = S n;
  cut_word i c : line !! i = Some c -> word_char c = true -> buf !! i = Some c;
}.

Lemma addr_at p k c : p `suffix_of` s -> (p ++ [0]) !! k = Some c -> line !! (addr n p + k)%nat = Some c.
Proof.
  intros [u ->] Hk. unfold addr. rewrite length_app. replace (length u + length p - length p)%nat with (length u) by lia.
  rewrite <- app_assoc, lookup_app_r by lia. by replace (length u + k - length u)%nat with k by lia.
Qed.
Lemma word_end_suffix w : wf_word s w -> w.2 `suffix_of` s.
Proof. intros Hw. etrans; [|apply (ww_start _ _ Hw)]. exists (text w). apply (ww_text _ _ Hw). Qed.

(** Putting a NUL after a word. *)
Lemma cut_insert buf w : wf_word s w -> cut buf ->
  cut (<[addr n w.2 := 0]> buf) /\ (<[addr n w.2 := 0]> buf) !! addr n w.2 = Some 0 /\
  forall i, buf !! i = Some 0 -> (<[addr n w.2 := 0]> buf) !! i = Some 0.
Proof.
  intros Hw [Hl Hc]. assert (addr n w.2 < length buf)%nat as Hlt by (unfold addr; lia). split_and!.
  - split; [by rewrite length_insert|]. intros i c Hi Hwc. destruct (decide (i = addr n w.2)) as [->|Hne].
    + rewrite list_lookup_insert_eq by done. f_equal. destruct w.2 as [|x e] eqn:E.
      * pose proof (addr_at [] 0 0 ltac:(apply suffix_nil) eq_refl) as H0. rewrite Nat.add_0_r in H0. congruence.
      * pose proof (word_end_suffix w Hw) as Hs. rewrite E in Hs. pose proof (addr_at (x :: e) 0 x Hs eq_refl) as H0.
        rewrite Nat.add_0_r in H0. pose proof (ww_end _ _ Hw) as He. rewrite E in He. congruence.
    + rewrite list_lookup_insert_ne by done. by apply Hc.
  - by apply list_lookup_insert_eq.
  - intros i Hi. destruct (decide (i = addr n w.2)) as [->|Hne]; [by apply list_lookup_insert_eq|].
    by rewrite list_lookup_insert_ne by done.
Qed.

Lemma nulterminate_spec c buf : all_words (wf_word s) c -> cut buf ->
  cut (nulterminate n c buf) /\ (forall i, buf !! i = Some 0 -> nulterminate n c buf !! i = Some 0) /\
  all_words (fun w => nulterminate n c buf !! addr n w.2 = Some 0) c.
Proof.
  revert buf. induction c as [argv|c IH f m fd|l IHl r IHr|l IHl r IHr|c IH]; intros buf Hw Hc; cbn [nulterminate all_words] in *.
  - revert buf Hc. induction Hw as [|w argv Hw _ IH]; intros buf Hc; cbn [fold_left]; [by split_and!|].
    destruct (cut_insert buf w Hw Hc) as (Hc1 & H0 & Hk). destruct (IH _ Hc1) as (Hc2 & Hk2 & Ha).
    split_and!; [done|auto|]. constructor; [auto|done].
  - destruct Hw as (Hw & Hf & Hm). destruct (IH buf Hw Hc) as (Hc1 & Hk1 & Ha). destruct (cut_insert _ f Hf Hc1) as (Hc2 & H0 & Hk2).
    split_and!; [done|auto| |done|done]. eapply all_words_impl; [exact Ha|]. auto.
  - destruct Hw as [Hl Hr]. destruct (IHl buf Hl Hc) as (Hc1 & Hk1 & Ha1). destruct (IHr _ Hr Hc1) as (Hc2 & Hk2 & Ha2).
    split_and!; [done|auto| |done]. eapply all_words_impl; [exact Ha1|]. auto.
  - destruct Hw as [Hl Hr]. destruct (IHl buf Hl Hc) as (Hc1 & Hk1 & Ha1). destruct (IHr _ Hr Hc1) as (Hc2 & Hk2 & Ha2).
    split_and!; [done|auto| |done]. eapply all_words_impl; [exact Ha1|]. auto.
  - by apply IH.
Qed.

Lemma string_from_spec l buf :
  (forall k c, l !! k = Some c -> buf !! k = Some c /\ c <> 0) -> buf !! length l = Some 0 -> string_from buf = l.
Proof.
  revert buf. induction l as [|c l IH]; intros buf Hl H0; destruct buf as [|x buf]; try done; cbn in *.
  - by injection H0 as ->.
  - destruct (Hl 0%nat c eq_refl) as [[= ->] Hne]. rewrite (proj2 (Z.eqb_neq _ _) Hne). f_equal.
    apply IH; [|done]. intros k x Hk. apply (Hl (S k) x Hk).
Qed.

Lemma word_string buf w : Forall (fun c => c <> 0) s -> wf_word s w -> cut buf -> buf !! addr n w.2 = Some 0 ->
  string_from (drop (addr n w.1) buf) = text w.
Proof.
  intros Hnz Hw [Hl Hc] H0. pose proof (ww_text _ _ Hw) as Et. pose proof (ww_start _ _ Hw) as Hs.
  assert (addr n w.2 = addr n w.1 + length (text w))%nat as Ea.
  { apply suffix_len in Hs. unfold addr. rewrite Et in *. rewrite length_app in *. lia. }
  apply string_from_spec.
  - intros k c Hk. rewrite lookup_drop. split.
    + apply Hc; [|exact (Forall_lookup_1 _ _ _ _ (ww_chars _ _ Hw) Hk)]. apply addr_at; [done|].
      rewrite Et, <- app_assoc. by apply lookup_app_l_Some.
    + destruct Hs as [u Eu]. apply (Forall_lookup_1 (fun c => c <> 0) s (length u + k) c Hnz).
      rewrite Eu, lookup_app_r by lia. replace (length u + k - length u)%nat with k by lia. rewrite Et. by apply lookup_app_l_Some.
  - by rewrite lookup_drop, <- Ea.
Qed.
End Nulterminate.

(** When parsecmd accepts a line, every argument and file name of the command is
    a maximal word of the line, and the string at its address, after nulterminate
    put in the NULs, is exactly this word: no NUL is put inside another word. *)
Theorem parsecmd_words s c buf s' :
  Forall (fun x => x <> 0) s -> parsecmd s = POk (c, buf) s' ->
  all_words (fun w => wf_word s w /\ string_from (drop (addr (length s) w.1) buf) = text w) c.
Proof.
  intros Hnz Hp. unfold parsecmd in Hp. pose proof (parse_spec s) as Hs. unfold pspec in Hs.
  destruct (parse s) as [c0 s1| |]; try done. injection Hp as -> <- <-. destruct Hs as [_ Hw].
  assert (cut s (s ++ [0])) as Hc by (split; [rewrite length_app; cbn; lia|done]).
  destruct (nulterminate_spec s c _ Hw Hc) as (Hc' & _ & H0).
  eapply all_words_impl; [exact (all_words_and _ _ _ Hw H0)|]. intros w [Hww Hw0]. split; [done|]. by apply word_string.
Qed.

Lemma parsecmd_words_witness :
  let s := [108; 115; 32; 45; 108; 62; 97; 10] in
  exists c buf, parsecmd s = POk (c, buf) [] /\
    all_words (fun w => wf_word s w /\ string_from (drop (addr 8 w.1) buf) = text w) c.
Proof.
  intros s. destruct (parsecmd s) as [[c buf] s'| |] eqn:E; [|vm_compute in E; discriminate E..].
  assert (s' = []) as -> by (vm_compute in E; injection E as _ _ <-; reflexivity).
  exists c, buf. split; [reflexivity|].
  exact (parsecmd_words s c buf [] ltac:(subst s; repeat constructor; discriminate) E).
Defined.

(** ** Writing commands out *)

Fixpoint cmd_map {W W'} (f : W -> W') (c : cmd W) : cmd W' :=
  match c with
  | EXEC argv => EXEC (map f argv)
  | REDIR c w m fd => REDIR (cmd_map f c) (f w) m fd
  | PIPE l r => PIPE (cmd_map f l) (cmd_map f r)
  | LIST l r => LIST (cmd_map f l) (cmd_map f r)
  | BACK c => BACK (cmd_map f c)
  end.

Definition paren (b : bool) (s : list Z) : list Z := if b then 40 :: s ++ [41] else s.
Definition print_redir (f : list Z) (fd : Z) : list Z := (if fd =? 0 then 60 else 62) :: f ++ [32].
(** A command as a line; the level says what may stand in its place without
    parentheses: a list (0), a background command (1), a pipeline (2) or a
    simple command (3). *)
Fixpoint print (lvl : nat) (c : cmd (list Z)) : list Z :=
  match c with
  | EXEC ws => concat (map (fun w => w ++ [32]) ws)
  | REDIR c f _ fd => print 3 c ++ print_redir f fd
  | PIPE l r => paren (2 <? lvl)%nat (print 3 l ++ 124 :: print 2 r)
  | BACK c => paren (1 <? lvl)%nat (print 1 c ++ [38])
  | LIST l r => paren (0 <? lvl)%nat (print 1 l ++ 59 :: print 0 r)
  end.

(** The commands a line can stand for: words of the shell, fewer than MAXARGS of
    them, and the two kinds of redirection. *)
Definition src_word (w : list Z) : Prop := w <> [] /\ Forall (fun c => word_char c = true /\ c <> 0) w.
Fixpoint src_cmd (c : cmd (list Z)) : Prop :=
  match c with
  | EXEC ws => Forall src_word ws /\ (length ws < MAXARGS)%nat
  | REDIR c f m fd => src_cmd c /\ src_word f /\ src_redir m fd
  | PIPE l r | LIST l r => src_cmd l /\ src_cmd r
  | BACK c => src_cmd c
  end.

(** ** Reading it back *)

(** What comes next, after white space, is the end or one of [l]. *)
Definition next (l : list Z) (s : list Z) : Prop :=
  match skip_ws s with [] => True | c :: _ => strchr l c = true end.

Lemma skip_ws_cons c s : strchr whitespace c = false -> skip_ws (c :: s) = c :: s.
Proof. intros Hc. unfold skip_ws. cbn [skip]. by rewrite Hc. Qed.
Lemma skip_ws_space s : skip_ws (32 :: s) = skip_ws s.
Proof. done. Qed.
Lemma skip_ws_idem s : skip_ws (skip_ws s) = skip_ws s.
Proof. apply skip_skip. Qed.

Lemma peek_run toks s : peek toks s = POk (negb (deref (skip_ws s) =? 0) && strchr toks (deref (skip_ws s))) (skip_ws s).
Proof. done. Qed.
Lemma peek_ws {B} toks (k : bool -> P B) s : (peek toks ≫= k) (skip_ws s) = (peek toks ≫= k) s.
Proof. unfold mbind, P_bind. rewrite !peek_run, skip_ws_idem. done. Qed.
Lemma peek_bind {B} toks (k : bool -> P B) s :
  (peek toks ≫= k) s = k (negb (deref (skip_ws s) =? 0) && strchr toks (deref (skip_ws s))) (skip_ws s).
Proof. done. Qed.
Lemma pbind_ok {A B} (m : P A) (k : A -> P B) s a s' : m s = POk a s' -> (m ≫= k) s = k a s'.
Proof. unfold mbind, P_bind. by intros ->. Qed.

(** A peek for what does not come next, and for what does. *)
Lemma peek_other {B} toks l (k : bool -> P B) s :
  next l s -> (forall c, strchr l c = true -> strchr toks c = false) -> (peek toks ≫= k) s = k false (skip_ws s).
Proof.
  intros Hn Hd. rewrite peek_bind. f_equal. unfold next in Hn. destruct (skip_ws s) as [|c s']; [done|].
  cbn [deref]. rewrite (Hd c Hn). apply andb_false_r.
Qed.
Lemma peek_here {B} toks c (k : bool -> P B) s :
  strchr whitespace c = false -> c <> 0 -> strchr toks c = true -> (peek toks ≫= k) (c :: s) = k true (c :: s).
Proof. intros Hw H0 Ht. rewrite peek_bind, skip_ws_cons by done. cbn [deref]. by rewrite (proj2 (Z.eqb_neq _ _) H0), Ht. Qed.

Lemma gettoken_sym c s :
  strchr [124; 40; 41; 59; 38; 60] c = true -> gettoken (c :: s) = POk (c, (c :: s, s)) (skip_ws s).
Proof.
  intros Hc. unfold gettoken. assert (strchr whitespace c = false /\ c <> 0) as [Hw H0].
  { unfold strchr, whitespace in *. cbn [existsb] in *. lia. }
  rewrite skip_ws_cons by done. cbn [deref tail]. by rewrite (proj2 (Z.eqb_neq _ _) H0), Hc.
Qed.
Lemma gettoken_gt s : deref s <> 62 -> gettoken (62 :: s) = POk (62, (62 :: s, s)) (skip_ws s).
Proof. intros Hs. unfold gettoken. cbn. by rewrite (proj2 (Z.eqb_neq _ _) Hs). Qed.

Lemma skip_word w s : Forall (fun c => word_char c = true /\ c <> 0) w -> skip word_char (w ++ 32 :: s) = 32 :: s.
Proof. induction 1 as [|c w [Hc _] _ IH]; [done|]. cbn. by rewrite Hc. Qed.
Lemma gettoken_word w s : src_word w -> gettoken (w ++ 32 :: s) = POk (97, (w ++ 32 :: s, 32 :: s)) (skip_ws s).
Proof.
  intros [Hne Hw]. destruct w as [|c w]; [done|]. pose proof (Forall_inv Hw) as [Hc H0].
  assert (strchr whitespace c = false /\ strchr symbols c = false) as [Hws Hsy].
  { unfold word_char in Hc. apply andb_true_iff in Hc as [H1 H2]. by apply negb_true_iff in H1, H2. }
  unfold gettoken. cbn [app]. rewrite skip_ws_cons by done. cbn [deref tail].
  rewrite (proj2 (Z.eqb_neq _ _) H0).
  replace (strchr [124; 40; 41; 59; 38; 60] c) with false by (unfold strchr, symbols in *; cbn [existsb] in *; lia).
  rewrite (proj2 (Z.eqb_neq c 62)) by (unfold strchr, symbols in *; cbn [existsb] in *; lia).
  change (c :: w ++ 32 :: s) with ((c :: w) ++ 32 :: s). by rewrite skip_word.
Qed.
Lemma text_word w s : text (w ++ 32 :: s, 32 :: s) = w.
Proof. apply text_app. Qed.

(** A redirection as it is written, and the one the parser makes of it. *)
Definition rsrc : Type := list Z * Z * Z.
Definition src_r (r : rsrc) : Prop := src_word r.1.1 /\ src_redir r.1.2 r.2.
Definition print_rs (rs : list rsrc) : list Z := concat (map (fun r => print_redir r.1.1 r.2) rs).
Definition rtext (r : redir) : rsrc := (text (r_file r), r_mode r, r_fd r).

Lemma src_head w : src_word w -> exists c w', w = c :: w' /\ strchr whitespace c = false /\ strchr symbols c = false /\ c <> 0.
Proof.
  intros [Hne Hw]. destruct w as [|c w]; [done|]. pose proof (Forall_inv Hw) as [Hc H0]. exists c, w.
  unfold word_char in Hc. apply andb_true_iff in Hc as [H1 H2]. apply negb_true_iff in H1, H2. done.
Qed.
Lemma skip_ws_word w s : src_word w -> skip_ws (w ++ s) = w ++ s.
Proof. intros (c & w' & -> & Hc & _)%src_head. by apply skip_ws_cons. Qed.
Lemma skip_ws_redir f fd s : skip_ws (print_redir f fd ++ s) = print_redir f fd ++ s.
Proof. unfold print_redir. cbn [app]. apply skip_ws_cons. by destruct (fd =? 0). Qed.

Lemma redirs_loop_ws n s : parseredirs_loop n (skip_ws s) = parseredirs_loop n s.
Proof. destruct n as [|n]; [done|]. cbn [parseredirs_loop]. apply peek_ws. Qed.

Lemma redirs_loop_run n rs rest :
  Forall src_r rs -> (length rs < n)%nat -> strchr [60; 62] (deref (skip_ws rest)) = false ->
  exists rs', parseredirs_loop n (print_rs rs ++ rest) = POk rs' (skip_ws rest) /\ map rtext rs' = rs.
Proof.
  intros Hrs. revert n. induction Hrs as [|[[f m] fd] rs [Hf Hr] _ IH]; intros n Hn Hrest.
  { destruct n as [|n]; [lia|]. exists []. split; [|done]. cbn [parseredirs_loop print_rs map concat app].
    rewrite peek_bind, Hrest, andb_false_r. done. }
  destruct n as [|n]; [cbn in Hn; lia|]. cbn [length] in Hn. destruct (IH n ltac:(lia) Hrest) as (rs' & E & Et).
  cbn [fst snd] in *. set (t := print_rs rs ++ rest) in *.
  assert (print_rs (@cons rsrc (f, m, fd) rs) ++ rest = (if fd =? 0 then 60 else 62) :: f ++ 32 :: t) as Es.
  { unfold print_rs, print_redir. cbn [map concat fst snd]. cbn [app]. f_equal. by rewrite <- !app_assoc. }
  rewrite Es. cbn [parseredirs_loop]. set (c := if fd =? 0 then 60 else 62).
  assert (gettoken (c :: f ++ 32 :: t) = POk (c, (c :: f ++ 32 :: t, f ++ 32 :: t)) (f ++ 32 :: t)) as Eg.
  { unfold c. destruct (fd =? 0); [rewrite gettoken_sym by done|rewrite gettoken_gt]; try by rewrite skip_ws_word.
    destruct (src_head f Hf) as (x & f' & -> & _ & Hsy & _). cbn. intros ->. done. }
  rewrite peek_here by (unfold c; by destruct (fd =? 0)). rewrite (pbind_ok _ _ _ _ _ Eg). cbv beta iota.
  rewrite (pbind_ok _ _ _ _ _ (gettoken_word f t Hf)). cbv beta iota. cbn [negb Z.eqb Pos.eqb].
  rewrite <- redirs_loop_ws in E. cbv zeta. rewrite (pbind_ok _ _ _ _ _ E). eexists. split; [reflexivity|].
  cbn [map]. rewrite Et. f_equal. unfold rtext, c. destruct Hr as [[-> ->]|[-> ->]]; cbn [Z.eqb Pos.eqb r_file r_mode r_fd]; by rewrite text_word.
Qed.

Lemma redirs_run rs rest :
  Forall src_r rs -> strchr [60; 62] (deref (skip_ws rest)) = false ->
  exists rs', parseredirs (skip_ws (print_rs rs ++ rest)) = POk rs' (skip_ws rest) /\ map rtext rs' = rs.
Proof.
  intros Hrs Hrest. unfold parseredirs, with_length. set (n := S _).
  destruct (redirs_loop_run n rs rest Hrs) as (rs' & E & Et); [|done|exists rs'; by rewrite redirs_loop_ws].
  unfold n. destruct rs as [|[[f m] fd] rs]; [cbn; lia|]. unfold print_rs. cbn [map concat fst snd]. rewrite <- app_assoc, skip_ws_redir.
  rewrite !length_app. cbn [length print_redir]. clear Hrs n. enough (length rs <= length (print_rs rs))%nat; [unfold print_rs in *; lia|].
  induction rs as [|r rs IH]; [done|]. unfold print_rs in *. cbn [map concat]. rewrite length_app. cbn. lia.
Qed.

(** ** Arguments *)

Definition print_ws (ws : list (list Z)) : list Z := concat (map (fun w => w ++ [32]) ws).
Lemma print_ws_cons w ws s : print_ws (w :: ws) ++ s = w ++ 32 :: (print_ws ws ++ s).
Proof. unfold print_ws. cbn. by rewrite <- !app_assoc. Qed.

Lemma parseargs_ws n argv rs s : parseargs n argv rs (skip_ws s) = parseargs n argv rs s.
Proof. destruct n as [|n]; [done|]. cbn [parseargs]. apply peek_ws. Qed.

Definition stops : list Z := [124; 41; 38; 59].

(** At the end of the arguments. *)
Lemma parseargs_end n argv rs rest : (0 < n)%nat -> next stops rest -> parseargs n argv rs rest = POk (argv, rs) (skip_ws rest).
Proof.
  intros Hn Hr. destruct n as [|n]; [lia|]. cbn [parseargs]. rewrite peek_bind. unfold next, stops in Hr.
  destruct (skip_ws rest) as [|c s] eqn:E.
  - cbn [deref Z.eqb negb andb]. unfold mbind, P_bind, gettoken. reflexivity.
  - cbn [deref]. assert (c <> 0) by (intros ->; done). rewrite (proj2 (Z.eqb_neq _ _)), Hr by done. done.
Qed.

Lemma redir_free w s : src_word w -> strchr [60; 62] (deref (skip_ws (w ++ s))) = false.
Proof.
  intros Hw. rewrite skip_ws_word by done. destruct (src_head w Hw) as (c & w' & -> & _ & Hsy & _). cbn [app deref].
  unfold strchr, symbols in *. cbn [existsb] in *. lia.
Qed.
Lemma stops_free rest : next stops rest -> strchr [60; 62] (deref (skip_ws rest)) = false.
Proof.
  unfold next, stops. destruct (skip_ws rest) as [|c s]; [done|]. cbn [deref]. unfold strchr. cbn [existsb]. lia.
Qed.

(** One argument. *)
Lemma parseargs_step n argv rs0 w t :
  src_word w -> (length argv + 1 < MAXARGS)%nat ->
  parseargs (S n) argv rs0 (w ++ 32 :: t) =
    (rs' ← parseredirs; parseargs n (argv ++ [((w ++ 32 :: t, 32 :: t) : word)]) (rs0 ++ rs')) (skip_ws t).
Proof.
  intros Hw Hlen. cbn [parseargs]. destruct (src_head w Hw) as (c & wt & Ew & Hc1 & Hc2 & Hc3).
  assert ((peek [124; 41; 38; 59] (w ++ 32 :: t)) = POk false (w ++ 32 :: t)) as Ep.
  { rewrite peek_run, skip_ws_word by done. rewrite Ew. cbn [app deref]. f_equal. unfold strchr, symbols in *. cbn [existsb] in *. lia. }
  rewrite (pbind_ok _ _ _ _ _ Ep). cbv iota. rewrite (pbind_ok _ _ _ _ _ (gettoken_word w t Hw)). cbv beta iota.
  change (97 =? 0) with false. change (97 =? 97) with true. cbn [negb]. cbv zeta iota.
  by rewrite (proj2 (Nat.leb_gt _ _)) by (rewrite length_app; cbn in *; lia).
Qed.

Lemma parseargs_run n argv rs0 w ws rs rest :
  Forall src_word (w :: ws) -> Forall src_r rs -> next stops rest -> (length ws + 1 < n)%nat ->
  (length argv + length (w :: ws) < MAXARGS)%nat ->
  exists argv' rs', parseargs n argv rs0 (print_ws (w :: ws) ++ print_rs rs ++ rest) = POk (argv ++ argv', rs0 ++ rs') (skip_ws rest) /\
    map text argv' = w :: ws /\ map rtext rs' = rs.
Proof.
  intros Hws Hrs Hrest. revert n argv rs0 w Hws. induction ws as [|w' ws IH]; intros n argv rs0 w Hws Hn Hlen;
    (destruct n as [|n]; [lia|]); rewrite print_ws_cons;
    pose proof (Forall_inv Hws) as Hw; pose proof (Forall_inv_tail Hws) as Hws'; cbn [length] in *.
  - change (print_ws [] ++ ?x) with x. set (t := print_rs rs ++ rest). rewrite parseargs_step by (done || lia).
    destruct (redirs_run rs rest Hrs (stops_free rest Hrest)) as (rs' & E & Et). fold t in E.
    rewrite (pbind_ok _ _ _ _ _ E), parseargs_ws, parseargs_end by (done || lia).
    exists [((w ++ 32 :: t, 32 :: t) : word)], rs'. split_and!; [done| |done]. cbn [map]. by rewrite text_word.
  - set (t := print_ws (w' :: ws) ++ print_rs rs ++ rest). rewrite parseargs_step by (done || lia).
    assert (strchr [60; 62] (deref (skip_ws t)) = false) as Hfree.
    { unfold t. rewrite print_ws_cons. apply redir_free. by apply Forall_inv in Hws'. }
    destruct (redirs_run [] t ltac:(constructor) Hfree) as (rs1 & E & Et). destruct rs1; [|done]. cbn [print_rs map concat app] in E.
    rewrite (pbind_ok _ _ _ _ _ E), app_nil_r, parseargs_ws. set (x := (_, _) : word).
    destruct (IH n (argv ++ [x]) rs0 w' Hws') as (argv' & rs' & E' & Et1 & Et2); [lia|rewrite length_app; cbn; lia|].
    fold t in E'. rewrite E'. exists (x :: argv'), rs'. rewrite <- app_assoc.
    split_and!; [done| |done]. cbn [map]. unfold x. by rewrite text_word, Et1.
Qed.

(** ** Simple commands *)

Definition rwrap (c : cmd (list Z)) (r : rsrc) : cmd (list Z) := REDIR c r.1.1 r.1.2 r.2.
Lemma fold_redirs_text rs c : cmd_map text (fold_left redircmd rs c) = fold_left rwrap (map rtext rs) (cmd_map text c).
Proof. revert c. induction rs as [|r rs IH]; intros c; [done|]. cbn [fold_left map]. by rewrite IH. Qed.

Lemma parseexec_ws n s : parseexec n (skip_ws s) = parseexec n s.
Proof. destruct n as [|n]; [done|]. cbn [parseexec]. apply peek_ws. Qed.
Lemma parsepipe_ws n s : parsepipe n (skip_ws s) = parsepipe n s.
Proof. destruct n as [|n]; [done|]. cbn [parsepipe]. unfold mbind at 1 3, P_bind. by rewrite parseexec_ws. Qed.
Lemma parseline_ws n s : parseline n (skip_ws s) = parseline n s.
Proof. destruct n as [|n]; [done|]. cbn [parseline]. unfold mbind at 1 4, P_bind. by rewrite parsepipe_ws. Qed.

(** The first character of arguments and redirections is no parenthesis. *)
Lemma exec_first ws rs rest :
  Forall src_word ws -> next stops rest -> strchr [40] (deref (skip_ws (print_ws ws ++ print_rs rs ++ rest))) = false.
Proof.
  intros Hws Hr. destruct ws as [|w ws].
  - change (print_ws [] ++ ?x) with x. destruct rs as [|[[f m] fd] rs].
    + change (print_rs [] ++ rest) with rest. unfold next, stops in Hr. destruct (skip_ws rest) as [|c s]; [done|].
      cbn [deref]. unfold strchr in *. cbn [existsb] in *. lia.
    + unfold print_rs. cbn [map concat fst snd]. rewrite <- app_assoc, skip_ws_redir. cbn [print_redir app deref].
      by destruct (fd =? 0).
  - rewrite print_ws_cons. apply Forall_inv in Hws. rewrite skip_ws_word by done.
    destruct (src_head w Hws) as (c & w' & -> & _ & Hsy & _). cbn [app deref]. unfold strchr, symbols in *. cbn [existsb] in *. lia.
Qed.

Lemma exec_run n ws rs rest :
  Forall src_word ws -> (length ws < MAXARGS)%nat -> Forall src_r rs -> next stops rest -> (0 < n)%nat ->
  exists c', parseexec n (print_ws ws ++ print_rs rs ++ rest) = POk c' (skip_ws rest) /\
    cmd_map text c' = fold_left rwrap rs (EXEC ws).
Proof.
  intros Hws Hlen Hrs Hr Hn. destruct n as [|n]; [lia|]. cbn [parseexec].
  rewrite peek_bind, (exec_first ws rs rest Hws Hr), andb_false_r. cbv iota. destruct ws as [|w ws].
  - change (print_ws [] ++ ?x) with x.
    destruct (redirs_run rs rest Hrs (stops_free rest Hr)) as (rs' & E & Et). rewrite (pbind_ok _ _ _ _ _ E).
    assert (with_length (fun m => parseargs m [] rs') (skip_ws rest) = POk ([], rs') (skip_ws rest)) as E2.
    { unfold with_length. rewrite parseargs_ws. apply parseargs_end; [lia|done]. }
    rewrite (pbind_ok _ _ _ _ _ E2). cbv beta iota. eexists. split; [reflexivity|]. by rewrite fold_redirs_text, Et.
  - set (t := print_ws (w :: ws) ++ print_rs rs ++ rest). pose proof (Forall_inv Hws) as Hw.
    assert (strchr [60; 62] (deref (skip_ws t)) = false) as Hfree by (unfold t; rewrite print_ws_cons; by apply redir_free).
    destruct (redirs_run [] t ltac:(constructor) Hfree) as (rs1 & E & Et). destruct rs1; [|done].
    change (print_rs [] ++ t) with t in E. rewrite (pbind_ok _ _ _ _ _ E).
    destruct (parseargs_run (S (length (skip_ws t))) [] [] w ws rs rest) as (argv' & rs' & E' & Et1 & Et2); try done.
    { unfold t. rewrite print_ws_cons, skip_ws_word by done. rewrite !length_app. cbn [length]. rewrite length_app.
      destruct Hw as [Hne _]. destruct w; [done|]. cbn [length]. clear. enough (length ws <= length (print_ws ws))%nat by lia.
      induction ws as [|x ws IH]; [done|]. unfold print_ws in *. cbn. rewrite !length_app. cbn. lia. }
    assert (with_length (fun m => parseargs m [] []) (skip_ws t) = POk (argv', rs') (skip_ws rest)) as E2.
    { unfold with_length. by rewrite parseargs_ws. }
    rewrite (pbind_ok _ _ _ _ _ E2). cbv beta iota. eexists. split; [reflexivity|].
    rewrite fold_redirs_text, Et2. cbn [cmd_map]. by rewrite Et1.
Qed.

(** ** All commands *)

Definition reads (f : P (cmd word)) (s rest : list Z) (c : cmd (list Z)) : Prop :=
  exists c', f s = POk c' (skip_ws rest) /\ cmd_map text c' = c.
Definition L0 (c : cmd (list Z)) : Prop := forall n rest,
  (4 * length (print 0 c ++ rest) + 4 <= n)%nat -> next [41] rest -> reads (parseline n) (print 0 c ++ rest) rest c.
Definition L1 (c : cmd (list Z)) : Prop := forall n j rest,
  (4 * length (print 1 c ++ replicate j 38%Z ++ rest) + 3 <= n)%nat -> next [41; 59] rest ->
  reads (c ← parsepipe n; with_length (fun m => parsebacks m c)) (print 1 c ++ replicate j 38 ++ rest) rest (Nat.iter j BACK c).
Definition L2 (c : cmd (list Z)) : Prop := forall n rest,
  (4 * length (print 2 c ++ rest) + 3 <= n)%nat -> next [41; 38; 59] rest -> reads (parsepipe n) (print 2 c ++ rest) rest c.
Definition L3 (c : cmd (list Z)) : Prop := forall n rs rest,
  (4 * length (print 3 c ++ print_rs rs ++ rest) + 2 <= n)%nat -> Forall src_r rs -> next stops rest ->
  reads (parseexec n) (print 3 c ++ print_rs rs ++ rest) rest (fold_left rwrap rs c).

Lemma next_weaken l l' s : next l s -> (forall c, strchr l c = true -> strchr l' c = true) -> next l' s.
Proof. unfold next. intros Hn Hl. destruct (skip_ws s); auto. Qed.

Lemma L3_L2 c : L3 c -> print 2 c = print 3 c -> L2 c.
Proof.
  intros H3 Ep n rest Hn Hr. rewrite Ep in *. destruct n as [|n]; [lia|].
  destruct (H3 n [] rest) as (c' & E & Et); [cbn; lia|constructor| |].
  { eapply next_weaken; [exact Hr|]. unfold stops, strchr. intros x. cbn [existsb]. lia. }
  cbn [print_rs map concat app] in E. exists c'. split; [|done]. cbn [parsepipe]. rewrite (pbind_ok _ _ _ _ _ E).
  rewrite peek_ws. rewrite (peek_other [124] [41; 38; 59]); [done|done|]. unfold strchr. intros x. cbn [existsb]. lia.
Qed.

Lemma parsebacks_ws n c s : parsebacks n c (skip_ws s) = parsebacks n c s.
Proof. destruct n as [|n]; [done|]. cbn [parsebacks]. apply peek_ws. Qed.
Lemma backs_run n j c rest : (j < n)%nat -> next [41; 59] rest ->
  parsebacks n c (replicate j 38 ++ rest) = POk (Nat.iter j BACK c) (skip_ws rest).
Proof.
  revert n c. induction j as [|j IH]; intros n c Hn Hr; (destruct n as [|n]; [lia|]); cbn [parsebacks replicate app].
  - rewrite (peek_other [38] [41; 59]); [done|done|]. unfold strchr. intros x. cbn [existsb]. lia.
  - rewrite peek_here by done. rewrite (pbind_ok _ _ _ _ _ (gettoken_sym 38 _ eq_refl)), parsebacks_ws, IH by (done || lia).
    f_equal. symmetry. apply Nat.iter_succ_r.
Qed.
Lemma iter_text j (c : cmd word) : cmd_map text (Nat.iter j BACK c) = Nat.iter j BACK (cmd_map text c).
Proof. induction j as [|j IH]; [done|]. exact (f_equal BACK IH). Qed.

Lemma next_backs j rest : next [41; 59] rest -> next [41; 38; 59] (replicate j 38 ++ rest).
Proof.
  destruct j as [|j]; intros Hr; [|done]. eapply next_weaken; [exact Hr|]. unfold strchr. intros x. cbn [existsb]. lia.
Qed.
Lemma skip_backs j rest : (j <= length (skip_ws (replicate j 38%Z ++ rest)))%nat.
Proof. destruct j as [|j]; [lia|]. cbn. rewrite length_app, length_replicate. lia. Qed.

Lemma L2_L1 c : L2 c -> print 1 c = print 2 c -> L1 c.
Proof.
  intros H2 Ep n j rest Hn Hr. rewrite Ep in *. destruct (H2 n (replicate j 38 ++ rest)) as (c' & E & Et); [done|by apply next_backs|].
  exists (Nat.iter j BACK c'). split; [|etransitivity; [apply iter_text|by rewrite Et]]. rewrite (pbind_ok _ _ _ _ _ E). unfold with_length.
  rewrite parsebacks_ws. apply backs_run; [|done]. pose proof (skip_backs j rest). lia.
Qed.

Lemma line_bind {A} n (k : cmd word -> P A) s c' s' :
  (c ← parsepipe n; with_length (fun m => parsebacks m c)) s = POk c' s' ->
  (c ← parsepipe n; c ← with_length (fun m => parsebacks m c); k c) s = k c' s'.
Proof.
  unfold mbind, P_bind. destruct (parsepipe n s) as [c1 s1| |]; [|done|done]. by intros ->.
Qed.
Lemma L1_L0 c : L1 c -> print 0 c = print 1 c -> L0 c.
Proof.
  intros H1 Ep n rest Hn Hr. rewrite Ep in *. destruct n as [|n]; [lia|]. destruct (H1 n 0%nat rest) as (c' & E & Et); [cbn; lia| |].
  { eapply next_weaken; [exact Hr|]. unfold strchr. intros x. cbn [existsb]. lia. }
  cbn [replicate app Nat.iter] in *. exists c'. split; [|done]. cbn [parseline].
  rewrite (line_bind _ _ _ _ _ E), peek_ws. rewrite (peek_other [59] [41]); [done|done|].
  unfold strchr. intros x. cbn [existsb]. lia.
Qed.

Lemma block_run n c rs rest :
  L0 c -> (4 * length (40%Z :: print 0 c ++ 41%Z :: print_rs rs ++ rest) + 1 <= n)%nat -> Forall src_r rs -> next stops rest ->
  reads (parseblock n) (40 :: print 0 c ++ 41 :: print_rs rs ++ rest) rest (fold_left rwrap rs c).
Proof.
  intros H0 Hn Hrs Hr. cbn [length] in Hn. destruct n as [|n]; [lia|].
  destruct (H0 n (41 :: print_rs rs ++ rest)) as (c' & E & Et); [lia|done|].
  destruct (redirs_run rs rest Hrs (stops_free rest Hr)) as (rs' & Er & Ert).
  exists (fold_left redircmd rs' c'). split; [|by rewrite fold_redirs_text, Et, Ert].
  cbn [parseblock]. rewrite peek_here by done. cbn [negb]. rewrite (pbind_ok _ _ _ _ _ (gettoken_sym 40 _ eq_refl)).
  rewrite <- parseline_ws in E. rewrite (pbind_ok _ _ _ _ _ E), peek_ws, peek_here by done. cbn [negb].
  rewrite (pbind_ok _ _ _ _ _ (gettoken_sym 41 _ eq_refl)).
  rewrite (pbind_ok _ _ _ _ _ Er). done.
Qed.
Lemma L0_L3 c : L0 c -> print 3 c = 40 :: print 0 c ++ [41] -> L3 c.
Proof.
  intros H0 Ep n rs rest Hn Hrs Hr. assert (print 3 c ++ print_rs rs ++ rest = 40 :: print 0 c ++ 41 :: print_rs rs ++ rest) as Es.
  { rewrite Ep. cbn [app]. by rewrite <- app_assoc. }
  rewrite Es in *. destruct n as [|n]; [lia|]. destruct (block_run n c rs rest) as (c' & E & Et); [done|lia|done..|].
  exists c'. split; [|done]. cbn [parseexec]. by rewrite peek_here.
Qed.

Lemma pipe_L2 l r : L3 l -> L2 r -> L2 (PIPE l r).
Proof.
  intros Hl Hr n rest Hn Hrest.
  assert (print 2 (PIPE l r) ++ rest = print 3 l ++ print_rs [] ++ 124 :: (print 2 r ++ rest)) as Es.
  { cbn. by rewrite <- app_assoc. }
  rewrite Es in *. rewrite !length_app in Hn. cbn [length] in Hn. rewrite length_app in Hn. destruct n as [|n]; [lia|].
  destruct (Hl n [] (124 :: (print 2 r ++ rest))) as (l' & E & El); [|constructor|done|].
  { rewrite !length_app. cbn [length]. rewrite length_app. cbn in *. lia. }
  destruct (Hr n rest) as (r' & E' & Er); [rewrite length_app; lia|done|].
  exists (PIPE l' r'). split; [|cbn [cmd_map]; by rewrite El, Er]. cbn [parsepipe].
  rewrite (pbind_ok _ _ _ _ _ E), peek_ws, peek_here by done. rewrite (pbind_ok _ _ _ _ _ (gettoken_sym 124 _ eq_refl)).
  rewrite <- parsepipe_ws in E'. by rewrite (pbind_ok _ _ _ _ _ E').
Qed.

Lemma back_L1 c : L1 c -> L1 (BACK c).
Proof.
  intros H1 n j rest Hn Hr.
  assert (print 1 (BACK c) ++ replicate j 38 ++ rest = print 1 c ++ replicate (S j) 38 ++ rest) as Es.
  { cbn. by rewrite <- app_assoc. }
  rewrite Es in *. rewrite <- Nat.iter_succ_r. by apply H1.
Qed.

Lemma list_L0 l r : L1 l -> L0 r -> L0 (LIST l r).
Proof.
  intros Hl Hr n rest Hn Hrest.
  assert (print 0 (LIST l r) ++ rest = print 1 l ++ replicate 0 38 ++ 59 :: (print 0 r ++ rest)) as Es.
  { cbn. by rewrite <- app_assoc. }
  rewrite Es in *. rewrite !length_app in Hn. cbn [length replicate] in Hn. rewrite length_app in Hn. destruct n as [|n]; [lia|].
  destruct (Hl n 0%nat (59 :: (print 0 r ++ rest))) as (l' & E & El); [|done|].
  { rewrite !length_app. cbn [length replicate]. rewrite length_app. lia. }
  destruct (Hr n rest) as (r' & E' & Er); [rewrite length_app; lia|done|].
  exists (LIST l' r'). split; [|cbn [cmd_map]; by rewrite El, Er]. cbn [parseline].
  rewrite (line_bind _ _ _ _ _ E), peek_ws, peek_here by done. rewrite (pbind_ok _ _ _ _ _ (gettoken_sym 59 _ eq_refl)).
  rewrite <- parseline_ws in E'. by rewrite (pbind_ok _ _ _ _ _ E').
Qed.

Lemma exec_L3 ws : src_cmd (EXEC ws) -> L3 (EXEC ws).
Proof. intros [Hws Hlen] n rs rest Hn Hrs Hr. apply exec_run; [done..|lia]. Qed.
Lemma redir_L3 c f m fd : src_word f -> src_redir m fd -> L3 c -> L3 (REDIR c f m fd).
Proof.
  intros Hf Hm H3 n rs rest Hn Hrs Hr.
  assert (print 3 (REDIR c f m fd) ++ print_rs rs ++ rest = print 3 c ++ print_rs (@cons rsrc (f, m, fd) rs) ++ rest) as Es.
  { unfold print_rs. cbn [print map concat fst snd]. by rewrite <- !app_assoc. }
  rewrite Es in *. apply (H3 n (@cons rsrc (f, m, fd) rs) rest); [done|by constructor|done].
Qed.

Lemma levels c : src_cmd c -> L0 c /\ L1 c /\ L2 c /\ L3 c.
Proof.
  induction c as [ws|c IH f m fd|l IHl r IHr|l IHl r IHr|c IH]; intros Hs.
  - pose proof (exec_L3 ws Hs) as H3. pose proof (L3_L2 _ H3 eq_refl) as H2. pose proof (L2_L1 _ H2 eq_refl) as H1.
    pose proof (L1_L0 _ H1 eq_refl) as HL. auto.
  - destruct Hs as (Hc & Hf & Hm). destruct (IH Hc) as (_ & _ & _ & H). pose proof (redir_L3 c f m fd Hf Hm H) as H3.
    pose proof (L3_L2 _ H3 eq_refl) as H2. pose proof (L2_L1 _ H2 eq_refl) as H1. pose proof (L1_L0 _ H1 eq_refl) as HL. auto.
  - destruct Hs as (Hl & Hr). destruct (IHl Hl) as (_ & _ & _ & H3l), (IHr Hr) as (_ & _ & H2r & _).
    pose proof (pipe_L2 l r H3l H2r) as H2. pose proof (L2_L1 _ H2 eq_refl) as H1. pose proof (L1_L0 _ H1 eq_refl) as H0.
    pose proof (L0_L3 _ H0 eq_refl) as HL. auto.
  - destruct Hs as (Hl & Hr). destruct (IHl Hl) as (_ & H1l & _ & _), (IHr Hr) as (H0r & _ & _ & _).
    pose proof (list_L0 l r H1l H0r) as H0. pose proof (L0_L3 _ H0 eq_refl) as H3. pose proof (L3_L2 _ H3 eq_refl) as H2.
    pose proof (L2_L1 _ H2 eq_refl) as HL. auto.
  - destruct (IH Hs) as (_ & H & _ & _). pose proof (back_L1 c H) as H1. pose proof (L1_L0 _ H1 eq_refl) as H0.
    pose proof (L0_L3 _ H0 eq_refl) as H3. pose proof (L3_L2 _ H3 eq_refl) as HL. auto.
Qed.

(** C4. The shell's grammar round trips: a command built from words, [<] and [>]
    redirections, pipes, lists and background commands, printed with parentheses
    only where the grammar needs them, is parsed back to the same command. So
    [|] binds tighter than [&], [&] tighter than [;], pipes and lists group to
    the right, and the redirections after a command apply to it in order. *)
Theorem parse_print c :
  src_cmd c -> exists c', parse (print 0 c) = POk c' [] /\ cmd_map text c' = c.
Proof.
  intros (H0 & _)%levels. destruct (H0 (parse_fuel (print 0 c)) []) as (c' & E & Et); [|done|].
  { rewrite app_nil_r. unfold parse_fuel. lia. }
  rewrite app_nil_r in E. exists c'. split; [|done]. unfold parse. rewrite (pbind_ok _ _ _ _ _ E). done.
Qed.
Lemma parse_print_witness :
  let c := LIST (BACK (PIPE (EXEC [[97]; [98]]) (REDIR (LIST (EXEC [[99]]) (EXEC [[100]])) [102] SH_RDONLY 0))) (EXEC [[101]]) in
  src_cmd c /\ exists c', parse (print 0 c) = POk c' [] /\ cmd_map text c' = c.
Proof.
  intros c. assert (src_cmd c) as Hs; [|split; [exact Hs|exact (parse_print c Hs)]].
  cbn. unfold src_word, src_redir. repeat (split || constructor); (done || lia || idtac).
Defined.
