(* ===== verification/Shrun.v ===== *)
(** * Running commands: runcmd and main of sh.c

    The shell as a program that makes system calls, the processes it forks, and
    their descriptor tables. Every process runs [runcmd] on its own part of the
    command, so what matters of the kernel is which descriptors a call changes:
    [open], [dup] and [pipe] take the lowest free ones, [fork] copies the table.
    Each call may fail. The theorems say which descriptors the programs that are
    executed in the end hold. *)
From S2P Require Import Prelude.
From stdpp Require Import gmap.
From S2P Require Import Sh Shparse.
#[local] Open Scope Z_scope.

(** ** The program *)

(** A process: the system calls it makes, and what it does with their results. *)
Inductive prog :=
  | Exit
  | Spin
  | Exec (path : list Z) (argv : list (list Z)) (failed : prog)
  | Open (file : list Z) (mode : Z) (k : Z -> prog)
  | Close (fd : Z) (k : prog)
  | Dup (fd : Z) (k : prog)
  | Pipe (k : option (Z * Z) -> prog)
  | Fork (k : Z -> prog)
  | Wait (k : prog)
  | Chdir (dir : list Z) (k : Z -> prog)
  | Printf (fd : Z) (fmt : string) (args : list (list Z)) (k : prog).

Definition panic (s : string) : prog := Printf 2 s [] Exit.
Definition fork1 (k : Z -> prog) : prog := Fork (fun pid => if pid =? -1 then panic "fork" else k pid).

(** [runcmd] never returns, so what follows a call of it in the child is not reached. *)
Fixpoint runcmd (c : cmd (list Z)) : prog :=
  match c with
  | EXEC argv =>
      match argv with
      | [] => Exit
      | a0 :: _ => Exec a0 argv (Printf 2 "exec %s failed" [a0] Exit)
      end
  | REDIR c file mode fd =>
      Close fd (Open file mode (fun r =>
        if r <? 0 then Printf 2 "open %s failed" [file] Exit else runcmd c))
  | LIST l r => fork1 (fun pid => if pid =? 0 then runcmd l else Wait (runcmd r))
  | PIPE l r =>
      Pipe (fun p =>
        match p with
        | None => panic "pipe"
        | Some (p0, p1) =>
            fork1 (fun pid =>
              if pid =? 0 then Close 1 (Dup p1 (Close p0 (Close p1 (runcmd l))))
              else fork1 (fun pid =>
                if pid =? 0 then Close 0 (Dup p0 (Close p0 (Close p1 (runcmd r))))
                else Close p0 (Close p1 (Wait (Wait Exit)))))
        end)
  | BACK c => fork1 (fun pid => if pid =? 0 then runcmd c else Exit)
  end.

(** [gets]: at most [max - 1] characters, up to and including the end of the line.
    The second component is the input that is left. *)
Fixpoint gets_loop (room : nat) (input : list Z) : list Z * list Z :=
  match room, input with
  | S k, c :: input' =>
      if (c =? 10) || (c =? 13) then ([c], input')
      else let '(b, rest) := gets_loop k input' in (c :: b, rest)
  | _, _ => ([], input)
  end.
Definition gets (max : nat) (input : list Z) : list Z * list Z := gets_loop (max - 1) input.

Definition NBUF : nat := 100.
(** [getcmd]: the string in the buffer, or the end of the input. *)
Definition getcmd (input : list Z) : option (list Z * list Z) :=
  let '(b, rest) := gets NBUF input in
  if deref b =? 0 then None else Some (string_from b, rest).

Definition O_RDWR : Z := 2.
Definition console_name : list Z := [99; 111; 110; 115; 111; 108; 101].
(** [while((fd = open("console", O_RDWR)) >= 0) ...] *)
Fixpoint open_console (fuel : nat) (k : prog) : prog :=
  match fuel with
  | O => Spin
  | S n => Open console_name O_RDWR (fun fd =>
      if fd <? 0 then k else if 3 <=? fd then Close fd k else open_console n k)
  end.

(** [buf[0] == 'c' && buf[1] == 'd' && buf[2] == ' '] *)
Definition is_cd (s : list Z) : bool := bool_decide (take 3 s = [99; 100; 32]).
(** The child's [runcmd(parsecmd(buf))]. *)
Definition run_line (s : list Z) : prog :=
  match parsecmd s with
  | POk (c, _) _ => runcmd (cmd_map text c)
  | PPanic msg => panic msg
  | PFuel => Spin
  end.
Fixpoint main_loop (fuel : nat) (input : list Z) : prog :=
  match fuel with
  | O => Spin
  | S n =>
      Printf 2 "$ " []
        match getcmd input with
        | None => Exit
        | Some (s, input) =>
            if is_cd s then
              let dir := drop 3 (take (length s - 1) s) in
              Chdir dir (fun r =>
                if r <? 0 then Printf 2 "cannot cd %s" [dir] (main_loop n input) else main_loop n input)
            else fork1 (fun pid => if pid =? 0 then run_line s else Wait (main_loop n input))
        end
  end.
Definition main (input : list Z) : prog := open_console 4 (main_loop (S (length input)) input).

(** ** Processes and their descriptors *)

(** A process is named by its place in the tree of forks, a pipe by the process
    that made it and its number there. *)
Abbreviation pid := (list nat).
Inductive fh :=
  | Terminal
  | Opened (file : list Z) (mode : Z)
  | ReadEnd (p : pid * nat)
  | WriteEnd (p : pid * nat).
Definition table : Type := list (option fh).
Definition NOFILE : nat := 16.

(** [fdalloc] of sysfile.c *)
Fixpoint lowest (t : table) : option nat :=
  match t with
  | [] => None
  | None :: _ => Some O
  | Some _ :: t => S <$> lowest t
  end.
Definition at_fd (t : table) (fd : Z) : option fh := if fd <? 0 then None else mjoin (t !! Z.to_nat fd).
Definition close_fd (t : table) (fd : Z) : table := if fd <? 0 then t else <[Z.to_nat fd := None]> t.
Definition open_fd (t : table) (h : fh) : option (nat * table) :=
  n ← lowest t; Some (n, <[n := Some h]> t).
Definition dup_fd (t : table) (fd : Z) : table :=
  match at_fd t fd with
  | Some h => from_option snd t (open_fd t h)
  | None => t
  end.

(** The table, the numbers of forks and pipes made so far, and the children not
    waited for. *)
Record pstate := { fds : table; forks : nat; pipes : nat; kids : gset nat }.
Definition set_fds (t : table) (s : pstate) : pstate :=
  {| fds := t; forks := forks s; pipes := pipes s; kids := kids s |}.
Definition set_kids (k : gset nat) (s : pstate) : pstate :=
  {| fds := fds s; forks := forks s; pipes := pipes s; kids := k |}.
Definition child_of (s : pstate) : pstate := {| fds := fds s; forks := 0; pipes := 0; kids := ∅ |}.
Definition forked (s : pstate) : pstate :=
  {| fds := fds s; forks := S (forks s); pipes := pipes s; kids := {[forks s]} ∪ kids s |}.
(** [pipe(p)]: the two descriptors, when there are two. *)
Definition piped (me : pid) (s : pstate) : option (nat * nat * pstate) :=
  let p := (me, pipes s) in
  '(r, t) ← open_fd (fds s) (ReadEnd p);
  '(w, t) ← open_fd t (WriteEnd p);
  Some (r, w, {| fds := t; forks := forks s; pipes := S (pipes s); kids := kids s |}).

Inductive proc :=
  | Running (p : prog) (s : pstate)
  | Image (argv : list (list Z)) (s : pstate)
  | Zombie (s : pstate)
  | Reaped (s : pstate).
Abbreviation pool := (gmap pid proc).
Definition state_of (x : proc) : pstate :=
  match x with Running _ s | Image _ s | Zombie s | Reaped s => s end.

(** One call of a process that affects itself only. *)
Inductive local_step (me : pid) : prog -> pstate -> proc -> Prop :=
  | L_exit s : local_step me Exit s (Zombie s)
  | L_exec path argv k s : local_step me (Exec path argv k) s (Image argv s)
  | L_exec_fails path argv k s : local_step me (Exec path argv k) s (Running k s)
  | L_open f m k s n t : open_fd (fds s) (Opened f m) = Some (n, t) ->
      local_step me (Open f m k) s (Running (k (Z.of_nat n)) (set_fds t s))
  | L_open_fails f m k s : local_step me (Open f m k) s (Running (k (-1)) s)
  | L_close fd k s : local_step me (Close fd k) s (Running k (set_fds (close_fd (fds s) fd) s))
  | L_dup fd k s : local_step me (Dup fd k) s (Running k (set_fds (dup_fd (fds s) fd) s))
  | L_pipe k s r w s' : piped me s = Some (r, w, s') ->
      local_step me (Pipe k) s (Running (k (Some (Z.of_nat r, Z.of_nat w))) s')
  | L_pipe_fails k s : local_step me (Pipe k) s (Running (k None) s)
  | L_fork_fails k s : local_step me (Fork k) s (Running (k (-1)) s)
  | L_chdir d k s r : local_step me (Chdir d k) s (Running (k r) s)
  | L_printf fd fmt args k s : local_step me (Printf fd fmt args k) s (Running k s).

Inductive step : pool -> pool -> Prop :=
  | S_local ps me p s x : ps !! me = Some (Running p s) -> local_step me p s x -> step ps (<[me := x]> ps)
  | S_fork ps me k s n : ps !! me = Some (Running (Fork k) s) -> 0 < n ->
      step ps (<[me ++ [forks s] := Running (k 0) (child_of s)]> (<[me := Running (k n) (forked s)]> ps))
  | S_wait ps me k s i z : ps !! me = Some (Running (Wait k) s) -> i ∈ kids s -> ps !! (me ++ [i]) = Some (Zombie z) ->
      step ps (<[me ++ [i] := Reaped z]> (<[me := Running k (set_kids (kids s ∖ {[i]}) s)]> ps))
  | S_wait_none ps me k s : ps !! me = Some (Running (Wait k) s) -> kids s = ∅ ->
      step ps (<[me := Running k s]> ps)
  | S_image_exits ps me argv s : ps !! me = Some (Image argv s) -> step ps (<[me := Zombie s]> ps).

(** ** What is expected

    The programs of a command run by process [me], with [n] forks and [m] pipes
    made before, on standard input [i] and output [o]. *)
Definition job : Type := pid * list (list Z) * fh * fh.
Fixpoint plan (c : cmd (list Z)) (me : pid) (n m : nat) (i o : fh) : list job :=
  match c with
  | EXEC argv => match argv with [] => [] | _ => [(me, argv, i, o)] end
  | REDIR c f mode fd => if fd =? 0 then plan c me n m (Opened f mode) o else plan c me n m i (Opened f mode)
  | LIST l r => plan l (me ++ [n]) 0 0 i o ++ plan r me (S n) m i o
  | PIPE l r =>
      plan l (me ++ [n]) 0 0 i (WriteEnd (me, m)) ++ plan r (me ++ [S n]) 0 0 (ReadEnd (me, m)) o
  | BACK c => plan c (me ++ [n]) 0 0 i o
  end.
(** Descriptors 0, 1 and 2 and no others. *)
Definition three (i o e : fh) : table := Some i :: Some o :: Some e :: replicate (NOFILE - 3) None.

(** ** One process at a time

    What holds of every program that a process or its children execute. *)
Section Safe.
Context (Q : pid -> list (list Z) -> pstate -> Prop).

Fixpoint safe (me : pid) (p : prog) (s : pstate) : Prop :=
  match p with
  | Exit => True
  | Spin => False
  | Exec _ argv k => Q me argv s /\ safe me k s
  | Open f m k =>
      safe me (k (-1)) s /\
      forall n t, open_fd (fds s) (Opened f m) = Some (n, t) -> safe me (k (Z.of_nat n)) (set_fds t s)
  | Close fd k => safe me k (set_fds (close_fd (fds s) fd) s)
  | Dup fd k => safe me k (set_fds (dup_fd (fds s) fd) s)
  | Pipe k =>
      safe me (k None) s /\
      forall r w s', piped me s = Some (r, w, s') -> safe me (k (Some (Z.of_nat r, Z.of_nat w))) s'
  | Fork k =>
      safe me (k (-1)) s /\ safe (me ++ [forks s]) (k 0) (child_of s) /\
      forall n, 0 < n -> safe me (k n) (forked s)
  | Wait k =>
      (kids s = ∅ -> safe me k s) /\ forall i, i ∈ kids s -> safe me k (set_kids (kids s ∖ {[i]}) s)
  | Chdir _ k => forall r, safe me (k r) s
  | Printf _ _ _ k => safe me k s
  end.

Definition proc_ok (me : pid) (x : proc) : Prop :=
  match x with
  | Running p s => safe me p s
  | Image argv s => Q me argv s
  | Zombie _ | Reaped _ => True
  end.
(** A process is there only after its parent, as one of the children it counts
    unless it was waited for. *)
Record pool_ok (ps : pool) : Prop := {
  po_safe me x : ps !! me = Some x -> proc_ok me x;
  po_parent me i y : ps !! (me ++ [i]) = Some y -> exists x, ps !! me = Some x /\ (i < forks (state_of x))%nat;
  po_kids me i x y : ps !! me = Some x -> ps !! (me ++ [i]) = Some y ->
    (forall z, y <> Reaped z) -> i ∈ kids (state_of x);
}.

Lemma snoc_ne (me : pid) i : me <> me ++ [i].
Proof. intros E. apply (f_equal length) in E. rewrite length_app in E. cbn in E. lia. Qed.

(** A process changes by itself: its forks and children stay. *)
Lemma pool_ok_update ps me x x' :
  pool_ok ps -> ps !! me = Some x -> proc_ok me x' -> forks (state_of x') = forks (state_of x) ->
  kids (state_of x') = kids (state_of x) -> ((forall z, x' <> Reaped z) -> forall z, x <> Reaped z) ->
  pool_ok (<[me := x']> ps).
Proof.
  intros [Hs Hp Hk] Hme Hx' Ef Ek Hr. split.
  - intros q y. rewrite lookup_insert_Some. intros [[<- <-]|[_ Hq]]; [done|by apply Hs].
  - intros q i y Hy. assert (exists y0, ps !! (q ++ [i]) = Some y0) as [y0 Hy0].
    { rewrite lookup_insert_Some in Hy. destruct Hy as [[<- _]|[_ Hy]]; eauto. }
    destruct (Hp q i y0 Hy0) as (x0 & H0 & Hlt). destruct (decide (q = me)) as [->|Hne].
    + rewrite lookup_insert_eq. rewrite Hme in H0. injection H0 as <-. exists x'. by rewrite Ef.
    + rewrite lookup_insert_ne by done. eauto.
  - intros q i y z Hq Hz Hnr. assert (exists z0, ps !! (q ++ [i]) = Some z0 /\ forall w, z0 <> Reaped w) as (z0 & Hz0 & Hnr0).
    { rewrite lookup_insert_Some in Hz. destruct Hz as [[<- <-]|[_ Hz]]; eauto. }
    rewrite lookup_insert_Some in Hq. destruct Hq as [[<- <-]|[_ Hq]]; [rewrite Ek|]; eauto.
Qed.

Lemma piped_same me s r w s' : piped me s = Some (r, w, s') -> forks s' = forks s /\ kids s' = kids s.
Proof.
  unfold piped. destruct (open_fd (fds s) _) as [[r' t]|]; [|done]. cbn. destruct (open_fd t _) as [[w' t']|]; [|done].
  cbn. by intros [= _ _ <-].
Qed.
Lemma pool_ok_local ps me p s x :
  pool_ok ps -> ps !! me = Some (Running p s) -> local_step me p s x -> pool_ok (<[me := x]> ps).
Proof.
  intros Hok Hme Hl. pose proof (po_safe _ Hok _ _ Hme) as Hs. cbn [proc_ok] in Hs.
  assert (proc_ok me x /\ forks (state_of x) = forks s /\ kids (state_of x) = kids s) as (Hx & Ef & Ek).
  { destruct Hl; cbn [safe proc_ok state_of] in *; try (split_and!; solve [done | tauto | by apply Hs | by apply (proj2 Hs)]).
    destruct (piped_same _ _ _ _ _ H). split_and!; [by apply (proj2 Hs)|done..]. }
  by eapply pool_ok_update.
Qed.

Lemma pool_ok_fork ps me k s n :
  pool_ok ps -> ps !! me = Some (Running (Fork k) s) -> 0 < n ->
  pool_ok (<[me ++ [forks s] := Running (k 0) (child_of s)]> (<[me := Running (k n) (forked s)]> ps)).
Proof.
  intros [Hs Hp Hk] Hme Hn. pose proof (Hs _ _ Hme) as (_ & Hc & Hf). specialize (Hf n Hn).
  assert (ps !! (me ++ [forks s]) = None) as Hnew.
  { destruct (ps !! (me ++ [forks s])) as [y|] eqn:Ey; [|done]. destruct (Hp _ _ _ Ey) as (x & Hx & Hlt).
    rewrite Hme in Hx. injection Hx as <-. cbn in Hlt. lia. }
  assert (forall i, ps !! ((me ++ [forks s]) ++ [i]) = None) as Hno.
  { intros i. destruct (ps !! ((me ++ [forks s]) ++ [i])) as [y|] eqn:Ey; [|done]. destruct (Hp _ _ _ Ey) as (x & Hx & _). congruence. }
  pose proof (snoc_ne me (forks s)) as Hne. split.
  - intros q x. rewrite !lookup_insert_Some. intros [[<- <-]|[_ [[<- <-]|[_ Hq]]]]; [done|done|by apply Hs].
  - intros q i y. repeat setoid_rewrite lookup_insert_Some.
    intros [[E _]|[Hn1 [[E _]|[_ Hy]]]].
    + apply app_inj_tail in E as [<- <-]. eexists. split; [by right; split; [congruence|left]|]. cbn. lia.
    + subst me. destruct (Hp q i _ Hme) as (x & Hx & Hlt). exists x. split; [|done]. right. split; [intros Eq; rewrite Eq in Hnew; congruence|].
      right. split; [|done]. intros Eq. by apply (snoc_ne q i).
    + destruct (Hp q i y Hy) as (x & Hx & Hlt). destruct (decide (q = me)) as [->|Hqm].
      * rewrite Hme in Hx. injection Hx as <-. eexists. split; [right; split; [congruence|by left]|]. cbn in *. lia.
      * exists x. split; [|done]. right. split; [congruence|by right].
  - intros q i x y. rewrite !lookup_insert_Some. intros Hq Hy Hnr. destruct Hy as [[E _]|[Hn1 Hy]].
    + apply app_inj_tail in E as [<- <-]. destruct Hq as [[E _]|[_ [[_ <-]|[Hn2 _]]]]; [by symmetry in E; apply snoc_ne in E|cbn; set_solver|done].
    + destruct Hq as [[<- <-]|[Hn2 Hq]].
      { exfalso. destruct Hy as [[E _]|[_ Hy]]; [|rewrite Hno in Hy; done].
        apply (f_equal length) in E. rewrite !length_app in E. cbn in E. lia. }
      destruct Hy as [[E Ey]|[_ Hy]], Hq as [[<- <-]|[Hn3 Hq]].
      * by apply snoc_ne in E.
      * subst me y. apply (Hk q i _ _ Hq Hme). done.
      * cbn. pose proof (Hk _ _ _ _ Hme Hy Hnr). cbn in *. set_solver.
      * by eapply Hk.
Qed.
Lemma pool_ok_wait ps me k s i z :
  pool_ok ps -> ps !! me = Some (Running (Wait k) s) -> i ∈ kids s -> ps !! (me ++ [i]) = Some (Zombie z) ->
  pool_ok (<[me ++ [i] := Reaped z]> (<[me := Running k (set_kids (kids s ∖ {[i]}) s)]> ps)).
Proof.
  intros Hok Hme Hi Hz. destruct Hok as [Hs Hp Hk]. pose proof (Hs _ _ Hme) as [_ Hw]. specialize (Hw i Hi).
  pose proof (snoc_ne me i) as Hne.
  assert (forall q y, <[me ++ [i] := Reaped z]> (<[me := Running k (set_kids (kids s ∖ {[i]}) s)]> ps) !! q = Some y ->
    exists y0, ps !! q = Some y0 /\ forks (state_of y) = forks (state_of y0) /\ ((forall z, y <> Reaped z) -> forall z, y0 <> Reaped z) /\
      (q = me \/ kids (state_of y) = kids (state_of y0))) as Hold.
  { intros q y. rewrite !lookup_insert_Some. intros [[<- <-]|[_ [[<- <-]|[_ Hq]]]]; eexists; (split_and!; [eassumption|..]); cbn; auto. }
  split.
  - intros q x. rewrite !lookup_insert_Some. intros [[<- <-]|[_ [[<- <-]|[_ Hq]]]]; [done|done|by apply Hs].
  - intros q j y (y0 & Hy0 & _)%Hold. destruct (Hp q j y0 Hy0) as (x & Hx & Hlt).
    destruct (decide (q = me ++ [i])) as [->|Hn1].
    { exists (Reaped z). rewrite lookup_insert_eq. rewrite Hz in Hx. by injection Hx as <-. }
    rewrite lookup_insert_ne by done. destruct (decide (q = me)) as [->|Hn2]; [|rewrite lookup_insert_ne by done; eauto].
    rewrite lookup_insert_eq. rewrite Hme in Hx. injection Hx as <-. eauto.
  - intros q j x y Hx Hy Hnr. destruct (Hold _ _ Hx) as (x0 & Hx0 & _ & _ & Hkid), (Hold _ _ Hy) as (y0 & Hy0 & _ & Hny & _).
    pose proof (Hk q j x0 y0 Hx0 Hy0 (Hny Hnr)) as Hin. destruct (decide (q = me)) as [->|Hn]; [|destruct Hkid as [|E]; [done|by rewrite E]].
    rewrite lookup_insert_ne, lookup_insert_eq in Hx by done. injection Hx as <-. rewrite Hme in Hx0. injection Hx0 as <-. cbn in *.
    apply elem_of_difference. split; [done|]. intros ->%elem_of_singleton. rewrite lookup_insert_eq in Hy. injection Hy as <-. by apply (Hnr z).
Qed.

Lemma pool_ok_step ps ps' : pool_ok ps -> step ps ps' -> pool_ok ps'.
Proof.
  intros Hok Hst. destruct Hst as [ps me p s x Hme Hl|ps me k s n Hme Hn|ps me k s i z Hme Hi Hz|ps me k s Hme Hk|ps me argv s Hme].
  - by eapply pool_ok_local.
  - by apply pool_ok_fork.
  - by apply pool_ok_wait.
  - eapply pool_ok_update; try done. exact (proj1 (po_safe _ Hok _ _ Hme) Hk).
  - by eapply pool_ok_update.
Qed.

Lemma pool_ok_reach p s ps :
  safe [] p s -> rtc step {[ [] := Running p s ]} ps -> pool_ok ps.
Proof.
  intros Hs Hr. assert (pool_ok {[ [] := Running p s ]}) as H0.
  { split.
    - intros me x [<- <-]%lookup_singleton_Some. done.
    - intros me i y [E _]%lookup_singleton_Some. by destruct me.
    - intros me i x y _ [E _]%lookup_singleton_Some. by destruct me. }
  clear Hs. induction Hr as [|? ? ? Hst _ IH]; [done|]. apply IH. by eapply pool_ok_step.
Qed.
End Safe.

(** ** [runcmd] *)

Lemma close_open0 i o e f m : open_fd (close_fd (three i o e) 0) (Opened f m) = Some (0%nat, three (Opened f m) o e).
Proof. done. Qed.
Lemma close_open1 i o e f m : open_fd (close_fd (three i o e) 1) (Opened f m) = Some (1%nat, three i (Opened f m) e).
Proof. done. Qed.
Lemma piped_three me s i o e : fds s = three i o e ->
  piped me s = Some (3%nat, 4%nat,
    {| fds := <[4%nat := Some (WriteEnd (me, pipes s))]> (<[3%nat := Some (ReadEnd (me, pipes s))]> (three i o e));
       forks := forks s; pipes := S (pipes s); kids := kids s |}).
Proof. intros E. unfold piped. by rewrite E. Qed.

Definition fd_kinds : cmd (list Z) -> Prop := all_words (fun _ => True).

Lemma fork1_safe Q me k s :
  safe Q (me ++ [forks s]) (k 0) (child_of s) -> (forall n, 0 < n -> safe Q me (k n) (forked s)) -> safe Q me (fork1 k) s.
Proof.
  intros H0 Hn. cbn. split_and!; [done|done|]. intros n Hp. rewrite (proj2 (Z.eqb_neq n (-1))) by lia. by apply Hn.
Qed.
(** A process that forked once waits for that child. *)
Lemma wait_one Q me k s : kids s = ∅ -> safe Q me k (set_kids ∅ (forked s)) -> safe Q me (Wait k) (forked s).
Proof.
  intros Hk Hs. assert (kids (forked s) = {[forks s]}) as E by (cbn; rewrite Hk; apply union_empty_r_L).
  cbn [safe]. rewrite E. split; [by intros ?%non_empty_singleton_L|].
  intros i ->%elem_of_singleton. by rewrite difference_diag_L.
Qed.
Lemma runcmd_safe (Q : pid -> list (list Z) -> pstate -> Prop) e c : forall me s i o,
  fd_kinds c -> fds s = three i o e -> kids s = ∅ ->
  (forall me' argv i' o' s', (me', argv, i', o') ∈ plan c me (forks s) (pipes s) i o ->
     fds s' = three i' o' e -> kids s' = ∅ -> Q me' argv s') ->
  safe Q me (runcmd c) s.
Proof.
  induction c as [argv|c IH f m fd|l IHl r IHr|l IHl r IHr|c IH]; intros me s i o Hc Hf Hk HQ; cbn [runcmd].
  - destruct argv as [|a0 argv]; [done|]. cbn. split; [|done]. eapply HQ; [by apply list_elem_of_singleton|done|done].
  - destruct Hc as (Hc & _ & [[-> ->]|[-> ->]]); cbn [safe]; (split; [done|]); cbn [set_fds fds forks pipes kids]; rewrite Hf;
      intros n t; rewrite ?close_open0, ?close_open1; intros [= <- <-]; cbn [Z.ltb Z.compare Z.of_nat]; eapply IH; done.
  - destruct Hc as [Hl Hr]. split; [done|]. rewrite (piped_three _ _ _ _ _ Hf). intros r0 w s' [= <- <- <-].
    apply fork1_safe; [|intros n Hn; rewrite (proj2 (Z.eqb_neq n 0)) by lia; apply fork1_safe; [|intros n' Hn'; rewrite (proj2 (Z.eqb_neq n' 0)) by lia]].
    + eapply IHl; [done|reflexivity|done|]. intros. eapply HQ; [|done..]. cbn [plan]. apply elem_of_app. by left.
    + eapply IHr; [done|reflexivity|done|]. intros. eapply HQ; [|done..].
      cbn [plan]. apply elem_of_app. by right.
    + done.
  - destruct Hc as [Hl Hr]. apply fork1_safe; [|intros n Hn].
    + eapply IHl; [done|exact Hf|done|]. intros. eapply HQ; [|done..]. cbn [plan]. apply elem_of_app. by left.
    + rewrite (proj2 (Z.eqb_neq n 0)) by lia. apply wait_one; [done|].
      eapply IHr; [done|exact Hf|done|]. intros. eapply HQ; [|done..]. cbn [plan]. apply elem_of_app. by right.
  - apply fork1_safe; [|intros n Hn; by rewrite (proj2 (Z.eqb_neq n 0)) by lia].
    eapply IH; [done|exact Hf|done|]. intros. eapply HQ; done.
Qed.

(** C5. Every program that the shell's child executes for a command, whatever calls
    fail and however the processes interleave, is one of the plan: it runs in the
    process the plan names, with its arguments, on the input and output that the
    pipes and redirections around it give. It holds descriptors 0, 1 and 2 and no
    others, so no end of a pipe leaks into a program that does not use it, and all
    children of the process that executes it have been waited for. *)
Theorem runcmd_wires c i o e s ps me argv s' :
  fd_kinds c -> fds s = three i o e -> kids s = ∅ ->
  rtc step {[ [] := Running (runcmd c) s ]} ps -> ps !! me = Some (Image argv s') ->
  exists i' o', (me, argv, i', o') ∈ plan c [] (forks s) (pipes s) i o /\ fds s' = three i' o' e /\
    forall n x, ps !! (me ++ [n]) = Some x -> exists z, x = Reaped z.
Proof.
  intros Hc Hf Hk Hr Hme.
  assert (safe (fun me argv s' => kids s' = ∅ /\ exists i' o', (me, argv, i', o') ∈ plan c [] (forks s) (pipes s) i o /\ fds s' = three i' o' e)
    [] (runcmd c) s) as Hs by (eapply runcmd_safe; eauto 10).
  pose proof (pool_ok_reach _ _ _ _ Hs Hr) as Hok. destruct (po_safe _ _ Hok _ _ Hme) as (Hk' & i' & o' & Hin & Hf').
  exists i', o'. split_and!; [done|done|]. intros n x Hx. pose proof (po_kids _ _ Hok _ _ _ _ Hme Hx) as Hkid.
  destruct x as [| | |z]; [exfalso..|by exists z]; (enough (n ∈ (∅ : gset nat)) by set_solver; rewrite <- Hk'; by apply Hkid).
Qed.

(** [a | b]: the child of the left side executes [a]. *)
Definition sh_start : pstate := {| fds := three Terminal Terminal Terminal; forks := 0; pipes := 0; kids := ∅ |}.
Definition sh_pipeline : cmd (list Z) := PIPE (EXEC [[97]]) (EXEC [[98]]).
Lemma sh_pipeline_runs : exists ps s',
  rtc step {[ [] := Running (runcmd sh_pipeline) sh_start ]} ps /\ ps !! [0%nat] = Some (Image [[97]] s').
Proof.
  do 2 eexists. split.
  - eapply rtc_l; [eapply (S_local _ []); [reflexivity|eapply L_pipe; reflexivity]|].
    eapply rtc_l; [eapply (S_fork _ [] _ _ 1); [by rewrite lookup_insert_eq|done]|].
    do 4 (eapply rtc_l; [eapply (S_local _ [0%nat]); [rewrite lookup_insert_eq; reflexivity|constructor]|]).
    eapply rtc_l; [eapply (S_local _ [0%nat]); [rewrite lookup_insert_eq; reflexivity|apply L_exec]|]. apply rtc_refl.
  - by rewrite lookup_insert_eq.
Qed.
Lemma runcmd_wires_witness : exists (ps : pool) s' i' o',
  ps !! [0%nat] = Some (Image [[97]] s') /\ ([0%nat], [[97]], i', o') ∈ plan sh_pipeline [] 0 0 Terminal Terminal /\ fds s' = three i' o' Terminal.
Proof.
  destruct sh_pipeline_runs as (ps & s' & Hr & Hme). exists ps, s'.
  destruct (runcmd_wires sh_pipeline Terminal Terminal Terminal sh_start ps [0%nat] [[97]] s') as (i' & o' & Hin & Hf & _).
  - repeat constructor.
  - reflexivity.
  - reflexivity.
  - exact Hr.
  - exact Hme.
  - exists i', o'. split; [exact Hme|]. split; [exact Hin|exact Hf].
Defined.

(** ** [main] *)

Lemma gets_loop_app room input b rest : gets_loop room input = (b, rest) -> input = b ++ rest.
Proof.
  revert input b rest. induction room as [|room IH]; intros input b rest; cbn; [by intros [= <- <-]|].
  destruct input as [|c input]; [by intros [= <- <-]|]. destruct (_ || _); [by intros [= <- <-]|].
  destruct (gets_loop room input) as [b' rest'] eqn:E. intros [= <- <-]. cbn. f_equal. by apply IH.
Qed.
Lemma getcmd_shorter input s rest : getcmd input = Some (s, rest) -> (length rest < length input)%nat.
Proof.
  unfold getcmd, gets. destruct (gets_loop _ input) as [b r] eqn:E. apply gets_loop_app in E as ->.
  destruct b; [done|]. destruct (_ =? 0); [done|]. intros [= _ <-]. rewrite length_app. cbn. lia.
Qed.

(** The lines the shell reads from its input. *)
Inductive line_of : list Z -> list Z -> Prop :=
  | line_here input s rest : getcmd input = Some (s, rest) -> line_of input s
  | line_later input s' rest s : getcmd input = Some (s', rest) -> line_of rest s -> line_of input s.

Lemma cmd_map_kinds {W} (f : W -> list Z) (Q : W -> Prop) c : all_words Q c -> fd_kinds (cmd_map f c).
Proof.
  unfold fd_kinds. induction c as [argv|c IH w m fd|l IHl r IHr|l IHl r IHr|c IH]; cbn; try tauto.
  intros _. by apply Forall_true.
Qed.

Section Main.
Context (Q : pid -> list (list Z) -> pstate -> Prop) (input0 : list Z) (i o e : fh).
Hypothesis HQ : forall line c n me argv i' o' s', line_of input0 line -> is_cd line = false -> parse line = POk c [] ->
  (me, argv, i', o') ∈ plan (cmd_map text c) [n] 0 0 i o -> fds s' = three i' o' e -> kids s' = ∅ -> Q me argv s'.

Lemma run_line_safe line n s : line_of input0 line -> is_cd line = false -> fds s = three i o e ->
  safe Q [n] (run_line line) (child_of s).
Proof.
  intros Hl Hcd Hf. unfold run_line, parsecmd. pose proof (parse_spec line) as Hp. unfold pspec in Hp.
  destruct (parse line) as [c rest|msg|] eqn:E; [|done|done]. destruct Hp as [-> Hw].
  eapply runcmd_safe; [by eapply cmd_map_kinds|exact Hf|done|]. intros. by eapply HQ.
Qed.

Lemma main_loop_safe fuel input s :
  (length input < fuel)%nat -> (forall line, line_of input line -> line_of input0 line) ->
  fds s = three i o e -> kids s = ∅ -> safe Q [] (main_loop fuel input) s.
Proof.
  revert input s. induction fuel as [|fuel IH]; intros input s Hlen Hin Hf Hk; [lia|]. cbn [main_loop safe].
  destruct (getcmd input) as [[line rest]|] eqn:E; [|done]. pose proof (getcmd_shorter _ _ _ E) as Hlt.
  assert (forall l, line_of rest l -> line_of input0 l) as Hrest by (intros l Hl; apply Hin; by eapply line_later).
  destruct (is_cd line) eqn:Ecd.
  - cbn [safe]. intros r. destruct (r <? 0); apply IH; (done || lia).
  - apply fork1_safe; [apply run_line_safe; [apply Hin; by eapply line_here|done|done]|].
    intros n Hn. rewrite (proj2 (Z.eqb_neq n 0)) by lia. apply wait_one; [done|]. apply IH; (done || lia).
Qed.

Lemma main_safe s : fds s = three i o e -> kids s = ∅ -> safe Q [] (main input0) s.
Proof.
  intros Hf Hk. unfold main. remember (main_loop _ input0) as k eqn:Ek. cbn [open_console safe]. split.
  - change (safe Q [] k s). subst k. apply main_loop_safe; (done || lia).
  - rewrite Hf. intros n t [= <- <-]. change (safe Q [] k (set_fds (three i o e) s)).
    subst k. apply main_loop_safe; (done || lia).
Qed.
End Main.


(** The input [a] and a newline: the first child executes [a]. *)
Lemma sh_main_runs : exists ps s',
  rtc step {[ [] := Running (main [97; 10]) sh_start ]} ps /\ ps !! [0%nat] = Some (Image [[97]] s').
Proof.
  do 2 eexists. split.
  - eapply rtc_l; [eapply (S_local _ []); [reflexivity|eapply L_open; reflexivity]|].
    do 2 (eapply rtc_l; [eapply (S_local _ []); [rewrite lookup_insert_eq; reflexivity|constructor]|]).
    eapply rtc_l; [eapply (S_fork _ [] _ _ 1); [rewrite lookup_insert_eq; reflexivity|done]|].
    eapply rtc_l; [eapply (S_local _ [0%nat]); [rewrite lookup_insert_eq; reflexivity|apply L_exec]|]. apply rtc_refl.
  - by rewrite lookup_insert_eq.
Qed.
