(* ===== verification/Shlive.v ===== *)
(** * The shell comes to an end

    Runs of the processes of the shell are finite, and a run that stops has no
    process left: no process waits for ever. Programs that were executed are taken
    to exit at some point. *)
From S2P Require Import Prelude.
From stdpp Require Import gmap relations.
From S2P Require Import Sh Shparse Shrun.
#[local] Open Scope Z_scope.

(** ** How many steps a process and its children can take *)

Fixpoint takes (p : prog) (n : nat) : Prop :=
  match p with
  | Exit => (1 <= n)%nat
  | Spin => True
  | Exec _ _ k => (2 <= n)%nat /\ takes k (n - 1)
  | Open _ _ k => (1 <= n)%nat /\ forall r, takes (k r) (n - 1)
  | Close _ k | Dup _ k | Wait k | Printf _ _ _ k => (1 <= n)%nat /\ takes k (n - 1)
  | Pipe k => (1 <= n)%nat /\ forall r, takes (k r) (n - 1)
  | Fork k => exists a b, (a + b + 1 <= n)%nat /\ takes (k 0) a /\ forall r, r <> 0 -> takes (k r) b
  | Chdir _ k => (1 <= n)%nat /\ forall r, takes (k r) (n - 1)
  end.
Lemma takes_mono p n n' : takes p n -> (n <= n')%nat -> takes p n'.
Proof.
  revert n n'. induction p as [| |? ? p IH|? ? k IH|? p IH|? p IH|k IH|k IH|p IH|? k IH|? ? ? p IH]; intros n n' Ht Hn; cbn in *; try lia; try done.
  1-5,7-9: destruct Ht as [H1 H2]; split; [lia|]; first [intros r; eapply IH; [apply H2|lia]|eapply IH; [exact H2|lia]].
  destruct Ht as (a & b & Hab & H0 & Hr). exists a, b. split_and!; [lia|done..].
Qed.

(** A bound for each process, and their sum. *)
Definition proc_takes (x : proc) (n : nat) : Prop :=
  match x with Running p _ => takes p n | Image _ _ => (1 <= n)%nat | Zombie _ | Reaped _ => True end.
Definition total (w : gmap pid nat) : nat := map_fold (fun _ n acc => (n + acc)%nat) 0%nat w.
Definition fits (ps : pool) (w : gmap pid nat) : Prop :=
  forall me x, ps !! me = Some x -> exists n, w !! me = Some n /\ proc_takes x n.

Lemma total_insert w me n : w !! me = None -> total (<[me := n]> w) = (n + total w)%nat.
Proof. intros Hn. unfold total. rewrite map_fold_insert_L; [done| |done]. intros. lia. Qed.
Lemma total_update w me n m : w !! me = Some n -> (total (<[me := m]> w) + n = total w + m)%nat.
Proof.
  intros Hm. rewrite <- (insert_delete_id w me n Hm) at 2. rewrite <- (insert_delete_eq w me m), !total_insert by apply lookup_delete_eq. lia.
Qed.

Lemma total_le w me n : (total (<[me := n]> w) <= total w + n)%nat.
Proof.
  destruct (w !! me) as [m|] eqn:E; [pose proof (total_update w me m n E)|rewrite total_insert by done]; lia.
Qed.

Lemma fits_update ps w me x n x' m :
  fits ps w -> ps !! me = Some x -> w !! me = Some n -> proc_takes x' m -> (m < n)%nat ->
  exists w', fits (<[me := x']> ps) w' /\ (total w' < total w)%nat.
Proof.
  intros Hf Hme Hw Hx Hm. exists (<[me := m]> w). split; [|pose proof (total_update w me n m Hw); lia].
  intros q y. rewrite lookup_insert_Some. intros [[<- <-]|[Hne Hq]]; [rewrite lookup_insert_eq; eauto|]. rewrite lookup_insert_ne by done. by apply Hf.
Qed.

Lemma step_decreases ps ps' w : fits ps w -> step ps ps' -> exists w', fits ps' w' /\ (total w' < total w)%nat.
Proof.
  intros Hf Hst. destruct Hst as [ps me p s x Hme Hl|ps me k s n Hme Hn|ps me k s i z Hme Hi Hz|ps me k s Hme Hk|ps me argv s Hme];
    destruct (Hf _ _ Hme) as (b & Hw & Hb); cbn [proc_takes] in Hb.
  - destruct Hl; cbn [takes] in Hb; try destruct Hb as [H1 H2];
      try (eapply (fits_update ps w me _ b _ (b - 1)); [done..| |lia]; cbn [proc_takes]; solve [done|lia|apply H2]).
    destruct H2 as (b' & Hab & H0 & Hr). eapply (fits_update ps w me _ b _ b'); [done..|by apply Hr|lia].
  - destruct Hb as (a & b' & Hab & H0 & Hr). specialize (Hr n ltac:(lia)).
    exists (<[me ++ [forks s] := a]> (<[me := b']> w)). split.
    + intros q y. rewrite !lookup_insert_Some. intros [[<- <-]|[Hn1 [[<- <-]|[Hn2 Hq]]]].
      * rewrite lookup_insert_eq. eauto.
      * rewrite lookup_insert_ne, lookup_insert_eq by done. eauto.
      * rewrite !lookup_insert_ne by done. by apply Hf.
    + pose proof (total_le (<[me := b']> w) (me ++ [forks s]) a). pose proof (total_update w me b b' Hw). lia.
  - destruct Hb as [H1 H2]. destruct (fits_update ps w me _ b (Running k (set_kids (kids s ∖ {[i]}) s)) (b - 1) Hf Hme Hw H2) as (w' & Hf' & Hlt); [lia|].
    exists w'. split; [|done]. intros q y. rewrite lookup_insert_Some. intros [[<- <-]|[Hne Hq]]; [|by apply Hf'].
    destruct (Hf' (me ++ [i]) (Zombie z)) as (m & Hm & _); [|by exists m]. by rewrite lookup_insert_ne by apply snoc_ne.
  - destruct Hb as [H1 H2]. eapply (fits_update ps w me _ b _ (b - 1)); [done..|exact H2|lia].
  - eapply (fits_update ps w me _ b _ 0); [done..|lia].
Qed.

Lemma steps_bounded ps ps' w n : fits ps w -> nsteps step n ps ps' -> (n <= total w)%nat.
Proof.
  intros Hf Hn. revert w Hf. induction Hn as [|n ps1 ps2 ps3 Hst _ IH]; intros w Hf; [lia|].
  destruct (step_decreases _ _ _ Hf Hst) as (w' & Hf' & Hlt). specialize (IH w' Hf'). lia.
Qed.

(** ** Every program of the shell has a bound *)

Lemma fork1_takes k a b : takes (k 0) a -> (forall r, r <> 0 -> takes (k r) b) -> takes (fork1 k) (a + b + 3).
Proof.
  intros H0 Hr. exists a, (b + 2)%nat. split_and!; [lia|done|]. intros r Hn. destruct (r =? -1); [cbn; lia|].
  eapply takes_mono; [by apply Hr|lia].
Qed.

Lemma runcmd_takes c : exists n, takes (runcmd c) n.
Proof.
  induction c as [argv|c [n IH] f m fd|l [a IHl] r [b IHr]|l [a IHl] r [b IHr]|c [n IH]]; cbn [runcmd].
  - exists 3%nat. destruct argv; cbn; lia.
  - exists (n + 4)%nat. cbn. split; [lia|]. split; [lia|]. intros r. destruct (r <? 0); [cbn; lia|]. eapply takes_mono; [exact IH|lia].
  - exists (a + 4 + (b + 4 + 5 + 3) + 3 + 3)%nat. cbn [takes]. split; [lia|]. intros [[p0 p1]|]; [|cbn; lia].
    eapply takes_mono; [apply (fork1_takes _ (a + 4) (b + 4 + 5 + 3))|lia]; [|intros r0 Hr0; rewrite (proj2 (Z.eqb_neq _ _) Hr0)].
    + cbn. split_and!; try lia. eapply takes_mono; [exact IHl|lia].
    + apply (fork1_takes _ (b + 4) 5); [|intros r1 Hr1; rewrite (proj2 (Z.eqb_neq _ _) Hr1); cbn; lia].
      cbn. split_and!; try lia. eapply takes_mono; [exact IHr|lia].
  - exists (a + (b + 1) + 3)%nat. apply fork1_takes; [exact IHl|]. intros r0 Hr0. rewrite (proj2 (Z.eqb_neq _ _) Hr0). cbn.
    split; [lia|]. eapply takes_mono; [exact IHr|lia].
  - exists (n + 1 + 3)%nat. apply fork1_takes; [exact IH|]. intros r0 Hr0. rewrite (proj2 (Z.eqb_neq _ _) Hr0). cbn. lia.
Qed.

Lemma main_loop_takes fuel input : exists n, takes (main_loop fuel input) n.
Proof.
  revert input. induction fuel as [|fuel IH]; intros input; cbn [main_loop]; [by exists 0%nat|].
  destruct (getcmd input) as [[line rest]|]; [|exists 2%nat; cbn; lia]. destruct (IH rest) as [n Hn]. destruct (is_cd line).
  - exists (n + 3)%nat. cbn. split; [lia|]. split; [lia|]. intros r. destruct (r <? 0); cbn; [split; [lia|]|]; (eapply takes_mono; [exact Hn|lia]).
  - assert (exists a, takes (run_line line) a) as [a Ha].
    { unfold run_line. destruct (parsecmd line) as [[c ?] ?|msg|]; [apply runcmd_takes|exists 2%nat; cbn; lia|by exists 0%nat]. }
    exists (a + (n + 1) + 3 + 1)%nat. cbn [takes]. split; [lia|]. eapply takes_mono; [apply (fork1_takes _ a (n + 1)); [exact Ha|]|lia].
    intros r Hr. rewrite (proj2 (Z.eqb_neq _ _) Hr). cbn. split; [lia|]. eapply takes_mono; [exact Hn|lia].
Qed.
Lemma open_console_takes m k n : takes k n -> takes (open_console m k) (n + m + 1).
Proof.
  intros Hn. induction m as [|m IH]; cbn [open_console]; [done|]. cbn [takes]. split; [lia|]. intros r.
  destruct (r <? 0); [eapply takes_mono; [exact Hn|lia]|]. destruct (3 <=? r).
  - cbn. split; [lia|]. eapply takes_mono; [exact Hn|lia].
  - eapply takes_mono; [exact IH|lia].
Qed.
Lemma main_takes input : exists n, takes (main input) n.
Proof. unfold main. destruct (main_loop_takes (S (length input)) input) as [n Hn]. eexists. by apply open_console_takes. Qed.

(** ** Somebody can always go on *)

Definition finished (x : proc) : Prop := match x with Zombie _ | Reaped _ => True | _ => False end.
(** The children a process has yet to wait for are there. *)
Definition kids_there (ps : pool) : Prop :=
  forall me p s i, ps !! me = Some (Running p s) -> i ∈ kids s -> exists y, ps !! (me ++ [i]) = Some y /\ forall z, y <> Reaped z.

Lemma kids_update ps me x x' : kids_there ps -> ps !! me = Some x -> (forall z, x <> Reaped z) -> (forall z, x' <> Reaped z) ->
  (forall p s, x' = Running p s -> exists p0 s0, x = Running p0 s0 /\ kids s = kids s0) -> kids_there (<[me := x']> ps).
Proof.
  intros Hk Hme Hx Hx' Hr q p s i Hq Hi. assert (exists p0 s0, ps !! q = Some (Running p0 s0) /\ i ∈ kids s0) as (p0 & s0 & Hq0 & Hi0).
  { rewrite lookup_insert_Some in Hq. destruct Hq as [[<- Hq]|[_ Hq]]; [|eauto]. destruct (Hr p s Hq) as (p0 & s0 & -> & E). exists p0, s0. by rewrite <- E. }
  destruct (Hk q p0 s0 i Hq0 Hi0) as (y & Hy & Hny). destruct (decide (me = q ++ [i])) as [->|Hne].
  - exists x'. by rewrite lookup_insert_eq.
  - exists y. by rewrite lookup_insert_ne.
Qed.

Lemma kids_step ps ps' : kids_there ps -> step ps ps' -> kids_there ps'.
Proof.
  intros Hk Hst. destruct Hst as [ps me p s x Hme Hl|ps me k s n Hme Hn|ps me k s i z Hme Hi Hz|ps me k s Hme Hk0|ps me argv s Hme].
  - eapply kids_update; [done|exact Hme|done| |]; destruct Hl; try done; intros ? ? [= <- <-]; try (do 2 eexists; split; [reflexivity|reflexivity]).
    do 2 eexists. split; [reflexivity|]. by destruct (piped_same _ _ _ _ _ H).
  - intros q p s' i. rewrite lookup_insert_Some. intros [[<- [= <- <-]]|[Hn1 Hq]] Hi; [cbn in Hi; by apply elem_of_empty in Hi|].
    destruct (decide (q ++ [i] = me ++ [forks s])) as [E|Hne]; [rewrite E, lookup_insert_eq; by eexists|]. rewrite lookup_insert_ne by done.
    rewrite lookup_insert_Some in Hq. destruct Hq as [[<- [= <- <-]]|[Hn2 Hq]].
    + cbn in Hi. apply elem_of_union in Hi as [->%elem_of_singleton|Hi]; [done|]. destruct (Hk _ _ _ _ Hme Hi) as (y & Hy & Hny).
      exists y. by rewrite lookup_insert_ne by apply snoc_ne.
    + destruct (Hk _ _ _ _ Hq Hi) as (y & Hy & Hny). destruct (decide (me = q ++ [i])) as [<-|Hn3]; [rewrite lookup_insert_eq; by eexists|].
      exists y. by rewrite lookup_insert_ne.
  - intros q p s' j. rewrite lookup_insert_Some. intros [[<- [=]]|[Hn1 Hq]] Hj.
    assert (q ++ [j] <> me ++ [i]) as Hne.
    { intros [-> ->]%app_inj_tail. rewrite lookup_insert_eq in Hq. injection Hq as <- <-. cbn in Hj. by apply elem_of_difference in Hj as [_ []%not_elem_of_singleton]. }
    rewrite lookup_insert_ne by done. rewrite lookup_insert_Some in Hq. destruct Hq as [[<- [= <- <-]]|[Hn2 Hq]].
    + cbn in Hj. apply elem_of_difference in Hj as [Hj _]. destruct (Hk _ _ _ _ Hme Hj) as (y & Hy & Hny). exists y. by rewrite lookup_insert_ne by apply snoc_ne.
    + destruct (Hk _ _ _ _ Hq Hj) as (y & Hy & Hny). destruct (decide (me = q ++ [j])) as [<-|Hn3]; [rewrite lookup_insert_eq; by eexists|].
      exists y. by rewrite lookup_insert_ne.
  - eapply kids_update; [done|exact Hme|done|done|]. intros p' s' [= <- <-]. by do 2 eexists.
  - by eapply kids_update.
Qed.

Lemma pids_bounded (ps : pool) : exists b, forall me x, ps !! me = Some x -> (length me <= b)%nat.
Proof.
  induction ps as [|me x ps Hn [b IH]] using map_ind; [exists 0%nat; intros ? ? E; by rewrite lookup_empty in E|].
  exists (length me + b)%nat. intros q y. rewrite lookup_insert_Some. intros [[<- _]|[_ Hq]]; [lia|]. specialize (IH _ _ Hq). lia.
Qed.

Lemma can_step me p s : p <> Spin -> (exists x, local_step me p s x) \/ exists k, p = Wait k.
Proof.
  intros Hp. destruct p as [| |path argv p|f m k|fd p|fd p|k|k|p|d k|fd fmt args p];
    [left; eexists; apply L_exit|done|left; eexists; apply L_exec|left; eexists; apply L_open_fails|left; eexists; apply L_close
    |left; eexists; apply L_dup|left; eexists; apply L_pipe_fails|left; eexists; apply L_fork_fails|right; by eexists
    |left; exists (Running (k 0) s); apply L_chdir|left; eexists; apply L_printf].
Qed.

(** A running process can make a step, or one of its descendants can. *)
Lemma progress (Q : pid -> list (list Z) -> pstate -> Prop) ps : pool_ok Q ps -> kids_there ps ->
  (forall me x, ps !! me = Some x -> finished x) \/ exists ps', step ps ps'.
Proof.
  intros Hok Hk. destruct (pids_bounded ps) as [b Hb].
  assert (forall d me p s, ps !! me = Some (Running p s) -> (b - length me < d)%nat -> exists ps', step ps ps') as Hgo.
  { induction d as [|d IH]; intros me p s Hme Hd; [lia|]. pose proof (po_safe _ _ Hok _ _ Hme) as Hs.
    assert ((exists x, local_step me p s x) \/ exists k, p = Wait k) as [[x Hx]|[k ->]].
    { by apply can_step; intros ->. }
    { eexists. by eapply S_local. }
    destruct (decide (kids s = ∅)) as [E|[i Hi]%set_choose_L]; [eexists; by eapply S_wait_none|].
    destruct (Hk _ _ _ _ Hme Hi) as (y & Hy & Hny). destruct y as [p' s'|argv s'|z|z].
    - eapply (IH (me ++ [i])); [exact Hy|]. specialize (Hb _ _ Hy). rewrite length_app in *. cbn in *. lia.
    - eexists. by eapply S_image_exits.
    - eexists. by eapply S_wait.
    - by destruct (Hny z). }
  destruct (decide (map_Forall (fun _ x => (match x with Zombie _ | Reaped _ => true | _ => false end) = true) ps)) as [Hall|Hn].
  - left. intros me x Hx. specialize (Hall _ _ Hx). by destruct x.
  - right. apply map_not_Forall in Hn as (me & x & Hx & Hnx); [|apply _]. destruct x as [p s|argv s|z|z]; [eapply Hgo; [exact Hx|apply Nat.lt_succ_diag_r]| |done|done].
    eexists. by eapply S_image_exits.
Qed.

(** C31. The shell comes to an end on every input: the runs of its processes are
    bounded, whatever calls fail and however they interleave, and a run can only
    stop when every process has exited; in particular no wait blocks for ever. *)
Theorem shell_finishes input i o e s :
  fds s = three i o e -> kids s = ∅ -> exists bound, forall n ps,
    nsteps step n {[ [] := Running (main input) s ]} ps ->
    (n <= bound)%nat /\ ((forall me x, ps !! me = Some x -> finished x) \/ exists ps', step ps ps').
Proof.
  intros Hf Hk. destruct (main_takes input) as [b Hb]. exists b. intros n ps Hn. split.
  - replace b with (total {[ [] := b ]}) by (unfold total; by rewrite map_fold_singleton, Nat.add_0_r). eapply steps_bounded; [|exact Hn].
    intros me x [<- <-]%lookup_singleton_Some. exists b. by rewrite lookup_singleton_eq.
  - assert (safe (fun _ _ _ => True) [] (main input) s) as Hs by (by eapply main_safe).
    apply (progress (fun _ _ _ => True)); [eapply pool_ok_reach; [exact Hs|apply rtc_nsteps; by exists n]|].
    assert (kids_there {[ [] := Running (main input) s ]}) as H0.
    { intros me p s' j [<- [= <- <-]]%lookup_singleton_Some Hj. rewrite Hk in Hj. by apply elem_of_empty in Hj. }
    revert H0. induction Hn as [|n ps1 ps2 ps3 Hst _ IH]; [done|]. intros H0. apply IH. by eapply kids_step.
Qed.
Lemma shell_finishes_witness : exists bound, forall n ps,
  nsteps step n {[ [] := Running (main [97; 124; 98; 10]) sh_start ]} ps -> (n <= bound)%nat.
Proof.
  destruct (shell_finishes [97; 124; 98; 10] Terminal Terminal Terminal sh_start) as [bound Hb].
  - reflexivity.
  - reflexivity.
  - exists bound. intros n ps Hn. exact (proj1 (Hb n ps Hn)).
Defined.
