(* ===== verification/Grep.v ===== *)
(** * The regular expressions and the buffer of grep (grep.c)

    [match], [matchhere] and [matchstar] search a string; the pattern is a string
    too, so the matcher parses it as it goes. The theorem compares it with a
    pattern compiled once to a syntax tree whose meaning is a set of strings.
    [grep] reads its input in pieces into a buffer of 1024 bytes and splits it
    into lines there. A [char *] is the list of characters up to the NUL. *)
From S2P Require Import Prelude.
From stdpp Require Import list.
#[local] Open Scope Z_scope.

(** ** The matcher *)

(** The loop tries the rest of the pattern, then takes one more instance of [c];
    [here] is [matchhere] of the rest of the pattern. *)
Fixpoint matchstar (here : list Z -> bool) (c : Z) (text : list Z) : bool :=
  here text ||
  match text with
  | x :: text' => if (x =? c) || (c =? 46) then matchstar here c text' else false
  | [] => false
  end.

Fixpoint matchhere (re text : list Z) : bool :=
  match re with
  | [] => true
  | c :: re1 =>
      let plain :=
        match text with
        | x :: text' => if (c =? 46) || (c =? x) then matchhere re1 text' else false
        | [] => false
        end in
      match re1 with
      | [] => if c =? 36 then bool_decide (text = []) else plain
      | s :: re2 => if s =? 42 then matchstar (matchhere re2) c text else plain
      end
  end.

(** The loop of [match], which looks at the empty string at the end too. *)
Fixpoint search (re text : list Z) : bool :=
  matchhere re text || match text with _ :: text' => search re text' | [] => false end.
(** [match] *)
Definition match_re (re text : list Z) : bool :=
  match re with
  | c :: re1 => if c =? 94 then matchhere re1 text else search re text
  | [] => search re text
  end.

(** ** [grep] *)

Definition BUFSZ : nat := 1024.
(** [strchr(p, '\n')] in the buffer: the distance to the newline, no newline before
    a NUL, or a search that leaves the buffer. *)
Inductive found := Found (k : nat) | Missing | Outside.
Fixpoint find_newline (l : list Z) : found :=
  match l with
  | [] => Outside
  | c :: l =>
      if c =? 0 then Missing
      else if c =? 10 then Found 0
      else match find_newline l with Found k => Found (S k) | r => r end
  end.

(** The inner [while], from offset [p]: the buffer, the new [p] and what was
    written. [None] is an access outside of the buffer. *)
Fixpoint grep_lines (fuel : nat) (pat buf : list Z) (p : nat) : option (list Z * nat * list Z) :=
  match fuel with
  | O => None
  | S n =>
      match find_newline (drop p buf) with
      | Outside => None
      | Missing => Some (buf, p, [])
      | Found k =>
          let q := (p + k)%nat in
          let line := take k (drop p buf) in
          let hit := match_re pat line in
          let buf := if hit then <[q := 10]> (<[q := 0]> buf) else <[q := 0]> buf in
          '(buf, p, out) ← grep_lines n pat buf (S q);
          Some (buf, p, (if hit then line ++ [10] else []) ++ out)
      end
  end.

(** The outer [while]: each element of [reads] is what one [read] delivers, cut to
    the room it is given; then the end of the file. *)
Fixpoint grep (pat : list Z) (reads : list (list Z)) (buf : list Z) (m : Z) : option (list Z) :=
  match reads with
  | [] => Some []
  | r :: reads =>
      if (m <? 0) || (Z.of_nat BUFSZ <? m) then None
      else
        let room := (BUFSZ - Z.to_nat m)%nat in
        let got := take room r in
        match got with
        | [] => Some []
        | _ =>
            let buf := take (Z.to_nat m) buf ++ got ++ drop (Z.to_nat m + length got) buf in
            let m := m + Z.of_nat (length got) in
            '(buf, p, out) ← grep_lines (S BUFSZ) pat buf 0;
            let m := if (p =? 0)%nat then 0 else m in
            let '(buf, m) :=
              if 0 <? m then
                let m := m - Z.of_nat p in
                (take (Z.to_nat m) (drop p buf) ++ drop (Z.to_nat m) buf, m)
              else (buf, m) in
            rest ← grep pat reads buf m;
            Some (out ++ rest)
        end
  end.

(** ** The meaning of a pattern *)

Inductive atom := Char (c : Z) | Any.
Inductive regex :=
  | Empty
  | AtEnd
  | One (a : atom) (r : regex)
  | Many (a : atom) (r : regex).

Definition atom_of (c : Z) : atom := if c =? 46 then Any else Char c.
(** [c*] repeats the character before the star; [$] is special at the end only. *)
Fixpoint compile (re : list Z) : regex :=
  match re with
  | [] => Empty
  | c :: re1 =>
      match re1 with
      | [] => if c =? 36 then AtEnd else One (atom_of c) (compile re1)
      | s :: re2 => if s =? 42 then Many (atom_of c) (compile re2) else One (atom_of c) (compile re1)
      end
  end.

Definition atom_in (a : atom) (x : Z) : Prop := match a with Char c => x = c | Any => True end.
(** [reads_as r u v]: the string [u], followed by [v], is an instance of [r]. *)
Fixpoint reads_as (r : regex) (u v : list Z) : Prop :=
  match r with
  | Empty => u = []
  | AtEnd => u = [] /\ v = []
  | One a r => exists x u', u = x :: u' /\ atom_in a x /\ reads_as r u' v
  | Many a r => exists w u', u = w ++ u' /\ Forall (atom_in a) w /\ reads_as r u' v
  end.
(** What grep promises: with [^] an instance at the start of the text, otherwise
    an instance anywhere in it. *)
Definition occurs (re text : list Z) : Prop :=
  match re with
  | 94 :: re1 => exists u v, text = u ++ v /\ reads_as (compile re1) u v
  | _ => exists t u v, text = t ++ u ++ v /\ reads_as (compile re) u v
  end.

(** ** The matcher finds the instances *)

Lemma atom_of_in c x : (c =? 46) || (c =? x) = true <-> atom_in (atom_of c) x.
Proof.
  unfold atom_of. destruct (Z.eqb_spec c 46) as [->|Hc]; cbn; [done|]. rewrite Z.eqb_eq. split; by intros ->.
Qed.
Lemma star_atom c x : (x =? c) || (c =? 46) = true <-> atom_in (atom_of c) x.
Proof. rewrite <- atom_of_in, orb_comm. by rewrite (Z.eqb_sym x). Qed.

Lemma matchstar_spec here c r text :
  (forall t, here t = true <-> exists u v, t = u ++ v /\ reads_as r u v) ->
  matchstar here c text = true <-> exists u v, text = u ++ v /\ reads_as (Many (atom_of c) r) u v.
Proof.
  intros Hh. induction text as [|x text IH]; cbn [matchstar]; rewrite orb_true_iff, Hh.
  - split; [intros [(u & v & E & Hr)|]|intros (u & v & E & w & u' & -> & Hw & Hr)]; [|done|].
    + exists u, v. split; [done|]. exists [], u. by split_and!.
    + left. symmetry in E. apply app_eq_nil in E as [[-> ->]%app_eq_nil ->]. by exists [], [].
  - split.
    + intros [(u & v & E & Hr)|Hs].
      * exists u, v. split; [done|]. exists [], u. by split_and!.
      * destruct (_ || _) eqn:Ex; [|done]. apply star_atom in Ex. apply IH in Hs as (u & v & -> & w & u' & -> & Hw & Hr).
        exists (x :: w ++ u'), v. split; [done|]. exists (x :: w), u'. split_and!; [done|by constructor|done].
    + intros (u & v & E & w & u' & -> & Hw & Hr). destruct w as [|y w]; [left; by exists u', v|]. right.
      injection E as <- E. inversion Hw as [|? ? Hx Hw']; subst. apply star_atom in Hx as ->. apply IH. exists (w ++ u'), v.
      split; [done|]. by exists w, u'.
Qed.

Lemma plain_spec c r re1 text :
  (forall t, matchhere re1 t = true <-> exists u v, t = u ++ v /\ reads_as r u v) ->
  match text with x :: text' => if (c =? 46) || (c =? x) then matchhere re1 text' else false | [] => false end = true <->
  exists u v, text = u ++ v /\ reads_as (One (atom_of c) r) u v.
Proof.
  intros Hr. split.
  - destruct text as [|x text]; [done|]. destruct (_ || _) eqn:E; [|done]. apply atom_of_in in E.
    intros (u & v & -> & Hu)%Hr. exists (x :: u), v. split; [done|]. by exists x, u.
  - intros (u & v & -> & x & u' & -> & Hx & Hu). apply atom_of_in in Hx. cbn. rewrite Hx. apply Hr. by exists u', v.
Qed.

Lemma matchhere_spec re : forall text,
  matchhere re text = true <-> exists u v, text = u ++ v /\ reads_as (compile re) u v.
Proof.
  induction re as [re IH] using (induction_ltof1 _ length). unfold ltof in IH. intros text.
  destruct re as [|c [|s re2]].
  - split; [intros _; by exists [], text|done].
  - cbn [matchhere compile]. destruct (c =? 36); [|apply (plain_spec c Empty []); intros t; apply (IH []); cbn; lia].
    rewrite bool_decide_eq_true. split; [intros ->; by exists [], []|]. by intros (u & v & -> & -> & ->).
  - cbn [matchhere compile]. destruct (s =? 42).
    + apply matchstar_spec. intros t. apply IH. cbn. lia.
    + apply (plain_spec c (compile (s :: re2)) (s :: re2)). intros t. apply IH. cbn. lia.
Qed.

Lemma search_spec re text :
  search re text = true <-> exists t u v, text = t ++ u ++ v /\ reads_as (compile re) u v.
Proof.
  induction text as [|x text IH]; cbn [search]; rewrite orb_true_iff, matchhere_spec.
  - split; [intros [(u & v & E & Hr)|]; [|done]; by exists [], u, v|].
    intros (t & u & v & E & Hr). left. symmetry in E. apply app_eq_nil in E as [-> E]. by exists u, v.
  - rewrite IH. split.
    + intros [(u & v & E & Hr)|(t & u & v & -> & Hr)]; [by exists [], u, v|by exists (x :: t), u, v].
    + intros (t & u & v & E & Hr). destruct t as [|y t]; [left; by exists u, v|right]. injection E as _ ->. by exists t, u, v.
Qed.

(** C32. grep's matcher, which reads pattern and text together and backtracks over
    the repetitions, accepts exactly the texts in which the pattern occurs: at the
    start when the pattern begins with a caret, anywhere otherwise. *)
Theorem match_occurs re text : match_re re text = true <-> occurs re text.
Proof.
  unfold match_re, occurs. destruct re as [|c re]; [apply search_spec|].
  destruct (Z.eqb_spec c 94) as [->|Hc]; [apply matchhere_spec|]. rewrite search_spec.
  destruct c as [|c|c]; [done| |done]. do 7 (destruct c as [c|c|]; [..|done]; try done).
Qed.

(** ** The lines of the input *)

(** The complete lines of a text, without their newlines. *)
Fixpoint lines_from (cur s : list Z) : list (list Z) :=
  match s with
  | [] => []
  | c :: s => if c =? 10 then cur :: lines_from [] s else lines_from (cur ++ [c]) s
  end.
Definition lines : list Z -> list (list Z) := lines_from [].
Definition selected (pat : list Z) (ls : list (list Z)) : list Z :=
  concat (map (fun l => if match_re pat l then l ++ [10] else []) ls).

Lemma lines_from_app cur l s : Forall (fun c => c <> 10) l -> lines_from cur (l ++ 10 :: s) = (cur ++ l) :: lines s.
Proof.
  intros Hl. revert cur. induction Hl as [|c l Hc _ IH]; intros cur; cbn; [by rewrite app_nil_r|].
  rewrite (proj2 (Z.eqb_neq _ _) Hc), IH. by rewrite <- app_assoc.
Qed.
Lemma lines_none cur s : Forall (fun c => c <> 10) s -> lines_from cur s = [].
Proof.
  intros Hs. revert cur. induction Hs as [|c s Hc _ IH]; intros cur; cbn; [done|]. by rewrite (proj2 (Z.eqb_neq _ _) Hc).
Qed.

Lemma find_newline_cases s rest : Forall (fun c => c <> 0) s ->
  (find_newline (s ++ 0 :: rest) = Missing /\ Forall (fun c => c <> 10) s) \/
  (exists l s', s = l ++ 10 :: s' /\ Forall (fun c => c <> 10) l /\ find_newline (s ++ 0 :: rest) = Found (length l)).
Proof.
  induction 1 as [|c s Hc Hs IH]; [by left|]. cbn [app find_newline]. rewrite (proj2 (Z.eqb_neq _ _) Hc).
  destruct (Z.eqb_spec c 10) as [->|Hn]; [right; by exists [], s|]. destruct IH as [[-> Hno]|(l & s' & -> & Hl & ->)].
  - left. split; [done|by constructor].
  - right. exists (c :: l), s'. split_and!; [done|by constructor|done].
Qed.

Lemma grep_lines_out n pat buf p s rest :
  drop p buf = s ++ 0 :: rest -> Forall (fun c => c <> 0) s -> (length s < n)%nat ->
  exists buf' p', grep_lines n pat buf p = Some (buf', p', selected pat (lines s)).
Proof.
  revert buf p s. induction n as [|n IH]; intros buf p s Hd Hs Hn; [lia|]. cbn [grep_lines]. rewrite Hd.
  destruct (find_newline_cases s rest Hs) as [[-> Hno]|(l & s' & -> & Hl & ->)].
  { exists buf, p. unfold lines. by rewrite lines_none. }
  rewrite <- app_assoc, take_app_length. unfold lines. rewrite lines_from_app by done. cbn [app].
  apply Forall_app in Hs as [_ [_ Hs']%Forall_cons]. rewrite length_app in Hn. cbn in Hn.
  set (q := (p + length l)%nat).
  destruct (IH (if match_re pat l then <[q := 10]> (<[q := 0]> buf) else <[q := 0]> buf) (S q) s') as (buf' & p' & E); [|done|lia|].
  - assert (drop (S q) buf = s' ++ 0 :: rest) as Hq.
    { unfold q. replace (S (p + length l)) with (p + S (length l))%nat by lia. rewrite <- drop_drop, Hd, <- app_assoc.
      by rewrite drop_app, drop_ge, Nat.sub_succ_l, Nat.sub_diag by lia. }
    destruct (match_re pat l); rewrite !drop_insert_lt by lia; done.
  - rewrite E. cbn. by do 2 eexists.
Qed.

(** On a file shorter than the buffer grep prints exactly the complete lines in
    which the pattern occurs, in order. *)
Theorem grep_selects pat s :
  Forall (fun c => c <> 0) s -> (length s < BUFSZ)%nat ->
  grep pat [s] (replicate BUFSZ 0) 0 = Some (selected pat (lines s)).
Proof.
  intros Hs Hlen. remember BUFSZ as n eqn:En. cbn [grep]. rewrite <- En.
  destruct (Z.ltb_spec (Z.of_nat n) 0); [lia|]. cbn [orb Z.ltb Z.compare]. rewrite (take_ge s) by (cbn; lia).
  destruct s as [|c s]; [done|]. set (t := c :: s) in *.
  destruct (grep_lines_out (S n) pat (t ++ drop (length t) (replicate n 0)) 0 t (replicate (n - length t - 1) 0)) as (buf' & p' & E).
  - rewrite drop_0, drop_replicate. f_equal. destruct (n - length t)%nat eqn:El; [lia|]. cbn. by rewrite Nat.sub_0_r.
  - done.
  - lia.
  - change (Z.to_nat 0) with 0%nat. rewrite take_0, app_nil_l. change (0 + length t)%nat with (length t). rewrite E. cbn [mbind option_bind]. destruct (0 <? _); cbn; by rewrite app_nil_r.
Qed.
Lemma grep_selects_witness :
  grep [97; 42; 98; 36] [[97; 97; 98; 10; 99; 10; 98; 10]] (replicate BUFSZ 0) 0 = Some [97; 97; 98; 10; 98; 10].
Proof. rewrite grep_selects; [vm_compute; reflexivity|repeat constructor; lia|vm_compute; lia]. Defined.

(** The buffer is not terminated after a read, so a line that was there before is
    found again: the lines [ab] and [cd] and then [x], read in two pieces as a pipe
    delivers them, make grep print the line [cd] twice. *)
Theorem grep_repeats_line :
  exists s1 s2, selected [46] (lines (s1 ++ s2)) = [97; 98; 10; 99; 100; 10; 120; 10] /\
    grep [46] [s1; s2] (replicate BUFSZ 0) 0 = Some [97; 98; 10; 99; 100; 10; 120; 10; 99; 100; 10].
Proof. exists [97; 98; 10; 99; 100; 10], [120; 10]. split; vm_compute; reflexivity. Qed.
