(* ===== verification/Uprogs.v ===== *)
(** * Uprogs: printing and small programs (printf.c, wc.c, ls.c)

    Text is a list of characters. What a program writes to its standard output is the
    result of its definition. *)
From S2P Require Import Prelude Memory State Consout.

(** ** The code *)

(** *** printf.c *)
Module Printf.
Definition digits : list Z := bytes_of_string "0123456789ABCDEF".
(** [do { buf[i++] = digits[x % base]; } while((x /= base) != 0);] *)
Fixpoint fill (fuel : nat) (x base : Z) : list Z :=
  match fuel with
  | O => []
  | S n => digits !!! Z.to_nat (x mod base) :: (if x / base =? 0 then [] else fill n (x / base) base)
  end.
Definition printint (xx base sgn : Z) : list Z :=
  let neg := truth sgn && (xx <? 0) in
  let x := u32 (if neg then - xx else xx) in
  rev (fill 32 x base ++ (if neg then [45] else [])).
(** The words behind [fmt] on the stack; a string is what its address leads to. *)
Definition next_int (ap : list carg) : option (Z * list carg) :=
  match ap with A_int z :: ap => Some (z, ap) | _ => None end.
Definition next_str (ap : list carg) : option (list Z * list carg) :=
  match ap with A_str s :: ap => Some (default (bytes_of_string "(null)") s, ap) | _ => None end.
(** The [for] over the format; [state] is whether the last character was a [%]. *)
Fixpoint printf_loop (state : bool) (fmt : list Z) (ap : list carg) : option (list Z) :=
  match fmt with
  | [] => Some []
  | c :: fmt =>
      if negb state then
        if c =? 37 then printf_loop true fmt ap else out ← printf_loop false fmt ap; Some (c :: out)
      else if c =? 100 then
        '(z, ap) ← next_int ap; out ← printf_loop false fmt ap; Some (printint (s32 z) 10 1 ++ out)
      else if (c =? 120) || (c =? 112) then
        '(z, ap) ← next_int ap; out ← printf_loop false fmt ap; Some (printint (s32 z) 16 0 ++ out)
      else if c =? 115 then
        '(t, ap) ← next_str ap; out ← printf_loop false fmt ap; Some (t ++ out)
      else if c =? 99 then
        '(z, ap) ← next_int ap; out ← printf_loop false fmt ap; Some (u8 z :: out)
      else if c =? 37 then out ← printf_loop false fmt ap; Some (37 :: out)
      else out ← printf_loop false fmt ap; Some (37 :: c :: out)
  end.
Definition printf (fmt : string) (ap : list carg) : option (list Z) := printf_loop false (bytes_of_string fmt) ap.
End Printf.
Import Printf.

(** *** wc.c *)
Module Wc.
Record counts := Counts { lines : Z; words : Z; chars : Z; inword : bool }.
(** [strchr(" \r\t\n\v", c)] *)
Definition space (c : Z) : bool := existsb (Z.eqb c) [32; 13; 9; 10; 11].
Definition count (k : counts) (x : Z) : counts :=
  let l := if x =? 10 then s32 (lines k + 1) else lines k in
  let c := s32 (chars k + 1) in
  if space x then Counts l (words k) c false
  else if inword k then Counts l (words k) c true
  else Counts l (s32 (words k + 1)) c true.
(** [wc]: the reads of the file, and whether the last one failed. *)
Definition wc (reads : list (list Z)) (failed : bool) (name : list Z) : option (list Z) :=
  let k := fold_left (fun k buf => fold_left count buf k) reads (Counts 0 0 0 false) in
  if failed then printf "wc: read error
" []
  else printf "%d %d %d %s
" [A_int (lines k); A_int (words k); A_int (chars k); A_str (Some name)].
End Wc.

(** *** ls.c *)
Module Ls.
Definition DIRSIZ : nat := 14.
(** [for(p = path + strlen(path); p >= path && *p != '/'; p--);] for the first [n]
    characters: how many of them are up to the last slash. *)
Fixpoint last_slash (n : nat) (path : list Z) : nat :=
  match n with
  | O => 0
  | S k => if path !!! k =? 47 then S k else last_slash k path
  end.
Definition fmtname (path : list Z) : list Z :=
  let p := drop (last_slash (length path) path) path in
  if (DIRSIZ <=? length p)%nat then p else p ++ replicate (DIRSIZ - length p) 32.
End Ls.

(** ** Numbers *)

(** The kernel and the library print the same numerals, in lower and upper case. *)
Definition upper (c : Z) : Z := if 97 <=? c then c - 32 else c.
Lemma upper_digits k : 0 <= k < 16 -> upper (Consout.digits !!! Z.to_nat k) = digits !!! Z.to_nat k.
Proof. intros Hk. assert (k ∈ seqZ 0 16) as Hin by (apply elem_of_seqZ; lia). clear Hk. revert k Hin. apply Forall_forall. vm_decide. Qed.
Lemma fill_upper fuel x base : 0 < base <= 16 -> fill fuel x base = map upper (print_digits fuel x base).
Proof.
  intros Hb. revert x. induction fuel as [|n IH]; intros x; [done|]. cbn [fill print_digits]. pose proof (Z.mod_pos_bound x base ltac:(lia)).
  destruct (x / base =? 0); cbn [map]; rewrite upper_digits by lia; [done|]. by rewrite IH.
Qed.
Lemma printint_upper xx base sgn : 0 < base <= 16 -> printint xx base sgn = map upper (printint_chars xx base sgn).
Proof.
  intros Hb. unfold printint, printint_chars. rewrite fill_upper by done. rewrite map_rev, map_app. by destruct (truth sgn && (xx <? 0)).
Qed.
(** A number that is not negative is printed as its decimal numeral. *)
Lemma printint_decimal n : 0 <= n < 2147483648 -> numeral 10 (printint (s32 n) 10 1) = n.
Proof.
  intros Hn. rewrite s32_small by lia. rewrite printint_upper by lia. destruct (printint_correct n 10 1) as (ds & E & Hv & Hd & _); [by left|lia|].
  rewrite (proj2 (Z.ltb_ge n 0)) in E, Hv by lia. cbn [truth Z.eqb negb andb app] in E, Hv. rewrite E. rewrite u32_small in Hv by lia.
  assert (map upper ds = ds) as ->; [|done]. rewrite <- (map_id ds) at 2. apply map_ext_in. intros d Hin%list_elem_of_In.
  rewrite Forall_forall in Hd. specialize (Hd d Hin). unfold upper, digit_val in *. destruct (Z.leb_spec 97 d), (Z.ltb_spec d 58); lia.
Qed.

(** ** Words *)

(** The words of a text: its longest runs without white space. [cur] is the word that
    has begun. *)
Fixpoint words_from (cur s : list Z) : list (list Z) :=
  match s with
  | [] => if cur is [] then [] else [cur]
  | c :: s =>
      if Wc.space c then (if cur is [] then [] else [cur]) ++ words_from [] s
      else words_from (cur ++ [c]) s
  end.
Definition words : list Z -> list (list Z) := words_from [].
Definition newlines (s : list Z) : nat := length (filter (fun c => c = 10) s).

Lemma words_from_length cur s : (length (words_from cur s) <= length cur + length s)%nat.
Proof.
  revert cur. induction s as [|c s IH]; intros cur; cbn [words_from].
  - destruct cur; cbn; lia.
  - destruct (Wc.space c).
    + specialize (IH []). destruct cur; cbn in *; lia.
    + specialize (IH (cur ++ [c])). rewrite length_app in IH. cbn in *. lia.
Qed.
Definition started (cur : list Z) : bool := if cur is [] then false else true.
Lemma count_words s : forall cur l w c, 0 <= l -> 0 <= w -> 0 <= c ->
  l + Z.of_nat (length s) < 2147483648 -> w + Z.of_nat (length s) < 2147483648 -> c + Z.of_nat (length s) < 2147483648 ->
  let k := fold_left Wc.count s (Wc.Counts l w c (started cur)) in
  Wc.lines k = l + Z.of_nat (newlines s) /\ Wc.chars k = c + Z.of_nat (length s) /\
  Wc.words k = w + Z.of_nat (length (words_from cur s)) - (if started cur then 1 else 0).
Proof.
  induction s as [|x s IH]; intros cur l w c Hl Hw Hc Hl' Hw' Hc'; cbn zeta.
  - cbn. destruct cur; cbn; lia.
  - cbn [length] in *. cbn [fold_left words_from]. set (l' := if x =? 10 then l + 1 else l).
    assert (Wc.count (Wc.Counts l w c (started cur)) x = if Wc.space x then Wc.Counts l' w (c + 1) false
      else if started cur then Wc.Counts l' w (c + 1) true else Wc.Counts l' (w + 1) (c + 1) true) as ->
      by (unfold Wc.count; cbn; by rewrite !(s32_small (_ + 1)) by lia).
    assert (l <= l' <= l + 1 /\ l' + Z.of_nat (newlines s) = l + Z.of_nat (newlines (x :: s))) as [Hl1 <-].
    { unfold l', newlines. rewrite filter_cons. destruct (Z.eqb_spec x 10); [rewrite decide_True|rewrite decide_False]; cbn; lia || done. }
    destruct (Wc.space x).
    + destruct (IH [] l' w (c + 1)) as (E1 & E2 & E3); [lia..|]. cbn [started] in E1, E2, E3. rewrite E1, E2, E3, length_app. destruct cur; cbn [started length]; lia.
    + assert (forall w', Wc.Counts l' w' (c + 1) true = Wc.Counts l' w' (c + 1) (started (cur ++ [x]))) as E by (by destruct cur).
      destruct (started cur) eqn:Es; rewrite E; destruct (IH (cur ++ [x]) l' (if started cur then w else w + 1) (c + 1)) as (E1 & E2 & E3);
        try (destruct (started cur); lia); rewrite Es in *; rewrite E1, E2, E3; (assert (started (cur ++ [x]) = true) as -> by (by destruct cur)); lia.
Qed.

Lemma printf_counts a b c name : printf "%d %d %d %s
" [A_int a; A_int b; A_int c; A_str (Some name)] =
  Some (printint (s32 a) 10 1 ++ [32] ++ printint (s32 b) 10 1 ++ [32] ++ printint (s32 c) 10 1 ++ [32] ++ name ++ [10]).
Proof.
  unfold printf. assert (bytes_of_string "%d %d %d %s
" = [37; 100; 32; 37; 100; 32; 37; 100; 32; 37; 115; 10]) as -> by reflexivity.
  cbn [printf_loop negb Z.eqb Pos.eqb next_int next_str mbind option_bind orb default]. reflexivity.
Qed.

(** wc counts: however the reads cut the file into pieces, it prints the number of
    newlines, the number of words and the number of characters of the file in decimal,
    and the name. *)
Theorem wc_counts reads name :
  let s := concat reads in
  Z.of_nat (length s) < 2147483648 ->
  exists l w c, Wc.wc reads false name = Some (l ++ [32] ++ w ++ [32] ++ c ++ [32] ++ name ++ [10]) /\
    numeral 10 l = Z.of_nat (newlines s) /\ numeral 10 w = Z.of_nat (length (words s)) /\ numeral 10 c = Z.of_nat (length s).
Proof.
  intros s Hs. unfold Wc.wc. assert (forall k, fold_left (fun k buf => fold_left Wc.count buf k) reads k = fold_left Wc.count s k) as E.
  { unfold s. clear Hs. induction reads as [|r rs IH]; intros k; [done|]. cbn [fold_left concat]. by rewrite fold_left_app, IH. }
  rewrite E. destruct (count_words s [] 0 0 0) as (E1 & E2 & E3); [lia..|]. cbn [started] in *. set (k := fold_left Wc.count s _) in *.
  pose proof (words_from_length [] s). assert (newlines s <= length s)%nat by apply length_filter. cbn [length] in *.
  exists (printint (s32 (Wc.lines k)) 10 1), (printint (s32 (Wc.words k)) 10 1), (printint (s32 (Wc.chars k)) 10 1).
  split; [|split; [rewrite printint_decimal; lia|split; rewrite printint_decimal; unfold words; lia]].
  apply printf_counts.
Qed.
Lemma wc_counts_witness : exists l w c,
  Wc.wc [[97; 98; 32]; [99; 10; 100]] false [120] = Some (l ++ [32] ++ w ++ [32] ++ c ++ [32] ++ [120] ++ [10]) /\ numeral 10 w = 3.
Proof.
  destruct (wc_counts [[97; 98; 32]; [99; 10; 100]] [120]) as (l & w & c & E & _ & Hw & _); [cbn; lia|]. exists l, w, c. split; [exact E|exact Hw].
Defined.

(** ** Names *)

(** fmtname gives the last element of the path, filled up with blanks to the width of
    a directory entry. *)
Lemma last_slash_none n path : (n <= length path)%nat -> 47 ∉ take n path -> Ls.last_slash n path = 0%nat.
Proof.
  induction n as [|n IH]; intros Hn Hno; [done|]. cbn [Ls.last_slash]. destruct (lookup_lt_is_Some_2 path n) as [x Hx]; [lia|].
  rewrite (list_lookup_total_correct _ _ _ Hx). rewrite (take_S_r _ _ _ Hx) in Hno. apply not_elem_of_app in Hno as [Hno Hx'].
  destruct (Z.eqb_spec x 47) as [->|]; [|apply IH; [lia|done]]. by destruct Hx'; apply list_elem_of_singleton.
Qed.
Lemma fmtname_last dir name :
  47 ∉ name -> (length name <= 14)%nat ->
  Ls.fmtname (dir ++ [47] ++ name) = name ++ replicate (14 - length name) 32 /\ Ls.fmtname name = name ++ replicate (14 - length name) 32.
Proof.
  intros Hno Hl. assert (forall p, drop (Ls.last_slash (length p) p) p = name -> Ls.fmtname p = name ++ replicate (14 - length name) 32) as Hp.
  { intros p E. unfold Ls.fmtname. rewrite E. unfold Ls.DIRSIZ. destruct (Nat.leb_spec 14 (length name)); [|done].
    replace (14 - length name)%nat with 0%nat by lia. by rewrite app_nil_r. }
  split; apply Hp.
  - assert (forall n, (n <= length name)%nat -> Ls.last_slash (S (length dir) + n) (dir ++ [47] ++ name) = S (length dir)) as E.
    { induction n as [|n IH]; intros Hn; rewrite ?Nat.add_0_r, ?Nat.add_succ_r; cbn [Ls.last_slash].
      - by rewrite (list_lookup_total_correct _ _ 47) by (by apply list_lookup_middle).
      - destruct (lookup_lt_is_Some_2 name n) as [x Hx]; [lia|]. rewrite (list_lookup_total_correct _ _ x).
        + destruct (Z.eqb_spec x 47) as [->|]; [|apply IH; lia]. destruct Hno. by eapply list_elem_of_lookup_2.
        + rewrite lookup_app_r by lia. replace (S (length dir) + n - length dir)%nat with (S n) by lia. done. }
    rewrite !length_app. cbn [length]. replace (length dir + (1 + length name))%nat with (S (length dir) + length name)%nat by lia.
    rewrite E by lia. rewrite app_assoc, drop_app_length'; [done|]. rewrite length_app. cbn. lia.
  - rewrite last_slash_none; [done|done|]. by rewrite firstn_all.
Qed.
