(* ===== verification/Tools.v ===== *)
(** * Tools: the small programs (cat.c, echo.c, kill.c, ln.c, ls.c, mkdir.c, rm.c, wc.c, init.c, zombie.c)

    A program is the tree of the system calls it makes, branching on their results. A
    loop that reads to the end of a file takes fuel. [run] lets the calls of one process
    work on a tree of files, as the kernel does, and the theorems say what is printed
    there. *)
From S2P Require Import Prelude Memory CString State Consout Uprogs.
Import Printf.

(** ** The code *)

Module Tools.
(** A file's type, number and size, as fstat gives them. *)
Record fstatus := Fstatus { s_type : Z; s_ino : Z; s_size : Z }.
Inductive tool :=
  | Exit
  | Spin
  | Open (path : list Z) (mode : Z) (k : Z -> tool)
  | Close (fd : Z) (k : tool)
  | Read (fd n : Z) (k : option (list Z) -> tool)
  | Write (fd : Z) (s : list Z) (k : tool)
  | Fstat (fd : Z) (k : option fstatus -> tool)
  | Link (old new : list Z) (k : Z -> tool)
  | Unlink (path : list Z) (k : Z -> tool)
  | Mkdir (path : list Z) (k : Z -> tool)
  | Mknod (path : list Z) (major minor : Z) (k : tool)
  | Dup (fd : Z) (k : tool)
  | Fork (k : Z -> tool)
  | Exec (path : list Z) (argv : list (list Z)) (k : tool)
  | Wait (k : Z -> tool)
  | Kill (pid : Z) (k : tool)
  | Sleep (n : Z) (k : tool).

(** printf writes its characters one by one. *)
Definition puts (fd : Z) (s : list Z) (k : tool) : tool := foldr (fun c k => Write fd [c] k) k s.
Definition print (fd : Z) (fmt : string) (args : list carg) (k : tool) : tool :=
  match printf fmt args with Some s => puts fd s k | None => Spin end.
Definition A_text (s : list Z) : carg := A_str (Some s).

(** *** ulib.c *)

Definition stat (n : list Z) (k : option fstatus -> tool) : tool :=
  Open n 0 (fun fd => if fd <? 0 then k None else Fstat fd (fun r => Close fd (k r))).

(** *** cat.c *)

Fixpoint cat (fuel : nat) (fd : Z) (k : tool) : tool :=
  match fuel with
  | O => Spin
  | S n => Read fd 512 (fun r =>
      match r with
      | None => print 1 "cat: read error
" [] Exit
      | Some [] => k
      | Some s => Write 1 s (cat n fd k)
      end)
  end.
Fixpoint cat_files (fuel : nat) (argv : list (list Z)) : tool :=
  match argv with
  | [] => Exit
  | a :: argv => Open a 0 (fun fd =>
      if fd <? 0 then print 1 "cat: cannot open %s
" [A_text a] Exit
      else cat fuel fd (Close fd (cat_files fuel argv)))
  end.
(** [argv] is without the name of the program here and below. *)
Definition cat_main (fuel : nat) (argv : list (list Z)) : tool :=
  match argv with [] => cat fuel 0 Exit | _ => cat_files fuel argv end.

(** *** echo.c *)

Fixpoint echo_main (argv : list (list Z)) : tool :=
  match argv with
  | [] => Exit
  | a :: argv => print 1 "%s%s" [A_text a; A_text (if argv is [] then [10] else [32])] (echo_main argv)
  end.

(** *** kill.c, where [argc < 1] never holds, and ln.c *)

Fixpoint kill_main (argv : list (list Z)) : tool :=
  match argv with [] => Exit | a :: argv => Kill (atoi a) (kill_main argv) end.
Definition ln_main (argv : list (list Z)) : tool :=
  match argv with
  | [a; b] => Link a b (fun r => if r <? 0 then print 2 "link %s %s: failed
" [A_text a; A_text b] Exit else Exit)
  | _ => print 2 "Usage: ln old new
" [] Exit
  end.

(** *** mkdir.c and rm.c *)

Fixpoint mkdir_loop (argv : list (list Z)) : tool :=
  match argv with
  | [] => Exit
  | a :: argv => Mkdir a (fun r => if r <? 0 then print 2 "mkdir: %s failed to create
" [A_text a] Exit else mkdir_loop argv)
  end.
Definition mkdir_main (argv : list (list Z)) : tool :=
  match argv with [] => print 2 "Usage: mkdir files...
" [] Exit | _ => mkdir_loop argv end.
Fixpoint rm_loop (argv : list (list Z)) : tool :=
  match argv with
  | [] => Exit
  | a :: argv => Unlink a (fun r => if r <? 0 then print 2 "rm: %s failed to delete
" [A_text a] Exit else rm_loop argv)
  end.
Definition rm_main (argv : list (list Z)) : tool :=
  match argv with [] => print 2 "Usage: rm files...
" [] Exit | _ => rm_loop argv end.

(** *** wc.c *)

Fixpoint wc_loop (fuel : nat) (fd : Z) (name : list Z) (c : Wc.counts) (k : tool) : tool :=
  match fuel with
  | O => Spin
  | S n => Read fd 512 (fun r =>
      match r with
      | None => print 1 "wc: read error
" [] Exit
      | Some [] => print 1 "%d %d %d %s
" [A_int (Wc.lines c); A_int (Wc.words c); A_int (Wc.chars c); A_text name] k
      | Some s => wc_loop n fd name (fold_left Wc.count s c) k
      end)
  end.
Definition wc (fuel : nat) (fd : Z) (name : list Z) (k : tool) : tool := wc_loop fuel fd name (Wc.Counts 0 0 0 false) k.
Fixpoint wc_files (fuel : nat) (argv : list (list Z)) : tool :=
  match argv with
  | [] => Exit
  | a :: argv => Open a 0 (fun fd =>
      if fd <? 0 then print 1 "wc: cannot open %s
" [A_text a] Exit
      else wc fuel fd a (Close fd (wc_files fuel argv)))
  end.
Definition wc_main (fuel : nat) (argv : list (list Z)) : tool :=
  match argv with [] => wc fuel 0 [] Exit | _ => wc_files fuel argv end.

(** *** ls.c *)

Definition T_DIR : Z := 1.
Definition T_FILE : Z := 2.
Definition print_entry (path : list Z) (st : fstatus) (k : tool) : tool :=
  print 1 "%s %d %d %d
" [A_text (Ls.fmtname path); A_int (s_type st); A_int (s_ino st); A_int (s_size st)] k.
(** The string at the start of a buffer. *)
Fixpoint c_string (l : list Z) : list Z :=
  match l with [] => [] | c :: l => if c =? 0 then [] else c :: c_string l end.
(** The entries of the open directory; [buf] is the path and a slash. *)
Fixpoint ls_entries (fuel : nat) (fd : Z) (buf : list Z) (k : tool) : tool :=
  match fuel with
  | O => Spin
  | S n => Read fd 16 (fun r =>
      match r with
      | None => k
      | Some de =>
          if negb (length de =? 16)%nat then k
          else if le16 de 0 =? 0 then ls_entries n fd buf k
          else
            let name := c_string (drop 2 de) in
            stat (buf ++ name) (fun st =>
              match st with
              | None => print 1 "ls: cannot stat %s
" [A_text (buf ++ name)] (ls_entries n fd buf k)
              | Some st => print_entry (buf ++ name) st (ls_entries n fd buf k)
              end)
      end)
  end.
Definition ls (fuel : nat) (path : list Z) (k : tool) : tool :=
  Open path 0 (fun fd =>
    if fd <? 0 then print 2 "ls: cannot open %s
" [A_text path] k
    else Fstat fd (fun st =>
      match st with
      | None => print 2 "ls: cannot stat %s
" [A_text path] (Close fd k)
      | Some st =>
          if s_type st =? T_FILE then print_entry path st (Close fd k)
          else if s_type st =? T_DIR then
            if 512 <? Z.of_nat (length path) + 1 + 14 + 1 then print 1 "ls: path too long
" [] (Close fd k)
            else ls_entries fuel fd (path ++ [47]) (Close fd k)
          else Close fd k
      end)).
Fixpoint ls_paths (fuel : nat) (argv : list (list Z)) : tool :=
  match argv with [] => Exit | a :: argv => ls fuel a (ls_paths fuel argv) end.
Definition ls_main (fuel : nat) (argv : list (list Z)) : tool :=
  match argv with [] => ls fuel [46] Exit | _ => ls_paths fuel argv end.

(** *** init.c and zombie.c *)

Definition console_path : list Z := bytes_of_string "console".
Definition sh : list Z := bytes_of_string "sh".
(** [while((wpid=wait()) >= 0 && wpid != pid) printf(...)], then [k]. *)
Fixpoint init_wait (fuel : nat) (pid : Z) (k : tool) : tool :=
  match fuel with
  | O => Spin
  | S n => Wait (fun wpid => if (0 <=? wpid) && negb (wpid =? pid) then print 1 "zombie!
" [] (init_wait n pid k) else k)
  end.
Fixpoint init_loop (fuel : nat) : tool :=
  match fuel with
  | O => Spin
  | S n => print 1 "init: starting sh
" [] (Fork (fun pid =>
      if pid <? 0 then print 1 "init: fork failed
" [] Exit
      else if pid =? 0 then Exec sh [sh] (print 1 "init: exec sh failed
" [] Exit)
      else init_wait fuel pid (init_loop n)))
  end.
Definition init_main (fuel : nat) : tool :=
  let k := Dup 0 (Dup 0 (init_loop fuel)) in
  Open console_path 2 (fun fd => if fd <? 0 then Mknod console_path 1 1 (Open console_path 2 (fun _ => k)) else k).
Definition zombie_main : tool := Fork (fun pid => if 0 <? pid then Sleep 5 Exit else Exit).
End Tools.
Import Tools.

(** ** A tree of files *)

(** What the calls of one process do: a file has a type, a number and contents, and a
    name leads to it; a descriptor is a file and an offset, or the terminal, whose input
    comes in pieces. Output to 1 and 2 is kept. *)
Record fnode := Fnode { n_type : Z; n_ino : Z; n_data : list Z }.
Inductive fdesc := Tty | At (path : list Z) (off : nat).
Record world := World { nodes : gmap (list Z) fnode; fds : list (option fdesc); input : list (list Z); out1 : list Z; out2 : list Z }.
#[export] Instance eta_world : Eta world := {| eta w := World (nodes w) (fds w) (input w) (out1 w) (out2 w) |}.
#[export] Instance upd_nodes : Upd nodes := ltac:(field_update nodes).
#[export] Instance upd_fds : Upd fds := ltac:(field_update fds).
#[export] Instance upd_input : Upd input := ltac:(field_update input).
#[export] Instance upd_out1 : Upd out1 := ltac:(field_update out1).
#[export] Instance upd_out2 : Upd out2 := ltac:(field_update out2).

Fixpoint lowest {A} (t : list (option A)) : option nat :=
  match t with
  | [] => None
  | None :: _ => Some O
  | Some _ :: t => S <$> lowest t
  end.
Definition at_fd (w : world) (fd : Z) : option fdesc := if fd <? 0 then None else mjoin (fds w !! Z.to_nat fd).
Definition put (fd : Z) (s : list Z) (w : world) : world :=
  if fd =? 1 then w <| out1 ::= fun o => o ++ s |> else if fd =? 2 then w <| out2 ::= fun o => o ++ s |> else w.
Definition status (nd : fnode) : fstatus := Fstatus (n_type nd) (n_ino nd) (Z.of_nat (length (n_data nd))).

(** The program, and whether it exits. *)
Fixpoint run (t : tool) (w : world) : world * bool :=
  match t with
  | Exit => (w, true)
  | Open p m k =>
      match nodes w !! p, lowest (fds w) with
      | Some nd, Some n =>
          if (n_type nd =? T_DIR) && negb (m =? 0) then run (k (-1)) w
          else run (k (Z.of_nat n)) (w <| fds ::= <[n := Some (At p 0)]> |>)
      | _, _ => run (k (-1)) w
      end
  | Close fd k => run k (w <| fds ::= <[Z.to_nat fd := None]> |>)
  | Read fd n k =>
      match at_fd w fd with
      | Some Tty =>
          match input w with
          | [] => run (k (Some [])) w
          | s :: rest =>
              let c := take (Z.to_nat n) s in
              let r := drop (Z.to_nat n) s in
              run (k (Some c)) (w <| input := if r is [] then rest else r :: rest |>)
          end
      | Some (At p off) =>
          match nodes w !! p with
          | Some nd =>
              let c := take (Z.to_nat n) (drop off (n_data nd)) in
              run (k (Some c)) (w <| fds ::= <[Z.to_nat fd := Some (At p (off + length c))]> |>)
          | None => run (k None) w
          end
      | None => run (k None) w
      end
  | Write fd s k => run k (put fd s w)
  | Fstat fd k =>
      match at_fd w fd with
      | Some (At p _) => run (k (status <$> nodes w !! p)) w
      | _ => run (k None) w
      end
  | Link a b k =>
      match nodes w !! a, nodes w !! b with
      | Some nd, None => if n_type nd =? T_DIR then run (k (-1)) w else run (k 0) (w <| nodes ::= <[b := nd]> |>)
      | _, _ => run (k (-1)) w
      end
  | Unlink p k =>
      match nodes w !! p with
      | Some _ => run (k 0) (w <| nodes ::= delete p |>)
      | None => run (k (-1)) w
      end
  | _ => (w, false)
  end.

Lemma run_puts fd s k w : run (puts fd s k) w = run k (put fd s w).
Proof.
  revert w. induction s as [|c s IH]; intros w; cbn [puts foldr run].
  - unfold put. destruct w. destruct (fd =? 1), (fd =? 2); unfold upd; cbn; by rewrite ?app_nil_r.
  - change (foldr _ k s) with (puts fd s k). rewrite IH. f_equal. unfold put. destruct w. destruct (fd =? 1), (fd =? 2); unfold upd; cbn; by rewrite <- ?app_assoc.
Qed.
Lemma run_print fd fmt args s k w : printf fmt args = Some s -> run (print fd fmt args k) w = run k (put fd s w).
Proof. intros E. unfold print. rewrite E. apply run_puts. Qed.

(** ** Files are read to their end *)

(** Descriptor [fd] stands at offset [off], and [o] was written. *)
Definition moved (w : world) (fd : Z) (d : option fdesc) (o : list Z) : world :=
  w <| fds ::= <[Z.to_nat fd := d]> |> <| out1 ::= fun x => x ++ o |>.
Lemma at_fd_moved w fd d o d0 : at_fd w fd = Some d0 -> at_fd (moved w fd d o) fd = d.
Proof.
  unfold at_fd, moved. rsimpl. destruct (fd <? 0); [done|]. intros H. destruct (fds w !! Z.to_nat fd) as [x|] eqn:E; [|done].
  rewrite list_lookup_insert_eq by (by eapply lookup_lt_Some). done.
Qed.
Lemma moved_moved w fd d d' o o' : moved (moved w fd d o) fd d' o' = moved w fd d' (o ++ o').
Proof. unfold moved. destruct w. unfold upd. cbn. by rewrite list_insert_insert_eq, app_assoc. Qed.
Lemma run_read w fd p off nd n k : at_fd w fd = Some (At p off) -> nodes w !! p = Some nd ->
  run (Read fd n k) w = let c := take (Z.to_nat n) (drop off (n_data nd)) in run (k (Some c)) (moved w fd (Some (At p (off + length c))) []).
Proof. intros E1 E2. cbn [run]. rewrite E1, E2. cbv zeta. f_equal. unfold moved. destruct w. unfold upd. cbn. by rewrite app_nil_r. Qed.

Lemma run_cat fuel fd p off nd k w :
  at_fd w fd = Some (At p off) -> nodes w !! p = Some nd -> (length (n_data nd) <= off + 512 * (fuel - 1))%nat -> (off <= length (n_data nd))%nat -> (0 < fuel)%nat ->
  run (cat fuel fd k) w = run k (moved w fd (Some (At p (length (n_data nd)))) (drop off (n_data nd))).
Proof.
  revert off w. induction fuel as [|fuel IH]; intros off w E1 E2 Hf Ho H0; [lia|]. cbn [cat]. rewrite (run_read w fd p off nd) by done. cbv zeta.
  change (Z.to_nat 512) with 512%nat. set (c := take 512 (drop off (n_data nd))). assert (length c = Nat.min 512 (length (n_data nd) - off)) as Hc by (unfold c; rewrite length_take, length_drop; done).
  destruct c as [|x c'] eqn:Ec.
  - cbn [length] in Hc. rewrite Nat.add_0_r. assert (off = length (n_data nd)) as -> by lia. by rewrite drop_all.
  - cbn [run]. set (w1 := moved w fd _ []). assert (put 1 (x :: c') w1 = moved w fd (Some (At p (off + length (x :: c')))) (x :: c')) as Ep.
    { unfold put, w1, moved. cbn [Z.eqb Pos.eqb]. destruct w. unfold upd. cbn. by rewrite app_nil_r. }
    rewrite Ep. rewrite (IH (off + length (x :: c'))%nat).
    + rewrite moved_moved. do 2 f_equal. rewrite <- drop_drop, Hc, <- Ec. unfold c. rewrite <- (take_drop 512 (drop off (n_data nd))) at 3. f_equal.
      destruct (decide (512 <= length (n_data nd) - off)%nat); [by rewrite Nat.min_l by lia|]. rewrite Nat.min_r by lia. rewrite !drop_ge; rewrite ?length_drop; done || lia.
    + by eapply at_fd_moved.
    + done.
    + cbn [length] in *. lia.
    + lia.
    + cbn [length] in *. destruct fuel; lia.
Qed.
Lemma lowest_lookup {A} (t : list (option A)) n : lowest t = Some n -> t !! n = Some None.
Proof.
  revert n. induction t as [|[x|] t IH]; intros n; cbn; [done| |by intros [= <-]].
  destruct (lowest t) as [k|]; cbn; [|done]. intros [= <-]. by apply IH.
Qed.
(** Opening a file takes the lowest descriptor. *)
Lemma run_open w p nd n k : nodes w !! p = Some nd -> lowest (fds w) = Some n ->
  let w' := w <| fds ::= <[n := Some (At p 0)]> |> in
  run (Open p 0 k) w = run (k (Z.of_nat n)) w' /\ at_fd w' (Z.of_nat n) = Some (At p 0) /\ nodes w' = nodes w.
Proof.
  intros E1 E2 w'. cbn [run]. rewrite E1, E2, andb_false_r. split; [done|]. split; [|done]. unfold at_fd, w'. rsimpl.
  rewrite (proj2 (Z.ltb_ge _ _)), Nat2Z.id by lia. rewrite list_lookup_insert_eq; [done|]. by eapply lookup_lt_Some, lowest_lookup.
Qed.
Lemma run_open_missing w p k : nodes w !! p = None -> run (Open p 0 k) w = run (k (-1)) w.
Proof. intros E. cbn [run]. by rewrite E. Qed.
(** Closing it gives the table back. *)
Lemma close_moved w p n d o : lowest (fds w) = Some n ->
  (moved (w <| fds ::= <[n := Some (At p 0)]> |>) (Z.of_nat n) d o) <| fds ::= <[Z.to_nat (Z.of_nat n) := None]> |> = w <| out1 ::= fun x => x ++ o |>.
Proof.
  intros E%lowest_lookup. unfold moved. destruct w. unfold upd. cbn in *. rewrite Nat2Z.id, !list_insert_insert_eq. by rewrite list_insert_id.
Qed.
Lemma out1_app w o o' : w <| out1 ::= fun x => x ++ o |> <| out1 ::= fun x => x ++ o' |> = w <| out1 ::= fun x => x ++ (o ++ o') |>.
Proof. destruct w. unfold upd. cbn. by rewrite app_assoc. Qed.
Lemma out1_nil w : w <| out1 ::= fun x => x ++ [] |> = w.
Proof. destruct w. unfold upd. cbn. by rewrite app_nil_r. Qed.

(** What cat prints: the files up to the first one that is not there. *)
Fixpoint cat_out (f : gmap (list Z) fnode) (argv : list (list Z)) : list Z :=
  match argv with
  | [] => []
  | p :: argv =>
      match f !! p with
      | Some nd => n_data nd ++ cat_out f argv
      | None => bytes_of_string "cat: cannot open " ++ p ++ [10]
      end
  end.
Lemma printf_cat_missing p : printf "cat: cannot open %s
" [A_text p] = Some (bytes_of_string "cat: cannot open " ++ p ++ [10]).
Proof. reflexivity. Qed.
(** cat prints the contents of its files in order, and stops with a message at a file it
    cannot open; it leaves no descriptor open. *)
Theorem cat_prints (fuel : nat) (argv : list (list Z)) (w : world) (n : nat)
  (Hn : lowest (fds w) = Some n) (Ha : argv <> []) (Hf : forall p nd, nodes w !! p = Some nd -> (length (n_data nd) + 512 <= 512 * fuel)%nat) :
  run (cat_main fuel argv) w = (w <| out1 ::= fun x => x ++ cat_out (nodes w) argv |>, true).
Proof.
  assert (cat_main fuel argv = cat_files fuel argv) as -> by (by destruct argv). clear Ha. revert w Hn Hf.
  induction argv as [|p argv IH]; intros w Hn Hf; cbn [cat_files cat_out].
  { cbn [run]. by rewrite out1_nil. }
  destruct (nodes w !! p) as [nd|] eqn:E.
  - destruct (run_open w p nd n (fun fd => if fd <? 0 then print 1 "cat: cannot open %s
" [A_text p] Exit else cat fuel fd (Close fd (cat_files fuel argv))) E Hn) as (-> & Ea & En).
    rewrite (proj2 (Z.ltb_ge _ _)) by lia. specialize (Hf p nd E) as Hp. rewrite (run_cat fuel _ p 0 nd); [|done|by rewrite En|lia..]. cbn [run]. rewrite close_moved by done.
    rewrite IH by done. rsimpl. by rewrite out1_app.
  - rewrite run_open_missing by done. change (-1 <? 0) with true. cbv iota. rewrite (run_print _ _ _ _ _ _ (printf_cat_missing p)). done.
Qed.
Lemma cat_prints_witness :
  run (cat_main 2 [[97]; [98]]) (World {[ [97] := Fnode 2 7 [104; 105] ]} (replicate 16 None) [] [] []) =
    (World {[ [97] := Fnode 2 7 [104; 105] ]} (replicate 16 None) [] ([104; 105] ++ bytes_of_string "cat: cannot open b
") [], true).
Proof.
  assert (forall p nd, ({[ [97] := Fnode 2 7 [104; 105] ]} : gmap (list Z) fnode) !! p = Some nd -> (length (n_data nd) + 512 <= 512 * 2)%nat) as Hf.
  { intros p nd [<- <-]%lookup_singleton_Some. cbn. lia. }
  exact (cat_prints 2 [[97]; [98]] (World {[ [97] := Fnode 2 7 [104; 105] ]} (replicate 16 None) [] [] []) 0 eq_refl ltac:(discriminate) Hf).
Defined.

(** ** Listing a directory *)

Lemma lowest_moved w fd d d' o : at_fd w fd = Some d -> lowest (fds (moved w fd (Some d') o)) = lowest (fds w).
Proof.
  unfold at_fd, moved. rsimpl. destruct (fd <? 0); [done|]. generalize (Z.to_nat fd). induction (fds w) as [|x t IH]; intros [|n] H; cbn in *; try done.
  - by destruct x.
  - destruct x; [|done]. by rewrite IH.
Qed.
Lemma run_stat w q k m : lowest (fds w) = Some m -> run (stat q k) w = run (k (status <$> nodes w !! q)) w.
Proof.
  intros Hm. unfold stat. destruct (nodes w !! q) as [nd|] eqn:E; [|by rewrite run_open_missing].
  destruct (run_open w q nd m (fun fd => if fd <? 0 then k None else Fstat fd (fun r => Close fd (k r))) E Hm) as (-> & Ea & En).
  rewrite (proj2 (Z.ltb_ge _ _)) by lia. cbn [run]. rewrite Ea, En, E. f_equal. rewrite Nat2Z.id. apply lowest_lookup in Hm. destruct w. unfold upd. cbn in *.
  rewrite list_insert_insert_eq. by rewrite list_insert_id.
Qed.
Lemma printf_entry path st : printf "%s %d %d %d
" [A_text (Ls.fmtname path); A_int (s_type st); A_int (s_ino st); A_int (s_size st)] =
  Some (Ls.fmtname path ++ [32] ++ printint (s32 (s_type st)) 10 1 ++ [32] ++ printint (s32 (s_ino st)) 10 1 ++ [32] ++ printint (s32 (s_size st)) 10 1 ++ [10]).
Proof.
  unfold printf. assert (bytes_of_string "%s %d %d %d
" = [37; 115; 32; 37; 100; 32; 37; 100; 32; 37; 100; 10]) as -> by reflexivity.
  cbn [printf_loop negb Z.eqb Pos.eqb next_int next_str mbind option_bind orb default A_text]. reflexivity.
Qed.
(** The line for the file at [path], as ls has it. *)
Definition ls_line (path : list Z) (nd : fnode) : list Z :=
  Ls.fmtname path ++ [32] ++ printint (s32 (n_type nd)) 10 1 ++ [32] ++ printint (s32 (n_ino nd)) 10 1 ++ [32] ++
  printint (s32 (Z.of_nat (length (n_data nd)))) 10 1 ++ [10].
Lemma run_entry path nd k w : run (print_entry path (status nd) k) w = run k (put 1 (ls_line path nd) w).
Proof. unfold print_entry. rewrite (run_print _ _ _ _ _ _ (printf_entry path (status nd))). done. Qed.

(** The first [n] entries of a directory, and what is printed for one: nothing when it is
    free. *)
Fixpoint entries (n : nat) (l : list Z) : list (list Z) :=
  match n with O => [] | S n => take 16 l :: entries n (drop 16 l) end.
Definition entry_out (f : gmap (list Z) fnode) (buf de : list Z) : list Z :=
  if le16 de 0 =? 0 then []
  else
    let path := buf ++ c_string (drop 2 de) in
    match f !! path with
    | Some nd => ls_line path nd
    | None => bytes_of_string "ls: cannot stat " ++ path ++ [10]
    end.
Lemma printf_ls_stat p : printf "ls: cannot stat %s
" [A_text p] = Some (bytes_of_string "ls: cannot stat " ++ p ++ [10]).
Proof. reflexivity. Qed.
Lemma put1_moved fd d o s w : put 1 s (moved w fd d o) = moved w fd d (o ++ s).
Proof. unfold put, moved. cbn [Z.eqb Pos.eqb]. destruct w. unfold upd. cbn. by rewrite app_assoc. Qed.

Lemma run_ls_entries n fuel fd p off nd buf k w m :
  at_fd w fd = Some (At p off) -> nodes w !! p = Some nd -> lowest (fds w) = Some m ->
  (16 * n <= length (n_data nd) - off < 16 * n + 16)%nat -> (n < fuel)%nat ->
  exists off', run (ls_entries fuel fd buf k) w = run k (moved w fd (Some (At p off')) (concat (map (entry_out (nodes w) buf) (entries n (drop off (n_data nd)))))).
Proof.
  revert fuel off w. induction n as [|n IH]; intros fuel off w E1 E2 Hm Hn Hf; (destruct fuel as [|fuel]; [lia|]); cbn [ls_entries]; rewrite (run_read w fd p off nd) by done; cbv zeta;
    change (Z.to_nat 16) with 16%nat; set (c := take 16 (drop off (n_data nd))); assert (length c = Nat.min 16 (length (n_data nd) - off)) as Hc by (unfold c; rewrite length_take, length_drop; done).
  - rewrite (proj2 (Nat.eqb_neq _ _)) by lia. cbn [negb]. by exists (off + length c)%nat.
  - rewrite (proj2 (Nat.eqb_eq _ _)) by lia. cbn [negb entries map concat]. fold c. rewrite drop_drop. assert (length c = 16%nat) as H16 by lia. rewrite H16.
    set (w1 := moved w fd (Some (At p (off + 16))) []). assert (lowest (fds w1) = Some m) as Hm1 by (unfold w1; by erewrite lowest_moved).
    assert (forall o, exists off', run (ls_entries fuel fd buf k) (moved w fd (Some (At p (off + 16))) o) =
      run k (moved w fd (Some (At p off')) (o ++ concat (map (entry_out (nodes w) buf) (entries n (drop (off + 16) (n_data nd))))))) as Hgo.
    { intros o. destruct (IH fuel (off + 16)%nat (moved w fd (Some (At p (off + 16))) o)) as [off' ->]; [by eapply at_fd_moved|done|by erewrite lowest_moved|lia|lia|].
      exists off'. by rewrite moved_moved. }
    unfold entry_out at 1. destruct (le16 c 0 =? 0); [exact (Hgo [])|]. rewrite (run_stat w1 _ _ m) by done. change (nodes w1) with (nodes w).
    destruct (nodes w !! (buf ++ c_string (drop 2 c))) as [nd'|]; cbn [fmap option_fmap option_map].
    + rewrite run_entry. unfold w1. rewrite put1_moved. apply Hgo.
    + rewrite (run_print _ _ _ _ _ _ (printf_ls_stat _)). unfold w1. rewrite put1_moved. apply Hgo.
Qed.

(** What ls prints on its standard output for [path]. *)
Definition ls_out (f : gmap (list Z) fnode) (path : list Z) : list Z :=
  match f !! path with
  | None => []
  | Some nd =>
      if n_type nd =? T_FILE then ls_line path nd
      else if n_type nd =? T_DIR then
        if 512 <? Z.of_nat (length path) + 16 then bytes_of_string "ls: path too long" ++ [10]
        else concat (map (entry_out f (path ++ [47])) (entries (length (n_data nd) / 16) (n_data nd)))
      else []
  end.
Definition ls_err (f : gmap (list Z) fnode) (path : list Z) : list Z :=
  match f !! path with None => bytes_of_string "ls: cannot open " ++ path ++ [10] | Some _ => [] end.
Definition outs (w : world) (o e : list Z) : world := w <| out1 ::= fun x => x ++ o |> <| out2 ::= fun x => x ++ e |>.
Lemma printf_ls_open p : printf "ls: cannot open %s
" [A_text p] = Some (bytes_of_string "ls: cannot open " ++ p ++ [10]).
Proof. reflexivity. Qed.
Lemma outs_nil w o : outs w o [] = w <| out1 ::= fun x => x ++ o |>.
Proof. unfold outs. destruct w. unfold upd. cbn. by rewrite app_nil_r. Qed.
Lemma outs_outs w o e o' e' : outs (outs w o e) o' e' = outs w (o ++ o') (e ++ e').
Proof. unfold outs. destruct w. unfold upd. cbn. by rewrite !app_assoc. Qed.
Lemma run_fstat w fd p off k : at_fd w fd = Some (At p off) -> run (Fstat fd k) w = run (k (status <$> nodes w !! p)) w.
Proof. intros E. cbn [run]. by rewrite E. Qed.
(** Two descriptors are free. *)
Definition two_free (t : list (option fdesc)) : Prop :=
  exists n m, lowest t = Some n /\ forall d, lowest (<[n := Some d]> t) = Some m.
Lemma run_ls fuel path k w :
  two_free (fds w) -> (forall nd, nodes w !! path = Some nd -> length (n_data nd) < 16 * fuel)%nat ->
  run (ls fuel path k) w = run k (outs w (ls_out (nodes w) path) (ls_err (nodes w) path)).
Proof.
  intros (n & m & Hn & Hm) Hf. unfold ls, ls_out, ls_err. set (kk := fun fd : Z => if fd <? 0 then _ else _). destruct (nodes w !! path) as [nd|] eqn:E.
  2: { rewrite run_open_missing by done. unfold kk. change (-1 <? 0) with true. cbv iota. rewrite (run_print _ _ _ _ _ _ (printf_ls_open _)). f_equal. unfold put, outs. cbn [Z.eqb Pos.eqb]. destruct w. unfold upd. cbn. by rewrite app_nil_r. }
  destruct (run_open w path nd n kk E Hn) as (-> & Ea & En). unfold kk. rewrite (proj2 (Z.ltb_ge _ _)) by lia. rewrite (run_fstat _ _ _ _ _ Ea), En, E. cbn [fmap option_fmap option_map].
  set (w1 := w <| fds ::= _ |>) in *. rewrite outs_nil. cbn [status s_type]. specialize (Hf nd eq_refl).
  assert (w1 = moved w1 (Z.of_nat n) (Some (At path 0)) []) as Ew1 by (unfold w1, moved; destruct w; unfold upd; cbn; by rewrite Nat2Z.id, list_insert_insert_eq, app_nil_r).
  destruct (n_type nd =? T_FILE).
  { rewrite run_entry. cbn [run]. rewrite Ew1, put1_moved. unfold w1. by rewrite close_moved. }
  destruct (n_type nd =? T_DIR).
  - replace (Z.of_nat (length path) + 1 + 14 + 1) with (Z.of_nat (length path) + 16) by lia. destruct (512 <? Z.of_nat (length path) + 16).
    + assert (printf "ls: path too long
" [] = Some (bytes_of_string "ls: path too long" ++ [10])) as Ep by reflexivity. rewrite (run_print _ _ _ _ _ _ Ep). cbn [run]. rewrite Ew1, put1_moved. unfold w1. by rewrite close_moved.
    + destruct (run_ls_entries (length (n_data nd) / 16) fuel (Z.of_nat n) path 0 nd (path ++ [47]) (Close (Z.of_nat n) k) w1 m) as [off' ->].
      * done.
      * by rewrite En.
      * unfold w1. rsimpl. apply Hm.
      * pose proof (Nat.div_mod (length (n_data nd)) 16). pose proof (Nat.mod_upper_bound (length (n_data nd)) 16). lia.
      * apply Nat.Div0.div_lt_upper_bound. lia.
      * rewrite En. cbn [run]. unfold w1. by rewrite close_moved.
  - cbn [run]. rewrite Ew1. unfold w1. by rewrite close_moved.
Qed.
(** ls, for every path it is given, prints a line with name, type, number and size for
    a file, and for a directory such a line for every entry in use, in order, with a
    message for one that leads nowhere; a path it cannot open is an error message. It
    leaves no descriptor open, and goes on with the next path. *)
Theorem ls_prints (fuel : nat) (argv : list (list Z)) (w : world)
  (Hd : two_free (fds w)) (Hf : forall p nd, nodes w !! p = Some nd -> (length (n_data nd) < 16 * fuel)%nat) :
  let paths := if argv is [] then [[46]] else argv in
  run (ls_main fuel argv) w = (outs w (concat (map (ls_out (nodes w)) paths)) (concat (map (ls_err (nodes w)) paths)), true).
Proof.
  assert (forall l w, two_free (fds w) -> (forall p nd, nodes w !! p = Some nd -> (length (n_data nd) < 16 * fuel)%nat) ->
    run (ls_paths fuel l) w = (outs w (concat (map (ls_out (nodes w)) l)) (concat (map (ls_err (nodes w)) l)), true)) as Hl.
  { clear. intros l. induction l as [|p l IH]; intros w Hd Hf; cbn [ls_paths map concat].
    - cbn [run]. by rewrite outs_nil, out1_nil.
    - rewrite run_ls by (done || by apply Hf). rewrite IH; [|done..]. by rewrite outs_outs. }
  destruct argv as [|a argv]; cbv zeta; [|by apply Hl]. cbn [ls_main]. rewrite run_ls by (done || by apply Hf). cbn [run map concat]. by rewrite !app_nil_r.
Qed.
Definition ls_files : gmap (list Z) fnode :=
  {[ [46] := Fnode 1 1 (([1; 0; 46] ++ replicate 13 0) ++ ([0; 0; 98] ++ replicate 13 0) ++ ([2; 0; 97] ++ replicate 13 0));
     [46; 47; 46] := Fnode 1 1 (replicate 48 0); [46; 47; 97] := Fnode 2 2 [104; 105] ]}.
Lemma ls_prints_witness : (run (ls_main 4 []) (World ls_files (replicate 16 None) [] [] [])).1 =
  World ls_files (replicate 16 None) [] (ls_line [46; 47; 46] (Fnode 1 1 (replicate 48 0)) ++ ls_line [46; 47; 97] (Fnode 2 2 [104; 105])) [].
Proof.
  assert (two_free (replicate 16 None)) as Hd by (exists 0%nat, 1%nat; split; [reflexivity|intros d; reflexivity]).
  assert (forall p nd, ls_files !! p = Some nd -> (length (n_data nd) < 16 * 4)%nat) as Hf.
  { apply (map_Forall_lookup (fun _ nd => (length (n_data nd) < 16 * 4)%nat) ls_files). vm_decide. }
  rewrite (ls_prints 4 [] (World ls_files (replicate 16 None) [] [] []) Hd Hf). vm_compute. reflexivity.
Defined.

(** ** Counting, removing, echoing *)

Definition print_counts (name : list Z) (c : Wc.counts) (k : tool) : tool :=
  print 1 "%d %d %d %s
" [A_int (Wc.lines c); A_int (Wc.words c); A_int (Wc.chars c); A_text name] k.
Lemma run_wc_loop fuel fd p off nd name c k w :
  at_fd w fd = Some (At p off) -> nodes w !! p = Some nd -> (length (n_data nd) <= off + 512 * (fuel - 1))%nat -> (off <= length (n_data nd))%nat -> (0 < fuel)%nat ->
  run (wc_loop fuel fd name c k) w = run (print_counts name (fold_left Wc.count (drop off (n_data nd)) c) k) (moved w fd (Some (At p (length (n_data nd)))) []).
Proof.
  revert off c w. induction fuel as [|fuel IH]; intros off c w E1 E2 Hf Ho H0; [lia|]. cbn [wc_loop]. rewrite (run_read w fd p off nd) by done. cbv zeta.
  change (Z.to_nat 512) with 512%nat. set (s := take 512 (drop off (n_data nd))). assert (length s = Nat.min 512 (length (n_data nd) - off)) as Hs by (unfold s; rewrite length_take, length_drop; done).
  destruct s as [|x s'] eqn:Es.
  - cbn [length] in Hs. rewrite Nat.add_0_r. assert (off = length (n_data nd)) as -> by lia. by rewrite drop_all.
  - rewrite (IH (off + length (x :: s'))%nat).
    + rewrite moved_moved. f_equal. f_equal. rewrite <- (fold_left_app Wc.count). f_equal. rewrite <- drop_drop, Hs, <- Es. unfold s. rewrite <- (take_drop 512 (drop off (n_data nd))) at 3. f_equal.
      destruct (decide (512 <= length (n_data nd) - off)%nat); [by rewrite Nat.min_l by lia|]. rewrite Nat.min_r by lia. rewrite !drop_ge; rewrite ?length_drop; done || lia.
    + by eapply at_fd_moved.
    + done.
    + cbn [length] in *. lia.
    + lia.
    + cbn [length] in *. destruct fuel; lia.
Qed.
(** What wc prints, a line for each file being as [wc_counts] says. *)
Fixpoint wc_out (f : gmap (list Z) fnode) (argv : list (list Z)) : list Z :=
  match argv with
  | [] => []
  | p :: argv =>
      match f !! p with
      | Some nd => default [] (Wc.wc [n_data nd] false p) ++ wc_out f argv
      | None => bytes_of_string "wc: cannot open " ++ p ++ [10]
      end
  end.
Lemma printf_wc_missing p : printf "wc: cannot open %s
" [A_text p] = Some (bytes_of_string "wc: cannot open " ++ p ++ [10]).
Proof. reflexivity. Qed.
(** wc prints the counts of its files in order, and stops with a message at a file it
    cannot open. *)
Theorem wc_prints (fuel : nat) (argv : list (list Z)) (w : world) (n : nat)
  (Hn : lowest (fds w) = Some n) (Ha : argv <> []) (Hf : forall p nd, nodes w !! p = Some nd -> (length (n_data nd) + 512 <= 512 * fuel)%nat) :
  run (wc_main fuel argv) w = (w <| out1 ::= fun x => x ++ wc_out (nodes w) argv |>, true).
Proof.
  assert (wc_main fuel argv = wc_files fuel argv) as -> by (by destruct argv). clear Ha. revert w Hn Hf.
  induction argv as [|p argv IH]; intros w Hn Hf; cbn [wc_files wc_out].
  { cbn [run]. by rewrite out1_nil. }
  set (kk := fun fd : Z => if fd <? 0 then _ else _). destruct (nodes w !! p) as [nd|] eqn:E.
  - destruct (run_open w p nd n kk E Hn) as (-> & Ea & En). unfold kk. rewrite (proj2 (Z.ltb_ge _ _)) by lia. specialize (Hf p nd E) as Hp. unfold wc.
    rewrite (run_wc_loop fuel _ p 0 nd); [|done|by rewrite En|lia..]. unfold print_counts, Wc.wc. cbn [fold_left]. change (drop 0 (n_data nd)) with (n_data nd).
    rewrite printf_counts. cbn [default]. unfold A_text. rewrite (run_print _ _ _ _ _ _ (printf_counts _ _ _ _)). rewrite put1_moved. cbn [run]. rewrite close_moved by done.
    rewrite IH by done. rsimpl. by rewrite out1_app.
  - rewrite run_open_missing by done. unfold kk. change (-1 <? 0) with true. cbv iota. rewrite (run_print _ _ _ _ _ _ (printf_wc_missing p)). done.
Qed.

(** The files that are left after rm, and its message. *)
Fixpoint rm_spec (f : gmap (list Z) fnode) (argv : list (list Z)) : gmap (list Z) fnode * list Z :=
  match argv with
  | [] => (f, [])
  | p :: argv => if f !! p is Some _ then rm_spec (delete p f) argv else (f, bytes_of_string "rm: " ++ p ++ bytes_of_string " failed to delete" ++ [10])
  end.
Lemma printf_rm p : printf "rm: %s failed to delete
" [A_text p] = Some (bytes_of_string "rm: " ++ p ++ bytes_of_string " failed to delete" ++ [10]).
Proof. reflexivity. Qed.
(** rm removes its files in order, and stops with a message at one that is not there. *)
Theorem rm_removes (argv : list (list Z)) (w : world) : argv <> [] ->
  run (rm_main argv) w = (w <| nodes := (rm_spec (nodes w) argv).1 |> <| out2 ::= fun x => x ++ (rm_spec (nodes w) argv).2 |>, true).
Proof.
  intros Ha. assert (rm_main argv = rm_loop argv) as -> by (by destruct argv). clear Ha. revert w.
  induction argv as [|p argv IH]; intros w; cbn [rm_loop rm_spec].
  - destruct w. unfold upd. cbn. by rewrite app_nil_r.
  - destruct (nodes w !! p) as [nd|] eqn:E.
    + cbn [run]. rewrite E. change (0 <? 0) with false. cbv iota. rewrite IH. rsimpl. by destruct w.
    + set (kk := fun r : Z => if r <? 0 then _ else _). assert (run (Unlink p kk) w = run (kk (-1)) w) as -> by (cbn [run]; by rewrite E).
      unfold kk. change (-1 <? 0) with true. cbv iota. rewrite (run_print _ _ _ _ _ _ (printf_rm p)). by destruct w.
Qed.

(** echo prints its arguments with blanks between them, and a newline. *)
Fixpoint echo_out (argv : list (list Z)) : list Z :=
  match argv with [] => [] | [a] => a ++ [10] | a :: argv => a ++ [32] ++ echo_out argv end.
Theorem echo_prints (argv : list (list Z)) (w : world) : run (echo_main argv) w = (w <| out1 ::= fun x => x ++ echo_out argv |>, true).
Proof.
  assert (forall a b, printf "%s%s" [A_text a; A_text b] = Some (a ++ b)) as Ep.
  { intros a b. unfold printf. assert (bytes_of_string "%s%s" = [37; 115; 37; 115]) as -> by reflexivity. cbn [printf_loop negb Z.eqb Pos.eqb next_int next_str mbind option_bind orb default A_text]. by rewrite app_nil_r. }
  revert w. induction argv as [|a argv IH]; intros w; cbn [echo_main]; [cbn [run echo_out]; by rewrite out1_nil|].
  rewrite (run_print _ _ _ _ _ _ (Ep _ _)). rewrite IH. unfold put. cbn [Z.eqb Pos.eqb]. rewrite out1_app. destruct argv as [|b argv]; cbn [echo_out]; [by rewrite app_nil_r|]. by rewrite <- app_assoc.
Qed.
