(* ===== verification/Umalloc.v ===== *)
(** * The memory allocator of user programs (umalloc.c)

    The allocator of Kernighan and Ritchie: the free blocks form a ring of headers
    in the order of their addresses, [free] merges a block with its neighbours and
    [malloc] takes the tail of the first block that is large enough. Addresses are
    counted in headers, that is in units of 8 bytes, as the pointer arithmetic of
    the code does; a header is a pointer and a size. *)
From S2P Require Import Prelude.
From stdpp Require Import sorting.
#[local] Open Scope Z_scope.

(** What the allocator uses of the kernel: whether [sbrk] grants [n] bytes when the
    break is at [b]. The break moves by [n], and user memory ends at KERNBASE,
    0x80000000. *)
Definition TOP : Z := 0x10000000.
Class Sbrk := { granted : Z -> Z -> bool }.
Class SbrkOk (k : Sbrk) : Prop := { granted_top b n : granted b n = true -> 0 < n -> b + n / 8 <= TOP }.

(** ** The code *)

Record heap := Heap {
  h_ptr : gmap Z Z;     (* [s.ptr] of the header at an address *)
  h_size : gmap Z Z;    (* [s.size] *)
  h_freep : Z;
  h_brk : Z;
}.
#[export] Instance heap_eta : Eta heap := {| eta h := Heap (h_ptr h) (h_size h) (h_freep h) (h_brk h) |}.
#[export] Instance heap_upd_ptr : Upd h_ptr.
Proof. field_update h_ptr. Defined.
#[export] Instance heap_upd_size : Upd h_size.
Proof. field_update h_size. Defined.
#[export] Instance heap_upd_freep : Upd h_freep.
Proof. field_update h_freep. Defined.
#[export] Instance heap_upd_brk : Upd h_brk.
Proof. field_update h_brk. Defined.

Definition set_ptr (a v : Z) (h : heap) : heap := h <| h_ptr ::= insert a v |>.
Definition set_size (a v : Z) (h : heap) : heap := h <| h_size ::= insert a v |>.
(** Pointer arithmetic wraps around at the end of the address space. *)
Definition padd (p n : Z) : Z := (p + n) mod (W32 / 8).

Section Code.
Context {k : Sbrk} (base : Z).

(** [for(p = freep; !(bp > p && bp < p->s.ptr); p = p->s.ptr) ...] *)
Fixpoint free_search (fuel : nat) (h : heap) (bp p : Z) : option Z :=
  match fuel with
  | O => None
  | S n =>
      next ← h_ptr h !! p;
      if (p <? bp) && (bp <? next) then Some p
      else if (next <=? p) && ((p <? bp) || (bp <? next)) then Some p
      else free_search n h bp next
  end.
(** A walk around the ring meets no more headers than memory holds. *)
Definition ring_fuel (h : heap) : nat := S (size (h_ptr h)).

(** A block joined to the next one when they touch, or linked to it: done for [bp]
    and the block above, and again for the block below and [bp]. *)
Definition join (b next : Z) (h : heap) : option heap :=
  bsize ← h_size h !! b;
  if padd b bsize =? next then
    nsize ← h_size h !! next;
    nptr ← h_ptr h !! next;
    Some (set_ptr b nptr (set_size b (u32 (bsize + nsize)) h))
  else Some (set_ptr b next h).
(** [free] *)
Definition free (ap : Z) (h : heap) : option heap :=
  let bp := ap - 1 in
  p ← free_search (ring_fuel h) h bp (h_freep h);
  next ← h_ptr h !! p;
  h ← join bp next h;
  h ← join p bp h;
  Some (h <| h_freep := p |>).

(** [sbrk]: the old break, or -1; a break that would become negative stays. *)
Definition sbrk (n : Z) (h : heap) : option Z * heap :=
  if granted (h_brk h) n then
    let b := h_brk h + n / 8 in
    (Some (h_brk h), h <| h_brk := if b <? 0 then h_brk h else b |>)
  else (None, h).
(** [morecore]: 0 when there is no more memory. Writing the header of a block above
    the break is a fault. *)
Definition morecore (nu : Z) (h : heap) : option (Z * heap) :=
  let nu := if nu <? 4096 then 4096 else nu in
  match sbrk (s32 (u32 (nu * 8))) h with
  | (None, h) => Some (0, h)
  | (Some hp, h) =>
      if h_brk h <=? hp then None
      else
        h ← free (hp + 1) (set_size hp nu h);
        Some (h_freep h, h)
  end.

(** [nunits = (nbytes + sizeof(Header) - 1)/sizeof(Header) + 1] *)
Definition units (nbytes : Z) : Z := u32 (u32 (u32 (nbytes + 8) - 1) / 8 + 1).
(** Taking [nunits] from the block at [p]: all of it, or its tail. *)
Definition take_block (nunits psize prevp p : Z) (h : heap) : option (Z * heap) :=
  if psize =? nunits then
    next ← h_ptr h !! p;
    Some (p, set_ptr prevp next h)
  else
    let h := set_size p (psize - nunits) h in
    let q := padd p (psize - nunits) in
    Some (q, set_size q nunits h).
Fixpoint malloc_loop (fuel : nat) (nunits prevp p : Z) (h : heap) : option (Z * heap) :=
  match fuel with
  | O => None
  | S n =>
      psize ← h_size h !! p;
      if nunits <=? psize then
        '(q, h) ← take_block nunits psize prevp p h;
        Some (q + 1, h <| h_freep := prevp |>)
      else if p =? h_freep h then
        '(p, h) ← morecore nunits h;
        if p =? 0 then Some (0, h)
        else next ← h_ptr h !! p; malloc_loop n nunits p next h
      else next ← h_ptr h !! p; malloc_loop n nunits p next h
  end.
(** The first call makes the ring of [base] alone. *)
Definition init_ring (h : heap) : heap :=
  if h_freep h =? 0 then set_size base 0 (set_ptr base base (h <| h_freep := base |>)) else h.
(** [malloc] *)
Definition malloc (nbytes : Z) (h : heap) : option (Z * heap) :=
  let h := init_ring h in
  next ← h_ptr h !! h_freep h;
  malloc_loop (2 * ring_fuel h + 2) (units nbytes) (h_freep h) next h.
End Code.

(** ** The ring of free blocks *)

Abbreviation blk := (Z * Z)%type.
(** [x] lies below [y] and does not touch it; [x] and [y] do not overlap. *)
Definition below (x y : blk) : Prop := 0 <= x.2 /\ x.1 + x.2 < y.1.
Definition apart (x y : blk) : Prop := x.1 + x.2 <= y.1 \/ y.1 + y.2 <= x.1.
Definition in_blk (u : Z) (x : blk) : Prop := x.1 <= u < x.1 + x.2.

Definition hd_addr (l : list blk) (z : Z) : Z := match l with [] => z | (a, _) :: _ => a end.
(** The headers of [l], each linked to the next one and the last one to [z]. *)
Fixpoint links (h : heap) (l : list blk) (z : Z) : Prop :=
  match l with
  | [] => True
  | (a, s) :: l' => h_size h !! a = Some s /\ h_ptr h !! a = Some (hd_addr l' z) /\ links h l' z
  end.
Definition same_at (h h' : heap) (a : Z) : Prop := h_size h' !! a = h_size h !! a /\ h_ptr h' !! a = h_ptr h !! a.

Lemma hd_addr_app l1 l2 z : hd_addr (l1 ++ l2) z = hd_addr l1 (hd_addr l2 z).
Proof. by destruct l1 as [|[]]. Qed.
Lemma ring_links_app h l1 l2 z : links h (l1 ++ l2) z <-> links h l1 (hd_addr l2 z) /\ links h l2 z.
Proof.
  induction l1 as [|[a s] l1 IH]; cbn [app links]; [tauto|]. rewrite IH, hd_addr_app. tauto.
Qed.
Lemma links_frame h h' l z : (forall x, x ∈ l -> same_at h h' x.1) -> links h l z -> links h' l z.
Proof.
  induction l as [|[a s] l IH]; cbn [links]; [done|]. intros Hf (Hs & Hp & Hl).
  destruct (Hf (a, s)) as [E1 E2]; [by left|]. cbn in E1, E2. rewrite E1, E2. split_and!; [done..|].
  apply IH; [|done]. intros x Hx. apply Hf. by right.
Qed.
Lemma links_elem h l z x : links h l z -> x ∈ l -> h_size h !! x.1 = Some x.2 /\ is_Some (h_ptr h !! x.1).
Proof.
  induction l as [|[a s] l IH]; cbn [links]; intros Hl Hx; [by apply not_elem_of_nil in Hx|]. destruct Hl as (Hs & Hp & Hl).
  apply elem_of_cons in Hx as [->|Hx]; [cbn; eauto|auto].
Qed.

(** ** The search of [free] *)

Section Search.
Context (h : heap) (bp p ps : Z) (l2 : list blk) (base : Z).
Hypothesis (Hp : p < bp) (Hl2 : Forall (fun x => bp < x.1) l2) (Hb : base <= p).

Lemma search_here fuel : links h ((p, ps) :: l2) base -> free_search (S fuel) h bp p = Some p.
Proof.
  intros (_ & E & _). cbn [free_search]. rewrite E. cbn [mbind option_bind]. destruct l2 as [|[a s] l]; cbn [hd_addr].
  - destruct (_ && _); [done|]. by replace ((base <=? p) && ((p <? bp) || (bp <? base))) with true by lia.
  - apply Forall_inv in Hl2. cbn in Hl2. by replace ((p <? bp) && (bp <? a)) with true by lia.
Qed.

Lemma search_low l1 fuel :
  StronglySorted below (l1 ++ (p, ps) :: l2) -> links h (l1 ++ (p, ps) :: l2) base -> (length l1 < fuel)%nat ->
  free_search fuel h bp (hd_addr (l1 ++ (p, ps) :: l2) base) = Some p.
Proof.
  revert fuel. induction l1 as [|[a s] l1 IH]; intros fuel Hs Hl Hf; (destruct fuel as [|fuel]; [cbn in Hf; lia|]).
  - by apply search_here.
  - cbn [app] in Hs, Hl. apply StronglySorted_cons in Hs as [Ha Hs]. destruct Hl as (_ & E & Hl). cbn [app hd_addr free_search].
    rewrite E. cbn [mbind option_bind length] in *. specialize (IH fuel Hs Hl ltac:(lia)).
    assert (a < hd_addr (l1 ++ (p, ps) :: l2) base <= p) as Hn.
    { destruct l1 as [|[b t] l1]; cbn [app hd_addr] in *.
      - apply Forall_inv in Ha. unfold below in Ha. cbn in Ha. lia.
      - apply Forall_inv in Ha. unfold below in Ha. cbn in Ha.
        apply StronglySorted_cons in Hs as [Hb' _]. rewrite Forall_app, Forall_cons in Hb'. destruct Hb' as (_ & Hb' & _).
        unfold below in Hb'. cbn in Hb'. lia. }
    replace ((a <? bp) && (bp <? hd_addr (l1 ++ (p, ps) :: l2) base)) with false by lia.
    by replace (hd_addr (l1 ++ (p, ps) :: l2) base <=? a) with false by lia.
Qed.

(** From a block above [bp] the search goes to the end of the ring and on from its start. *)
Lemma search_high l fuel m :
  StronglySorted below l -> Forall (fun x => bp < x.1) l -> links h l base -> l <> [] -> (length l + m <= fuel)%nat ->
  (forall fuel, (m <= fuel)%nat -> free_search fuel h bp base = Some p) ->
  free_search fuel h bp (hd_addr l base) = Some p.
Proof.
  revert fuel. induction l as [|[a s] l IH]; intros fuel Hs Ha Hl Hne Hf Hbase; [done|]. cbn in Hf.
  destruct fuel as [|fuel]; [lia|]. apply StronglySorted_cons in Hs as [Hal Hs]. apply Forall_cons in Ha as [Ha Hal']. cbn in Ha.
  destruct Hl as (_ & E & Hl). cbn [hd_addr free_search]. rewrite E. cbn [mbind option_bind].
  replace (a <? bp) with false by lia. cbn [andb orb]. destruct l as [|[b t] l]; cbn [hd_addr] in *.
  - replace (bp <? base) with false by lia. rewrite andb_false_r. apply Hbase. lia.
  - apply Forall_inv in Hal. unfold below in Hal. cbn in Hal. replace (b <=? a) with false by lia. cbn [andb].
    apply IH; (done || lia).
Qed.
End Search.

Lemma search_finds h bp l1 p ps l2 base q fuel :
  StronglySorted below (l1 ++ (p, ps) :: l2) -> links h (l1 ++ (p, ps) :: l2) base ->
  hd_addr (l1 ++ (p, ps) :: l2) base = base -> base <= p -> p < bp -> Forall (fun x => bp < x.1) l2 ->
  q ∈ (l1 ++ (p, ps) :: l2).*1 -> (length (l1 ++ (p, ps) :: l2) <= fuel)%nat ->
  free_search fuel h bp q = Some p.
Proof.
  intros Hs Hl Hhd Hbp Hp Hl2 Hq Hf. rewrite length_app in Hf. cbn in Hf.
  assert (forall fuel, (S (length l1) <= fuel)%nat -> free_search fuel h bp base = Some p) as Hbase.
  { intros f Hf'. rewrite <- Hhd at 1. eapply search_low; (done || lia). }
  rewrite fmap_app, fmap_cons in Hq. apply elem_of_app in Hq as [Hq|Hq].
  - apply list_elem_of_fmap in Hq as ([a s] & -> & Hq). apply list_elem_of_split in Hq as (u & v & ->).
    rewrite <- app_assoc in Hs, Hl. cbn [app] in Hs, Hl. apply StronglySorted_app_1_r in Hs. apply ring_links_app in Hl as [_ Hl].
    rewrite length_app in Hf. cbn in Hf.
    pose proof (search_low h bp p ps l2 base Hp Hl2 Hbp ((a, s) :: v) fuel Hs Hl) as H. apply H. cbn. lia.
  - cbn [fst] in Hq. apply elem_of_cons in Hq as [->|Hq].
    + apply StronglySorted_app_1_r in Hs. apply ring_links_app in Hl as [_ Hl]. destruct fuel as [|fuel]; [lia|]. by eapply search_here.
    + apply list_elem_of_fmap in Hq as ([a s] & -> & Hq). apply list_elem_of_split in Hq as (u & v & ->).
      rewrite app_comm_cons, app_assoc in Hs, Hl. apply StronglySorted_app_1_r in Hs. apply ring_links_app in Hl as [_ Hl].
      apply Forall_app in Hl2 as [_ Hl2]. rewrite length_app in Hf. cbn in Hf.
      change (free_search fuel h bp (hd_addr ((a, s) :: v) base) = Some p).
      eapply search_high with (m := S (length l1)); try done. cbn. lia.
Qed.

(** ** The invariant *)

Section Heap.
Context {k : Sbrk} {kok : SbrkOk k} (base : Z).

(** [fr] are the free blocks besides [base], [live] the blocks given out. *)
Record inv (h : heap) (fr live : list blk) : Prop := {
  iv_links : links h ((base, 0) :: fr) base;
  iv_sorted : StronglySorted below ((base, 0) :: fr);
  iv_pos : Forall (fun x => 0 < x.2) (fr ++ live);
  iv_in : Forall (fun x => base < x.1 /\ x.1 + x.2 <= h_brk h) (fr ++ live);
  iv_live : Forall (fun x => h_size h !! x.1 = Some x.2) live;
  iv_apart x y : x ∈ fr -> y ∈ live -> apart x y;
  iv_disj : ForallOrdPairs apart live;
  iv_freep : h_freep h ∈ base :: fr.*1;
  iv_base : 0 < base;
  iv_brk : base < h_brk h <= TOP;
}.

(** Where a new block belongs. *)
Lemma place fr bp : StronglySorted below ((base, 0) :: fr) -> base < bp -> (forall x, x ∈ fr -> x.1 <> bp) ->
  exists l1 p ps l2, (base, 0) :: fr = l1 ++ (p, ps) :: l2 /\ p < bp /\ Forall (fun x => bp < x.1) l2 /\
    (forall x, x ∈ l1 -> x.1 < p).
Proof.
  induction fr as [|[a s] fr IH] using rev_ind; intros Hs Hb Hne.
  - exists [], base, 0, []. split_and!; [done..|]. by intros x Hx%not_elem_of_nil.
  - destruct (decide (a < bp)).
    + exists ((base, 0) :: fr), a, s, []. split_and!; [done..|]. intros x Hx.
      rewrite app_comm_cons in Hs. pose proof (StronglySorted_app_1_elem_of _ _ _ x (a, s) Hs Hx ltac:(by left)) as H.
      unfold below in H. cbn in H. lia.
    + rewrite app_comm_cons in Hs. destruct IH as (l1 & p & ps & l2 & E & Hp & Hl2 & Hl1).
      { by eapply StronglySorted_app_1_l. } { done. } { intros x Hx. apply Hne. apply elem_of_app. by left. }
      exists l1, p, ps, (l2 ++ [(a, s)]). rewrite app_comm_cons, E. split_and!; [by rewrite <- app_assoc|done| |done].
      apply Forall_app. split; [done|]. constructor; [|done]. cbn. specialize (Hne (a, s)). cbn in Hne.
      assert ((a, s) ∈ fr ++ [(a, s)]) by (apply elem_of_app; right; by left). specialize (Hne ltac:(done)). lia.
Qed.

Lemma same_refl h a : same_at h h a.
Proof. done. Qed.
Lemma same_trans h h1 h2 a : same_at h h1 a -> same_at h1 h2 a -> same_at h h2 a.
Proof. unfold same_at. intros [-> ->] [-> ->]. done. Qed.
Lemma same_ptr h b v a : a <> b -> same_at h (set_ptr b v h) a.
Proof. intros Hn. unfold same_at, set_ptr. rsimpl. by rewrite lookup_insert_ne. Qed.
Lemma same_size h b v a : a <> b -> same_at h (set_size b v h) a.
Proof. intros Hn. unfold same_at, set_size. rsimpl. by rewrite lookup_insert_ne. Qed.
Lemma ptr_set_ptr h b v : h_ptr (set_ptr b v h) !! b = Some v.
Proof. unfold set_ptr. rsimpl. apply lookup_insert_eq. Qed.
Lemma size_set_ptr h b v : h_size (set_ptr b v h) = h_size h.
Proof. done. Qed.
Lemma size_set_size h b v : h_size (set_size b v h) !! b = Some v.
Proof. unfold set_size. rsimpl. apply lookup_insert_eq. Qed.

Definition only_at (b : Z) (h h' : heap) : Prop :=
  h_freep h' = h_freep h /\ h_brk h' = h_brk h /\ forall a, a <> b -> same_at h h' a.

(** A block merged with the next one of the list, or linked to it. *)
Definition joined (b bs : Z) (l : list blk) : list blk :=
  match l with
  | (a, s) :: l' => if b + bs =? a then (b, bs + s) :: l' else (b, bs) :: l
  | [] => [(b, bs)]
  end.
Lemma join_run h b bs l z :
  h_size h !! b = Some bs -> links h l z -> 0 <= b -> 0 <= bs -> Forall (fun x => b < x.1 /\ 0 <= x.2 /\ x.1 + x.2 <= TOP) l ->
  b + bs <= TOP -> b + bs <> z \/ l <> [] ->
  exists h', join b (hd_addr l z) h = Some h' /\ links h' (joined b bs l) z /\ only_at b h h'.
Proof.
  intros Hbs Hl Hb0 Hbs0 Hin Htop Hz. unfold TOP in *. unfold join, joined. rewrite Hbs. cbn [mbind option_bind].
  assert (padd b bs = b + bs) as -> by (unfold padd; change (W32 / 8) with 536870912; apply Z.mod_small; lia).
  destruct l as [|[a s] l]; cbn [hd_addr] in *.
  { rewrite (proj2 (Z.eqb_neq _ _)) by (destruct Hz; done). eexists. split; [done|]. split.
    - cbn. rewrite ptr_set_ptr, size_set_ptr. done.
    - split_and!; [done..|]. intros. by apply same_ptr. }
  apply Forall_cons in Hin as [Ha Hin]. cbn in Ha. destruct Hl as (Hs & Hp & Hl). destruct (Z.eqb_spec (b + bs) a) as [<-|Hne].
  - rewrite Hs, Hp. cbn [mbind option_bind]. rewrite u32_small by lia. eexists. split; [done|].
    assert (forall x, x <> b -> same_at h (set_ptr b (hd_addr l z) (set_size b (bs + s) h)) x) as Hsame.
    { intros x Hx. eapply same_trans; [by apply (same_size h b (bs + s))|by apply same_ptr]. }
    split; [|split_and!; done]. cbn [links]. rewrite ptr_set_ptr, size_set_ptr, size_set_size. split_and!; [done..|].
    eapply links_frame; [|exact Hl]. intros x Hx. apply Hsame. rewrite Forall_forall in Hin. specialize (Hin x Hx). lia.
  - eexists. split; [done|]. split; [|split_and!; [done..|]; intros; by apply same_ptr]. cbn [links hd_addr].
    rewrite ptr_set_ptr, size_set_ptr. split_and!; [done..| | |].
    + done.
    + unfold set_ptr. rsimpl. rewrite lookup_insert_ne by lia. done.
    + eapply links_frame; [|exact Hl]. intros x Hx. apply same_ptr. rewrite Forall_forall in Hin. specialize (Hin x Hx). lia.
Qed.

Definition covered (u : Z) (l : list blk) : Prop := exists x, x ∈ l /\ in_blk u x.

Lemma hd_joined b bs l z : hd_addr (joined b bs l) z = b.
Proof. unfold joined. destruct l as [|[a s] l]; [done|]. by destruct (_ =? _). Qed.
Lemma elem_joined b bs l x : x ∈ joined b bs l ->
  x = (b, bs) \/ (exists s, (b + bs, s) ∈ l /\ x = (b, bs + s)) \/ x ∈ l.
Proof.
  unfold joined. destruct l as [|[a s] l]; [intros ->%list_elem_of_singleton; by left|].
  destruct (Z.eqb_spec (b + bs) a) as [<-|]; intros [->|Hx]%elem_of_cons; auto.
  - right. left. exists s. split; [by left|done].
  - right. right. by right.
Qed.
Lemma joined_covers b bs l u : 0 <= bs -> Forall (fun x => 0 <= x.2) l ->
  covered u (joined b bs l) <-> in_blk u (b, bs) \/ covered u l.
Proof.
  intros Hbs Hl. unfold joined, covered. destruct l as [|[a s] l].
  { split; [intros (x & ->%list_elem_of_singleton & Hu); by left|]. intros [Hu|(x & Hx & _)]; [|by apply not_elem_of_nil in Hx].
    exists (b, bs). split; [by left|done]. }
  apply Forall_inv in Hl. cbn in Hl. destruct (Z.eqb_spec (b + bs) a) as [<-|]; setoid_rewrite elem_of_cons; unfold in_blk; cbn; split.
  - intros (x & [->|Hx] & Hu); [cbn in Hu; destruct (decide (u < b + bs)); [left; lia|right; exists (b + bs, s); cbn; split; [by left|lia]]|right; eauto].
  - intros [Hu|(x & [->|Hx] & Hu)]; [exists (b, bs + s); cbn; split; [by left|lia]| |eauto].
    cbn in Hu. exists (b, bs + s). cbn. split; [by left|lia].
  - intros (x & [->|Hx] & Hu); [left; exact Hu|right]. exists x. by rewrite elem_of_cons in Hx.
  - intros [Hu|(x & Hx & Hu)]; [exists (b, bs); cbn; split; [by left|lia]|]. exists x. rewrite elem_of_cons. auto.
Qed.
Lemma joined_sorted b bs l : StronglySorted below l -> Forall (fun x => b + bs <= x.1 /\ 0 <= x.2) l -> 0 <= bs ->
  StronglySorted below (joined b bs l).
Proof.
  intros Hs Hl Hbs. unfold joined. destruct l as [|[a s] l]; [by repeat constructor|].
  apply StronglySorted_cons in Hs as [Ha Hs]. apply Forall_cons in Hl as [Hal Hl]. cbn in Hal. unfold below in Ha. cbn in Ha.
  destruct (Z.eqb_spec (b + bs) a) as [<-|Hne]; repeat (apply StronglySorted_cons; split); try done.
  - eapply Forall_impl; [exact Ha|]. unfold below. cbn. intros x. lia.
  - constructor; [unfold below; cbn; lia|]. eapply Forall_impl; [exact Ha|]. unfold below. cbn. intros x. lia.
Qed.
Lemma joined_apart b bs l y : apart (b, bs) y -> (forall x, x ∈ l -> apart x y) -> 0 < y.2 ->
  forall x, x ∈ joined b bs l -> apart x y.
Proof.
  intros Hb Hl Hy x [->|[(s & Hs & ->)|Hx]]%elem_joined; [done| |auto]. specialize (Hl _ Hs). unfold apart in *. cbn in *. lia.
Qed.

Lemma sorted_nodup l : StronglySorted below l -> NoDup l.*1.
Proof.
  induction l as [|[a s] l IH]; [constructor|]. intros [Ha Hs]%StronglySorted_cons. cbn. constructor; [|auto].
  intros (y & E & Hy)%list_elem_of_fmap. rewrite Forall_forall in Ha. specialize (Ha y Hy). unfold below in Ha. cbn in *. lia.
Qed.
Lemma ring_bound h l z : links h l z -> StronglySorted below l -> (length l < ring_fuel h)%nat.
Proof.
  intros Hl Hs. unfold ring_fuel. enough (length l <= size (h_ptr h))%nat by lia.
  rewrite <- (size_dom (D := gset Z)), <- (length_fmap fst l), <- (size_list_to_set (C := gset Z)) by by apply sorted_nodup.
  apply subseteq_size. intros a. rewrite elem_of_list_to_set, elem_of_dom. intros (x & -> & Hx)%list_elem_of_fmap.
  by eapply links_elem.
Qed.

Lemma inv_sizes h fr live : inv h fr live -> Forall (fun x => base <= x.1 /\ 0 <= x.2 /\ x.1 + x.2 <= TOP) ((base, 0) :: fr).
Proof.
  intros Hi. destruct (iv_brk _ _ _ Hi) as [Hb Ht]. constructor; [cbn; lia|]. apply Forall_forall. intros x Hx.
  pose proof (proj1 (Forall_app _ _ _) (iv_in _ _ _ Hi)) as [H1 _]. pose proof (proj1 (Forall_app _ _ _) (iv_pos _ _ _ Hi)) as [H2 _].
  rewrite Forall_forall in H1, H2. specialize (H1 x Hx). specialize (H2 x Hx). cbn in *. lia.
Qed.

Lemma covered_cons u x l : covered u (x :: l) <-> in_blk u x \/ covered u l.
Proof.
  unfold covered. split.
  - intros (y & [->|Hy]%elem_of_cons & Hu); eauto.
  - intros [Hu|(y & Hy & Hu)]; [exists x|exists y]; rewrite elem_of_cons; auto.
Qed.
Lemma covered_app u a b : covered u (a ++ b) <-> covered u a \/ covered u b.
Proof.
  induction a as [|x a IH]; cbn [app]; [|rewrite !covered_cons, IH; tauto]. split; [by right|].
  intros [(y & Hy & _)|]; [by apply not_elem_of_nil in Hy|done].
Qed.

(** The new ring, whatever was merged. *)
Lemma ring_rebuild l1 p ps l2 bp bs fr :
  (base, 0) :: fr = l1 ++ (p, ps) :: l2 -> StronglySorted below ((base, 0) :: fr) -> Forall (fun x => 0 <= x.2) ((base, 0) :: fr) ->
  base < bp -> 0 < bs -> p + ps <= bp -> Forall (fun x => bp + bs <= x.1) l2 ->
  exists fr', l1 ++ joined p ps (joined bp bs l2) = (base, 0) :: fr' /\ StronglySorted below ((base, 0) :: fr') /\
    forall u, covered u fr' <-> covered u fr \/ in_blk u (bp, bs).
Proof.
  intros E Hs Hn Hb Hbs Hp Hl2. rewrite E in Hs, Hn. apply Forall_app in Hn as [Hn1 [Hn2 Hn3]%Forall_cons]. cbn in Hn2.
  apply StronglySorted_app in Hs as (Hx & Hs1 & [Hps Hs2]%StronglySorted_cons).
  assert (StronglySorted below (joined bp bs l2)) as Hj.
  { apply joined_sorted; [done| |lia]. apply Forall_and. by split. }
  assert (Forall (fun x => 0 <= x.2) (joined bp bs l2)) as Hj0.
  { apply Forall_forall. intros x [->|[(s & Hin & ->)|Hin]]%elem_joined; cbn; [lia| |by eapply Forall_forall in Hn3].
    eapply Forall_forall in Hn3; [|exact Hin]. cbn in Hn3. lia. }
  assert (Forall (fun x => bp <= x.1) (joined bp bs l2)) as Hlo.
  { apply Forall_forall. intros x [->|[(s & Hin & ->)|Hin]]%elem_joined; cbn; [lia..|]. eapply Forall_forall in Hl2; [|exact Hin]. cbn in Hl2. lia. }
  assert (StronglySorted below (joined p ps (joined bp bs l2))) as Hjj.
  { apply joined_sorted; [done| |done]. apply Forall_and. split; [|done]. eapply Forall_impl; [exact Hlo|]. cbn. lia. }
  assert (StronglySorted below (l1 ++ joined p ps (joined bp bs l2))) as Hss.
  { apply StronglySorted_app_2; [|done..]. intros x y Hx1 Hy. pose proof (Hx x (p, ps) Hx1 ltac:(by left)) as Hxp.
    assert (p <= y.1); [|unfold below in *; cbn in *; lia].
    apply elem_joined in Hy as [->|[(s & _ & ->)|Hy]]; cbn; [lia..|]. eapply Forall_forall in Hlo; [|exact Hy]. cbn in Hlo. lia. }
  assert (forall u, covered u (l1 ++ joined p ps (joined bp bs l2)) <-> covered u ((base, 0) :: fr) \/ in_blk u (bp, bs)) as Hcov.
  { intros u. rewrite E, !covered_app, covered_cons, joined_covers, joined_covers by (done || lia). tauto. }
  assert (exists fr', l1 ++ joined p ps (joined bp bs l2) = (base, 0) :: fr') as [fr' E'].
  { destruct l1 as [|b l1]; [|injection E as <- _; by eexists]. injection E as <- <- <-. cbn [app].
    unfold joined at 1. destruct (joined bp bs fr) as [|[a s] l] eqn:Ej; [by eexists|].
    apply Forall_inv in Hlo. cbn in Hlo. rewrite (proj2 (Z.eqb_neq _ _)) by lia. by eexists. }
  exists fr'. rewrite E' in *. split_and!; [done..|]. intros u. specialize (Hcov u). rewrite !covered_cons in Hcov.
  unfold in_blk in *. cbn in *. split; intros Hu; destruct Hcov as [H1 H2]; [destruct (H1 ltac:(tauto)); intuition lia|].
  destruct (H2 ltac:(tauto)); intuition lia.
Qed.

(** ** [free] *)

(** Where a live block lies in the ring. *)
Lemma place_live h fr live bp bs : inv h fr ((bp, bs) :: live) ->
  exists l1 p ps l2, (base, 0) :: fr = l1 ++ (p, ps) :: l2 /\ base <= p < bp /\ p + ps <= bp /\
    Forall (fun x => bp + bs <= x.1) l2 /\ (forall x, x ∈ l1 -> x.1 < p).
Proof.
  intros Hi. pose proof (iv_pos _ _ _ Hi) as Hpos. pose proof (iv_in _ _ _ Hi) as Hin. rewrite Forall_app, Forall_cons in Hpos, Hin.
  destruct Hpos as (Hf & Hb & _), Hin as (Hfi & Hbi & _). cbn in Hb, Hbi. rewrite Forall_forall in Hf, Hfi.
  assert (forall x, x ∈ fr -> apart x (bp, bs)) as Hap by (intros x Hx; apply (iv_apart _ _ _ Hi); [done|by left]).
  destruct (place fr bp (iv_sorted _ _ _ Hi)) as (l1 & p & ps & l2 & E & Hp & Hl2 & Hl1); [lia| |].
  { intros x Hx. specialize (Hap x Hx). specialize (Hf x Hx). unfold apart in Hap. cbn in *. lia. }
  assert (forall x, x ∈ (base, 0) :: fr -> x = (base, 0) \/ x ∈ fr) as Hcase by (by intros x ?%elem_of_cons).
  exists l1, p, ps, l2. rewrite Forall_forall in Hl2. rewrite E in Hcase. split_and!; [done| |done| | |done].
  - destruct (Hcase (p, ps)) as [[= -> ->]|Hx]; [apply elem_of_app; right; by left|lia|]. specialize (Hfi _ Hx). cbn in Hfi. lia.
  - destruct (Hcase (p, ps)) as [[= -> ->]|Hx]; [apply elem_of_app; right; by left|lia|]. specialize (Hap _ Hx). unfold apart in Hap. cbn in Hap. lia.
  - apply Forall_forall. intros x Hx. specialize (Hl2 x Hx). destruct (Hcase x) as [->|Hx']; [apply elem_of_app; right; by right|cbn in *; lia|].
    specialize (Hap _ Hx'). specialize (Hf _ Hx'). unfold apart in Hap. cbn in *. lia.
Qed.

(** What the two joins do to the ring around the block. *)
Lemma joins_run h fr live bp bs l1 p ps l2 :
  inv h fr ((bp, bs) :: live) -> (base, 0) :: fr = l1 ++ (p, ps) :: l2 -> base <= p < bp -> p + ps <= bp ->
  Forall (fun x => bp + bs <= x.1) l2 -> (forall x, x ∈ l1 -> x.1 < p) ->
  exists h', (h ← join bp (hd_addr l2 base) h; join p bp h) = Some h' /\
    links h' (l1 ++ joined p ps (joined bp bs l2)) base /\ h_brk h' = h_brk h /\
    (forall a, a <> p -> a <> bp -> same_at h h' a).
Proof.
  intros Hi E Hp Hpb Hl2 Hl1. pose proof (inv_sizes _ _ _ Hi) as Hsz. rewrite E, Forall_app, Forall_cons in Hsz. destruct Hsz as (_ & Hps & Hs2).
  pose proof (iv_links _ _ _ Hi) as Hl. rewrite E in Hl. apply ring_links_app in Hl as [Hla Hlb]. cbn [hd_addr links] in Hla, Hlb. destruct Hlb as (Hsp & _ & Hlb).
  pose proof (iv_pos _ _ _ Hi) as Hpos. pose proof (iv_in _ _ _ Hi) as Hin. rewrite Forall_app, Forall_cons in Hpos, Hin.
  destruct Hpos as (_ & Hb & _), Hin as (_ & Hbi & _). pose proof (iv_brk _ _ _ Hi) as Hbrk. pose proof (iv_base _ _ _ Hi) as Hb0. cbn in Hb, Hbi, Hps.
  pose proof (Forall_inv (iv_live _ _ _ Hi)) as Hszb. cbn in Hszb.
  assert (Forall (fun x => bp < x.1 /\ 0 <= x.2 /\ x.1 + x.2 <= TOP) l2) as Hl2b.
  { apply Forall_forall. intros x Hx. rewrite Forall_forall in Hl2, Hs2. specialize (Hl2 x Hx). specialize (Hs2 x Hx). cbn in *. lia. }
  destruct (join_run h bp bs l2 base Hszb Hlb) as (h1 & E1 & Hk1 & Hf1 & Hr1 & Ho1); [lia|lia|done|lia|left; lia|].
  destruct (join_run h1 p ps (joined bp bs l2) base) as (h2 & E2 & Hk2 & Hf2 & Hr2 & Ho2); [|exact Hk1|lia|lia| |lia| |].
  { destruct (Ho1 p ltac:(lia)) as [-> _]. done. }
  { apply Forall_forall. intros x [->|[(s & Hin & ->)|Hx]]%elem_joined; cbn; [lia| |].
    - eapply Forall_forall in Hl2b; [|exact Hin]. cbn in Hl2b. lia.
    - eapply Forall_forall in Hl2b; [|exact Hx]. cbn in Hl2b. lia. }
  { right. intros En. apply (f_equal (fun l => hd_addr l 0)) in En. rewrite hd_joined in En. cbn in En. lia. }
  rewrite hd_joined in E2. exists h2. rewrite E1. cbn [mbind option_bind]. split_and!; [done| |congruence|].
  - apply ring_links_app. split; [|done]. rewrite hd_joined. eapply links_frame; [|exact Hla]. intros x Hx. specialize (Hl1 x Hx).
    eapply same_trans; [apply Ho1; lia|apply Ho2; lia].
  - intros a Ha1 Ha2. eapply same_trans; [by apply Ho1|by apply Ho2].
Qed.

Lemma joined_Forall (R : blk -> Prop) b bs l :
  R (b, bs) -> (forall s, (b + bs, s) ∈ l -> R (b, bs + s)) -> Forall R l -> Forall R (joined b bs l).
Proof.
  intros H1 H2 Hl. apply Forall_forall. intros x [->|[(s & Hs & ->)|Hx]]%elem_joined; [done|auto|]. by eapply Forall_forall in Hl.
Qed.

(** A block that may be in the ring while [live] is given out. *)
Definition good (brk : Z) (live : list blk) (x : blk) : Prop :=
  0 < x.2 /\ x.1 + x.2 <= brk /\ forall y, y ∈ live -> apart x y.
Lemma good_merge brk live b bs s : Forall (fun y => 0 < y.2) live ->
  good brk live (b, bs) -> good brk live (b + bs, s) -> good brk live (b, bs + s).
Proof.
  intros Hl (H1 & H2 & H3) (H4 & H5 & H6). cbn in *. split; [cbn; lia|]. split; [cbn; lia|]. intros y Hy. specialize (H3 y Hy). specialize (H6 y Hy).
  rewrite Forall_forall in Hl. specialize (Hl y Hy). unfold apart in *. cbn in *. lia.
Qed.
Lemma joined_good brk live b bs l : Forall (fun y => 0 < y.2) live -> good brk live (b, bs) -> Forall (good brk live) l ->
  Forall (good brk live) (joined b bs l).
Proof.
  intros Hl Hb Hg. apply joined_Forall; [done| |done]. intros s Hs. apply good_merge; [done..|]. by eapply Forall_forall in Hg.
Qed.
Lemma rebuilt_good brk live l1 p ps l2 bp bs fr :
  (base, 0) :: fr = l1 ++ (p, ps) :: l2 -> (forall x, x ∈ fr -> good brk live x) -> base < bp -> p + ps <= bp ->
  Forall (fun x => bp + bs <= x.1) l2 -> StronglySorted below ((base, 0) :: fr) -> good brk live (bp, bs) -> Forall (fun y => 0 < y.2) live ->
  Forall (fun x => x = (base, 0) \/ good brk live x) (l1 ++ joined p ps (joined bp bs l2)).
Proof.
  intros E Hg Hb Hp Hl2 Hs Hbp Hl. assert (forall x, x ∈ l1 ++ (p, ps) :: l2 -> x = (base, 0) \/ good brk live x) as Hc.
  { rewrite <- E. intros x [->|Hx]%elem_of_cons; auto. }
  assert (Forall (good brk live) (joined bp bs l2)) as Hj.
  { apply joined_good; [done..|]. apply Forall_forall. intros x Hx. destruct (Hc x) as [->|]; [apply elem_of_app; right; by right| |done].
    destruct Hbp as (? & _). eapply Forall_forall in Hl2; [|exact Hx]. cbn in *. lia. }
  apply Forall_app. split; [apply Forall_forall; intros x Hx; apply Hc, elem_of_app; by left|].
  destruct (Hc (p, ps)) as [[= -> ->]|Hgp]; [apply elem_of_app; right; by left| |].
  - apply joined_Forall; [by left| |eapply Forall_impl; [exact Hj|]; by right]. intros s Hin. exfalso.
    apply elem_joined in Hin as [[= E1]|[(? & _ & [= E1])|Hin]]; [lia..|]. destruct Hbp as (? & _).
    eapply Forall_forall in Hl2; [|exact Hin]. cbn in *. lia.
  - eapply Forall_impl; [by apply joined_good|]. by right.
Qed.

Lemma inv_intro h fr live :
  links h ((base, 0) :: fr) base -> StronglySorted below ((base, 0) :: fr) ->
  Forall (fun x => x = (base, 0) \/ good (h_brk h) live x) ((base, 0) :: fr) ->
  Forall (fun y => 0 < y.2 /\ base < y.1 /\ y.1 + y.2 <= h_brk h /\ h_size h !! y.1 = Some y.2) live ->
  ForallOrdPairs apart live -> h_freep h ∈ base :: fr.*1 -> 0 < base -> base < h_brk h <= TOP ->
  inv h fr live.
Proof.
  intros Hl Hs Hn Hv Hd Hf Hb Hbrk. apply StronglySorted_cons in Hs as Hs'. destruct Hs' as [Hbelow _].
  apply Forall_cons in Hn as [_ Hn]. rewrite Forall_forall in Hn, Hbelow.
  assert (forall x, x ∈ fr -> base < x.1 /\ good (h_brk h) live x) as Hg.
  { intros x Hx. specialize (Hbelow _ Hx). unfold below in Hbelow. cbn in Hbelow. destruct (Hn x Hx) as [->|]; [cbn in Hbelow; lia|split; [lia|done]]. }
  rewrite Forall_forall in Hv. split; try done.
  - apply Forall_app. split; apply Forall_forall; intros x Hx; [by apply Hg|by apply Hv].
  - apply Forall_app. split; apply Forall_forall; intros x Hx; [|by split; apply Hv]. destruct (Hg x Hx) as (? & ? & ? & _). done.
  - apply Forall_forall. intros x Hx. by apply Hv.
  - intros x y Hx. by apply Hg.
Qed.

Lemma ring_fuel_grow h h' p b : (forall a, a <> p -> a <> b -> same_at h h' a) -> is_Some (h_ptr h !! p) -> (ring_fuel h' <= S (ring_fuel h))%nat.
Proof.
  intros Hs Hp. unfold ring_fuel. rewrite <- !(size_dom (D := gset Z)). assert (dom (h_ptr h') ⊆ {[b]} ∪ dom (h_ptr h)) as Hsub.
  { intros a. rewrite elem_of_union, elem_of_singleton, !elem_of_dom. intros Ha. destruct (decide (a = b)); [by left|right].
    destruct (decide (a = p)) as [->|]; [done|]. destruct (Hs a) as [_ <-]; done. }
  apply subseteq_size in Hsub. pose proof (size_union_alt (C := gset Z) {[b]} (dom (h_ptr h))) as Hu.
  rewrite size_singleton in Hu. assert (size (dom (h_ptr h) ∖ {[b]} : gset Z) <= size (dom (h_ptr h) : gset Z))%nat by (apply subseteq_size; by intros a [? _]%elem_of_difference). lia.
Qed.

(** A freed block becomes part of the ring; nothing else does. *)
Lemma free_ok h fr live bp bs : inv h fr ((bp, bs) :: live) ->
  exists h' fr', free (bp + 1) h = Some h' /\ inv h' fr' live /\ h_brk h' = h_brk h /\
    (forall u, covered u fr' <-> covered u fr \/ in_blk u (bp, bs)) /\
    (ring_fuel h' <= S (ring_fuel h))%nat.
Proof.
  intros Hi. destruct (place_live _ _ _ _ _ Hi) as (l1 & p & ps & l2 & E & Hp & Hpb & Hl2 & Hl1).
  destruct (joins_run _ _ _ _ _ _ _ _ _ Hi E Hp Hpb Hl2 Hl1) as (h2 & Ej & Hlk & Hbrk & Hsame).
  pose proof (iv_pos _ _ _ Hi) as Hpos. pose proof (iv_in _ _ _ Hi) as Hin. rewrite Forall_app, Forall_cons in Hpos, Hin.
  destruct Hpos as (Hfp & Hb & Hlp), Hin as (Hfi & Hbi & Hli). cbn in Hb, Hbi. pose proof (inv_sizes _ _ _ Hi) as Hsz.
  destruct (ring_rebuild l1 p ps l2 bp bs fr E (iv_sorted _ _ _ Hi)) as (fr' & E' & Hs' & Hcov); [|lia|lia|done|done|].
  { eapply Forall_impl; [exact Hsz|]. cbn. lia. }
  assert (free (bp + 1) h = Some (h2 <| h_freep := p |>)) as Ef.
  { unfold free. replace (bp + 1 - 1) with bp by lia. pose proof (iv_links _ _ _ Hi) as Hl. pose proof (iv_sorted _ _ _ Hi) as Hso.
    pose proof (ring_bound _ _ _ Hl Hso). pose proof (iv_freep _ _ _ Hi) as Hfr. change (base :: fr.*1) with (((base, 0) :: fr).*1) in Hfr.
    assert (hd_addr ((base, 0) :: fr) base = base) as Hhd by done. rewrite E in *.
    erewrite search_finds; [|exact Hso|exact Hl|exact Hhd|lia|lia| |exact Hfr|lia].
    - cbn [mbind option_bind]. apply ring_links_app in Hl as (_ & _ & -> & _). cbn [mbind option_bind]. unfold mbind, option_bind in Ej |- *.
      destruct (join bp _ h); [|done]. by rewrite Ej.
    - eapply Forall_impl; [exact Hl2|]. cbn. lia. }
  rewrite E' in Hlk. exists (h2 <| h_freep := p |>), fr'. split_and!; [done| |done|done|].
  2: { apply (ring_fuel_grow h (h2 <| h_freep := p |>) p bp); [done|]. rsimpl.
       pose proof (iv_links _ _ _ Hi) as Hl. rewrite E in Hl. apply ring_links_app in Hl as (_ & _ & -> & _). by eexists. }
  assert (forall x, x ∈ fr -> good (h_brk h) live x) as Hgf.
  { intros x Hx. rewrite Forall_forall in Hfp, Hfi. split; [by apply Hfp|]. split; [by apply Hfi|].
    intros y Hy. apply (iv_apart _ _ _ Hi); [done|by right]. }
  assert (Forall (fun x => x = (base, 0) \/ good (h_brk h) live x) ((base, 0) :: fr')) as Hnew.
  { rewrite <- E'. eapply rebuilt_good; [exact E|done|lia|exact Hpb|done|exact (iv_sorted _ _ _ Hi)| |done]. split; [cbn; lia|]. split; [cbn; lia|].
    intros y Hy. pose proof (iv_disj _ _ _ Hi) as Hd. inversion Hd as [|? ? Hd1 _]; subst. by eapply Forall_forall in Hd1. }
  assert (forall y, y ∈ live -> same_at h h2 y.1) as Hlive.
  { intros y Hy. rewrite Forall_forall in Hlp, Hli. specialize (Hlp y Hy). specialize (Hli y Hy). cbn in Hlp, Hli. apply Hsame.
    - assert ((p, ps) ∈ (base, 0) :: fr) as Hin by (rewrite E; apply elem_of_app; right; by left).
      apply elem_of_cons in Hin as [[= -> ->]|Hin]; [lia|]. destruct (Hgf _ Hin) as (Hps & _ & Hap). specialize (Hap y Hy).
      unfold apart in Hap. cbn in *. lia.
    - pose proof (iv_disj _ _ _ Hi) as Hd. inversion Hd as [|? ? Hd1 _]; subst. eapply Forall_forall in Hd1; [|exact Hy].
      unfold apart in Hd1. cbn in Hd1. lia. }
  apply inv_intro; rsimpl; rewrite ?Hbrk; try done.
  - by eapply links_frame; [|exact Hlk].
  - apply Forall_forall. intros y Hy. destruct (Hlive y Hy) as [-> _]. pose proof (iv_live _ _ _ Hi) as Hv. apply Forall_cons in Hv as [_ Hv].
    rewrite Forall_forall in Hv, Hlp, Hli. specialize (Hv y Hy). specialize (Hlp y Hy). specialize (Hli y Hy). cbn in *. by split_and!; try lia.
  - pose proof (iv_disj _ _ _ Hi) as Hd. by inversion Hd.
  - change (base :: fr'.*1) with (((base, 0) :: fr').*1). rewrite <- E', fmap_app. apply elem_of_app. right. unfold joined at 1.
    destruct (joined bp bs l2) as [|[a s] ?]; [by left|]. destruct (_ =? _); by left.
  - by apply (iv_base _ _ _ Hi).
  - by apply (iv_brk _ _ _ Hi).
Qed.

(** ** [malloc] *)

Lemma links_split h l z a v : links h l z -> a ∈ l.*1 -> h_ptr h !! a = Some v ->
  exists l1 s l2, l = l1 ++ (a, s) :: l2 /\ hd_addr l2 z = v.
Proof.
  intros Hl ([a' s] & -> & (l1 & l2 & ->)%list_elem_of_split)%list_elem_of_fmap Hp. exists l1, s, l2. split; [done|].
  apply ring_links_app in Hl as (_ & _ & E & _). cbn in Hp. congruence.
Qed.
Lemma sorted_apart l x y : StronglySorted below l -> x ∈ l -> y ∈ l -> x.1 <> y.1 -> apart x y.
Proof.
  intros Hs Hx Hy Hne. apply list_elem_of_split in Hx as (l1 & l2 & ->). apply StronglySorted_app in Hs as (Hc & _ & [Hx2 _]%StronglySorted_cons).
  rewrite Forall_forall in Hx2. unfold apart, below in *. apply elem_of_app in Hy as [Hy|[->|Hy]%elem_of_cons]; [|done|].
  - specialize (Hc y x Hy ltac:(by left)). lia.
  - specialize (Hx2 y Hy). lia.
Qed.

(** Taking part of a block: [rest] is what stays of it in the ring. *)
Section Take.
Context (h h' : heap) (fr live m1 m2 rest : list blk) (pv pvs a s q n : Z).
Hypothesis (Hi : inv h fr live) (E : (base, 0) :: fr = m1 ++ (pv, pvs) :: (a, s) :: m2).
Hypothesis (Hn : 0 < n) (Hqs : q + n = a + s) (Hrest : rest = [] /\ q = a \/ rest = [(a, s - n)] /\ n < s).

Lemma take_from : (a, s) ∈ fr.
Proof.
  clear k kok. assert ((a, s) ∈ (base, 0) :: fr) as Hin. { rewrite E. apply elem_of_app. right. right. by left. }
  apply elem_of_cons in Hin as [[= Ea Es]|]; [|done]. destruct Hrest as [[_ ?]|[_ ?]]; lia.
Qed.
Lemma take_sorted : StronglySorted below (m1 ++ (pv, pvs) :: rest ++ m2).
Proof.
  clear k kok. pose proof (iv_sorted _ _ _ Hi) as Hs. rewrite E in Hs.
  apply StronglySorted_app in Hs as (Hc & Hs1 & [Hpv [Ha Hs2]%StronglySorted_cons]%StronglySorted_cons).
  apply Forall_cons in Hpv as [Hpa Hpm]. assert (forall x, x ∈ m1 -> below x (a, s)) as Hca by (intros; apply Hc; [done|right; by left]).
  apply StronglySorted_app_2; [|done|].
  - intros x y Hx [->|[Hy|Hy]%elem_of_app]%elem_of_cons; [apply Hc; [done|by left]| |apply Hc; [done|by right; right]].
    destruct Hrest as [[-> _]|[-> _]]; [by apply not_elem_of_nil in Hy|]. apply list_elem_of_singleton in Hy as ->. by apply Hca.
  - destruct Hrest as [[-> _]|[-> Hlt]]; cbn [app]; repeat (apply StronglySorted_cons; split); try done.
    + by constructor.
    + eapply Forall_impl; [exact Ha|]. unfold below. cbn. lia.
Qed.
Lemma take_elem x : x ∈ m1 ++ (pv, pvs) :: rest ++ m2 -> x ∈ (base, 0) :: fr /\ apart x (a, s) \/ x = (a, s - n) /\ n < s.
Proof.
  clear k kok. intros Hx. assert (x ∈ m1 ++ (pv, pvs) :: m2 \/ x ∈ rest) as [Hx'|Hx'].
  { apply elem_of_app in Hx as [?|[->|[?|?]%elem_of_app]%elem_of_cons]; rewrite ?elem_of_app, ?elem_of_cons; auto. }
  - left. pose proof (iv_sorted _ _ _ Hi) as Hs. split.
    + rewrite E. apply elem_of_app in Hx' as [?|[->|?]%elem_of_cons]; rewrite elem_of_app, !elem_of_cons; auto.
    + rewrite E in Hs. apply StronglySorted_app in Hs as (Hc & _ & [Hpv [Ha _]%StronglySorted_cons]%StronglySorted_cons).
      rewrite Forall_forall in Hpv, Ha. unfold apart. apply elem_of_app in Hx' as [Hx'|[->|Hx']%elem_of_cons].
      * specialize (Hc x (a, s) Hx' ltac:(right; by left)). unfold below in Hc. cbn in *. lia.
      * specialize (Hpv (a, s) ltac:(by left)). unfold below in Hpv. cbn in *. lia.
      * specialize (Ha x Hx'). unfold below in Ha. cbn in *. lia.
  - destruct Hrest as [[-> _]|[-> ?]]; [by apply not_elem_of_nil in Hx'|]. apply list_elem_of_singleton in Hx' as ->. by right.
Qed.
Lemma take_covers u : covered u ((base, 0) :: fr) <-> covered u (m1 ++ (pv, pvs) :: rest ++ m2) \/ in_blk u (q, n).
Proof.
  clear k kok Hi. rewrite E, !covered_app, !covered_cons, covered_app. enough (in_blk u (a, s) <-> covered u rest \/ in_blk u (q, n)) by tauto.
  destruct Hrest as [[-> ->]|[-> Hlt]]; [|rewrite covered_cons]; unfold covered, in_blk; cbn; (split; [intros Hu|intros [Hu|Hu]]).
  - right. lia.
  - destruct Hu as (x & Hx & _). by apply not_elem_of_nil in Hx.
  - lia.
  - lia.
  - destruct Hu as [Hu|(x & Hx & _)]; [lia|by apply not_elem_of_nil in Hx].
  - lia.
Qed.

Lemma inv_take :
  links h' (m1 ++ (pv, pvs) :: rest ++ m2) base -> h_brk h' = h_brk h -> h_freep h' = pv -> h_size h' !! q = Some n ->
  (forall y, y ∈ live -> h_size h' !! y.1 = h_size h !! y.1) ->
  exists fr', inv h' fr' ((q, n) :: live) /\ forall u, covered u fr <-> covered u fr' \/ in_blk u (q, n).
Proof.
  clear k kok. intros Hl Hbrk Hfp Hsq Hlive. pose proof take_from as Hain. pose proof take_covers as Hcov.
  assert (exists fr', m1 ++ (pv, pvs) :: rest ++ m2 = (base, 0) :: fr') as [fr' E'].
  { destruct m1 as [|b m1']; [injection E as <- <- _|injection E as <- _]; by eexists. }
  pose proof take_sorted as Hs. pose proof take_elem as Hel. rewrite E' in Hl, Hs, Hel, Hcov.
  pose proof (iv_pos _ _ _ Hi) as Hpos. pose proof (iv_in _ _ _ Hi) as Hin. apply Forall_app in Hpos as [Hfp' Hlp]. apply Forall_app in Hin as [Hfi Hli].
  rewrite Forall_forall in Hfp', Hfi, Hlp, Hli. pose proof (Hfi _ Hain) as Hab. cbn in Hab.
  assert (forall y, y ∈ live -> apart (a, s) y) as Hap by (intros; by apply (iv_apart _ _ _ Hi)).
  assert (a <= q) as Haq by (destruct Hrest as [[_ ->]|[_ ?]]; lia).
  exists fr'. split; [apply inv_intro; rewrite ?Hbrk; try done|].
  - apply Forall_forall. intros x Hx. destruct (Hel x Hx) as [[[->|Hf]%elem_of_cons Hax]|[-> Hlt]]; [by left| |]; right.
    + split; [by apply Hfp'|]. split; [by apply Hfi|]. intros y [->|Hy]%elem_of_cons; [|by apply (iv_apart _ _ _ Hi)].
      unfold apart in *. cbn in *. lia.
    + split; [cbn; lia|]. split; [cbn; lia|]. intros y [->|Hy]%elem_of_cons; [unfold apart; cbn; lia|].
      specialize (Hap y Hy). unfold apart in *. cbn in *. lia.
  - apply Forall_cons. split; [cbn; split_and!; (done || lia)|]. apply Forall_forall. intros y Hy. rewrite Hlive by done.
    pose proof (iv_live _ _ _ Hi) as Hv. rewrite Forall_forall in Hv. specialize (Hli y Hy). split_and!; [by apply Hlp|apply Hli|apply Hli|by apply Hv].
  - constructor; [|exact (iv_disj _ _ _ Hi)]. apply Forall_forall. intros y Hy. specialize (Hap y Hy). unfold apart in *. cbn in *. lia.
  - rewrite Hfp. change (base :: fr'.*1) with (((base, 0) :: fr').*1). rewrite <- E', fmap_app. apply elem_of_app. right. by left.
  - exact (iv_base _ _ _ Hi).
  - exact (iv_brk _ _ _ Hi).
  - intros u. specialize (Hcov u). rewrite !covered_cons in Hcov. unfold in_blk in *. cbn in *. intuition lia.
Qed.
End Take.

Lemma take_block_ok h fr live pv a s n :
  inv h fr live -> pv ∈ ((base, 0) :: fr).*1 -> h_ptr h !! pv = Some a -> h_size h !! a = Some s -> 0 < n <= s ->
  exists q h' fr', take_block n s pv a h = Some (q, h') /\ inv (h' <| h_freep := pv |>) fr' ((q, n) :: live) /\
    h_brk h' = h_brk h /\ forall u, covered u fr <-> covered u fr' \/ in_blk u (q, n).
Proof.
  intros Hi Hpv Hp Hs Hn. pose proof (iv_links _ _ _ Hi) as Hl. pose proof (iv_sorted _ _ _ Hi) as Hso.
  destruct (links_split _ _ _ _ _ Hl Hpv Hp) as (m1 & pvs & m2' & E & Ea).
  assert (exists m2, m2' = (a, s) :: m2) as [m2 ->].
  { destruct m2' as [|[a' s'] m2]; cbn in Ea; subst.
    - destruct Hl as (Hb & _). rewrite Hb in Hs. injection Hs as <-. lia.
    - rewrite E in Hl. apply ring_links_app in Hl as (_ & _ & _ & Hs' & _). exists m2. congruence. }
  rewrite E in Hl, Hso. apply ring_links_app in Hl as (Hl1 & Hsp & _ & _ & Hpa & Hl2). cbn [hd_addr] in Hl1.
  apply StronglySorted_app in Hso as (Hc & _ & [Hpvb [Ha _]%StronglySorted_cons]%StronglySorted_cons). rewrite Forall_forall in Hpvb, Ha.
  assert (pv < a) as Hlt by (specialize (Hpvb (a, s) ltac:(by left)); unfold below in Hpvb; cbn in Hpvb; lia).
  assert (forall x, x ∈ m1 -> x.1 < pv) as H1 by (intros x Hx; specialize (Hc x (pv, pvs) Hx ltac:(by left)); unfold below in Hc; cbn in Hc; lia).
  assert (forall x, x ∈ m2 -> a + s < x.1) as H2 by (intros x Hx; specialize (Ha x Hx); unfold below in Ha; cbn in Ha; lia).
  pose proof (take_from fr m1 m2 [] pv pvs a s a s E ltac:(lia) ltac:(done) ltac:(by left)) as Hain.
  pose proof (iv_live _ _ _ Hi) as Hv. pose proof (iv_pos _ _ _ Hi) as Hpos. apply Forall_app in Hpos as [_ Hlp]. rewrite Forall_forall in Hv, Hlp.
  assert (forall y, y ∈ live -> ~ a <= y.1 < a + s) as Hy.
  { intros y Hy. pose proof (iv_apart _ _ _ Hi _ _ Hain Hy) as Hap. specialize (Hlp y Hy). unfold apart in Hap. cbn in *. lia. }
  pose proof (inv_sizes _ _ _ Hi) as Hsz. rewrite Forall_forall in Hsz. specialize (Hsz (a, s) ltac:(by right)). unfold TOP in Hsz. cbn in Hsz.
  pose proof (iv_base _ _ _ Hi) as Hb0. unfold take_block. destruct (Z.eqb_spec s n) as [->|Hne].
  - rewrite Hpa. cbn [mbind option_bind].
    destruct (inv_take h (set_ptr pv (hd_addr m2 base) h <| h_freep := pv |>) fr live m1 m2 [] pv pvs a n a n Hi E) as (fr' & Hi' & Hcov); try done; [lia|auto| |].
    + apply ring_links_app. cbn [hd_addr links]. rsimpl. rewrite ptr_set_ptr, size_set_ptr. split_and!; [|done|done|].
      * eapply links_frame; [|exact Hl1]. intros x Hx. apply (same_ptr h pv). specialize (H1 x Hx). lia.
      * eapply links_frame; [|exact Hl2]. intros x Hx. apply (same_ptr h pv). specialize (H2 x Hx). lia.
    + by exists a, (set_ptr pv (hd_addr m2 base) h), fr'.
  - assert (padd a (s - n) = a + (s - n)) as -> by (unfold padd; change (W32 / 8) with 536870912; apply Z.mod_small; lia).
    set (h' := set_size _ _ _).
    assert (forall x, x <> a -> x <> a + (s - n) -> same_at h (h' <| h_freep := pv |>) x) as Hsame.
    { intros x Hx1 Hx2. eapply same_trans; [by apply (same_size h a (s - n))|by apply (same_size _ (a + (s - n)) n)]. }
    destruct (inv_take h (h' <| h_freep := pv |>) fr live m1 m2 [(a, s - n)] pv pvs a s (a + (s - n)) n Hi E) as (fr' & Hi' & Hcov); try done; [lia|lia|right; split; [done|lia]| | | |].
    + apply ring_links_app. cbn [hd_addr links app]. split_and!.
      * eapply links_frame; [|exact Hl1]. intros x Hx. specialize (H1 x Hx). apply Hsame; lia.
      * destruct (Hsame pv ltac:(lia) ltac:(lia)) as [-> _]. done.
      * destruct (Hsame pv ltac:(lia) ltac:(lia)) as [_ ->]. done.
      * unfold h', set_size. rsimpl. by rewrite lookup_insert_ne, lookup_insert_eq by lia.
      * done.
      * eapply links_frame; [|exact Hl2]. intros x Hx. specialize (H2 x Hx). apply Hsame; lia.
    + unfold h', set_size. rsimpl. apply lookup_insert_eq.
    + intros y Hyl. specialize (Hy y Hyl). apply Hsame; lia.
    + by exists (a + (s - n)), h', fr'.
Qed.

(** An interval that is free lies in one block of the ring. *)
Lemma covered_one l b n : StronglySorted below l -> 0 < n -> (forall u, b <= u < b + n -> covered u l) ->
  exists x, x ∈ l /\ n <= x.2.
Proof.
  intros Hs Hn Hc. destruct (Hc b ltac:(lia)) as (x & Hx & Hu). unfold in_blk in Hu. exists x. split; [done|].
  destruct (decide (n <= x.2)) as [|Hlt]; [done|]. destruct (Hc (x.1 + x.2)) as (y & Hy & Hu'); [lia|]. unfold in_blk in Hu'. exfalso.
  apply list_elem_of_split in Hx as (l1 & l2 & ->). apply StronglySorted_app in Hs as (Hc1 & _ & [Hx2 _]%StronglySorted_cons).
  rewrite Forall_forall in Hx2. apply elem_of_app in Hy as [Hy|[->|Hy]%elem_of_cons]; [|lia|].
  - specialize (Hc1 y x Hy ltac:(by left)). unfold below in Hc1. lia.
  - specialize (Hx2 y Hy). unfold below in Hx2. lia.
Qed.

Lemma inv_more h fr live n : inv h fr live -> 0 < n -> h_brk h + n <= TOP ->
  inv (set_size (h_brk h) n (h <| h_brk := h_brk h + n |>)) fr ((h_brk h, n) :: live).
Proof.
  intros Hi Hn Ht. pose proof (iv_pos _ _ _ Hi) as Hpos. pose proof (iv_in _ _ _ Hi) as Hin. pose proof (iv_brk _ _ _ Hi) as Hbrk.
  apply Forall_app in Hpos as [Hfp Hlp], Hin as [Hfi Hli]. rewrite Forall_forall in Hfp, Hfi, Hlp, Hli.
  assert (forall a, a < h_brk h -> same_at h (set_size (h_brk h) n (h <| h_brk := h_brk h + n |>)) a) as Hsame.
  { intros a Ha. unfold same_at, set_size. rsimpl. by rewrite lookup_insert_ne by lia. }
  apply inv_intro; [| |apply Forall_forall|apply Forall_cons|constructor| | |]; try done.
  - eapply links_frame; [|exact (iv_links _ _ _ Hi)]. intros x [->|Hx]%elem_of_cons; apply Hsame; [cbn; lia|].
    specialize (Hfp x Hx). specialize (Hfi x Hx). cbn in *. lia.
  - exact (iv_sorted _ _ _ Hi).
  - intros x [->|Hx]%elem_of_cons; [by left|right]. specialize (Hfp x Hx). specialize (Hfi x Hx). unfold set_size. rsimpl. cbn in *.
    split; [lia|]. split; [lia|]. intros y [->|Hy]%elem_of_cons; [unfold apart; cbn; lia|by apply (iv_apart _ _ _ Hi)].
  - unfold set_size. rsimpl. cbn. rewrite lookup_insert_eq. split; [split_and!; (done || lia)|]. apply Forall_forall. intros y Hy.
    specialize (Hlp y Hy). specialize (Hli y Hy). pose proof (iv_live _ _ _ Hi) as Hv. rewrite Forall_forall in Hv. specialize (Hv y Hy). cbn in *.
    rewrite lookup_insert_ne by lia. split_and!; (done || lia).
  - apply Forall_forall. intros y Hy. specialize (Hli y Hy). unfold apart. cbn in *. lia.
  - exact (iv_disj _ _ _ Hi).
  - exact (iv_freep _ _ _ Hi).
  - exact (iv_base _ _ _ Hi).
  - unfold set_size. rsimpl. lia.
Qed.

Lemma morecore_ok h fr live nu : inv h fr live -> 0 < nu -> nu * 8 < H32 ->
  morecore nu h = Some (0, h) \/
  exists h' fr', morecore nu h = Some (h_freep h', h') /\ inv h' fr' live /\ (exists x, x ∈ fr' /\ nu <= x.2) /\
    (ring_fuel h' <= S (ring_fuel h))%nat.
Proof.
  intros Hi Hnu Ho. unfold morecore. set (n := if nu <? 4096 then 4096 else nu). unfold H32 in Ho.
  assert (nu <= n /\ 0 < n /\ n * 8 < 2147483648) as Hn by (unfold n; destruct (Z.ltb_spec nu 4096); lia).
  rewrite u32_small, s32_small by lia. unfold sbrk. rewrite Z.div_mul by lia.
  destruct (granted (h_brk h) (n * 8)) eqn:Eg; [right|by left]. apply granted_top in Eg; [|lia]. rewrite Z.div_mul in Eg by lia.
  pose proof (iv_brk _ _ _ Hi) as Hbrk. pose proof (iv_base _ _ _ Hi) as Hb0. rsimpl. destruct (Z.ltb_spec (h_brk h + n) 0); [lia|].
  destruct (Z.leb_spec (h_brk h + n) (h_brk h)); [lia|]. pose proof (inv_more _ _ _ n Hi ltac:(lia) Eg) as Hi'.
  destruct (free_ok _ _ _ _ _ Hi') as (h' & fr' & -> & Hi2 & _ & Hcov & Hfuel). cbn [mbind option_bind].
  exists h', fr'. split_and!; [done|done| |exact Hfuel]. pose proof (iv_sorted _ _ _ Hi2) as Hs. apply StronglySorted_cons in Hs as [_ Hs].
  destruct (covered_one fr' (h_brk h) n Hs) as (x & Hx & Hnx); [lia| |exists x; split; [done|lia]].
  intros u Hu. apply Hcov. right. exact Hu.
Qed.

(** The loop from [freep] all the way round. *)
Lemma rotation h fr live : inv h fr live -> exists todo fs z,
  let r := todo ++ [(h_freep h, fs)] in
  links h r z /\ (forall x, x ∈ r <-> x ∈ (base, 0) :: fr) /\ length r = S (length fr) /\
  (forall x, x ∈ todo -> x.1 <> h_freep h) /\ h_ptr h !! h_freep h = Some (hd_addr r 0).
Proof.
  intros Hi. pose proof (iv_freep _ _ _ Hi) as Hf. change (base :: fr.*1) with (((base, 0) :: fr).*1) in Hf.
  apply list_elem_of_fmap in Hf as ([f fs] & Ef & (l1 & l2 & E)%list_elem_of_split). cbn in Ef. rewrite Ef.
  pose proof (iv_links _ _ _ Hi) as Hl. pose proof (iv_sorted _ _ _ Hi) as Hs. pose proof (f_equal (fun l => hd_addr l 0) E) as Hh.
  apply (f_equal length) in E as Elen. cbv beta in Hh. rewrite hd_addr_app in Hh. cbn [hd_addr] in Hh. rewrite E in Hl, Hs. apply ring_links_app in Hl as (Hl1 & Hsf & Hpf & Hl2). cbn [hd_addr] in Hl1.
  exists (l2 ++ l1), fs, (hd_addr l2 base). cbv zeta. rewrite <- app_assoc, !hd_addr_app. cbn [hd_addr]. rewrite <- Hh. split_and!; [|..|done].
  - rewrite !ring_links_app, hd_addr_app. cbn [hd_addr]. rewrite <- Hh. cbn [links hd_addr]. by split_and!.
  - intros x. rewrite E, !elem_of_app, list_elem_of_singleton, elem_of_cons. tauto.
  - rewrite length_app in *. cbn in *. rewrite length_app. cbn. lia.
  - apply sorted_nodup in Hs. rewrite fmap_app, fmap_cons in Hs. apply NoDup_app in Hs as (Hd1 & Hd2 & [Hd3 _]%NoDup_cons).
    cbn in Hd2, Hd3. intros x [Hx|Hx]%elem_of_app Ex.
    + apply Hd3. rewrite <- Ex. by apply list_elem_of_fmap_2.
    + apply (Hd2 f); [rewrite <- Ex; by apply list_elem_of_fmap_2|by left].
Qed.

Definition more (fuel : nat) (n : Z) (h : heap) : option (Z * heap) :=
  '(p, h) ← morecore n h;
  if p =? 0 then Some (0, h) else next ← h_ptr h !! p; malloc_loop fuel n p next h.

Lemma walk h n fs todo z : forall pv fuel,
  let r := todo ++ [(h_freep h, fs)] in
  links h r z -> (forall x, x ∈ todo -> x.1 <> h_freep h) -> h_ptr h !! pv = Some (hd_addr r 0) -> (length todo < fuel)%nat ->
  (exists a s pv', (pv' = pv \/ pv' ∈ todo.*1) /\ h_ptr h !! pv' = Some a /\ h_size h !! a = Some s /\ n <= s /\
     malloc_loop fuel n pv (hd_addr r 0) h = ('(q, h) ← take_block n s pv' a h; Some (q + 1, h <| h_freep := pv' |>))) \/
  (Forall (fun x => x.2 < n) r /\ malloc_loop fuel n pv (hd_addr r 0) h = more (fuel - S (length todo)) n h).
Proof.
  induction todo as [|[a s] todo IH]; intros pv fuel r Hl Hne Hpv Hf; (destruct fuel as [|fuel]; [cbn in Hf; lia|]).
  - destruct Hl as (Hs & _). cbn [r app hd_addr malloc_loop] in *. rewrite Hs. cbn [mbind option_bind]. destruct (Z.leb_spec n fs).
    + left. exists (h_freep h), fs, pv. split_and!; auto.
    + right. split; [by repeat constructor|]. rewrite Z.eqb_refl. cbn [length]. by replace (S fuel - 1)%nat with fuel by lia.
  - destruct Hl as (Hs & Hp & Hl). cbn [r app hd_addr malloc_loop] in *. rewrite Hs. cbn [mbind option_bind]. destruct (Z.leb_spec n s).
    + left. exists a, s, pv. split_and!; auto.
    + rewrite (proj2 (Z.eqb_neq a (h_freep h))) by (apply (Hne (a, s)); by left). 
      assert (hd_addr (todo ++ [(h_freep h, fs)]) z = hd_addr (todo ++ [(h_freep h, fs)]) 0) as Ez by (rewrite !hd_addr_app; done).
      rewrite Ez in Hp. rewrite Hp. cbn [mbind option_bind length] in *.
      destruct (IH a fuel Hl) as [(a' & s' & pv' & Hpv' & H1 & H2 & H3 & H4)|[Hall Em]]; [intros; apply Hne; by right|done|lia| |].
      * left. exists a', s', pv'. split_and!; try done. right. cbn. destruct Hpv' as [->|?]; [by left|by right].
      * right. split; [by constructor|]. exact Em.
Qed.

Lemma found_ok h fr live n pv' todo fs a s :
  inv h fr live -> 0 < n -> (forall x, x ∈ todo ++ [(h_freep h, fs)] <-> x ∈ (base, 0) :: fr) ->
  pv' = h_freep h \/ pv' ∈ todo.*1 -> h_ptr h !! pv' = Some a -> h_size h !! a = Some s -> n <= s ->
  exists r h' fr', ('(q, h) ← take_block n s pv' a h; Some (q + 1, h <| h_freep := pv' |>)) = Some (r, h') /\
    inv h' fr' ((r - 1, n) :: live).
Proof.
  intros Hi Hn Hel Hpv Hp Hs Hns. assert (pv' ∈ ((base, 0) :: fr).*1) as Hin.
  { destruct Hpv as [->|(x & -> & Hx)%list_elem_of_fmap]; [exact (iv_freep _ _ _ Hi)|]. apply list_elem_of_fmap_2, Hel, elem_of_app. by left. }
  destruct (take_block_ok h fr live pv' a s n Hi Hin Hp Hs) as (q & h' & fr' & -> & Hi' & _); [lia|].
  cbn. do 3 eexists. split; [done|]. by replace (q + 1 - 1) with q by lia.
Qed.

Lemma malloc_loop_ok h fr live n fuel :
  inv h fr live -> 0 < n -> n * 8 < H32 -> (2 * ring_fuel h + 2 <= fuel)%nat ->
  exists next r h' fr', h_ptr h !! h_freep h = Some next /\ malloc_loop fuel n (h_freep h) next h = Some (r, h') /\
    (r = 0 /\ inv h' fr' live \/ inv h' fr' ((r - 1, n) :: live)).
Proof.
  intros Hi Hn Ho Hf. pose proof (ring_bound _ _ _ (iv_links _ _ _ Hi) (iv_sorted _ _ _ Hi)) as Hb. cbn in Hb.
  destruct (rotation _ _ _ Hi) as (todo & fs & z & Hl & Hel & Hlen & Hne & Hp). exists (hd_addr (todo ++ [(h_freep h, fs)]) 0).
  rewrite length_app in Hlen. cbn in Hlen.
  destruct (walk h n fs todo z (h_freep h) fuel Hl Hne Hp) as [(a & s & pv' & Hpv & H1 & H2 & H3 & ->)|[_ ->]]; [lia| |].
  { destruct (found_ok h fr live n pv' todo fs a s Hi Hn Hel Hpv H1 H2 H3) as (r & h' & fr' & -> & Hi'). exists r, h', fr'. auto. }
  unfold more. destruct (morecore_ok _ _ _ n Hi Hn Ho) as [->|(h1 & fr1 & -> & Hi1 & (x & Hx & Hnx) & Hf1)]; cbn [mbind option_bind].
  { exists 0, h, fr. split_and!; auto. }
  pose proof (iv_freep _ _ _ Hi1) as Hfp. pose proof (iv_base _ _ _ Hi1) as Hb1.
  rewrite (proj2 (Z.eqb_neq (h_freep h1) 0)).
  2: { apply elem_of_cons in Hfp as [->|(y & -> & Hy)%list_elem_of_fmap]; [lia|]. pose proof (iv_in _ _ _ Hi1) as Hin.
       apply Forall_app in Hin as [Hin _]. eapply Forall_forall in Hin; [|exact Hy]. lia. }
  destruct (rotation _ _ _ Hi1) as (todo1 & fs1 & z1 & Hl1 & Hel1 & Hlen1 & Hne1 & Hp1). rewrite Hp1. cbn [mbind option_bind].
  pose proof (ring_bound _ _ _ (iv_links _ _ _ Hi1) (iv_sorted _ _ _ Hi1)) as Hb2. cbn in Hb2. rewrite length_app in Hlen1. cbn in Hlen1.
  destruct (walk h1 n fs1 todo1 z1 (h_freep h1) (fuel - S (length todo)) Hl1 Hne1 Hp1) as [(a & s & pv' & Hpv & H1 & H2 & H3 & ->)|[Hall _]]; [lia| |].
  - destruct (found_ok h1 fr1 live n pv' todo1 fs1 a s Hi1 Hn Hel1 Hpv H1 H2 H3) as (r & h' & fr' & -> & Hi'). exists r, h', fr'. auto.
  - exfalso. rewrite Forall_forall in Hall. specialize (Hall x). rewrite Hel1 in Hall. specialize (Hall ltac:(by right)). cbn in Hall. lia.
Qed.

(** A heap before the first call, or with its ring. *)
Definition usable (h : heap) (live : list blk) : Prop :=
  (exists fr, inv h fr live) \/ (h_freep h = 0 /\ live = [] /\ 0 < base /\ base < h_brk h <= TOP).
Lemma init_ring_ok h live : usable h live -> exists fr, inv (init_ring base h) fr live.
Proof.
  unfold init_ring. intros [[fr Hi]|(Hf & -> & Hb & Hbrk)].
  - exists fr. rewrite (proj2 (Z.eqb_neq (h_freep h) 0)); [done|]. pose proof (iv_base _ _ _ Hi) as Hb.
    pose proof (iv_freep _ _ _ Hi) as Hfp. pose proof (iv_in _ _ _ Hi) as Hin. apply Forall_app in Hin as [Hin _].
    apply elem_of_cons in Hfp as [->|(y & -> & Hy)%list_elem_of_fmap]; [lia|]. eapply Forall_forall in Hin; [|exact Hy]. lia.
  - exists []. rewrite Hf. cbn [Z.eqb]. apply inv_intro; unfold set_size, set_ptr; rsimpl; try done.
    + cbn. rsimpl. by rewrite !lookup_insert_eq.
    + by repeat constructor.
    + constructor; [by left|constructor].
    + constructor.
    + by left.
Qed.

Lemma units_ok nb : 0 <= nb < H32 - 16 -> 0 < units nb /\ units nb * 8 < H32 /\ nb <= 8 * (units nb - 1).
Proof.
  unfold units, H32. intros Hn. rewrite (u32_small (nb + 8)), (u32_small (nb + 8 - 1)) by lia.
  rewrite u32_small by (Z.to_euclidean_division_equations; lia). Z.to_euclidean_division_equations. lia.
Qed.

Lemma malloc_ok h live nb : usable h live -> 0 <= nb < H32 - 16 ->
  exists r h', malloc base nb h = Some (r, h') /\ usable h' (if r =? 0 then live else (r - 1, units nb) :: live).
Proof.
  intros [fr Hi]%init_ring_ok Hnb. destruct (units_ok nb Hnb) as (Hu & Ho & _). unfold malloc.
  destruct (malloc_loop_ok _ _ _ _ _ Hi Hu Ho (Nat.le_refl _)) as (next & r & h' & fr' & -> & E & Hr). cbn [mbind option_bind]. exists r, h'.
  split; [exact E|]. left. exists fr'. destruct Hr as [[-> Hi']|Hi']; [done|].
  rewrite (proj2 (Z.eqb_neq r 0)); [done|]. pose proof (iv_in _ _ _ Hi') as Hin. pose proof (iv_base _ _ _ Hi').
  apply Forall_app in Hin as [_ [Hin _]%Forall_cons]. cbn in Hin. lia.
Qed.

(** ** A client

    A program allocates, frees blocks it holds, and writes into the payload of its
    blocks, which may leave anything where headers once were. *)
Inductive op :=
  | Malloc (nbytes : Z)
  | Free (i : nat)
  | Store (u ptr size : Z).
Definition op_ok (o : op) : Prop := match o with Malloc nb => 0 <= nb < H32 - 16 | _ => True end.
Definition payload (u : Z) (x : blk) : bool := (x.1 <? u) && (u <? x.1 + x.2).
Definition client (o : op) (c : heap * list blk) : option (heap * list blk) :=
  let '(h, live) := c in
  match o with
  | Malloc nb => '(r, h) ← malloc base nb h; Some (h, if r =? 0 then live else (r - 1, units nb) :: live)
  | Free i =>
      match live !! i with
      | Some x => h ← free (x.1 + 1) h; Some (h, delete i live)
      | None => Some c
      end
  | Store u ptr size => if existsb (payload u) live then Some (set_ptr u ptr (set_size u size h), live) else Some c
  end.
Fixpoint clients (os : list op) (c : heap * list blk) : option (heap * list blk) :=
  match os with
  | [] => Some c
  | o :: os => c ← client o c; clients os c
  end.

Lemma disj_middle l1 x l2 : ForallOrdPairs apart (l1 ++ x :: l2) -> ForallOrdPairs apart (x :: l1 ++ l2).
Proof.
  induction l1 as [|y l1 IH]; [done|]. cbn [app]. inversion 1 as [|? ? Hy Hd]; subst. specialize (IH Hd). inversion IH as [|? ? Hx Hd']; subst.
  apply Forall_app in Hy as [Hy1 [Hyx Hy2]%Forall_cons]. constructor; [constructor; [unfold apart in *; lia|done]|].
  constructor; [by apply Forall_app|done].
Qed.
Lemma inv_middle h fr l1 x l2 : inv h fr (l1 ++ x :: l2) -> inv h fr (x :: l1 ++ l2).
Proof.
  intros [H1 H2 H3 H4 H5 H6 H7 H8 H9 H10]. split; try done.
  - by rewrite (Permutation_middle l1 l2 x).
  - by rewrite (Permutation_middle l1 l2 x).
  - by rewrite (Permutation_middle l1 l2 x).
  - intros a b Ha Hb. apply H6; [done|]. by rewrite <- (Permutation_middle l1 l2 x).
  - by apply disj_middle.
Qed.

Lemma inv_store h fr live x u v w : inv h fr live -> x ∈ live -> x.1 < u < x.1 + x.2 -> inv (set_ptr u v (set_size u w h)) fr live.
Proof.
  intros Hi Hx Hu. assert (forall a, a <> u -> same_at h (set_ptr u v (set_size u w h)) a) as Hsame.
  { intros a Ha. eapply same_trans; [by apply (same_size h u w)|by apply same_ptr]. }
  pose proof (iv_in _ _ _ Hi) as Hin. pose proof (iv_pos _ _ _ Hi) as Hpos. apply Forall_app in Hin as [Hfi Hli], Hpos as [Hfp Hlp].
  rewrite Forall_forall in Hfi, Hli, Hfp, Hlp. pose proof (Hli x Hx) as Hxi.
  assert (forall y, y ∈ live -> y = x \/ apart y x) as Hap.
  { intros y Hy. pose proof (iv_disj _ _ _ Hi) as Hd. apply list_elem_of_split in Hx as (l1 & l2 & ->). apply disj_middle in Hd.
    inversion Hd as [|? ? Hd1 _]; subst. rewrite Forall_forall in Hd1. apply elem_of_app in Hy as [Hy|[->|Hy]%elem_of_cons]; [right| by left|right];
    (specialize (Hd1 y ltac:(apply elem_of_app; auto)); unfold apart in *; lia). }
  split; try apply Hi.
  - eapply links_frame; [|exact (iv_links _ _ _ Hi)]. intros y [->|Hy]%elem_of_cons; apply Hsame; [cbn; lia|].
    pose proof (iv_apart _ _ _ Hi y x Hy Hx) as Ha. specialize (Hfp y Hy). unfold apart in Ha. lia.
  - apply Forall_forall. intros y Hy. destruct (Hsame y.1) as [-> _].
    + specialize (Hlp y Hy). destruct (Hap y Hy) as [->|Ha]; [lia|]. unfold apart in Ha. lia.
    + pose proof (iv_live _ _ _ Hi) as Hv. rewrite Forall_forall in Hv. by apply Hv.
Qed.

Lemma client_ok o h live : usable h live -> op_ok o -> exists h' live', client o (h, live) = Some (h', live') /\ usable h' live'.
Proof.
  intros Hu Ho. destruct o as [nb|i|u v w]; cbn [client].
  - destruct (malloc_ok h live nb Hu Ho) as (r & h' & -> & Hu'). cbn. eauto.
  - destruct (live !! i) as [[b s]|] eqn:Ei; [|eauto]. destruct Hu as [[fr Hi]|(_ & -> & _)]; [|done].
    apply list_elem_of_split_length in Ei as (l1 & l2 & -> & ->). apply inv_middle in Hi.
    destruct (free_ok _ _ _ _ _ Hi) as (h' & fr' & E & Hi' & _). cbn [fst]. rewrite E. cbn. do 2 eexists. split; [done|].
    left. exists fr'. by rewrite delete_middle.
  - destruct (existsb (payload u) live) eqn:Ee; [|eauto]. apply existsb_exists in Ee as (x & Hx & Hp). do 2 eexists. split; [done|].
    destruct Hu as [[fr Hi]|(_ & -> & _)]; [|done]. left. exists fr. unfold payload in Hp. eapply inv_store; [done|by apply list_elem_of_In|lia].
Qed.

Lemma clients_ok os h live : usable h live -> Forall op_ok os ->
  exists h' live', clients os (h, live) = Some (h', live') /\ usable h' live'.
Proof.
  intros Hu Ho. revert h live Hu. induction Ho as [|o os Ho _ IH]; intros h live Hu; [by do 2 eexists|]. cbn [clients].
  destruct (client_ok o h live Hu Ho) as (h1 & live1 & -> & Hu1). cbn. by apply IH.
Qed.
End Heap.


(** A kernel that grants what fits below KERNBASE. *)
#[export] Instance sbrk_ex : Sbrk := {| granted b n := b + n / 8 <=? TOP |}.
#[export] Instance sbrk_ex_ok : SbrkOk sbrk_ex.
Proof. split. cbn. intros b n Hg _. lia. Qed.

(** The rounding of malloc overflows: a request for 0xffffffff bytes is served with
    a block of one unit, which is its header alone. *)
Theorem malloc_overflow : exists r h', malloc 100 0xffffffff (Heap ∅ ∅ 0 512) = Some (r, h') /\ r <> 0 /\ h_size h' !! (r - 1) = Some 1.
Proof. do 2 eexists. split; [vm_compute; reflexivity|]. split; [done|vm_compute; reflexivity]. Qed.
