(* ===== verification/Queue.v ===== *)
(** * The queue, the lock and the semaphore of the thread library
      (queue.c, thread.c, semaphore.c)

    The queue is a linked list of nodes from malloc; it is proved against what an
    allocator promises, and the allocator of umalloc.c is shown to promise it. *)
From S2P Require Import Prelude Umalloc.
#[local] Open Scope Z_scope.

(** ** What a client relies on *)

(** [malloc] and [free] on some state of the allocator; [None] is a fault. *)
Class Allocator (S : Type) := {
  amalloc : Z -> S -> option (Z * S);
  afree : Z -> S -> option S;
}.
(** [owns s ps]: the pointers [ps] are allocated. A new pointer is 0 or none of them. *)
Class AllocatorOk (S : Type) (al : Allocator S) := {
  owns : S -> gset Z -> Prop;
  amalloc_ok s ps n : owns s ps -> 0 <= n < 65536 -> exists r s', amalloc n s = Some (r, s') /\
    (r = 0 /\ owns s' ps \/ r <> 0 /\ (r ∉ ps) /\ owns s' ({[r]} ∪ ps));
  afree_ok s ps p : owns s ps -> p ∈ ps -> exists s', afree p s = Some s' /\ owns s' (ps ∖ {[p]});
}.

(** ** The queue *)

Record queue := Queue { q_size : Z; q_head : Z; q_tail : Z }.
Record node := Node { n_value : Z; n_next : Z }.
(** [sizeof(struct node)] *)
Definition NODESZ : Z := 8.

(** A use of the pointer 0, or of a pointer that is not allocated. *)
Inductive fault := NullDeref | BadPointer.
Abbreviation res A := (A + fault)%type.

Section Code.
Context {S : Type} {al : Allocator S}.
(** The allocator, and the nodes that are allocated. *)
Abbreviation mem := (S * gmap Z node)%type.

Definition init_q : queue := Queue 0 0 0.
Definition add_q (q : queue) (v : Z) (m : mem) : res (queue * mem) :=
  match amalloc NODESZ m.1 with
  | None => inr BadPointer
  | Some (n, s) =>
      if n =? 0 then inr NullDeref
      else
        let nodes := <[n := Node v 0]> m.2 in
        if q_head q =? 0 then inl (Queue (s32 (q_size q + 1)) n n, (s, nodes))
        else match nodes !! q_tail q with
             | None => inr BadPointer
             | Some t => inl (Queue (s32 (q_size q + 1)) (q_head q) n, (s, <[q_tail q := Node (n_value t) n]> nodes))
             end
  end.
Definition empty_q (q : queue) : Z := if q_size q =? 0 then 1 else 0.
Definition pop_q (q : queue) (m : mem) : res (Z * queue * mem) :=
  if empty_q q =? 0 then
    match m.2 !! q_head q with
    | None => inr BadPointer
    | Some d =>
        match afree (q_head q) m.1 with
        | None => inr BadPointer
        | Some s =>
            let size := s32 (q_size q - 1) in
            let q' := if size =? 0 then Queue size 0 0 else Queue size (n_next d) (q_tail q) in
            inl (n_value d, q', (s, delete (q_head q) m.2))
        end
    end
  else inl (-1, q, m).

Inductive qop := Add (v : Z) | Pop.
(** The results of the [Pop]s of a sequence of calls. *)
Fixpoint run_q (os : list qop) (q : queue) (m : mem) : res (list Z * queue * mem) :=
  match os with
  | [] => inl ([], q, m)
  | Add v :: os =>
      match add_q q v m with inl (q, m) => run_q os q m | inr f => inr f end
  | Pop :: os =>
      match pop_q q m with
      | inl (v, q, m) => match run_q os q m with inl (vs, q, m) => inl (v :: vs, q, m) | inr f => inr f end
      | inr f => inr f
      end
  end.
End Code.

(** First in, first out; -1 when there is nothing. *)
Fixpoint fifo (os : list qop) (vs : list Z) : list Z * list Z :=
  match os with
  | [] => ([], vs)
  | Add v :: os => fifo os (vs ++ [v])
  | Pop :: os =>
      match vs with
      | [] => let '(rs, vs) := fifo os [] in (-1 :: rs, vs)
      | v :: vs => let '(rs, vs) := fifo os vs in (v :: rs, vs)
      end
  end.

(** ** The list of nodes *)

Section Rep.
Context {S : Type} {al : Allocator S} {alok : AllocatorOk S al}.

(** The nodes [ps] hold [vs], each linked to the next one, the last one to 0. *)
Fixpoint chain (ns : gmap Z node) (ps vs : list Z) : Prop :=
  match ps, vs with
  | [], [] => True
  | p :: ps, v :: vs => ns !! p = Some (Node v (default 0 (head ps))) /\ chain ns ps vs
  | _, _ => False
  end.
Record rep (q : queue) (m : S * gmap Z node) (ps vs : list Z) : Prop := {
  rp_chain : chain m.2 ps vs;
  rp_head : q_head q = default 0 (head ps);
  rp_tail : q_tail q = default 0 (last ps);
  rp_size : q_size q = Z.of_nat (length vs);
  rp_owns : owns m.1 (list_to_set ps);
  rp_nodup : NoDup ps;
  rp_null : 0 ∉ ps;
}.

Lemma chain_frame ns ns' ps vs : (forall p, p ∈ ps -> ns' !! p = ns !! p) -> chain ns ps vs -> chain ns' ps vs.
Proof.
  revert vs. induction ps as [|p ps IH]; intros [|v vs] Hf Hc; try done. destruct Hc as [Hp Hc]. split.
  - rewrite Hf; [done|by left].
  - apply IH; [|done]. intros. apply Hf. by right.
Qed.
Lemma chain_len ns ps vs : chain ns ps vs -> length ps = length vs.
Proof. revert vs. induction ps as [|p ps IH]; intros [|v vs] Hc; try done. cbn. f_equal. by apply IH, Hc. Qed.

(** Appending a node after the last one. *)
Lemma chain_snoc ns ps vs t n v : chain ns (ps ++ [t]) vs -> NoDup (ps ++ [t]) -> (n ∉ ps ++ [t]) -> ns !! n = Some (Node v 0) ->
  exists x, ns !! t = Some (Node x 0) /\ chain (<[t := Node x n]> ns) ((ps ++ [t]) ++ [n]) (vs ++ [v]).
Proof.
  revert vs. induction ps as [|p ps IH]; intros [|x vs] Hc Hd Hn E; try done; cbn [app chain] in *.
  - destruct Hc as [Ht Hc]. destruct vs; [|done]. exists x. split; [done|]. cbn. rewrite lookup_insert_eq, lookup_insert_ne by (intros ->; apply Hn; by left).
    by split_and!.
  - destruct Hc as [Hp Hc]. apply NoDup_cons in Hd as [Hpd Hd]. destruct (IH vs Hc Hd) as (y & Hy & Hc'); [by intros ?; apply Hn; right|done|].
    exists y. split; [done|]. split; [|done]. rewrite lookup_insert_ne by (intros ->; apply Hpd, elem_of_app; right; by left). rewrite Hp. by destruct ps.
Qed.

Lemma add_q_ok q m ps vs v : rep q m ps vs -> Z.of_nat (length vs) + 1 < H32 ->
  add_q q v m = inr NullDeref \/ exists q' m' ps', add_q q v m = inl (q', m') /\ rep q' m' ps' (vs ++ [v]).
Proof.
  intros [Hc Hh Ht Hs Ho Hd H0] Hlen. unfold H32 in Hlen. unfold add_q.
  destruct (amalloc_ok m.1 _ NODESZ Ho ltac:(done)) as (n & s' & -> & [[-> _]|(Hn & Hnp & Ho')]); [by left|right].
  rewrite elem_of_list_to_set in Hnp. rewrite (proj2 (Z.eqb_neq n 0)) by done. rewrite Hh.
  assert (s32 (q_size q + 1) = Z.of_nat (length (vs ++ [v]))) as Es by (rewrite Hs, length_app; cbn; rewrite s32_small; lia).
  assert (NoDup (ps ++ [n])) as Hd'.
  { apply NoDup_app. split_and!; [done| |by apply NoDup_singleton]. by intros y Hy ->%list_elem_of_singleton. }
  assert (0 ∉ ps ++ [n]) as H0' by (by intros [?|<-%list_elem_of_singleton]%elem_of_app).
  assert (owns s' (list_to_set (ps ++ [n]))) as Ho2.
  { rewrite list_to_set_app_L, list_to_set_singleton_L, union_comm_L. done. }
  destruct ps as [|t ps _] using rev_ind.
  - destruct vs; [|done]. cbn [head default]. do 2 eexists. exists [n]. split; [done|]. split; try done.
    cbn. by rewrite lookup_insert_eq.
  - rewrite (proj2 (Z.eqb_neq _ 0)).
    2: { intros E. apply H0. destruct ps as [|p ps]; cbn in E; subst; [by left|]. by left. }
    rewrite Ht, last_snoc. change (default 0 (Some t)) with t.
    destruct (chain_snoc (<[n := Node v 0]> m.2) ps vs t n v) as (x & Ex & Hc'); [|done|done|by rewrite lookup_insert_eq|].
    { eapply chain_frame; [|exact Hc]. intros p Hp. rewrite lookup_insert_ne; [done|]. by intros ->. }
    rewrite Ex. do 2 eexists. exists ((ps ++ [t]) ++ [n]). split; [done|]. split; cbn [q_head q_tail q_size fst snd]; try done.
    + by destruct ps.
    + by rewrite last_snoc.
Qed.

Lemma pop_q_ok q m ps v vs : rep q m ps (v :: vs) -> Z.of_nat (length vs) + 1 < H32 ->
  exists q' m' ps', pop_q q m = inl (v, q', m') /\ rep q' m' ps' vs.
Proof.
  intros [Hc Hh Ht Hs Ho Hd H0] Hlen. unfold H32 in Hlen. destruct ps as [|p ps]; [done|]. destruct Hc as [Hp Hc].
  change (q_head q = p) in Hh. unfold pop_q, empty_q. cbn [length] in Hs. rewrite (proj2 (Z.eqb_neq (q_size q) 0)) by lia. cbn [Z.eqb]. rewrite Hh, Hp.
  destruct (afree_ok m.1 _ p Ho) as (s' & -> & Ho'); [apply elem_of_list_to_set; by left|]. rewrite s32_small by lia.
  apply NoDup_cons in Hd as [Hpn Hd]. pose proof (chain_len _ _ _ Hc) as El.
  assert (owns s' (list_to_set ps)) as Ho2.
  { cbn in Ho'. rewrite difference_union_distr_l_L, difference_diag_L, union_empty_l_L, difference_disjoint_L in Ho'; [done|].
    apply disjoint_singleton_r. by rewrite elem_of_list_to_set. }
  do 2 eexists. exists ps. split; [done|]. split; cbn [fst snd]; try done.
  - eapply chain_frame; [|exact Hc]. intros x Hx. rewrite lookup_delete_ne; [done|]. by intros ->.
  - destruct ps; cbn in El; destruct (Z.eqb_spec (q_size q - 1) 0); try done; lia.
  - destruct ps as [|x ps]; cbn in El; destruct (Z.eqb_spec (q_size q - 1) 0); try lia; [done|]. exact Ht.
  - destruct (_ =? 0); cbn; lia.
  - intros ?. apply H0. by right.
Qed.

Lemma run_q_ok os : forall q m ps vs, rep q m ps vs -> Z.of_nat (length os + length vs) < H32 ->
  run_q os q m = inr NullDeref \/
  exists q' m' ps', run_q os q m = inl ((fifo os vs).1, q', m') /\ rep q' m' ps' (fifo os vs).2.
Proof.
  induction os as [|[v|] os IH]; intros q m ps vs Hr Hlen; cbn [run_q fifo length] in *.
  - right. by exists q, m, ps.
  - destruct (add_q_ok q m ps vs v Hr) as [->|(q' & m' & ps' & -> & Hr')]; [lia|by left|]. apply (IH _ _ _ _ Hr'). rewrite length_app. cbn. lia.
  - destruct vs as [|v vs].
    + assert (pop_q q m = inl (-1, q, m)) as -> by (unfold pop_q, empty_q; by rewrite (rp_size _ _ _ _ Hr)).
      destruct (IH q m ps [] Hr) as [->|(q' & m' & ps' & -> & Hr')]; [lia|by left|right]. destruct (fifo os []) as [rs vs']. by exists q', m', ps'.
    + cbn [length] in Hlen. destruct (pop_q_ok q m ps v vs Hr) as (q1 & m1 & ps1 & -> & Hr1); [lia|].
      destruct (IH q1 m1 ps1 vs Hr1) as [->|(q' & m' & ps' & -> & Hr')]; [lia|by left|right]. destruct (fifo os vs) as [rs vs']. by exists q', m', ps'.
Qed.
End Rep.

(** C29. The queue is first in, first out: every sequence of additions and removals
    gives the results of a list, including -1 on an empty queue, and never uses a
    node after it was freed. The one failure is that add_q does not look whether
    malloc returned 0. *)
Theorem queue_refines {S : Type} {al : Allocator S} {alok : AllocatorOk S al} os s :
  owns s ∅ -> Z.of_nat (length os) < H32 ->
  run_q os init_q (s, ∅) = inr NullDeref \/
  exists q m ps, run_q os init_q (s, ∅) = inl ((fifo os []).1, q, m) /\ rep q m ps (fifo os []).2.
Proof.
  intros Ho Hlen. apply (run_q_ok os init_q (s, ∅) [] []); [|cbn; lia]. split; [done..|exact Ho|constructor|by intros ?%not_elem_of_nil].
Qed.

(** ** umalloc.c is such an allocator *)

Section Umalloc.
Context {k : Sbrk} {kok : SbrkOk k} (base : Z).
#[export] Instance umalloc_allocator : Allocator heap := {| amalloc := malloc base; afree := free |}.

Lemma usable_ptrs h live : usable base h live -> NoDup (map (fun x => x.1 + 1) live).
Proof.
  intros [[fr Hi]|(_ & -> & _)]; [|constructor]. pose proof (iv_disj _ _ _ _ Hi) as Hd. pose proof (iv_pos _ _ _ _ Hi) as Hp.
  apply Forall_app in Hp as [_ Hp]. clear Hi. induction Hd as [|x live Hx Hd IH]; [constructor|]. apply Forall_cons in Hp as [Hx0 Hp].
  cbn. constructor; [|auto]. intros (y & Ey & Hy)%list_elem_of_fmap. rewrite Forall_forall in Hx, Hp. specialize (Hx y Hy). specialize (Hp y Hy).
  unfold apart in Hx. lia.
Qed.

Definition umalloc_owns (h : heap) (ps : gset Z) : Prop :=
  exists live, usable base h live /\ ps = list_to_set (map (fun x => x.1 + 1) live).
Lemma umalloc_malloc h ps n : umalloc_owns h ps -> 0 <= n < 65536 -> exists r h', malloc base n h = Some (r, h') /\
  (r = 0 /\ umalloc_owns h' ps \/ r <> 0 /\ (r ∉ ps) /\ umalloc_owns h' ({[r]} ∪ ps)).
Proof.
  intros (live & Hu & ->) Hn. destruct (malloc_ok base h live n Hu) as (r & h' & E & Hu'); [unfold H32; lia|].
    exists r, h'. split; [exact E|]. destruct (Z.eqb_spec r 0) as [->|Hr]; [left; split; [done|by exists live]|right]. split; [done|].
    apply usable_ptrs in Hu' as Hd. cbn in Hd. replace (r - 1 + 1) with r in Hd by lia. apply NoDup_cons in Hd as [Hd _].
    split; [by rewrite elem_of_list_to_set|]. eexists. split; [exact Hu'|]. cbn. by replace (r - 1 + 1) with r by lia.
Qed.
Lemma umalloc_free h ps p : umalloc_owns h ps -> p ∈ ps -> exists h', free p h = Some h' /\ umalloc_owns h' (ps ∖ {[p]}).
Proof.
  intros (live & Hu & ->) Hp. rewrite elem_of_list_to_set in Hp. apply list_elem_of_fmap in Hp as ([b s] & -> & Hx). cbn [fst].
    apply list_elem_of_split in Hx as (l1 & l2 & ->). apply usable_ptrs in Hu as Hd.
    destruct Hu as [[fr Hi]|(_ & E & _)]; [|by destruct l1]. apply inv_middle in Hi. destruct (free_ok _ _ _ _ _ _ Hi) as (h' & fr' & E & Hi' & _).
    exists h'. split; [exact E|]. exists (l1 ++ l2). split; [left; by exists fr'|].
    rewrite map_app in *. cbn in Hd. apply NoDup_app in Hd as (_ & Hd1 & [Hd2 _]%NoDup_cons).
    apply set_eq. intros y. rewrite elem_of_difference, elem_of_singleton, !elem_of_list_to_set, map_app, !elem_of_app. cbn. rewrite elem_of_cons.
    split; [intros [[?|[?|?]] ?]; tauto|]. intros [Hy|Hy]; (split; [tauto|]); intros ->; [by apply (Hd1 _ Hy); left|done].
Qed.
#[export] Instance umalloc_ok : AllocatorOk heap umalloc_allocator :=
  {| owns := umalloc_owns; amalloc_ok := umalloc_malloc; afree_ok := umalloc_free |}.
End Umalloc.

Lemma queue_refines_witness :
  let s := Heap ∅ ∅ 0 512 in let os := [Pop; Add 5; Add 6; Pop; Add 7; Pop; Pop; Pop] in
  run_q (al := umalloc_allocator 100) os init_q (s, ∅) = inr NullDeref \/
  exists q m ps, run_q (al := umalloc_allocator 100) os init_q (s, ∅) = inl ([-1; 5; 6; 7; -1], q, m) /\ rep (alok := umalloc_ok 100) q m ps [].
Proof.
  apply (queue_refines (alok := umalloc_ok 100) [Pop; Add 5; Add 6; Pop; Add 7; Pop; Pop; Pop]).
  - exists []. split; [right; unfold TOP; cbn; split_and!; (done || lia)|reflexivity].
  - reflexivity.
Defined.
