(* ===== verification/Threads.v ===== *)
(** * The thread library (thread.c, semaphore.c)

    The spin lock and the semaphore as step relations over the threads that use
    them, the random numbers, and thread creation and switching on top of the
    queue of queue.c. *)
From S2P Require Import Prelude Umalloc Queue.
#[local] Open Scope Z_scope.

(** ** The lock: [lock_init], [lock_acquire], [lock_release]

    A thread is outside, in the loop of [lock_acquire], or between it and
    [lock_release]; [xchg] is one step. *)
Module Lock.
Inductive pc := Outside | Acquiring | Inside.
Record st := St { locked : Z; pcs : gmap nat pc }.
Definition lock_init (ps : gmap nat pc) : st := St 0 ps.
Inductive step : st -> st -> Prop :=
  | Call i l ps : ps !! i = Some Outside -> step (St l ps) (St l (<[i := Acquiring]> ps))
  (** [while(xchg(&lock->locked, 1) != 0);] *)
  | Xchg i l ps : ps !! i = Some Acquiring ->
      step (St l ps) (St 1 (<[i := if l =? 0 then Inside else Acquiring]> ps))
  (** [xchg(&lock->locked, 0)] *)
  | Release i l ps : ps !! i = Some Inside -> step (St l ps) (St 0 (<[i := Outside]> ps)).

Record inv (s : st) : Prop := {
  inv_one i j : pcs s !! i = Some Inside -> pcs s !! j = Some Inside -> i = j;
  inv_held i : pcs s !! i = Some Inside -> locked s <> 0;
}.
Lemma step_inv s s' : inv s -> step s s' -> inv s'.
Proof.
  intros [H1 H2] Hs. destruct Hs as [i l ps Hi|i l ps Hi|i l ps Hi]; cbn in *; split; cbn; intros j; repeat setoid_rewrite lookup_insert_Some.
  - intros j' [[-> [=]]|[_ Hj]] [[-> [=]]|[_ Hj']]. eauto.
  - intros [[-> [=]]|[_ Hj]]. eauto.
  - destruct (Z.eqb_spec l 0) as [->|Hl].
    + assert (forall j, ps !! j <> Some Inside) as Hno by (intros j' Hj'; by apply (H2 _ Hj')).
      intros j' [[-> _]|[_ Hj]] [[-> _]|[_ Hj']]; try done; exfalso; by eapply Hno.
    + intros j' [[-> [=]]|[_ Hj]] [[-> [=]]|[_ Hj']]. eauto.
  - intros _. done.
  - intros j' [[-> [=]]|[Hn Hj]] [[-> [=]]|[_ Hj']]. eauto.
  - intros [[-> [=]]|[Hn Hj]]. exfalso. apply Hn. eauto.
Qed.

(** Threads that start outside a lock that was initialised exclude each other, in
    every interleaving. *)
Lemma lock_excludes ps s i j :
  (forall k p, ps !! k = Some p -> p = Outside) -> rtc step (lock_init ps) s ->
  pcs s !! i = Some Inside -> pcs s !! j = Some Inside -> i = j.
Proof.
  intros H0 Hr. assert (inv (lock_init ps)) as Hi.
  { split; cbn; intros k; [intros k' Hk|intros Hk]; by apply H0 in Hk. }
  enough (inv s) as Hs by (intros; by apply (inv_one _ Hs)).
  induction Hr as [|? ? ? Hst _ IH]; [done|]. apply IH. by eapply step_inv.
Qed.
End Lock.

(** ** The semaphore: [sema_init], [sema_acquire], [sema_signal]

    Nothing is locked, so each read and each write of [count] is a step of its own;
    [s->count--] and [s->count++] are a read and a write. The queue of waiting
    threads is not read by the decisions of the code and is left out. *)
Module Sema.
Inductive pc :=
  | Start | Waiting | Taking | Storing (v : Z) | Passed  (* in [sema_acquire] *)
  | Signalling | Adding (v : Z) | Signalled.             (* in [sema_signal] *)
Record st := St { count : Z; pcs : gmap nat pc }.
Definition sema_init (ps : gmap nat pc) : st := St 0 ps.
Inductive step : st -> st -> Prop :=
  (** [if(s->count <= 0)] *)
  | Test i c ps : ps !! i = Some Start -> step (St c ps) (St c (<[i := if c <=? 0 then Waiting else Taking]> ps))
  (** [while((s->count == 0)) wait();] *)
  | Loop i c ps : ps !! i = Some Waiting -> step (St c ps) (St c (<[i := if c =? 0 then Waiting else Passed]> ps))
  (** [s->count--] *)
  | Load i c ps : ps !! i = Some Taking -> step (St c ps) (St c (<[i := Storing c]> ps))
  | Store i v c ps : ps !! i = Some (Storing v) -> step (St c ps) (St (s32 (v - 1)) (<[i := Passed]> ps))
  (** [s->count++] *)
  | SigLoad i c ps : ps !! i = Some Signalling -> step (St c ps) (St c (<[i := Adding c]> ps))
  | SigStore i v c ps : ps !! i = Some (Adding v) -> step (St c ps) (St (s32 (v + 1)) (<[i := Signalled]> ps)).

End Sema.

(** ** Random numbers *)

(** [rands] is an unsigned 32-bit number, so [max] is one too in the remainder. *)
Definition random (max rands : Z) : Z * Z :=
  let rands := u32 (u32 (rands * 1664525) + 1013904233) in
  (s32 (rands mod u32 max), rands).
Lemma random_range max rands : 0 < max < H32 -> 0 <= (random max rands).1 < max.
Proof.
  intros Hm. unfold random, H32 in *. cbn. rewrite (u32_small max) by lia.
  pose proof (Z.mod_pos_bound (u32 (u32 (rands * 1664525) + 1013904233)) max ltac:(lia)). rewrite s32_small; lia.
Qed.

(** ** Threads *)

(** System calls of the library; [clone] gives the number of the thread. *)
Inductive call := Twakeup (tid : Z) | Tsleep.
(** The globals: [thQ2] is a pointer that nothing sets. *)
Record threads := Threads { thQ2 : option queue; inQ : Z; popp : Z }.
Definition boot : threads := Threads None 0 0.

Section Create.
Context {S : Type} {al : Allocator S} (clone : Z -> Z).
Abbreviation mem := (S * gmap Z node)%type.

(** 4096 bytes in units of 8 *)
Definition PAGE : Z := 512.
(** [if((uint)stack % 4096) stack = stack + (4096 - (uint)stack % 4096);] *)
Definition page_up (stack : Z) : Z := if stack mod PAGE =? 0 then stack else stack + (PAGE - stack mod PAGE).
(** [thread_create]: the pointer it returns. [clone] stands for the system call, as a
    function of the stack. *)
Definition thread_create (t : threads) (m : mem) : res (Z * threads * mem) :=
  match amalloc (2 * 4096) m.1 with
  | None => inr BadPointer
  | Some (garbage, s) =>
      let create q t :=
        let stack := page_up garbage in
        if stack =? 0 then inl (0, t, (s, m.2))
        else
          let tid := clone stack in
          if tid <=? 0 then inl (0, t, (s, m.2))
          else match add_q q tid (s, m.2) with
               | inl (q, m) => inl (garbage, Threads (Some q) (inQ t) (popp t), m)
               | inr f => inr f
               end in
      match thQ2 t with
      | None => inr NullDeref
      | Some q => if inQ t =? 0 then create init_q (Threads (Some init_q) 1 (popp t)) else create q t
      end
  end.

(** [while((tid2 == tidNext) || (tidNext == 0)) tidNext = pop_q(thQ2);] *)
Fixpoint skip_self (fuel : nat) (tid2 next : Z) (q : queue) (m : mem) : option (res (Z * queue * mem)) :=
  if (tid2 =? next) || (next =? 0) then
    match fuel with
    | O => None
    | Datatypes.S n => match pop_q q m with inl (v, q, m) => skip_self n tid2 v q m | inr f => Some (inr f) end
    end
  else Some (inl (next, q, m)).
(** [thread_yield2] of thread [tid2] *)
Definition thread_yield2 (fuel : nat) (tid2 : Z) (t : threads) (m : mem) : option (res (list call * threads * mem)) :=
  match thQ2 t with
  | None => Some (inr NullDeref)
  | Some q =>
      match add_q q tid2 m with
      | inr f => Some (inr f)
      | inl (q, m) =>
          match pop_q q m with
          | inr f => Some (inr f)
          | inl (next, q, m) =>
              match (if popp t =? 0 then pop_q q m else inl (next, q, m)) with
              | inr f => Some (inr f)
              | inl (next, q, m) =>
                  match skip_self fuel tid2 next q m with
                  | None => None
                  | Some (inr f) => Some (inr f)
                  | Some (inl (next, q, m)) =>
                      Some (inl ([Twakeup next; Tsleep], Threads (Some q) (inQ t) (if popp t =? 0 then popp t + 1 else popp t), m))
                  end
              end
          end
      end
  end.
Definition thread_yield_last (t : threads) (m : mem) : res (list call * threads * mem) :=
  match thQ2 t with
  | None => inr NullDeref
  | Some q => match pop_q q m with
              | inl (v, q, m) => inl ([Twakeup v], Threads (Some q) (inQ t) (popp t), m)
              | inr f => inr f
              end
  end.
End Create.

(** The stack of a thread is a page, and lies in the two pages allocated for it. *)
Lemma page_up_inside g : 0 <= g -> page_up g mod PAGE = 0 /\ g <= page_up g /\ page_up g + PAGE <= g + 2 * PAGE.
Proof.
  intros Hg. unfold page_up, PAGE. destruct (Z.eqb_spec (g mod 512) 0) as [E|E]; [lia|].
  split; [|Z.to_euclidean_division_equations; lia]. replace (g + (512 - g mod 512)) with ((g / 512 + 1) * 512) by (Z.to_euclidean_division_equations; lia).
  apply Z.mod_mul. lia.
Qed.

(** The first thread a program creates makes it write through the null pointer
    [thQ2], whatever the allocator does. *)
Lemma first_thread_faults {S : Type} {al : Allocator S} {alok : AllocatorOk S al} clone s ps ns :
  owns s ps -> thread_create clone boot (s, ns) = inr NullDeref.
Proof.
  intros Ho. unfold thread_create, boot. cbn. destruct (amalloc_ok s ps (2 * 4096) Ho ltac:(lia)) as (r & s' & -> & _). done.
Qed.

(** With a queue, a thread that yields wakes the thread that waited longest and
    queues up behind the others. *)
Lemma yield_round_robin {S : Type} {al : Allocator S} {alok : AllocatorOk S al} fuel tid2 q n m ps v vs :
  rep q m ps (v :: vs) -> Z.of_nat (length vs) + 2 < H32 -> v <> tid2 -> v <> 0 ->
  thread_yield2 fuel tid2 (Threads (Some q) n 1) m = Some (inr NullDeref) \/
  exists q' m' ps', thread_yield2 fuel tid2 (Threads (Some q) n 1) m =
    Some (inl ([Twakeup v; Tsleep], Threads (Some q') n 1, m')) /\ rep q' m' ps' (vs ++ [tid2]).
Proof.
  intros Hr Hlen Hv H0. unfold thread_yield2. cbn [thQ2 inQ popp].
  destruct (add_q_ok q m ps (v :: vs) tid2 Hr) as [->|(q1 & m1 & ps1 & -> & Hr1)]; [cbn; lia|by left|right].
  destruct (pop_q_ok q1 m1 ps1 v (vs ++ [tid2]) Hr1) as (q2 & m2 & ps2 & -> & Hr2); [rewrite length_app; cbn; lia|].
  cbn [Z.eqb]. unfold skip_self. destruct fuel; rewrite (proj2 (Z.eqb_neq tid2 v)), (proj2 (Z.eqb_neq v 0)) by congruence; cbn [orb]; by exists q2, m2, ps2.
Qed.
