(* ===== verification/Frisbee.v ===== *)
(** * Frisbee: threads that pass a frisbee (frisbee.c)

    The threads of [pass_next] as a step relation: the registration in the table, the
    barrier, and the passes. Every read and every write of a shared variable is a step
    of its own, and a thread is named by its tid. The messages are left out but for
    the one of a catch, which is recorded. *)
From S2P Require Import Prelude.

(** ** The code *)

Module Frisbee.
(** Where a thread is: [R] at the registration, [B] at the first barrier loop, [W] in
    the second, [T] in the throwing loop, [L] leaving. *)
Inductive pc :=
  | R0                 (* lock_acquire(&ttable.lock) *)
  | R1                 (* the search for a free slot *)
  | R2 | R3 (v : Z)    (* ttable.total++ *)
  | R4                 (* lock_release(&ttable.lock) *)
  | B0                 (* lock_acquire(&ttable.lock) *)
  | B1                 (* if(ttable.total == numthreads) *)
  | B2                 (* lock_release(&ttable.lock), and again *)
  | B3 | B4 (v : Z)    (* barrier++ *)
  | B5                 (* start: lock_release(&ttable.lock) *)
  | W                  (* while(barrier != numthreads) *)
  | T0                 (* lock_acquire(&frisbee.lock) *)
  | T1                 (* if(frisbee.pass > numpass) *)
  | T2                 (* if(frisbee.holding_thread == tid) *)
  | TB                 (* lock_release(&frisbee.lock); sleep(5); continue *)
  | T3                 (* printf("pass: %d, thread %d catch ...") *)
  | T4 | T5 (v : Z)    (* frisbee.pass++ *)
  | T6                 (* frisbee.holding_thread = tid *)
  | T7                 (* lock_release(&frisbee.lock) *)
  | L0                 (* lock_release(&frisbee.lock); goto leaving *)
  | L1                 (* leaving: lock_release(&frisbee.lock) *)
  | Out.               (* texit *)

Record st := St {
  tlock : Z; slots : list Z; total : Z; barrier : Z;
  flock : Z; pass : Z; holding : Z;
  catches : list (Z * Z);   (* the catches that were printed, the last one first *)
  pcs : gmap Z pc
}.
#[export] Instance eta_fst : Eta st :=
  {| eta s := St (tlock s) (slots s) (total s) (barrier s) (flock s) (pass s) (holding s) (catches s) (pcs s) |}.
#[export] Instance upd_tlock : Upd tlock := ltac:(field_update tlock).
#[export] Instance upd_slots : Upd slots := ltac:(field_update slots).
#[export] Instance upd_total : Upd total := ltac:(field_update total).
#[export] Instance upd_barrier : Upd barrier := ltac:(field_update barrier).
#[export] Instance upd_flock : Upd flock := ltac:(field_update flock).
#[export] Instance upd_pass : Upd pass := ltac:(field_update pass).
#[export] Instance upd_holding : Upd holding := ltac:(field_update holding).
#[export] Instance upd_catches : Upd catches := ltac:(field_update catches).
#[export] Instance upd_pcs : Upd pcs := ltac:(field_update pcs).

(** The state when [main] has created the threads [ts]. *)
Definition main (ts : list Z) : st :=
  St 0 (replicate 64 0) 0 0 0 0 0 [] (list_to_map (map (fun t => (t, R0)) ts)).

(** The first free slot of the table gets the tid. *)
Fixpoint take_slot (tid : Z) (l : list Z) : list Z :=
  match l with
  | [] => []
  | x :: l => if x =? 0 then tid :: l else x :: take_slot tid l
  end.
(** [lookup]: the slots in use. *)
Definition lookup_threads (l : list Z) : Z := Z.of_nat (length (filter (fun x => x <> 0) l)).

Section Code.
Context (numthreads numpass : Z).

(** What thread [t] at [p] does to the shared variables, and where it goes. *)
Definition exec (t : Z) (p : pc) (s : st) : st * pc :=
  match p with
  | R0 => (s <| tlock := 1 |>, if tlock s =? 0 then R1 else R0)
  | R1 => (s <| slots ::= take_slot t |>, R2)
  | R2 => (s, R3 (total s))
  | R3 v => (s <| total := s32 (v + 1) |>, R4)
  | R4 => (s <| tlock := 0 |>, B0)
  | B0 => (s <| tlock := 1 |>, if tlock s =? 0 then B1 else B0)
  | B1 => (s, if total s =? numthreads then B3 else B2)
  | B2 => (s <| tlock := 0 |>, B0)
  | B3 => (s, B4 (barrier s))
  | B4 v => (s <| barrier := s32 (v + 1) |>, B5)
  | B5 => (s <| tlock := 0 |>, W)
  | W => (s, if barrier s =? numthreads then T0 else W)
  | T0 => (s <| flock := 1 |>, if flock s =? 0 then T1 else T0)
  | T1 => (s, if numpass <? pass s then L0 else T2)
  | T2 => (s, if holding s =? t then TB else T3)
  | TB => (s <| flock := 0 |>, T0)
  | T3 => (s <| catches ::= cons (pass s, t) |>, T4)
  | T4 => (s, T5 (pass s))
  | T5 v => (s <| pass := s32 (v + 1) |>, T6)
  | T6 => (s <| holding := t |>, T7)
  | T7 => (s <| flock := 0 |>, T0)
  | L0 => (s <| flock := 0 |>, L1)
  | L1 => (s <| flock := 0 |>, Out)
  | Out => (s, Out)
  end.
Inductive step : st -> st -> Prop :=
  | Step t p s : pcs s !! t = Some p -> step s ((exec t p s).1 <| pcs := <[t := (exec t p s).2]> (pcs s) |>).
End Code.
End Frisbee.
Import Frisbee.

(** Registering takes one more slot of the table, as long as there is one. *)
Lemma take_slot_lookup tid l : tid <> 0 -> lookup_threads (take_slot tid l) = lookup_threads l + b2z (bool_decide (0 ∈ l)).
Proof.
  intros Ht. unfold lookup_threads. induction l as [|x l IH]; [done|]. cbn [take_slot]. destruct (Z.eqb_spec x 0) as [->|Hx].
  - rewrite bool_decide_true by set_solver. rewrite !filter_cons, decide_True, decide_False by auto. cbn. lia.
  - rewrite !filter_cons, !decide_True by done. cbn [length]. rewrite (bool_decide_ext (0 ∈ x :: l) (0 ∈ l)) by set_solver. lia.
Qed.

(** ** The passes *)

(** The record of catches: numbered from 0 without a gap, and nobody catches twice in a
    row. *)
Fixpoint fair (l : list (Z * Z)) : Prop :=
  match l with
  | [] => True
  | (p, t) :: l => p = Z.of_nat (length l) /\ match l with [] => True | (_, t') :: _ => t <> t' end /\ fair l
  end.
Definition last_catch (l : list (Z * Z)) : Z := match l with [] => 0 | (_, t) :: _ => t end.

(** Between acquire and the first release; there and with a pass to make; leaving. *)
Definition throws (p : pc) : bool := match p with T2 | TB | T3 | T4 | T5 _ | T6 | T7 => true | _ => false end.
Definition inside (p : pc) : bool := match p with T1 => true | _ => throws p end.
Definition leaves (p : pc) : bool := match p with L0 | L1 | Out => true | _ => false end.
(** The record and the counters, as the thread that makes a pass goes along. *)
Definition settled (s : st) : Prop :=
  fair (catches s) /\ pass s = Z.of_nat (length (catches s)) /\ holding s = last_catch (catches s).
Definition local (np t : Z) (p : pc) (s : st) : Prop :=
  match p with
  | T2 => pass s <= np
  | T3 => pass s <= np /\ holding s <> t
  | T4 | T5 _ => fair (catches s) /\ pass s + 1 = Z.of_nat (length (catches s)) /\ last_catch (catches s) = t /\ pass s <= np /\
      match p with T5 v => v = pass s | _ => True end
  | T6 => fair (catches s) /\ pass s = Z.of_nat (length (catches s)) /\ last_catch (catches s) = t
  | _ => True
  end.
Definition midway (p : pc) : bool := match p with T4 | T5 _ | T6 => true | _ => false end.

Record inv (np : Z) (s : st) : Prop := {
  inv_leave t p : pcs s !! t = Some p -> leaves p = true -> np < pass s;
  inv_apart t p t' p' : pcs s !! t = Some p -> pcs s !! t' = Some p' -> leaves p = true -> throws p' = false;
  inv_one t p t' p' : (forall t p, pcs s !! t = Some p -> leaves p = false) ->
    pcs s !! t = Some p -> pcs s !! t' = Some p' -> inside p = true -> inside p' = true -> t = t';
  inv_lock t p : (forall t p, pcs s !! t = Some p -> leaves p = false) -> pcs s !! t = Some p -> inside p = true -> flock s = 1;
  inv_local t p : pcs s !! t = Some p -> local np t p s;
  inv_settled : (forall t p, pcs s !! t = Some p -> midway p = false) -> settled s;
  inv_pass : 0 <= pass s <= np + 1;
  inv_tid t p : pcs s !! t = Some p -> t <> 0;
}.

Lemma throws_inside p : throws p = true -> inside p = true.
Proof. by destruct p. Qed.
(** A thread with a pass to make has the lock for itself. *)
Lemma alone np s t p : inv np s -> pcs s !! t = Some p -> throws p = true ->
  (forall t' p', pcs s !! t' = Some p' -> leaves p' = false) /\ (forall t' p', t' <> t -> pcs s !! t' = Some p' -> inside p' = false) /\ flock s = 1.
Proof.
  intros Hi Ht Hp. assert (forall t' p', pcs s !! t' = Some p' -> leaves p' = false) as Hl.
  { intros t' p' Ht'. destruct (leaves p') eqn:E; [|done]. pose proof (inv_apart _ _ Hi t' p' t p Ht' Ht E). congruence. }
  split; [done|]. split; [|by eapply (inv_lock _ _ Hi); [done|exact Ht|apply throws_inside]].
  intros t' p' Hne Ht'. destruct (inside p') eqn:E; [|done]. destruct Hne. eapply (inv_one _ _ Hi); [done|exact Ht'|exact Ht|done|by apply throws_inside].
Qed.
Lemma inside_midway p : inside p = false -> midway p = false.
Proof. by destruct p. Qed.
Lemma inside_local np t p s : inside p = false -> local np t p s.
Proof. by destruct p. Qed.
(** The state is settled but for a thread that is midway. *)
Lemma alone_settled np s t p : inv np s -> pcs s !! t = Some p -> throws p = true -> midway p = false -> settled s.
Proof.
  intros Hi Ht Hp Hm. destruct (alone _ _ _ _ Hi Ht Hp) as (_ & Ho & _). apply (inv_settled _ _ Hi). intros t' p' Ht'.
  destruct (decide (t' = t)) as [->|Hne]; [by rewrite Ht in Ht'; injection Ht' as <-|]. by eapply inside_midway, Ho.
Qed.

(** Thread [t], which is alone, goes on from [p] to [p'], still alone. *)
Lemma inv_alone np s s' t p p' :
  inv np s -> pcs s !! t = Some p -> throws p = true -> throws p' = true -> pcs s' = <[t := p']> (pcs s) -> flock s' = flock s ->
  0 <= pass s' <= np + 1 -> local np t p' s' -> (midway p' = false -> settled s') -> inv np s'.
Proof.
  intros Hi Ht Hp Hp' Ep Ef Hpass Hloc Hset. destruct (alone _ _ _ _ Hi Ht Hp) as (Hl & Ho & Hf).
  assert (leaves p' = false) as Hl' by (by destruct p').
  split; rewrite ?Ep, ?Ef; [| | | | | |done|].
  - intros u q [[<- <-]|[_ Hu]]%lookup_insert_Some Hq; [congruence|]. rewrite (Hl u q Hu) in Hq. done.
  - intros u q u' q' [[<- <-]|[_ Hu]]%lookup_insert_Some _ Hq; [congruence|]. rewrite (Hl u q Hu) in Hq. done.
  - intros u q u' q' _ [[<- <-]|[Hn Hu]]%lookup_insert_Some [[<- <-]|[Hn' Hu']]%lookup_insert_Some Hq Hq'; try done.
    + by rewrite (Ho u' q') in Hq' by done.
    + by rewrite (Ho u q) in Hq by done.
    + by rewrite (Ho u q) in Hq by done.
  - done.
  - intros u q [[<- <-]|[Hn Hu]]%lookup_insert_Some; [done|]. apply inside_local. by eapply Ho.
  - intros Hm. apply Hset, (Hm t). by rewrite lookup_insert_eq.
  - intros u q [[<- _]|[_ Hu]]%lookup_insert_Some; by eapply (inv_tid _ _ Hi).
Qed.
(** Thread [t] gives the lock up. *)
Lemma inv_release np s t p p' :
  inv np s -> pcs s !! t = Some p -> throws p = true -> midway p = false -> inside p' = false -> leaves p' = false ->
  inv np (s <| flock := 0 |> <| pcs := <[t := p']> (pcs s) |>).
Proof.
  intros Hi Ht Hp Hm Hp' Hl'. destruct (alone _ _ _ _ Hi Ht Hp) as (Hl & Ho & Hf). pose proof (alone_settled _ _ _ _ Hi Ht Hp Hm) as Hset.
  assert (forall u q, <[t := p']> (pcs s) !! u = Some q -> inside q = false /\ leaves q = false /\ u <> 0) as Hall.
  { intros u q [[<- <-]|[Hn Hu]]%lookup_insert_Some; [split; [done|split; [done|by eapply (inv_tid _ _ Hi)]]|].
    split; [by eapply Ho|]. split; [by eapply Hl|by eapply (inv_tid _ _ Hi)]. }
  split; rsimpl.
  - intros u q (_ & E & _)%Hall Hq. congruence.
  - intros u q u' q' (_ & E & _)%Hall _ Hq. congruence.
  - intros u q u' q' _ (E & _)%Hall _ Hq. congruence.
  - intros u q _ (E & _)%Hall Hq. congruence.
  - intros u q (E & _)%Hall. by apply inside_local.
  - done.
  - apply Hi.
  - by intros u q (_ & _ & E)%Hall.
Qed.
(** A thread that has no part in the passes moves. *)
Lemma inv_neutral np s s' t p p' :
  inv np s -> pcs s !! t = Some p -> inside p = false -> leaves p = false -> inside p' = false -> leaves p' = false ->
  pcs s' = <[t := p']> (pcs s) -> flock s' = flock s \/ flock s' = 1 -> pass s' = pass s -> holding s' = holding s -> catches s' = catches s -> inv np s'.
Proof.
  intros Hi Ht Hp Hl Hp' Hl' Ep Ef E1 E2 E3.
  assert ((forall u q, <[t := p']> (pcs s) !! u = Some q -> leaves q = false) -> forall u q, pcs s !! u = Some q -> leaves q = false) as Hback.
  { intros H u q Hu. destruct (decide (u = t)) as [->|Hn]; [by rewrite Ht in Hu; injection Hu as <-|]. apply (H u). by rewrite lookup_insert_ne. }
  assert (throws p' = false) as Htp by (by destruct p').
  assert (forall u q, local np u q s -> local np u q s') as Hloc by (intros u q; destruct q; cbn; rewrite ?E1, ?E2, ?E3; tauto).
  split; rewrite ?Ep, ?E1.
  - intros u q [[<- <-]|[_ Hu]]%lookup_insert_Some Hq; [congruence|]. by eapply (inv_leave _ _ Hi).
  - intros u q u' q' [[<- <-]|[_ Hu]]%lookup_insert_Some [[<- <-]|[_ Hu']]%lookup_insert_Some Hq; try congruence. by eapply (inv_apart _ _ Hi u q u' q').
  - intros u q u' q' H [[<- <-]|[_ Hu]]%lookup_insert_Some [[<- <-]|[_ Hu']]%lookup_insert_Some Hq Hq'; try congruence. by eapply (inv_one _ _ Hi u q u' q' (Hback H)).
  - intros u q H [[<- <-]|[_ Hu]]%lookup_insert_Some Hq; try congruence. destruct Ef as [->|]; [by eapply (inv_lock _ _ Hi u q (Hback H))|done].
  - intros u q [[<- <-]|[_ Hu]]%lookup_insert_Some; [by apply inside_local|]. by apply Hloc, (inv_local _ _ Hi).
  - intros H. unfold settled. rewrite E1, E2, E3. apply (inv_settled _ _ Hi). intros u q Hu. destruct (decide (u = t)) as [->|Hn].
    + rewrite Ht in Hu. injection Hu as <-. by apply inside_midway.
    + apply (H u). by rewrite lookup_insert_ne.
  - apply Hi.
  - intros u q [[<- _]|[_ Hu]]%lookup_insert_Some; by eapply (inv_tid _ _ Hi).
Qed.

(** Thread [t] acquires the lock, and finds out whether to leave. *)
Lemma inv_acquire np s t :
  inv np s -> pcs s !! t = Some T0 -> flock s = 0 -> inv np (s <| flock := 1 |> <| pcs := <[t := T1]> (pcs s) |>).
Proof.
  intros Hi Ht Hf. assert (forall u q, pcs s !! u = Some q -> throws q = false) as Hno.
  { intros u q Hu. destruct (throws q) eqn:E; [|done]. destruct (alone _ _ _ _ Hi Hu E) as (_ & _ & ?). congruence. }
  assert ((forall u q, <[t := T1]> (pcs s) !! u = Some q -> leaves q = false) -> forall u q, pcs s !! u = Some q -> inside q = false) as Hin.
  { intros H u q Hu. destruct (inside q) eqn:E; [|done]. assert (flock s = 1); [|congruence]. eapply (inv_lock _ _ Hi); [|exact Hu|done].
    intros u' q' Hu'. destruct (decide (u' = t)) as [->|Hn]; [by rewrite Ht in Hu'; injection Hu' as <-|]. apply (H u'). by rewrite lookup_insert_ne. }
  split; rsimpl.
  - intros u q [[<- <-]|[_ Hu]]%lookup_insert_Some Hq; [done|]. by eapply (inv_leave _ _ Hi).
  - intros u q u' q' _ [[<- <-]|[_ Hu']]%lookup_insert_Some _; [done|]. by eapply Hno.
  - intros u q u' q' H [[<- <-]|[_ Hu]]%lookup_insert_Some [[<- <-]|[_ Hu']]%lookup_insert_Some Hq Hq'; try done.
    + by rewrite (Hin H u' q') in Hq'.
    + by rewrite (Hin H u q) in Hq.
    + by rewrite (Hin H u q) in Hq.
  - done.
  - intros u q [[<- <-]|[_ Hu]]%lookup_insert_Some; [done|]. pose proof (inv_local _ _ Hi u q Hu). by destruct q.
  - intros _. apply (inv_settled _ _ Hi). intros u q Hu. specialize (Hno u q Hu). by destruct q.
  - apply Hi.
  - intros u q [[<- _]|[_ Hu]]%lookup_insert_Some; by eapply (inv_tid _ _ Hi).
Qed.
Lemma inv_stay np s t : inv np s -> pcs s !! t = Some T1 -> pass s <= np -> inv np (s <| pcs := <[t := T2]> (pcs s) |>).
Proof.
  intros Hi Ht Hp. assert (forall u q, pcs s !! u = Some q -> leaves q = false) as Hl.
  { intros u q Hu. destruct (leaves q) eqn:E; [|done]. pose proof (inv_leave _ _ Hi u q Hu E). lia. }
  assert (forall u q, u <> t -> pcs s !! u = Some q -> inside q = false) as Ho.
  { intros u q Hn Hu. destruct (inside q) eqn:E; [|done]. destruct Hn. by eapply (inv_one _ _ Hi u q t T1). }
  split; rsimpl.
  - intros u q [[<- <-]|[_ Hu]]%lookup_insert_Some Hq; [done|]. by rewrite (Hl u q) in Hq.
  - intros u q u' q' [[<- <-]|[_ Hu]]%lookup_insert_Some _ Hq; [done|]. by rewrite (Hl u q) in Hq.
  - intros u q u' q' _ [[<- <-]|[Hn Hu]]%lookup_insert_Some [[<- <-]|[Hn' Hu']]%lookup_insert_Some Hq Hq'; try done.
    + by rewrite (Ho u' q') in Hq' by done.
    + by rewrite (Ho u q) in Hq by done.
    + by rewrite (Ho u q) in Hq by done.
  - intros u q _ _ _. by eapply (inv_lock _ _ Hi t T1).
  - intros u q [[<- <-]|[Hn Hu]]%lookup_insert_Some; [done|]. by apply inside_local, (Ho u).
  - intros _. apply (inv_settled _ _ Hi). intros u q Hu. destruct (decide (u = t)) as [->|Hn]; [by rewrite Ht in Hu; injection Hu as <-|]. by eapply inside_midway, Ho.
  - apply Hi.
  - intros u q [[<- _]|[_ Hu]]%lookup_insert_Some; by eapply (inv_tid _ _ Hi).
Qed.
(** Thread [t] leaves: from then on the lock protects nothing, and nothing needs it. *)
Lemma inv_leaving np s s' t p p' :
  inv np s -> pcs s !! t = Some p -> p = T1 \/ leaves p = true -> np < pass s -> leaves p' = true ->
  pcs s' = <[t := p']> (pcs s) -> pass s' = pass s -> holding s' = holding s -> catches s' = catches s -> inv np s'.
Proof.
  intros Hi Ht Hp Hpass Hp' Ep E1 E2 E3. assert (forall u q, pcs s !! u = Some q -> throws q = false) as Hno.
  { intros u q Hu. destruct (throws q) eqn:E; [|done]. destruct (alone _ _ _ _ Hi Hu E) as (Hl & Ho & _). destruct Hp as [->|Hp].
    - destruct (decide (t = u)) as [->|Hn]; [rewrite Ht in Hu; by injection Hu as <-|]. by specialize (Ho t T1 Hn Ht).
    - by rewrite (Hl t p Ht) in Hp. }
  assert (midway p = false /\ throws p' = false /\ midway p' = false) as (Hm & Ht' & Hm') by (split; [destruct Hp as [->|]; [done|by destruct p]|by destruct p']).
  split; rewrite ?Ep, ?E1.
  - done.
  - intros u q u' q' _ [[<- <-]|[_ Hu']]%lookup_insert_Some _; [done|by eapply Hno].
  - intros u q u' q' H. specialize (H t p'). rewrite lookup_insert_eq in H. rewrite H in Hp'; done.
  - intros u q H. specialize (H t p'). rewrite lookup_insert_eq in H. rewrite H in Hp'; done.
  - intros u q [[<- <-]|[_ Hu]]%lookup_insert_Some; [by destruct p'|]. specialize (Hno u q Hu). by destruct q.
  - intros _. unfold settled. rewrite E1, E2, E3. apply (inv_settled _ _ Hi). intros u q Hu. specialize (Hno u q Hu). by destruct q.
  - apply Hi.
  - intros u q [[<- _]|[_ Hu]]%lookup_insert_Some; by eapply (inv_tid _ _ Hi).
Qed.

Lemma throw_inv n np s s' : 0 <= np < 2147483647 -> inv np s -> step n np s s' -> inv np s'.
Proof.
  intros Hnp Hi Hs. destruct Hs as [t p s0 Ht]. pose proof (inv_pass _ _ Hi) as Hpass. pose proof (inv_tid _ _ Hi t p Ht) as Ht0. pose proof (inv_local _ _ Hi t p Ht) as Hloc.
  destruct p; cbn [exec fst snd].
  1-12: (eapply inv_neutral; [exact Hi|exact Ht|done|done|..|by rsimpl|left; by rsimpl|by rsimpl|by rsimpl|by rsimpl]);
    repeat match goal with |- context [if ?b then _ else _] => destruct b end; done.
  - destruct (Z.eqb_spec (flock s0) 0) as [E|E]; [by apply inv_acquire|].
    apply (inv_neutral np s0 _ t T0 T0); [exact Hi|exact Ht|done|done|done|done|by rsimpl|right; by rsimpl|by rsimpl..].
  - destruct (Z.ltb_spec np (pass s0)) as [E|E]; [|by apply inv_stay]. apply (inv_leaving np s0 _ t T1 L0); [exact Hi|exact Ht|by left|done|done|by rsimpl..].
  - pose proof (alone_settled _ _ _ _ Hi Ht eq_refl eq_refl) as Hset. apply (inv_alone np s0 _ t T2 (if holding s0 =? t then TB else T3)); [exact Hi|exact Ht|done| |by rsimpl|by rsimpl|by rsimpl| |by rsimpl].
    + by destruct (holding s0 =? t).
    + destruct (Z.eqb_spec (holding s0) t); rsimpl; cbn in *; done.
  - by apply (inv_release np s0 t TB).
  - destruct (alone_settled _ _ _ _ Hi Ht eq_refl eq_refl) as (Hs1 & Hs2 & Hs3). destruct Hloc as [Hl1 Hl2].
    apply (inv_alone np s0 _ t T3 T4); [exact Hi|exact Ht|done|done|by rsimpl|by rsimpl|by rsimpl| |done]. cbn. rsimpl. cbn [fair length last_catch]. rewrite Hs3 in Hl2.
    split; [|split; [lia|done]]. split; [done|]. split; [|done]. destruct (catches s0) as [|[p' t'] l]; [done|]. cbn in Hl2. congruence.
  - destruct Hloc as (Hl1 & Hl2 & Hl3 & Hl4 & _). apply (inv_alone np s0 _ t T4 (T5 (pass s0))); [exact Hi|exact Ht|done|done|by rsimpl|by rsimpl|by rsimpl| |done]. cbn. rsimpl. done.
  - destruct Hloc as (Hl1 & Hl2 & Hl3 & Hl4 & ->). assert (s32 (pass s0 + 1) = pass s0 + 1) as E by (apply s32_small; lia).
    apply (inv_alone np s0 _ t (T5 (pass s0)) T6); [exact Hi|exact Ht|done|done|by rsimpl|by rsimpl|rsimpl; lia| |done]. cbn. rsimpl. rewrite E. done.
  - destruct Hloc as (Hl1 & Hl2 & Hl3). apply (inv_alone np s0 _ t T6 T7); [exact Hi|exact Ht|done|done|by rsimpl|by rsimpl|by rsimpl|done|]. intros _. unfold settled. rsimpl. done.
  - by apply (inv_release np s0 t T7).
  - apply (inv_leaving np s0 _ t L0 L1); [exact Hi|exact Ht|by right|by eapply (inv_leave _ _ Hi)|done|by rsimpl..].
  - apply (inv_leaving np s0 _ t L1 Out); [exact Hi|exact Ht|by right|by eapply (inv_leave _ _ Hi)|done|by rsimpl..].
  - apply (inv_leaving np s0 _ t Out Out); [exact Hi|exact Ht|by right|by eapply (inv_leave _ _ Hi)|done|by rsimpl..].
Qed.

(** ** The barrier *)

Definition count (f : pc -> bool) (m : gmap Z pc) : Z := Z.of_nat (size (filter (fun x => f x.2 = true) m)).
Lemma count_range f m : 0 <= count f m <= Z.of_nat (size m).
Proof. unfold count. pose proof (map_size_filter (fun x : Z * pc => f x.2 = true) m). lia. Qed.
Lemma count_insert f m t p p' : m !! t = Some p -> count f (<[t := p']> m) = count f m - b2z (f p) + b2z (f p').
Proof.
  intros Ht. unfold count. assert (filter (fun x => f x.2 = true) (delete t m) !! t = None) as Hno.
  { apply map_lookup_filter_None. left. apply lookup_delete_eq. }
  assert (forall q, Z.of_nat (size (filter (fun x : Z * pc => f x.2 = true) (<[t := q]> (delete t m)))) =
    Z.of_nat (size (filter (fun x : Z * pc => f x.2 = true) (delete t m))) + b2z (f q)) as E.
  { intros q. destruct (f q) eqn:Eq.
    - rewrite map_filter_insert_True by done. rewrite map_size_insert_None by done. cbn. lia.
    - rewrite map_filter_insert_not'; [cbn; lia|cbn; congruence|]. intros y Hy. by rewrite lookup_delete_eq in Hy. }
  rewrite <- (insert_delete_id m t p Ht) at 2. rewrite E. rewrite <- (insert_delete_eq m t p'), E. lia.
Qed.

(** Between acquire and release of the lock of the table; registered; past the first
    loop; in the game. *)
Definition tinside (p : pc) : bool := match p with R1 | R2 | R3 _ | R4 | B1 | B2 | B3 | B4 _ | B5 => true | _ => false end.
Definition registered (p : pc) : bool := match p with R0 | R1 | R2 | R3 _ => false | _ => true end.
Definition passed (p : pc) : bool := match p with R0 | R1 | R2 | R3 _ | R4 | B0 | B1 | B2 | B3 | B4 _ => false | _ => true end.
Definition plays (p : pc) : bool := inside p || leaves p || match p with T0 => true | _ => false end.
Record binv (n : Z) (s : st) : Prop := {
  b_size : Z.of_nat (size (pcs s)) < 2147483647;
  b_one t p t' p' : pcs s !! t = Some p -> pcs s !! t' = Some p' -> tinside p = true -> tinside p' = true -> t = t';
  b_lock t p : pcs s !! t = Some p -> tinside p = true -> tlock s = 1;
  b_total : total s = count registered (pcs s);
  b_barrier : barrier s = count passed (pcs s);
  b_loaded t v : (pcs s !! t = Some (R3 v) -> v = total s) /\ (pcs s !! t = Some (B4 v) -> v = barrier s);
  b_plays t p : pcs s !! t = Some p -> plays p = true -> n <= barrier s;
  b_catches : catches s <> [] -> n <= barrier s;
}.
(** What a step does to the barrier. *)
Record bstep (n : Z) (s s' : st) (p p' : pc) : Prop := {
  bs_enter : tinside p' = true -> tlock s' = 1 /\ (tinside p = true \/ tlock s = 0);
  bs_other : tlock s' = tlock s \/ tlock s' = 1 \/ tinside p = true;
  bs_total : total s' = total s + b2z (registered p') - b2z (registered p);
  bs_barrier : barrier s' = barrier s + b2z (passed p') - b2z (passed p) /\ barrier s <= barrier s';
  bs_keep : (tinside p = true \/ total s' = total s) /\ (tinside p = true \/ barrier s' = barrier s);
  bs_load v : (p' = R3 v -> v = total s') /\ (p' = B4 v -> v = barrier s');
  bs_plays : plays p' = true -> plays p = true \/ n <= barrier s;
  bs_catch : catches s' = catches s \/ plays p = true;
}.
Lemma exec_bstep n np t p s :
  (tinside p = true -> tlock s = 1) -> 0 <= total s < 2147483647 -> 0 <= barrier s < 2147483647 ->
  (forall v, (p = R3 v -> v = total s) /\ (p = B4 v -> v = barrier s)) ->
  bstep n s (exec n np t p s).1 p (exec n np t p s).2.
Proof.
  intros Hl Ht Hb Hv. destruct p; cbn [exec fst snd]; try (rewrite (proj1 (Hv _) eq_refl), s32_small by lia); try (rewrite (proj2 (Hv _) eq_refl), s32_small by lia);
    repeat match goal with |- context [if ?b then _ else _] => destruct b eqn:? end; split; rsimpl; cbn [tinside registered passed plays b2z inside throws leaves orb]; try done; try lia; try (intros; by split); try tauto; auto.
  all: try (intros _; split; [done|right; lia]). all: try (intros v; split; congruence). all: intros _; right; lia.
Qed.
Lemma step_binv n np s s' : binv n s -> step n np s s' -> binv n s'.
Proof.
  intros [B1 B2 B3 B4 B5 B6 B7 B8] Hs. destruct Hs as [t p s Ht].
  destruct (exec_bstep n np t p s) as [S1 S2 S3 S4 S5 S6 S7 S8].
  { by eapply B3. } { pose proof (count_range registered (pcs s)). lia. } { pose proof (count_range passed (pcs s)). lia. }
  { intros v. destruct (B6 t v). split; intros ->; auto. }
  destruct (exec n np t p s) as [s1 p']. cbn [fst snd] in *.
  assert (forall u q, u <> t -> pcs s !! u = Some q -> tinside q = true -> tinside p = false) as Ho.
  { intros u q Hn Hu Hq. destruct (tinside p) eqn:E; [|done]. by destruct (Hn (B2 u q t p Hu Ht Hq E)). }
  destruct S4 as [S4 Hmono].
  split; rsimpl.
  - rewrite map_size_insert_Some by done. done.
  - intros u q u' q' [[<- <-]|[Hn Hu]]%lookup_insert_Some [[<- <-]|[Hn' Hu']]%lookup_insert_Some Hq Hq'; try done.
    + destruct (S1 Hq) as [_ [E|E]]; [by rewrite (Ho u' q') in E|]. by rewrite (B3 u' q') in E.
    + destruct (S1 Hq') as [_ [E|E]]; [by rewrite (Ho u q) in E|]. by rewrite (B3 u q) in E.
    + by eapply B2.
  - intros u q [[<- <-]|[Hn Hu]]%lookup_insert_Some Hq; [by apply S1|]. destruct S2 as [->|[?|E]]; [by eapply B3|done|]. by rewrite (Ho u q) in E.
  - rewrite (count_insert _ _ t p) by done. lia.
  - rewrite (count_insert _ _ t p) by done. lia.
  - intros u v. split; intros [[<- Hq]|[Hn Hu]]%lookup_insert_Some.
    + by apply S6.
    + destruct S5 as [[E| ->] _]; [by rewrite (Ho u _ (not_eq_sym Hn) Hu) in E|]. by eapply B6.
    + by apply S6.
    + destruct S5 as [_ [E| ->]]; [by rewrite (Ho u _ (not_eq_sym Hn) Hu) in E|]. by eapply B6.
  - intros u q [[<- <-]|[Hn Hu]]%lookup_insert_Some Hq; [destruct (S7 Hq) as [E|E]; [specialize (B7 t p Ht E)|]; lia|]. specialize (B7 u q Hu Hq). lia.
  - destruct S8 as [->|E]; [intros E; specialize (B8 E); lia|]. specialize (B7 t p Ht E). lia.
Qed.

(** ** The game *)

Lemma main_pcs ts t p : pcs (main ts) !! t = Some p -> t ∈ ts /\ p = R0.
Proof.
  unfold main. rsimpl. intros H%elem_of_list_to_map_2. apply list_elem_of_fmap in H as (u & [= -> ->] & Hu). done.
Qed.
Lemma main_size ts : NoDup ts -> size (pcs (main ts)) = length ts.
Proof.
  intros Hd. cbn [main pcs]. induction Hd as [|t ts Hn Hd IH]; [done|]. cbn. rewrite map_size_insert_None; [by rewrite IH|]. apply not_elem_of_list_to_map_1.
  intros H. apply Hn. rewrite list_elem_of_fmap in H. destruct H as ((u & q) & -> & H). apply list_elem_of_fmap in H as (v & [= -> _] & Hv). done.
Qed.
Lemma count_main f ts : f R0 = false -> count f (pcs (main ts)) = 0.
Proof.
  intros Hf. unfold count. assert (filter (fun x => f x.2 = true) (pcs (main ts)) = ∅) as ->; [|done].
  apply map_empty. intros t. apply map_lookup_filter_None. destruct (pcs (main ts) !! t) as [p|] eqn:E; [right|by left]. apply main_pcs in E as [_ ->]. intros x [= <-]. cbn. congruence.
Qed.
Lemma main_inv np ts : 0 ∉ ts -> 0 <= np -> inv np (main ts).
Proof.
  intros H0 Hnp. split; try (intros t p [Ht ->]%main_pcs; try done; set_solver).
  - by intros t p t' p' [_ ->]%main_pcs.
  - by intros t p t' p' _ [_ ->]%main_pcs.
  - by intros t p _ [_ ->]%main_pcs.
  - done.
  - cbn [main pass]. lia.
Qed.
Lemma main_binv n ts : NoDup ts -> Z.of_nat (length ts) < 2147483647 -> binv n (main ts).
Proof.
  intros Hd Hl. split.
  - by rewrite main_size.
  - by intros t p t' p' [_ ->]%main_pcs.
  - by intros t p [_ ->]%main_pcs.
  - by rewrite count_main.
  - by rewrite count_main.
  - intros t v. by split; intros [_ ?]%main_pcs.
  - by intros t p [_ ->]%main_pcs.
  - done.
Qed.
Lemma step_size n np s s' : step n np s s' -> size (pcs s') = size (pcs s).
Proof. intros [t p s0 Ht]. rsimpl. by rewrite map_size_insert_Some. Qed.
Lemma reach n np ts s :
  NoDup ts -> 0 ∉ ts -> Z.of_nat (length ts) < 2147483647 -> 0 <= np < 2147483647 -> rtc (step n np) (main ts) s ->
  inv np s /\ binv n s /\ size (pcs s) = length ts.
Proof.
  intros Hd H0 Hl Hnp Hs. pose proof (main_inv np ts H0 (proj1 Hnp)) as Hi. pose proof (main_binv n ts Hd Hl) as Hb. pose proof (main_size ts Hd) as Hz.
  induction Hs as [|a b c Hab _ IH]; [done|]. apply IH; [by eapply throw_inv|by eapply step_binv|]. by rewrite <- Hz, (step_size _ _ _ _ Hab).
Qed.
Lemma inv_fair np s : inv np s -> fair (catches s) /\ Z.of_nat (length (catches s)) <= np + 1.
Proof.
  intros Hi. pose proof (inv_pass _ _ Hi). destruct (decide (map_Forall (fun _ p => midway p = false) (pcs s))) as [Hm|Hm].
  - destruct (inv_settled _ _ Hi Hm) as (? & ? & ?). split; [done|lia].
  - apply map_not_Forall in Hm as (t & p & Ht & Hm); [|apply _]. pose proof (inv_local _ _ Hi t p Ht) as Hl.
    destruct p; cbn in Hm, Hl; try (by destruct Hm); destruct Hl as (? & ? & Hl); (split; [done|lia]).
Qed.
Lemma passed_all m t p : count passed m = Z.of_nat (size m) -> m !! t = Some p -> passed p = true.
Proof.
  intros Hc Ht. destruct (passed p) eqn:E; [done|]. pose proof (count_insert passed m t p Out Ht) as Ei. rewrite E in Ei. cbn in Ei.
  pose proof (count_range passed (<[t := Out]> m)) as C. rewrite map_size_insert_Some in C by done. lia.
Qed.

(** C38. In every state the game of frisbee.c reaches, under every interleaving of its
    threads: the catches are numbered 0, 1, 2, ... without a gap or a repeat, nobody
    catches the frisbee twice in a row, nobody catches before all threads are past the
    barrier, there are never more than [numpass + 1] catches, and exactly so many once
    a thread is out. *)
Theorem frisbee_fair (ts : list Z) (np : Z) (s : st)
  (Hd : NoDup ts) (H0 : 0 ∉ ts) (Hl : Z.of_nat (length ts) < 2147483647) (Hnp : 0 <= np < 2147483647)
  (Hs : rtc (step (Z.of_nat (length ts)) np) (main ts) s) :
  fair (catches s) /\
  (catches s <> [] -> forall t p, pcs s !! t = Some p -> passed p = true) /\
  Z.of_nat (length (catches s)) <= np + 1 /\
  (forall t, pcs s !! t = Some Out -> Z.of_nat (length (catches s)) = np + 1).
Proof.
  destruct (reach _ _ _ _ Hd H0 Hl Hnp Hs) as (Hi & Hb & Hz). destruct (inv_fair _ _ Hi) as [Hf Hc]. split; [done|]. split; [|split; [done|]].
  - intros Hne t p. apply passed_all. rewrite <- (b_barrier _ _ Hb), Hz. pose proof (b_catches _ _ Hb Hne). pose proof (count_range passed (pcs s)).
    rewrite (b_barrier _ _ Hb) in *. lia.
  - intros t Ht. pose proof (inv_leave _ _ Hi t Out Ht eq_refl). pose proof (inv_pass _ _ Hi). destruct (inv_settled _ _ Hi) as (_ & ? & _); [|lia].
    intros u q Hu. pose proof (inv_apart _ _ Hi t Out u q Ht Hu eq_refl). by destruct q.
Qed.

(** The run in which the threads move in the order [l]. *)
Fixpoint play (n np : Z) (l : list Z) (s : st) : st :=
  match l with
  | [] => s
  | t :: l => play n np l (match pcs s !! t with Some p => (exec n np t p s).1 <| pcs := <[t := (exec n np t p s).2]> (pcs s) |> | None => s end)
  end.
Lemma turns_steps n np l s : rtc (step n np) s (play n np l s).
Proof.
  revert s. induction l as [|t l IH]; intros s; [apply rtc_refl|]. cbn [play]. destruct (pcs s !! t) as [p|] eqn:E; [|apply IH].
  eapply rtc_l; [|apply IH]. by constructor.
Qed.
(** Two threads play two passes, and both leave. *)
Definition turns : list Z := replicate 5 3 ++ replicate 5 4 ++ replicate 6 3 ++ replicate 6 4 ++ [3] ++ replicate 8 4 ++ replicate 8 3 ++ replicate 4 4 ++ replicate 4 3.
Lemma frisbee_fair_witness :
  let s := (play 2 1 turns (main [3; 4])) in
  catches s = [(1, 3); (0, 4)] /\ pcs s !! 3 = Some Out /\ fair (catches s) /\ Z.of_nat (length (catches s)) <= 1 + 1.
Proof.
  assert (NoDup [3; 4] /\ 0 ∉ [3; 4] /\ Z.of_nat (length [3; 4]) < 2147483647) as (H1 & H2 & H3) by vm_decide.
  pose proof (frisbee_fair [3; 4] 1 (play 2 1 turns (main [3; 4])) H1 H2 H3 ltac:(lia) (turns_steps 2 1 turns (main [3; 4]))) as (F & _ & L & _).
  cbv zeta. split; [vm_compute; reflexivity|]. split; [vm_compute; reflexivity|]. split; [exact F|exact L].
Defined.

(** A thread that leaves releases the lock twice, the second time when another one may
    have it: two threads are then between acquire and release. *)
Lemma frisbee_double_release : exists s t t',
  rtc (step 3 0) (main [3; 4; 5]) s /\ t <> t' /\ pcs s !! t = Some T1 /\ pcs s !! t' = Some T1.
Proof.
  exists (play 3 0 (replicate 5 3 ++ replicate 5 4 ++ replicate 5 5 ++ replicate 5 3 ++ replicate 5 4 ++ replicate 6 5 ++ [3; 4] ++ replicate 8 3 ++ replicate 3 3 ++ [4; 3; 5]) (main [3; 4; 5])), 4, 5.
  split; [apply turns_steps|]. vm_compute. done.
Qed.
(** A catch is by one of the threads. *)
Lemma catch_tid n np ts s : rtc (step n np) (main ts) s ->
  Forall (fun c => c.2 ∈ ts) (catches s) /\ (forall t p, pcs s !! t = Some p -> t ∈ ts).
Proof.
  intros Hs. apply (rtc_ind_r (R := step n np) (fun s => Forall (fun c => c.2 ∈ ts) (catches s) /\ (forall t p, pcs s !! t = Some p -> t ∈ ts)) (main ts)); [| |exact Hs].
  - split; [constructor|]. by intros t p [? _]%main_pcs.
  - intros a b _ Hab [IH1 IH2]. destruct Hab as [t p a Ht]. split.
    + destruct p; cbn [exec fst snd]; rsimpl; try done. constructor; [by eapply IH2|done].
    + rsimpl. intros u q [[<- _]|[_ Hu]]%lookup_insert_Some; by eapply IH2.
Qed.
(** A thread that plays alone never gets out, but for a game without passes. *)
Lemma frisbee_single (t np : Z) (s : st) :
  t <> 0 -> 1 <= np < 2147483647 -> rtc (step 1 np) (main [t]) s -> pcs s !! t <> Some Out.
Proof.
  intros H0 Hnp Hs Ht. destruct (reach 1 np [t] s) as (Hi & _ & _); [apply NoDup_singleton|set_solver|done|lia|done|].
  destruct (catch_tid _ _ _ _ Hs) as [Hc _]. pose proof (inv_leave _ _ Hi t Out Ht eq_refl). destruct (inv_settled _ _ Hi) as (Hf & Hp & _).
  { intros u q Hu. pose proof (inv_apart _ _ Hi t Out u q Ht Hu eq_refl). by destruct q. }
  destruct (catches s) as [|[p u] [|[p' u'] l]]; cbn in Hp; try lia. cbn in Hf. destruct Hf as (_ & Hne & _). rewrite !Forall_cons in Hc. cbn in Hc. set_solver.
Qed.
