(* ===== verification/Args.v ===== *)
(** * Args: the checks of system call arguments

    What fetchint, fetchstr and argptr guarantee of the addresses they accept,
    and the one they accept that they should not. *)
From S2P Require Import Prelude Memory CString State Spinlock Consout Vm Sched Bio Inode Console Dir Syscall.

(** The user's byte at [a], where its page is present. *)
Definition ubyte (s : kstate) (a : Z) : option Z := ldb (mem s) <$> kaddr false s a.

Lemma vldb_run a b e s : ubyte s a = Some b -> vldb a e s = Ok b s e.
Proof.
  unfold ubyte, vldb. intros Hb. mrun. destruct (kaddr false s a) as [pa|]; [|done].
  cbn in Hb. injection Hb as <-. by mrun.
Qed.

Section Args.
Context (e : env) (s : kstate) (i : nat) (p : proc).
Context (Hi : c_proc (kcpu s) = Some i) (Hp : ptable s !! i = Some p).

(** ** Integers and pointers *)

Lemma curproc_bind {B} (k : proc -> M B) : (curproc ≫= k) e s = k p e s.
Proof. by rewrite (bind_ok _ _ _ _ _ _ _ (curproc_run i p e s Hi Hp)). Qed.

Lemma vldbytes_same a n l s' e' : vldbytes a n e s = Ok l s' e' -> s' = s /\ e' = e.
Proof.
  revert a l s' e'. induction n as [|n IH]; intros a l s' e'; cbn [vldbytes]; [intros E; by injection E|].
  unfold vldb. mrun. destruct (kaddr false s a) as [pa|]; [|done]. mrun.
  intros (l' & s1 & e1 & [-> ->]%IH & E)%bind_ok_inv. by injection E.
Qed.

(** A check that fails returns -1, whatever it prints. *)
Lemma failed_check {A} (b : bool) fmt args (r : A) s' e' :
  (when b (cprintf fmt args) ;; mret None) e s = Ok (Some r) s' e' -> False.
Proof. intros (x & s1 & e1 & _ & E)%bind_ok_inv. done. Qed.

Lemma fetchint_some addr v s' e' :
  fetchint addr e s = Ok (Some v) s' e' -> s' = s /\ e' = e /\ addr <> 0 /\ addr < p_sz p.
Proof.
  unfold fetchint. rewrite curproc_bind. case_match eqn:E; [by intros ?%failed_check|].
  intros (v' & s1 & e1 & Hv & Er)%bind_ok_inv. apply bind_ok_inv in Hv as (l & s2 & e2 & [-> ->]%vldbytes_same & El).
  injection El as _ <- <-. injection Er as _ <- <-. split_and!; [done|done|lia|lia].
Qed.

Lemma argint_some n v s' e' : argint n e s = Ok (Some v) s' e' -> s' = s /\ e' = e.
Proof. unfold argint. rewrite curproc_bind. intros Hf%fetchint_some. tauto. Qed.

Lemma argptr_run n size v :
  argint n e s = Ok (Some v) s e -> 0 < u32 v < p_sz p -> u32 (u32 v + size) <= p_sz p ->
  argptr n size e s = Ok (Some (u32 v)) s e.
Proof.
  intros Ha Hv Hs. unfold argptr. rewrite (bind_ok _ _ _ _ _ _ _ Ha), curproc_bind. cbv zeta.
  rewrite (proj2 (Z.leb_gt _ _)), (proj2 (Z.ltb_ge _ _)), (proj2 (Z.eqb_neq _ _)) by lia. done.
Qed.

Lemma argptr_some n size a s' e' :
  argptr n size e s = Ok (Some a) s' e' ->
  s' = s /\ e' = e /\ 0 <= a < 4294967296 /\ a <> 0 /\ a < p_sz p /\ u32 (a + size) <= p_sz p.
Proof.
  unfold argptr. intros (r & s1 & e1 & Ha & E)%bind_ok_inv. destruct r as [v|]; [|done].
  apply argint_some in Ha as [-> ->]. rewrite curproc_bind in E. cbv zeta in E.
  case_match eqn:Ec; [by apply failed_check in E|]. injection E as <- <- <-.
  split_and!; [done|done|mlia|mlia|lia|lia|lia].
Qed.

(** ** Strings *)

Section Strings.
Context (addr : Z) (Hmap : forall a, addr <= a < p_sz p -> is_Some (ubyte s a)).

(** [l] is the string at [a]. *)
Definition string_at (a : Z) (l : list Z) : Prop :=
  (forall k c, l !! k = Some c -> ubyte s (a + Z.of_nat k) = Some c /\ c <> 0) /\
  ubyte s (a + Z.of_nat (length l)) = Some 0.

Lemma string_cons a c l : ubyte s a = Some c -> c <> 0 -> string_at (a + 1) l -> string_at a (c :: l).
Proof.
  intros Hc Hn [Hl H0]. split.
  - intros [|k] x; cbn.
    + intros [= <-]. by rewrite Z.add_0_r.
    + intros Hx. destruct (Hl k x Hx) as [? ?]. replace (a + Z.of_nat (S k)) with (a + 1 + Z.of_nat k) by lia. done.
  - cbn. by replace (a + Z.of_nat (S (length l))) with (a + 1 + Z.of_nat (length l)) by lia.
Qed.

Lemma scan_string_run n a :
  addr <= a -> a + Z.of_nat n = p_sz p ->
  exists r, scan_string n a e s = Ok r s e /\
    match r with
    | Some l => string_at a l /\ a + Z.of_nat (length l) < p_sz p
    | None => forall x, a <= x < p_sz p -> ubyte s x <> Some 0
    end.
Proof.
  revert a. induction n as [|n IH]; intros a Ha Hn; cbn [scan_string].
  { exists None. split; [done|]. lia. }
  destruct (Hmap a ltac:(lia)) as [c Hc]. rewrite (bind_ok _ _ _ _ _ _ _ (vldb_run a c e s Hc)).
  destruct (Z.eqb_spec c 0) as [->|Hne].
  { exists (Some []). split; [done|]. split; [|cbn; lia]. split; [done|]. cbn. by rewrite Z.add_0_r. }
  destruct (IH (a + 1) ltac:(lia) ltac:(lia)) as (r & Hr & Hspec).
  rewrite (bind_ok _ _ _ _ _ _ _ Hr). exists ((c ::.) <$> r). split; [done|].
  destruct r as [l|]; cbn [fmap option_fmap option_map].
  - destruct Hspec as [Hs Hlt]. split; [by apply string_cons|cbn; lia].
  - intros x Hx. destruct (decide (x = a)) as [->|]; [congruence|apply Hspec; lia].
Qed.
End Strings.
End Args.

(** fetchstr on a nonzero address, when the pages of the process are
    present, terminates without changing anything, and its answer is exact: it
    accepts with the characters of the string when the string ends before the
    end of the process, and refuses when the address is outside the process or
    no NUL comes before its end. *)
Theorem fetchstr_correct e s i p addr :
  c_proc (kcpu s) = Some i -> ptable s !! i = Some p -> 0 < addr ->
  (forall a, addr <= a < p_sz p -> is_Some (ubyte s a)) ->
  exists r, fetchstr addr e s = Ok r s e /\
    match r with
    | Some l => string_at s addr l /\ addr + Z.of_nat (length l) < p_sz p
    | None => forall x, addr <= x < p_sz p -> ubyte s x <> Some 0
    end.
Proof.
  intros Hi Hp Ha Hmap. unfold fetchstr. rewrite (curproc_bind e s i p Hi Hp).
  rewrite (proj2 (Z.eqb_neq addr 0)), orb_false_r by lia. destruct (Z.leb_spec (p_sz p) addr).
  - exists None. split; [done|]. lia.
  - apply (scan_string_run e s p addr Hmap); lia.
Qed.

(** C33. An address argptr accepts for a block of [size] bytes, [size] an int that
    is not negative, is not NULL and the block lies inside the process; and
    accepting it changes nothing. *)
Theorem argptr_inside e s i p n size a s' e' :
  c_proc (kcpu s) = Some i -> ptable s !! i = Some p -> p_sz p <= KERNBASE -> 0 <= size < 2 ^ 31 ->
  argptr n size e s = Ok (Some a) s' e' ->
  s' = s /\ e' = e /\ 0 < a /\ a + size <= p_sz p.
Proof.
  intros Hi Hp Hsz Hs Ha. apply (argptr_some e s i p Hi Hp) in Ha as (-> & -> & ? & ? & ? & Hu).
  change (2 ^ 31) with 2147483648 in Hs. unfold KERNBASE in Hsz.
  split_and!; [done|done|lia|]. rewrite u32_small in Hu by lia. lia.
Qed.

(** argptr accepts every nonzero address [a] of the process for a block of
    negative size, since [a] + [size] is below the end of the process; and a
    read of that many bytes at the start of a file is a read of all of the file.
    So a read system call with a negative count copies the whole file to memory
    that was not checked. *)
Theorem argptr_negative_size `{DiskDriver} e s i p n size a :
  c_proc (kcpu s) = Some i -> ptable s !! i = Some p -> p_sz p <= KERNBASE ->
  argint n e s = Ok (Some a) s e -> 0 < a < p_sz p -> - a <= size < 0 ->
  argptr n size e s = Ok (Some a) s e /\
  forall f ip dst, icache s !! f = Some ip -> ip_type ip <> T_DEV -> 0 <= ip_size ip < u32 size ->
    readi f dst 0 (u32 size) e s = readi f dst 0 (ip_size ip) e s.
Proof.
  intros Hi Hp Hsz Ha Hlt Hs. unfold KERNBASE in Hsz. split.
  - rewrite <- (u32_small a) at 1 by lia. apply (argptr_run e s i p Hi Hp); [done|mlia|mlia].
  - intros f ip dst Hf Ht Hip. assert (u32 size = size + 4294967296) as Eu by mlia.
    unfold readi, geti. mrun. rewrite Hf. mrun. rewrite (proj2 (Z.eqb_neq _ _) Ht), !Z.add_0_l.
    rewrite Eu in Hip |- *. rewrite (u32_small (ip_size ip)), (u32_small (size + 4294967296)) by lia.
    rewrite Z.ltb_irrefl. replace (ip_size ip <? 0) with false by lia.
    replace (size + 4294967296 <? 0) with false by lia. replace (ip_size ip <? size + 4294967296) with true by lia. cbn [orb].
    by rewrite Z.sub_0_r, u32_small by lia.
Qed.

(** ** Witnesses *)

(** A process of two pages, the second with its stack: the arguments 7 and 0x1010. *)
Definition args_mem : gmap Z Z :=
  st32 (st32 (st32 (st32 ∅ 0x80001000 0x2007) 0x80002004 0x3007) 0x80003f04 7) 0x80003f08 0x1010.
Definition args_proc : proc := proc0 <| p_sz := 0x2000 |> <| p_tf := tf0 <| tf_esp := 0x1f00 |> |>.
Definition args_ex : kstate :=
  kzero_locks <| mem := args_mem |> <| kcpu := cpu0 <| c_proc := Some 0%nat |> <| c_cr3 := 0x1000 |> |>
    <| ptable := [args_proc] |> <| icache := [inode0 <| ip_type := 2 |> <| ip_size := 4000 |>] |>.

Lemma args_ex_argint : argint 1 [] args_ex = Ok (Some 0x1010) args_ex [].
Proof. vm_compute. reflexivity. Qed.

Lemma args_ex_cpu : c_proc (kcpu args_ex) = Some 0%nat.
Proof. vm_compute. reflexivity. Qed.
Lemma args_ex_proc : ptable args_ex !! 0%nat = Some args_proc.
Proof. vm_compute. reflexivity. Qed.
Lemma args_proc_sz : p_sz args_proc = 0x2000.
Proof. reflexivity. Qed.
Lemma args_proc_low : p_sz args_proc <= KERNBASE.
Proof. by vm_compute. Qed.

Lemma args_size : 0 <= 16 < 2 ^ 31.
Proof. by vm_compute. Qed.

Lemma argptr_inside_witness :
  argptr 1 16 [] args_ex = Ok (Some 0x1010) args_ex [] /\ 0x1010 + 16 <= 0x2000.
Proof.
  assert (argptr 1 16 [] args_ex = Ok (Some 0x1010) args_ex []) as Ha by (vm_compute; reflexivity).
  split; [exact Ha|].
  destruct (argptr_inside [] args_ex 0 args_proc 1 16 0x1010 args_ex [] args_ex_cpu args_ex_proc
    args_proc_low args_size Ha) as (_ & _ & _ & Hin). rewrite args_proc_sz in Hin. exact Hin.
Defined.

Lemma argptr_negative_size_witness :
  argptr 1 (-1) [] args_ex = Ok (Some 0x1010) args_ex [].
Proof.
  assert (0 < 0x1010 < p_sz args_proc) as Hin by (rewrite args_proc_sz; lia).
  assert (- 0x1010 <= -1 < 0) as Hs by lia.
  exact (proj1 (argptr_negative_size (H := memide_driver 1024) [] args_ex 0 args_proc 1 (-1) 0x1010
    args_ex_cpu args_ex_proc args_proc_low args_ex_argint Hin Hs)).
Defined.

(** The string at the process's last bytes. *)
Lemma args_ex_bytes :
  forallb (fun a => match ubyte args_ex a with Some _ => true | None => false end) (seqZ 0x1ff0 16) = true.
Proof. vm_compute. reflexivity. Qed.
Lemma args_ex_mapped a : 0x1ff0 <= a < p_sz args_proc -> is_Some (ubyte args_ex a).
Proof.
  rewrite args_proc_sz. intros Ha. pose proof (proj1 (forallb_forall _ _) args_ex_bytes a) as Hb.
  specialize (Hb ltac:(apply list_elem_of_In, elem_of_seqZ; lia)). cbv beta in Hb.
  destruct (ubyte args_ex a) as [c|]; [by exists c|discriminate Hb].
Qed.
Lemma fetchstr_correct_witness :
  exists r, fetchstr 0x1ff0 [] args_ex = Ok r args_ex [].
Proof.
  destruct (fetchstr_correct [] args_ex 0 args_proc 0x1ff0 args_ex_cpu args_ex_proc ltac:(lia) args_ex_mapped) as (r & Hr & _).
  exists r. exact Hr.
Defined.
