(* ===== verification/Pipes.v ===== *)
(** * Pipes: pipes are queues of bytes

    The ring of pipe.c, whose counters nread and nwrite are free-running 32-bit
    integers, refines a queue of at most PIPESIZE bytes: pipewrite appends,
    piperead takes from the front. *)
From S2P Require Import Prelude Memory State Spinlock Kalloc Consout Vm Sched Bio Buffers Log Inode Console Dir File Args.

(** ** The ring *)

(** The index in the ring of the byte [k] places after [nread]. *)
Definition slot (p : pipe) (k : nat) : nat := Z.to_nat ((pi_nread p + Z.of_nat k) mod PIPESIZE).

(** The pipe holds the bytes [q]. *)
Record holds (p : pipe) (q : list Z) : Prop := {
  ho_data : length (pi_data p) = 512%nat;
  ho_nread : 0 <= pi_nread p < 4294967296;
  ho_size : (length q <= 512)%nat;
  ho_nwrite : pi_nwrite p = u32 (pi_nread p + Z.of_nat (length q));
  ho_bytes k c : q !! k = Some c -> pi_data p !! slot p k = Some c;
}.

Lemma u32_mod512 z : u32 z mod 512 = z mod 512.
Proof. unfold u32. mlia. Qed.
Lemma slot_lt p k : (slot p k < 512)%nat.
Proof. unfold slot, PIPESIZE. pose proof (Z.mod_pos_bound (pi_nread p + Z.of_nat k) 512 ltac:(lia)). lia. Qed.
Lemma slot_inj p j k : (j < 512)%nat -> (k < 512)%nat -> slot p j = slot p k -> j = k.
Proof.
  intros Hj Hk. unfold slot, PIPESIZE. set (n := pi_nread p). intros E.
  assert ((n + Z.of_nat j) mod 512 = (n + Z.of_nat k) mod 512) as E'.
  { pose proof (Z.mod_pos_bound (n + Z.of_nat j) 512 ltac:(lia)).
    pose proof (Z.mod_pos_bound (n + Z.of_nat k) 512 ltac:(lia)). lia. }
  clear E. mlia.
Qed.

Lemma holds_full p q : holds p q -> pi_nwrite p = u32 (pi_nread p + PIPESIZE) <-> length q = 512%nat.
Proof. intros [_ Hr Hs Hw _]. rewrite Hw. unfold PIPESIZE. split; [intros E; mlia|by intros ->]. Qed.
Lemma holds_empty p q : holds p q -> pi_nread p = pi_nwrite p <-> q = [].
Proof.
  intros [_ Hr Hs Hw _]. rewrite Hw. split; [|intros ->; cbn; mlia].
  intros E. destruct q as [|c q]; [done|]. cbn [length] in *. mlia.
Qed.

Lemma holds_put p q c : holds p q -> (length q < 512)%nat -> holds (pipe_put c p) (q ++ [c]).
Proof.
  intros [Hd Hr Hs Hw Hb] Hlt. unfold pipe_put.
  assert (Z.to_nat (pi_nwrite p mod PIPESIZE) = slot p (length q)) as Es.
  { rewrite Hw. unfold slot, PIPESIZE. by rewrite u32_mod512. }
  rewrite Es. split; rsimpl; rewrite ?length_insert, ?length_app; cbn [length]; [done|done|lia| |].
  - rewrite Hw. mlia.
  - intros k x Hk. change (slot _ k) with (slot p k). apply lookup_app_Some in Hk as [Hk|[Hge Hk]].
    + pose proof (lookup_lt_Some _ _ _ Hk) as Hkl. rewrite list_lookup_insert_ne; [by apply Hb|].
      intros E%slot_inj; lia.
    + apply list_lookup_singleton_Some in Hk as [Hk ->]. replace k with (length q) by lia.
      apply list_lookup_insert_eq. rewrite Hd. apply slot_lt.
Qed.

Lemma holds_take p q c :
  holds p (c :: q) -> pipe_next p = c /\ holds (p <| pi_nread := u32 (pi_nread p + 1) |>) q.
Proof.
  intros [Hd Hr Hs Hw Hb]. cbn [length] in *. split.
  - unfold pipe_next. pose proof (Hb 0%nat c eq_refl) as H0. unfold slot in H0. rewrite Z.add_0_r in H0.
    by apply list_lookup_total_correct.
  - split; rsimpl; [done|mlia|lia|rewrite Hw; mlia|].
    intros k x Hk. rewrite <- (Hb (S k) x Hk). f_equal. unfold slot, PIPESIZE. rsimpl. f_equal. mlia.
Qed.

(** ** Writing *)

Definition with_pipe (a : Z) (p : pipe) (s : kstate) : kstate := s <| pipes := <[a := p]> (pipes s) |>.
Lemma with_pipe_twice a p p' s : with_pipe a p' (with_pipe a p s) = with_pipe a p' s.
Proof. unfold with_pipe. kext. apply insert_insert_eq. Qed.

Lemma getpipe_run a p e s : pipes s !! a = Some p -> getpipe a e s = Ok p s e.
Proof. intros Hp. unfold getpipe. mrun. by rewrite Hp. Qed.
Lemma setpipe_run a p g e s : pipes s !! a = Some p -> setpipe a g e s = Ok tt (with_pipe a (g p) s) e.
Proof.
  intros Hp. unfold setpipe. rewrite (bind_ok _ _ _ _ _ _ _ (getpipe_run a p e s Hp)). apply ok_eq.
  unfold with_pipe. kext. apply map_eq. intros k. destruct (decide (k = a)) as [->|Hne].
  - by rewrite lookup_alter_eq, lookup_insert_eq, Hp.
  - by rewrite lookup_alter_ne, lookup_insert_ne by done.
Qed.

Lemma pipewrite_room a p q e s :
  pipes s !! a = Some p -> holds p q -> (length q < 512)%nat -> pipewrite_wait a e s = Ok false s e.
Proof.
  intros Hp Hq Hlt. unfold pipewrite_wait, mloop_sleep. cbn [mloop]. rewrite bind_assoc_M.
  rewrite (bind_ok _ _ _ _ _ _ _ (getpipe_run a p e s Hp)).
  rewrite (proj2 (Z.eqb_neq _ _)); [done|]. intros E%(holds_full p q Hq). lia.
Qed.

Lemma pipewrite_loop_run a bs addr p q e s :
  pipes s !! a = Some p -> holds p q -> (length q + length bs <= 512)%nat -> 0 <= addr ->
  (forall k c, bs !! k = Some c -> ubyte s (u32 (addr + Z.of_nat k)) = Some c) -> addr < 4294967296 ->
  exists p', pipewrite_loop (length bs) a addr e s = Ok false (with_pipe a p' s) e /\
    holds p' (q ++ bs) /\ pi_readopen p' = pi_readopen p /\ pi_writeopen p' = pi_writeopen p.
Proof.
  revert addr p q s. induction bs as [|c bs IH]; intros addr p q s Hp Hq Hl Ha Hb Hlt; cbn [length pipewrite_loop].
  { exists p. rewrite app_nil_r. split_and!; try done. apply ok_eq. unfold with_pipe.
    kext. by rewrite insert_id. }
  cbn [length] in Hl.
  rewrite (bind_ok _ _ _ _ _ _ _ (pipewrite_room a p q e s Hp Hq ltac:(lia))). cbv iota.
  pose proof (Hb 0%nat c eq_refl) as H0. rewrite Z.add_0_r, u32_small in H0 by lia.
  rewrite (bind_ok _ _ _ _ _ _ _ (vldb_run addr c e s H0)), (bind_ok _ _ _ _ _ _ _ (setpipe_run a p _ e s Hp)).
  destruct (IH (u32 (addr + 1)) (pipe_put c p) (q ++ [c]) (with_pipe a (pipe_put c p) s)) as (p' & Hr & Hh & Ho & Ho').
  - unfold with_pipe. rsimpl. apply lookup_insert_eq.
  - apply holds_put; [done|lia].
  - rewrite length_app. cbn. lia.
  - mlia.
  - intros k x Hk. rewrite <- (Hb (S k) x Hk). unfold ubyte, with_pipe.
    replace (u32 (u32 (addr + 1) + Z.of_nat k)) with (u32 (addr + Z.of_nat (S k))) by mlia. done.
  - mlia.
  - exists p'. rewrite Hr, with_pipe_twice. split; [done|]. by rewrite <- app_assoc in Hh.
Qed.

(** What a critical section of the pipe's lock that ends with a wakeup does. *)
Lemma locked_wakeup a ch e s s1 name :
  cpu_ok (kcpu s) -> locks s !! L_pipe a = Some (Spinlock 0 name None) -> lock_free s L_ptable ->
  kcpu s1 = pushed (kcpu s) -> locks s1 = locks (locked_state (L_pipe a) name s) ->
  (wakeup ch ;; release (L_pipe a)) e s1 =
    Ok tt (s1 <| locks := locks s |> <| kcpu := refreshed (kcpu s) |> <| ptable ::= map (wake (Some ch)) |>) e.
Proof.
  intros Hok Hl [pn Hpt] Ec El.
  rewrite (bind_ok _ _ _ _ _ _ _ (wakeup_run ch e s1 ltac:(rewrite Ec; destruct Hok; split; cbn; [lia|done])
    ltac:(exists pn; rewrite El; unfold locked_state; rsimpl; by rewrite lookup_insert_ne))).
  rewrite (release_locked (L_pipe a) name e s); [apply ok_eq; kext|done|done| |].
  - unfold refresh. rsimpl. rewrite Ec. by apply refreshed_pushed.
  - unfold refresh. rsimpl. rewrite El. done.
Qed.

(** A pipe that nobody is using: its lock and the process table's are free. *)
Record quiet (s : kstate) (a : Z) (p : pipe) : Prop := {
  qt_pipe : pipes s !! a = Some p;
  qt_cpu : cpu_ok (kcpu s);
  qt_lock : lock_free s (L_pipe a);
  qt_ptable : lock_free s L_ptable;
}.

(** C21. pipewrite appends: when the pipe holds [q] and has room for the [n] bytes
    at the user's address, pipewrite returns [n], the pipe then holds [q] with
    these bytes after it, the processes waiting to read are woken, and nothing
    else changes (the counters may wrap around). *)
Theorem pipewrite_appends a addr bs p q e s :
  quiet s a p -> holds p q -> (length q + length bs <= 512)%nat -> 0 <= addr < 2 ^ 32 ->
  (forall k c, bs !! k = Some c -> ubyte s (u32 (addr + Z.of_nat k)) = Some c) ->
  exists p', pipewrite a addr (Z.of_nat (length bs)) e s =
      Ok (Z.of_nat (length bs)) ((refresh (with_pipe a p' s)) <| ptable ::= map (wake (Some (Ch_nread a))) |>) e /\
    holds p' (q ++ bs) /\ pi_readopen p' = pi_readopen p /\ pi_writeopen p' = pi_writeopen p.
Proof.
  intros [Hp Hok [name Hl] Hpt] Hq Hlen Ha Hb. change (2 ^ 32) with 4294967296 in Ha.
  unfold pipewrite. rewrite (acquire_bind _ name) by done. rewrite Nat2Z.id.
  destruct (pipewrite_loop_run a bs addr p q e (locked_state (L_pipe a) name s)) as (p' & Hr & Hh & Ho); try done; [lia|lia|].
  rewrite (bind_ok _ _ _ _ _ _ _ Hr). cbv iota. rewrite <- bind_assoc_M.
  rewrite (bind_ok _ _ _ _ _ _ _ (locked_wakeup a (Ch_nread a) e s
    (with_pipe a p' (locked_state (L_pipe a) name s)) name Hok Hl Hpt eq_refl eq_refl)).
  exists p'. split; [|done]. apply ok_eq. unfold refresh, with_pipe, locked_state. kext.
Qed.

(** ** Reading *)

(** The stores of the bytes [cs] to the physical addresses [pa k], [pa (k+1)], ... *)
Fixpoint stores (pa : nat -> Z) (k : nat) (cs : list Z) (m : gmap Z Z) : gmap Z Z :=
  match cs with [] => m | c :: cs' => stores pa (S k) cs' (stb m (pa k) c) end.

(** The [n] bytes at [addr] are the user's: in pages present and writable at the
    addresses [pa], which are not in its page table. *)
Definition writable (s : kstate) (addr : Z) (n : nat) (pa : nat -> Z) : Prop :=
  forall cs k, (k < n)%nat -> (length cs <= n)%nat ->
    kaddr true (s <| mem := stores pa 0 cs (mem s) |>) (u32 (addr + Z.of_nat k)) = Some (pa k).

Lemma stores_app pa j cs c m : stores pa j (cs ++ [c]) m = stb (stores pa j cs m) (pa (j + length cs)%nat) c.
Proof.
  revert j m. induction cs as [|x cs IH]; intros j m; cbn; [by rewrite Nat.add_0_r|].
  rewrite IH. by replace (S j + length cs)%nat with (j + S (length cs))%nat by lia.
Qed.

Lemma vstb_run va v pa e s : kaddr true s va = Some pa -> vstb va v e s = Ok tt (s <| mem := stb (mem s) pa v |>) e.
Proof. intros Hk. unfold vstb. mrun. rewrite Hk. by mrun. Qed.
Lemma kaddr_ext w s s' va : mem s = mem s' -> c_cr3 (kcpu s) = c_cr3 (kcpu s') -> kaddr w s va = kaddr w s' va.
Proof. unfold kaddr. by intros -> ->. Qed.

(** The loop after it stored the bytes [cs]. *)
Lemma piperead_loop_run a addr n pa e s0 k cs q p s :
  writable s0 addr n pa -> (length cs + k = n)%nat ->
  mem s = stores pa 0 cs (mem s0) -> c_cr3 (kcpu s) = c_cr3 (kcpu s0) ->
  pipes s !! a = Some p -> holds p q ->
  let m := min k (length q) in
  exists p', piperead_loop k a (u32 (addr + Z.of_nat (length cs))) e s =
      Ok (Z.of_nat m) ((with_pipe a p' s) <| mem := stores pa 0 (cs ++ take m q) (mem s0) |>) e /\
    holds p' (drop m q) /\ pi_readopen p' = pi_readopen p /\ pi_writeopen p' = pi_writeopen p.
Proof.
  intros Hw. revert cs q p s. induction k as [|k IH]; intros cs q p s Hn Hm Hc Hp Hq; cbn [piperead_loop].
  { exists p. split_and!; try done. apply ok_eq. unfold with_pipe. cbn. rewrite app_nil_r, <- Hm. kext. by rewrite insert_id. }
  rewrite (bind_ok _ _ _ _ _ _ _ (getpipe_run a p e s Hp)).
  destruct q as [|c q].
  { rewrite (proj2 (Z.eqb_eq _ _)) by (by apply (holds_empty p [])). exists p. split_and!; try done.
    apply ok_eq. unfold with_pipe. cbn. rewrite app_nil_r, <- Hm. kext. by rewrite insert_id. }
  rewrite (proj2 (Z.eqb_neq _ _)) by (intros E%(holds_empty p _ Hq); done).
  destruct (holds_take p q c Hq) as [Ec Hq']. rewrite Ec.
  rewrite (bind_ok _ _ _ _ _ _ _ (setpipe_run a p _ e s Hp)).
  set (p1 := p <| pi_nread := _ |>) in *. set (s1 := with_pipe a p1 s).
  assert (kaddr true s1 (u32 (addr + Z.of_nat (length cs))) = Some (pa (length cs))) as Hk.
  { rewrite <- (Hw cs (length cs) ltac:(lia) ltac:(lia)). by apply kaddr_ext. }
  rewrite (bind_ok _ _ _ _ _ _ _ (vstb_run _ c _ e s1 Hk)).
  set (s2 := s1 <| mem := _ |>).
  destruct (IH (cs ++ [c]) q p1 s2) as (p' & Hr & Hh & Ho & Ho').
  - rewrite length_app. cbn. lia.
  - rewrite stores_app. unfold s2, s1, with_pipe. rsimpl. by rewrite Hm.
  - done.
  - unfold s2, s1, with_pipe. rsimpl. apply lookup_insert_eq.
  - done.
  - replace (u32 (u32 (addr + Z.of_nat (length cs)) + 1)) with (u32 (addr + Z.of_nat (length (cs ++ [c])))).
    2: { rewrite length_app. cbn. mlia. }
    rewrite (bind_ok _ _ _ _ _ _ _ Hr). exists p'. cbn [length Nat.min take drop]. split_and!; try done.
    unfold mret, M_ret. f_equal; [lia|]. rewrite <- app_assoc. unfold s2, s1, with_pipe. kext. apply insert_insert_eq.
Qed.

(** C22. piperead takes from the front: when the pipe holds [q] (or is empty and
    closed for writing), piperead of [n] bytes returns the number [m] of bytes it
    copied, the smaller of [n] and the length of [q] (so 0 at the end of the
    stream); the user's buffer then has the first [m] bytes of [q], the pipe holds
    the rest, the processes waiting to write are woken, and nothing else changes. *)
Theorem piperead_takes a addr n pa p q e s :
  quiet s a p -> holds p q -> (q <> [] \/ pi_writeopen p = 0) -> 0 <= addr < 2 ^ 32 -> writable s addr n pa ->
  let m := min n (length q) in
  exists p', piperead a addr (Z.of_nat n) e s =
      Ok (Z.of_nat m) ((refresh (with_pipe a p' s)) <| mem := stores pa 0 (take m q) (mem s) |>
                         <| ptable ::= map (wake (Some (Ch_nwrite a))) |>) e /\
    holds p' (drop m q) /\ pi_readopen p' = pi_readopen p /\ pi_writeopen p' = pi_writeopen p.
Proof.
  intros [Hp Hok [name Hl] Hpt] Hq Hne Ha Hw m. change (2 ^ 32) with 4294967296 in Ha.
  unfold piperead. rewrite (acquire_bind _ name) by done. set (s1 := locked_state (L_pipe a) name s).
  assert (piperead_wait a e s1 = Ok false s1 e) as Hwait.
  { unfold piperead_wait, mloop_sleep. cbn [mloop]. rewrite bind_assoc_M.
    rewrite (bind_ok _ _ _ _ _ _ _ (getpipe_run a p e s1 Hp)).
    destruct Hne as [Hne| ->]; [|by rewrite andb_false_r].
    rewrite (proj2 (Z.eqb_neq _ _)); [done|]. by intros E%(holds_empty p q Hq). }
  rewrite (bind_ok _ _ _ _ _ _ _ Hwait). cbv iota. rewrite Nat2Z.id.
  destruct (piperead_loop_run a addr n pa e s n [] q p s1) as (p' & Hr & Hh & Ho); try done.
  cbn [length] in Hr. rewrite Z.add_0_r, u32_small in Hr by lia.
  rewrite (bind_ok _ _ _ _ _ _ _ Hr). set (s2 := _ <| mem := _ |>). rewrite <- bind_assoc_M.
  rewrite (bind_ok _ _ _ _ _ _ _ (locked_wakeup a (Ch_nwrite a) e s s2 name Hok Hl Hpt eq_refl eq_refl)).
  exists p'. split; [|done]. apply ok_eq. unfold s2, s1, refresh, with_pipe, locked_state. kext.
Qed.

(** ** A pipe nobody reads *)

Lemma pipewrite_full a p q i cur e s :
  pipes s !! a = Some p -> holds p q -> length q = 512%nat -> pi_readopen p = 0 ->
  c_proc (kcpu s) = Some i -> ptable s !! i = Some cur -> pipewrite_wait a e s = Ok true s e.
Proof.
  intros Hp Hq Hlen Hro Hi Hc. unfold pipewrite_wait, mloop_sleep. cbn [mloop]. rewrite bind_assoc_M.
  rewrite (bind_ok _ _ _ _ _ _ _ (getpipe_run a p e s Hp)).
  rewrite (proj2 (Z.eqb_eq _ _)) by (by apply (holds_full p q Hq)). rewrite bind_assoc_M.
  rewrite (bind_ok _ _ _ _ _ _ _ (curproc_run i cur e s Hi Hc)). by rewrite Hro.
Qed.

Lemma pipewrite_loop_closed a bs addr p q i cur e s :
  pipes s !! a = Some p -> holds p q -> (length q + length bs > 512)%nat -> pi_readopen p = 0 ->
  c_proc (kcpu s) = Some i -> ptable s !! i = Some cur -> 0 <= addr < 4294967296 ->
  (forall k c, bs !! k = Some c -> ubyte s (u32 (addr + Z.of_nat k)) = Some c) ->
  exists p', pipewrite_loop (length bs) a addr e s = Ok true (with_pipe a p' s) e /\
    holds p' (q ++ take (512 - length q) bs).
Proof.
  revert addr p q s. induction bs as [|c bs IH]; intros addr p q s Hp Hq Hl Hro Hi Hc Ha Hb; cbn [length pipewrite_loop] in *.
  { pose proof (ho_size _ _ Hq). lia. }
  destruct (decide (length q = 512%nat)) as [Hf|Hf].
  { rewrite (bind_ok _ _ _ _ _ _ _ (pipewrite_full a p q i cur e s Hp Hq Hf Hro Hi Hc)). cbv iota.
    exists p. rewrite Hf, take_0, app_nil_r. split; [|done]. apply ok_eq. unfold with_pipe. kext. by rewrite insert_id. }
  pose proof (ho_size _ _ Hq) as Hs.
  rewrite (bind_ok _ _ _ _ _ _ _ (pipewrite_room a p q e s Hp Hq ltac:(lia))). cbv iota.
  pose proof (Hb 0%nat c eq_refl) as H0. rewrite Z.add_0_r, u32_small in H0 by lia.
  rewrite (bind_ok _ _ _ _ _ _ _ (vldb_run addr c e s H0)), (bind_ok _ _ _ _ _ _ _ (setpipe_run a p _ e s Hp)).
  destruct (IH (u32 (addr + 1)) (pipe_put c p) (q ++ [c]) (with_pipe a (pipe_put c p) s)) as (p' & Hr & Hh); try done.
  - unfold with_pipe. rsimpl. apply lookup_insert_eq.
  - apply holds_put; [done|lia].
  - rewrite length_app. cbn. lia.
  - mlia.
  - intros k x Hk. rewrite <- (Hb (S k) x Hk). unfold ubyte, with_pipe.
    replace (u32 (u32 (addr + 1) + Z.of_nat k)) with (u32 (addr + Z.of_nat (S k))) by mlia. done.
  - exists p'. rewrite Hr, with_pipe_twice. split; [done|]. rewrite length_app in Hh. cbn [length] in Hh.
    replace (512 - length q)%nat with (S (512 - (length q + 1)))%nat by lia. cbn [take].
    by rewrite <- app_assoc in Hh.
Qed.

(** pipewrite to a pipe closed for reading that cannot take all the bytes does
    not block: it fills the pipe and returns -1. *)
Theorem pipewrite_closed a addr bs p q i cur e s :
  quiet s a p -> holds p q -> (length q + length bs > 512)%nat -> pi_readopen p = 0 ->
  c_proc (kcpu s) = Some i -> ptable s !! i = Some cur -> 0 <= addr < 2 ^ 32 ->
  (forall k c, bs !! k = Some c -> ubyte s (u32 (addr + Z.of_nat k)) = Some c) ->
  exists p', pipewrite a addr (Z.of_nat (length bs)) e s = Ok (-1) (refresh (with_pipe a p' s)) e /\
    holds p' (q ++ take (512 - length q) bs).
Proof.
  intros [Hp Hok [name Hl] Hpt] Hq Hlen Hro Hi Hc Ha Hb. change (2 ^ 32) with 4294967296 in Ha.
  unfold pipewrite. rewrite (acquire_bind _ name) by done. rewrite Nat2Z.id.
  destruct (pipewrite_loop_closed a bs addr p q i cur e (locked_state (L_pipe a) name s)) as (p' & Hr & Hh); try done.
  rewrite (bind_ok _ _ _ _ _ _ _ Hr). cbv iota. rewrite (release_bind (L_pipe a) name _ e s) by done.
  exists p'. split; [|done]. apply ok_eq. unfold refresh, with_pipe, locked_state. kext.
Qed.

(** ** Witnesses: a pipe whose counters are about to wrap around *)

Definition pipe_a : Z := 0x80100000.
Definition pipe_p : pipe :=
  Pipe (<[511%nat := 1]> (<[0%nat := 2]> (<[1%nat := 3]> (replicate 512 0)))) 0xffffffff 2 1 1.
Definition pipe_on (p : pipe) : kstate :=
  args_ex <| pipes := {[ pipe_a := p ]} |> <| locks ::= <[L_pipe pipe_a := Spinlock 0 "pipe" None]> |>.

Lemma pipe_p_holds : holds pipe_p [1; 2; 3].
Proof.
  split; [by vm_compute|by vm_compute|vm_compute; lia|by vm_compute|].
  intros [|[|[|k]]] c; cbn; intros E; try discriminate E; injection E as <-; vm_compute; reflexivity.
Qed.
Lemma args_ex_cpu_ok : cpu_ok (kcpu args_ex).
Proof. vm_compute. by split. Qed.
Lemma args_ex_ptable : lock_free args_ex L_ptable.
Proof. exists "ptable"%string. vm_compute. reflexivity. Qed.
Lemma quiet_on s a p name :
  cpu_ok (kcpu s) -> lock_free s L_ptable ->
  quiet (s <| pipes := {[ a := p ]} |> <| locks ::= <[L_pipe a := Spinlock 0 name None]> |>) a p.
Proof.
  intros Hok [n Hn]. split; [|done| |].
  - apply lookup_singleton_eq.
  - exists name. apply lookup_insert_eq.
  - exists n. rsimpl. by rewrite lookup_insert_ne.
Qed.
Lemma pipe_on_quiet p : quiet (pipe_on p) pipe_a p.
Proof. exact (quiet_on args_ex pipe_a p "pipe" args_ex_cpu_ok args_ex_ptable). Qed.
Lemma pipe_on_bytes p k c : [7; 0; 0; 0] !! k = Some c -> ubyte (pipe_on p) (u32 (0x1f04 + Z.of_nat k)) = Some c.
Proof.
  destruct k as [|[|[|[|k]]]]; cbn; intros E; try discriminate E; injection E as <-; vm_compute; reflexivity.
Qed.

Lemma pipewrite_appends_witness :
  exists p' s', pipewrite pipe_a 0x1f04 4 [] (pipe_on pipe_p) = Ok 4 s' [] /\ holds p' [1; 2; 3; 7; 0; 0; 0].
Proof.
  destruct (pipewrite_appends pipe_a 0x1f04 [7; 0; 0; 0] pipe_p [1; 2; 3] [] (pipe_on pipe_p) (pipe_on_quiet pipe_p)
    pipe_p_holds ltac:(cbn; lia) ltac:(by vm_compute) (pipe_on_bytes pipe_p)) as (p' & Hr & Hh & _).
  exists p'. eexists. split; [exact Hr|exact Hh].
Defined.

Lemma ldb_stores pa j cs m x : (forall k, pa k <> x) -> ldb (stores pa j cs m) x = ldb m x.
Proof.
  intros Hx. revert j m. induction cs as [|c cs IH]; intros j m; [done|]. cbn. rewrite IH. by apply ldb_stb_ne.
Qed.
Lemma ld32_stores pa j cs m x : (forall k, pa k < x \/ x + 4 <= pa k) -> ld32 (stores pa j cs m) x = ld32 m x.
Proof.
  intros Hx. unfold ld32. rewrite !ldb_stores; [done|..]; intros k; specialize (Hx k); lia.
Qed.

(** The physical addresses of the user's bytes from 0x1f00. *)
Definition pa_ex (k : nat) : Z := 0x80003f00 + Z.of_nat k.
Lemma args_mem_pde : ld32 args_mem 0x80001000 = 0x2007.
Proof. vm_compute. reflexivity. Qed.
Lemma args_mem_pte : ld32 args_mem 0x80002004 = 0x3007.
Proof. vm_compute. reflexivity. Qed.

Lemma walk_ex (m : gmap Z Z) k :
  (k < 16)%nat -> ld32 m 0x80001000 = 0x2007 -> ld32 m 0x80002004 = 0x3007 ->
  upage m 0x80001000 (u32 (0x1f00 + Z.of_nat k)) = Some 0x3007.
Proof.
  intros Hk E1 E2. unfold upage. assert (PDX (u32 (0x1f00 + Z.of_nat k)) = 0 /\ PTX (u32 (0x1f00 + Z.of_nat k)) = 1) as [-> ->].
  { do 16 (destruct k as [|k]; [by vm_compute|]). lia. }
  change (0x80001000 + 4 * 0) with 0x80001000. rewrite E1. cbv zeta.
  change (p2v (PTE_ADDR 0x2007) + 4 * 1) with 0x80002004. by rewrite E2.
Qed.

Lemma kaddr_ex s k :
  (k < 16)%nat -> c_cr3 (kcpu s) = 0x1000 -> ld32 (mem s) 0x80001000 = 0x2007 -> ld32 (mem s) 0x80002004 = 0x3007 ->
  kaddr true s (u32 (0x1f00 + Z.of_nat k)) = Some (pa_ex k).
Proof.
  intros Hk Ec E1 E2. unfold kaddr. replace (KERNBASE <=? u32 (0x1f00 + Z.of_nat k)) with false.
  2: { symmetry. unfold KERNBASE. mlia. }
  rewrite Ec. change (p2v 0x1000) with 0x80001000. rewrite walk_ex by done.
  do 16 (destruct k as [|k]; [by vm_compute|]). lia.
Qed.

Lemma pipe_on_cr3 p : c_cr3 (kcpu (pipe_on p)) = 0x1000.
Proof. vm_compute. reflexivity. Qed.
Lemma pipe_on_mem p : mem (pipe_on p) = args_mem.
Proof. reflexivity. Qed.
Lemma pipe_on_writable p : writable (pipe_on p) 0x1f00 2 pa_ex.
Proof.
  intros cs k Hk _. rewrite pipe_on_mem. apply kaddr_ex; [lia|rsimpl; apply pipe_on_cr3|..]; rsimpl.
  - rewrite ld32_stores; [exact args_mem_pde|]. intros j. unfold pa_ex. lia.
  - rewrite ld32_stores; [exact args_mem_pte|]. intros j. unfold pa_ex. lia.
Qed.

Lemma piperead_takes_witness :
  exists p' s', piperead pipe_a 0x1f00 2 [] (pipe_on pipe_p) = Ok 2 s' [] /\ holds p' [3].
Proof.
  destruct (piperead_takes pipe_a 0x1f00 2 pa_ex pipe_p [1; 2; 3] [] (pipe_on pipe_p) (pipe_on_quiet pipe_p)
    pipe_p_holds ltac:(left; discriminate) ltac:(by vm_compute) (pipe_on_writable pipe_p)) as (p' & Hr & Hh & _).
  exists p'. eexists. split; [exact Hr|exact Hh].
Defined.

(** A full pipe that is closed for reading. *)
Definition pipe_full : pipe := Pipe (replicate 512 9) 100 612 0 1.
Lemma pipe_full_holds : holds pipe_full (replicate 512 9).
Proof.
  split; [by vm_compute|by vm_compute|by rewrite length_replicate|by vm_compute|].
  intros k c [-> Hk]%lookup_replicate. apply lookup_replicate. split; [done|apply slot_lt].
Qed.
Lemma pipe_on_cpu p : c_proc (kcpu (pipe_on p)) = Some 0%nat.
Proof. vm_compute. reflexivity. Qed.
Lemma pipe_on_proc p : ptable (pipe_on p) !! 0%nat = Some args_proc.
Proof. vm_compute. reflexivity. Qed.

Lemma pipewrite_closed_witness :
  exists s', pipewrite pipe_a 0x1f04 4 [] (pipe_on pipe_full) = Ok (-1) s' [].
Proof.
  destruct (pipewrite_closed pipe_a 0x1f04 [7; 0; 0; 0] pipe_full (replicate 512 9) 0 args_proc [] (pipe_on pipe_full)
    (pipe_on_quiet pipe_full) pipe_full_holds ltac:(rewrite length_replicate; cbn; lia) eq_refl
    (pipe_on_cpu pipe_full) (pipe_on_proc pipe_full) ltac:(by vm_compute) (pipe_on_bytes pipe_full)) as (p' & Hr & _).
  eexists. exact Hr.
Defined.
